(* ===== verification/_CoqProject ===== *)
-Q . S2P
Prelude.v
GoNum.v
GoStrings.v
Durations.v
FileSystem.v
Json.v
Locks.v
ConfigData.v
ConfigEdit.v
ConfigStore.v
Scan.v
Renderer.v
Parser.v
ConfigFiles.v
Persist.v
Bindings.v
Artifacts.v
NetconfManager.v
CMemory.v
Bridge.v
Alarms.v
Notifications.v
Errors.v
Nrm.v
Pm.v
Tca.v
Health.v
Worker.v
Lifecycle.v
Control.v
Metrics.v
Mediation.v
Normalize.v
AgentConfig.v
AlarmLog.v
Bus.v
XmlReply.v
NetconfServer.v
Snapshot.v
Services.v
Loops.v
AlarmChain.v
Process.v
Runner.v
Logging.v
Wiring.v
Startup.v
