(* ===== verification/Prelude.v ===== *)
(** * A verification of the EMS agent for LTE and NR nodes

    The agent (Go, under src/) sits beside a base station (srsENB, a gNB). It reads the station's
    metrics from a socket, maps them to canonical samples, aggregates them into performance reports,
    raises and clears alarms, and manages the station's configuration files: a NETCONF server (a
    separate C program) and an HTTP control API edit a candidate configuration, validate it, write it
    to the files of the station and restart its containers.

    ** Layout

    Each file models the Go files named in its own header; definitions keep the names of the Go
    functions, and state is passed explicitly.

    - Foundations: Prelude (results, record update, tactics), GoNum (machine integers, time, float64 as
      IEEE 754 binary64), GoStrings (the parts of strings, strconv, unicode and time the code uses),
      Durations (time.ParseDuration), FileSystem (a disk of inodes with rename, permissions and scripted I/O errors), Json (JSON values
      and json.Marshal).
    - Configuration (internal/ems/configuration): ConfigData (EditableConfig and its leaves, the
      conversions of edited values), ConfigEdit (applyChange and validate), ConfigStore (the store with
      running and candidate), Scan, Renderer and Parser (the text scanners, renderer.go and srsranconf),
      ConfigFiles (renderer against parser), Persist (backup, staging, atomic renames and rollback).
    - The agent's own configuration: AgentConfig (config/config.go and the threshold rules wiring.go makes
      of it), Logging (logging/logging.go).
    - NETCONF (internal/ems/netconfcm): Locks (locks.go), Bindings (the registry of YANG leaves),
      Artifacts (the published documents), NetconfManager (manager.go), CMemory and Bridge (the C heap, and
      bridge_cgo.go over it), Control (services/config_control.go, the session collector and the target
      resolver of wiring.go).
    - NETCONF servers (internal/ems/netconf): XmlReply (xml.go), NetconfServer (server.go), Snapshot
      (snapshot.go and services/netconf_snapshot.go), Process (process.go, services/netconf_server.go).
    - Faults (internal/ems/fcaps/alarms, health, tca): Alarms (dictionary, store, manager),
      Notifications (the queue the NETCONF server drains), Errors (internal/errors), Tca (threshold
      crossing alarms), Health (the tracker and services/fault_service.go), AlarmLog
      (services/alarm_log_reader.go).
    - Bus (bus/bus.go): the message bus between the services. Services: the socket reader
      (adapters/srsran), the data path from it to the bus, and what the other services do with a message.
      Loops: the Run functions of the services around those rounds, and the logger of raw metrics.
      AlarmChain: the sources of alarms, their store, the bus and the snapshot service put together.
    - Performance: Metrics (the raw reports and their decoding), Mediation (the mapper), Normalize
      (reports for the YANG parser), Nrm (distinguished names and their registry), Pm (the engine).
    - Supervision (internal/ems/worker, service): Worker (backoff and supervisor), Lifecycle (container
      restarts), Runner (service/service.go).
    - Wiring (wiring/wiring.go, wiring/control_url.go, cmd/ems-agent/main.go): which services run with what.
      Startup: the station's files, NewStore, Build and the control service put together.

    ** Parameters

    Code outside the repository is an argument of the definitions. [GoLib] (GoStrings) is what the
    Unicode tables and the decimal conversions of Go's library decide; ASCII text is computed.
    [Platform] (NetconfManager) is the YANG bridge, the resolver of a serial number and the
    supervisor; Bridge implements the first over [Libyang], the library itself and the directories it reads. [RecordCodec] (Alarms) is the JSON of alarm records with its round-trip law,
    [RequestCodec] (Control) the JSON of request bodies, [JsonText] (Metrics) the JSON text parser; compacting and
    indenting raw JSON and the texts of its errors are arguments (Snapshot, Services, XmlReply). The
    order in which Go visits a map is a list argument or a class ([RangeOrder] in Tca) where it can
    matter. Readings of the clock, random numbers, what the Docker API answers and the I/O errors of
    the disk, sockets and child processes are arguments or scripts, so every theorem holds for all of them. Each class has a concrete
    instance that the witnesses compute with.

    ** Concurrency

    Handlers are atomic steps where the code's mutexes make them so. Where the code drops a lock in the
    middle of an operation the two halves are separate steps: the tracker's set and Subscribe
    ([set_locked], [broadcast]; Health). The bus publishes under a
    read lock, so its publications are sequences of steps that interleave (Bus). The control API interleaves requests, ticks of the session
    collector, ends of restarts and alarms as a sequence of steps (Control). Calls of the bridge are
    whole steps; what two of them at a time do to the position strtok shares is evaluated in Bridge. The goroutines of the runner and of
    the data path, with the channels between them, interleave freely (Runner, Services).

    ** What the theorems show

    - Locks and sessions (C1, C24, C27): mutual exclusion with expiry as an abstract
      specification; foreign sessions are refused by the manager and answered with a
      conflict by the API, naming the holder; the end of a session discards its edits.
    - The configuration store (C5, C6): edits write the leaf they name, in any order of the change
      map, all or nothing, under an invariant of every reachable store.
    - Configuration files (C11): what the renderer writes is what the loader reads, and every other
      byte is kept.
    - The YANG bridge (C2, C13): the C code has no undefined behaviour and no leak and finds exactly the
      writable leaves of a valid document; an accepted edit puts them into the candidate.
    - Wiring and runner (C14, C30): the services the configuration asks for, with files and addresses that
      fit together; the runner ends with the first error and only after every service.
    - NETCONF servers (C9, C10, C15, C21): a session answers each request, the XML of a report reads
      back, the snapshot tells the state, the health follows the server process.
    - Persistence and commit (C16-C19, C25, C26): old or new contents whatever fails, exact success,
      rollback, success without faults, the outcome of a commit.
    - Bindings and artifacts (C20, C23, C29): paths, values and documents agree with the store.
    - Composition (C4, C7, C28, C32): the API is a client of the manager, the manager of store and locks;
      an agent started from any files keeps and shows valid configurations only; a fault raised
      anywhere reaches the snapshot file.
    - Faults (C3, C31, C33, C34, C37-C39): the alarm store refines a map of active alarms and survives a
      restart; the queue is bounded and ordered; threshold alarms dwell and agree with their engine;
      alarms follow the health of the components; every line of the alarm log is handled once.
    - The bus and the data path (C12, C22): delivery under every interleaving of publishers, subscribers
      and services.
    - Performance (C8, C35, C36): reports are mapped without loss to registered names and aggregated
      exactly.
    - Supervision (C40): a restart ends and keeps its order; Worker has the delays of the backoff.

    Theorems without a number state further contracts of the same components, for example that a loaded
    configuration is complete (AgentConfig) or that a line about a get is logged as it was printed
    (Process). Theorems with hypotheses have a witness, named after them, that applies them to concrete data. Lemmas
    beside the witnesses evaluate behaviours that contradict the code's intent (for example
    [unlock_running_discards_foreign_edits], [send_on_closed_channel], [flat_edit_ignores_lock]).

    ** Bounds

    Recursion that is not structural takes fuel: the text scanners take one more than the length of the
    text, which is enough ([find_assignment_fuel], [scalar_end_fuel], [brace_loop_fuel]); decimal output
    takes the number of bits ([format_uint_fuel]); the readiness loop of a restart needs
    31 rounds, because it waits half a second in each and gives up after fifteen ([ready_loop_adds]); a
    duration takes its length ([duration_fuel]), a session and its messages the length of the input, a
    loop of strtok one more than the length of the list ([for_each_path_spec]).
    Integers are [Z] with their wrap-around written out where the code can overflow.

    ** Not modelled

    libyang and the C programs around libnetconf2 (other code, behind the parameters above); allocations
    that fail in the bridge; log lines other than those of the server process and of the raw metrics;
    deadlines of connections and the encoding of HTTP responses. *)
From Stdlib Require Export ZArith Lia Bool Ascii String.
From stdpp Require Export base tactics list strings gmap.

(** ** Results of fallible code *)

Inductive result (E A : Type) : Type :=
| Ok (a : A)
| Err (e : E).
Arguments Ok {E A} a.
Arguments Err {E A} e.

Definition result_bind {E A B : Type} (x : result E A) (k : A -> result E B) : result E B :=
  match x with Ok a => k a | Err e => Err e end.

Definition is_ok {E A : Type} (x : result E A) : bool :=
  match x with Ok _ => true | Err _ => false end.

Declare Scope ems_scope.
Delimit Scope ems_scope with ems.
Notation "'let?' x := c 'in' k" := (result_bind c (fun x => k))
  (at level 10, x pattern, c at level 100, k at level 200) : ems_scope.
Open Scope ems_scope.

(** ** Functional record update *)

Class Updater {R T : Type} (proj : R -> T) := update_field : (T -> T) -> R -> R.
Arguments update_field {R T} proj {_} f r : simpl nomatch.

Ltac updater_term R T proj :=
  refine (_ : (T -> T) -> R -> R);
  let g := fresh "g" in
  let r := fresh "r" in
  let whole := fresh "whole" in
  let part := fresh "part" in
  intros g r;
  pose (whole := r); pose (part := proj r);
  destruct r; cbn in part;
  let w := eval cbv delta [whole] in whole in
  let p := eval cbv delta [part] in part in
  lazymatch w with
  | context C [p] => let w' := context C [g p] in clear whole part; exact w'
  end.

Ltac build_updater R T proj :=
  let u := constr:(ltac:(updater_term R T proj) : (T -> T) -> R -> R) in
  let v := eval cbv beta zeta in u in exact v.

#[export] Hint Extern 1 (@Updater ?R ?T ?proj) => build_updater R T proj : typeclass_instances.

Notation "r <| proj := v |>" := (update_field proj (fun _ => v) r)
  (at level 1, left associativity, format "r  <| proj  :=  v |>") : ems_scope.
Notation "r <| proj ::= f |>" := (update_field proj f r)
  (at level 1, left associativity, format "r  <| proj  ::=  f |>") : ems_scope.

(** ** Proof automation *)

Create HintDb ems discriminated.
Create Rewrite HintDb ems.

(** Splits the goal along the boolean and option scrutinees it mentions. *)
Ltac split_cases :=
  repeat match goal with
  | |- context [ if ?b then _ else _ ] => destruct b eqn:?
  | |- context [ match ?x with _ => _ end ] => destruct x eqn:?
  end.

(** The same on the hypotheses. *)
Ltac split_cases_in H :=
  repeat match type of H with
  | context [ if ?b then _ else _ ] => destruct b eqn:?
  | context [ match ?x with _ => _ end ] => destruct x eqn:?
  end.

(** Turns the boolean facts of the context into propositions lia can use. *)
Ltac b2p :=
  repeat match goal with
  | H : _ && _ = true |- _ => apply andb_true_iff in H; destruct H
  | H : _ || _ = false |- _ => apply orb_false_iff in H; destruct H
  | H : negb _ = true |- _ => apply negb_true_iff in H
  | H : negb _ = false |- _ => apply negb_false_iff in H
  | H : (_ =? _)%Z = true |- _ => apply Z.eqb_eq in H
  | H : (_ =? _)%Z = false |- _ => apply Z.eqb_neq in H
  | H : (_ <? _)%Z = true |- _ => apply Z.ltb_lt in H
  | H : (_ <? _)%Z = false |- _ => apply Z.ltb_ge in H
  | H : (_ <=? _)%Z = true |- _ => apply Z.leb_le in H
  | H : (_ <=? _)%Z = false |- _ => apply Z.leb_gt in H
  | H : (_ =? _)%nat = true |- _ => apply Nat.eqb_eq in H
  | H : (_ =? _)%nat = false |- _ => apply Nat.eqb_neq in H
  | H : (_ <? _)%nat = true |- _ => apply Nat.ltb_lt in H
  | H : (_ <? _)%nat = false |- _ => apply Nat.ltb_ge in H
  | H : (_ <=? _)%nat = true |- _ => apply Nat.leb_le in H
  | H : (_ <=? _)%nat = false |- _ => apply Nat.leb_gt in H
  | H : bool_decide _ = true |- _ => apply bool_decide_eq_true in H
  | H : bool_decide _ = false |- _ => apply bool_decide_eq_false in H
  | H : String.eqb _ _ = true |- _ => apply String.eqb_eq in H
  | H : String.eqb _ _ = false |- _ => apply String.eqb_neq in H
  end.

(** ** Shared lemmas *)

Lemma string_eqb_true (a b : string) : String.eqb a b = true <-> a = b.
Proof. apply String.eqb_eq. Qed.

Lemma string_eqb_false (a b : string) : String.eqb a b = false <-> a <> b.
Proof. apply String.eqb_neq. Qed.

Lemma string_eqb_refl (a : string) : String.eqb a a = true.
Proof. apply String.eqb_refl. Qed.

#[export] Hint Rewrite string_eqb_refl : ems.

#[global] Arguments String.eqb : simpl never.
#[global] Arguments Ascii.eqb : simpl never.
