(* ===== verification/GoNum.v ===== *)
(** * Machine integers, time and float64 as the agent uses them *)
From Stdlib Require Export SpecFloat.
From S2P Require Import Prelude.

(** ** Fixed-width integers *)

Definition wrap_unsigned (bits z : Z) : Z := (z mod 2 ^ bits)%Z.
Definition wrap_signed (bits z : Z) : Z :=
  ((z + 2 ^ (bits - 1)) mod 2 ^ bits - 2 ^ (bits - 1))%Z.

Definition fits_uint (bits z : Z) : Prop := (0 <= z < 2 ^ bits)%Z.
Definition fits_int (bits z : Z) : Prop := (- 2 ^ (bits - 1) <= z < 2 ^ (bits - 1))%Z.

Definition uint64_add (a b : Z) : Z := wrap_unsigned 64 (a + b).

(** ** time.Time and time.Duration

    A [time] is the number of nanoseconds since Go's zero time, so IsZero is [= 0]; a
    [duration] is an int64 number of nanoseconds and Time.Sub saturates. *)
Definition time := Z.
Definition duration := Z.

Definition second : duration := 1000000000%Z.
Definition secs (n : Z) : Z := (n * second)%Z.
Definition max_duration : duration := (2 ^ 63 - 1)%Z.
Definition min_duration : duration := (- 2 ^ 63)%Z.

Definition time_is_zero (t : time) : bool := (t =? 0)%Z.
Definition time_sub (t u : time) : duration :=
  Z.max min_duration (Z.min max_duration (t - u)).

(** ** float64: IEEE 754 binary64 *)

Definition float64 := spec_float.
Definition f_prec : Z := 53%Z.
Definition f_emax : Z := 1024%Z.

Definition f_zero : float64 := S754_zero false.
Definition f_of_Z (z : Z) : float64 := binary_normalize f_prec f_emax z 0 false.
Definition f_add (a b : float64) : float64 := SFadd f_prec f_emax a b.
Definition f_sub (a b : float64) : float64 := SFsub f_prec f_emax a b.
Definition f_mul (a b : float64) : float64 := SFmul f_prec f_emax a b.
Definition f_div (a b : float64) : float64 := SFdiv f_prec f_emax a b.
Definition f_lt (a b : float64) : bool := SFltb a b.
Definition f_le (a b : float64) : bool := SFleb a b.
Definition f_eq (a b : float64) : bool := SFeqb a b.

Definition f_is_nan (a : float64) : bool := match a with S754_nan => true | _ => false end.
Definition f_is_inf (a : float64) : bool := match a with S754_infinity _ => true | _ => false end.

(** The conversion of a float64 to int64: towards zero; what does not fit gives the least int64, as the
    amd64 instruction does. *)
Definition f_to_int64 (x : float64) : Z :=
  let z := match x with
           | S754_finite s m e => let v := (if 0 <=? e then Zpos m * 2 ^ e else Zpos m / 2 ^ (- e))%Z in
                                  Some (if s then (- v)%Z else v)
           | S754_zero _ => Some 0%Z
           | _ => None
           end in
  match z with
  | Some z => if (- 2 ^ 63 <=? z)%Z && (z <? 2 ^ 63)%Z then z else (- 2 ^ 63)%Z
  | None => (- 2 ^ 63)%Z
  end.

(** The integer a finite float64 denotes, None when it is not an integer. *)
Definition f_to_Z_exact (a : float64) : option Z :=
  match a with
  | S754_zero _ => Some 0%Z
  | S754_finite s m e =>
      let v := if (0 <=? e)%Z then Some (Zpos m * 2 ^ e)%Z
               else if (Zpos m mod 2 ^ (- e) =? 0)%Z then Some (Zpos m / 2 ^ (- e))%Z else None in
      match v with
      | Some z => Some (if s then (- z)%Z else z)
      | None => None
      end
  | _ => None
  end.

(** math.Trunc(x) != x *)
Definition f_not_integral (a : float64) : bool :=
  match a with
  | S754_nan => true
  | S754_infinity _ | S754_zero _ => false
  | S754_finite _ _ _ => match f_to_Z_exact a with Some _ => false | None => true end
  end.

#[global] Instance float64_eq_dec : EqDecision float64.
Proof. unfold float64. solve_decision. Defined.

(** ** Lemmas *)

Lemma time_sub_exact (t u : time) :
  (min_duration <= t - u <= max_duration)%Z -> time_sub t u = (t - u)%Z.
Proof. unfold time_sub. lia. Qed.

Lemma time_sub_le (t u d : Z) : (t - u <= d)%Z -> (min_duration <= d)%Z -> (time_sub t u <= d)%Z.
Proof. unfold time_sub. lia. Qed.

Lemma time_sub_mono (t u u' : time) : (u <= u')%Z -> (time_sub t u' <= time_sub t u)%Z.
Proof. unfold time_sub. lia. Qed.

Lemma wrap_unsigned_small (bits z : Z) : fits_uint bits z -> wrap_unsigned bits z = z.
Proof. intros. by apply Z.mod_small. Qed.

Lemma wrap_unsigned_fits (bits z : Z) : (0 <= bits)%Z -> fits_uint bits (wrap_unsigned bits z).
Proof. intros. apply Z.mod_pos_bound. by apply Z.pow_pos_nonneg. Qed.

Lemma wrap_signed_small (bits z : Z) : (0 < bits)%Z -> fits_int bits z -> wrap_signed bits z = z.
Proof.
  intros Hb Hz. unfold wrap_signed, fits_int in *.
  assert (2 ^ bits = 2 * 2 ^ (bits - 1))%Z.
  { rewrite <- Z.pow_succ_r by lia. f_equal. lia. }
  rewrite Z.mod_small; lia.
Qed.

(** *** Comparing canonical floats *)

(** The floats Go can hold: the canonical representation of a binary64 value. *)
Definition f_valid (x : float64) : bool := valid_binary f_prec f_emax x.

Lemma pos_digits_bound (m : positive) :
  (2 ^ (Zpos (digits2_pos m) - 1) <= Zpos m < 2 ^ Zpos (digits2_pos m))%Z.
Proof.
  induction m as [m IH|m IH|]; cbn [digits2_pos]; rewrite ?Pos2Z.inj_succ; [| |cbn; lia].
  all: assert (2 ^ Zpos (digits2_pos m) = 2 * 2 ^ (Zpos (digits2_pos m) - 1))%Z
         by (rewrite <- Z.pow_succ_r by lia; f_equal; lia).
  all: rewrite Z.pow_succ_r by lia; unfold Z.succ; rewrite Z.add_simpl_r; lia.
Qed.

Lemma f_valid_digits (s : bool) (m : positive) (e : Z) :
  f_valid (S754_finite s m e) = true ->
  (Zpos m < 2 ^ 53 /\ -1074 <= e /\ (-1074 < e -> 2 ^ 52 <= Zpos m))%Z.
Proof.
  unfold f_valid, valid_binary, bounded, canonical_mantissa, fexp, emin, f_prec, f_emax. intros Hv. b2p.
  pose proof (pos_digits_bound m) as [Hl Hu].
  pose proof (Pos2Z.is_pos (digits2_pos m)).
  assert (Zpos (digits2_pos m) <= 53)%Z by lia.
  split; [eapply Z.lt_le_trans; [exact Hu|]; apply Z.pow_le_mono_r; lia|]. split; [lia|]. intros He.
  replace (2 ^ 52)%Z with (2 ^ (Zpos (digits2_pos m) - 1))%Z; [done|]. f_equal. lia.
Qed.

(** Not above an integer float with a full mantissa: the denoted integer is not above it. *)
Lemma pos_scaled_le (m m0 : positive) (e e0 z : Z) :
  (-1074 < e0 -> Zpos m < 2 ^ 53 -> (-1074 < e -> 2 ^ 52 <= Zpos m) -> 2 ^ 52 <= Zpos m0 ->
   e < e0 \/ (e = e0 /\ Zpos m <= Zpos m0) -> 0 <= z ->
   Zpos m * 2 ^ Z.max 0 e = z * 2 ^ Z.max 0 (- e) ->
   z * 2 ^ Z.max 0 (- e0) <= Zpos m0 * 2 ^ Z.max 0 e0)%Z.
Proof.
  intros He0 Hm Hn Hm0 Hc Hz Hv.
  assert (Hp : forall k, (0 < 2 ^ Z.max 0 k)%Z) by (intros; apply Z.pow_pos_nonneg; lia).
  assert (Hmul : (z * 2 ^ Z.max 0 (- e0) * 2 ^ Z.max 0 (- e) <= Zpos m0 * 2 ^ Z.max 0 e0 * 2 ^ Z.max 0 (- e))%Z).
  { replace (z * 2 ^ Z.max 0 (- e0) * 2 ^ Z.max 0 (- e))%Z with (Zpos m * 2 ^ Z.max 0 e * 2 ^ Z.max 0 (- e0))%Z
      by (rewrite Hv; ring).
    rewrite <- !Z.mul_assoc, <- !Z.pow_add_r by lia.
    destruct Hc as [Hc|[-> Hc]]; [|by apply Z.mul_le_mono_nonneg_r; [apply Z.pow_nonneg|]].
    set (k := (Z.max 0 e + Z.max 0 (- e0))%Z).
    transitivity (2 ^ 53 * 2 ^ k)%Z; [apply Z.mul_le_mono_nonneg_r; [apply Z.pow_nonneg|]; lia|].
    transitivity (2 ^ 52 * 2 ^ (Z.max 0 e0 + Z.max 0 (- e)))%Z;
      [|apply Z.mul_le_mono_nonneg_r; [apply Z.pow_nonneg|]; lia].
    rewrite <- !Z.pow_add_r by lia. apply Z.pow_le_mono_r; lia. }
  eapply Z.mul_le_mono_pos_r; [apply (Hp (- e)%Z)|]. lia.
Qed.

Lemma f_to_Z_exact_finite (s : bool) (m : positive) (e z : Z) :
  f_to_Z_exact (S754_finite s m e) = Some z ->
  exists a, (0 <= a)%Z /\ z = (if s then - a else a)%Z /\ (Zpos m * 2 ^ Z.max 0 e = a * 2 ^ Z.max 0 (- e))%Z.
Proof.
  cbn. destruct (0 <=? e)%Z eqn:E; [|destruct (Zpos m mod 2 ^ (- e) =? 0)%Z eqn:Em; [|done]]; intros [= <-]; b2p.
  - exists (Zpos m * 2 ^ e)%Z. split; [|split; [done|]].
    + apply Z.mul_nonneg_nonneg; [lia|]. by apply Z.pow_nonneg.
    + rewrite Z.max_r, Z.max_l by lia. by rewrite Z.mul_1_r.
  - exists (Zpos m / 2 ^ (- e))%Z. split; [|split; [done|]].
    + apply Z.div_pos; [lia|]. apply Z.pow_pos_nonneg; lia.
    + rewrite Z.max_l, Z.max_r, Z.mul_1_r by lia. pose proof (Z.div_mod (Zpos m) (2 ^ (- e))).
      assert (0 < 2 ^ (- e))%Z by (apply Z.pow_pos_nonneg; lia). lia.
Qed.

(** The range checks of asUint32 and asInt32 on a float64 are exact. *)
Lemma f_range_upper (x : float64) (m0 : positive) (e0 M z : Z) :
  f_valid x = true -> f_to_Z_exact x = Some z -> f_lt (S754_finite false m0 e0) x = false ->
  (-1074 < e0 <= 0)%Z -> (2 ^ 52 <= Zpos m0)%Z -> Zpos m0 = (M * 2 ^ (- e0))%Z -> (0 <= M)%Z -> (z <= M)%Z.
Proof.
  intros Hv Hz Hlt He0 Hm0 HM HM0. destruct x as [s|s| |s m e]; try done; [cbn in Hz; simplify_eq; done|].
  destruct (f_to_Z_exact_finite _ _ _ _ Hz) as (a & Ha & -> & Heq). destruct s; [lia|].
  destruct (f_valid_digits _ _ _ Hv) as (Hd1 & Hd2 & Hd3).
  assert (Hc : (e < e0 \/ (e = e0 /\ Zpos m <= Zpos m0))%Z).
  { unfold f_lt, SFltb, SFcompare in Hlt. destruct (Z.compare_spec e0 e) as [->|Hl|Hl]; [|done|by left].
    right. split; [done|]. change (Pos.compare_cont Eq m0 m) with (m0 ?= m)%positive in Hlt.
    destruct (Pos.compare_spec m0 m); [lia|done|lia]. }
  pose proof (pos_scaled_le m m0 e e0 a ltac:(lia) Hd1 Hd3 Hm0 Hc Ha Heq) as Hle.
  rewrite HM, (Z.max_r 0 (- e0)), Z.max_l, Z.mul_1_r in Hle by lia.
  eapply Z.mul_le_mono_pos_r; [|exact Hle]. apply Z.pow_pos_nonneg; lia.
Qed.

Lemma f_range_lower (x : float64) (m0 : positive) (e0 M z : Z) :
  f_valid x = true -> f_to_Z_exact x = Some z -> f_lt x (S754_finite true m0 e0) = false ->
  (-1074 < e0 <= 0)%Z -> (2 ^ 52 <= Zpos m0)%Z -> Zpos m0 = (M * 2 ^ (- e0))%Z -> (0 <= M)%Z -> (- M <= z)%Z.
Proof.
  intros Hv Hz Hlt He0 Hm0 HM HM0. destruct x as [s|s| |s m e]; try done; [cbn in Hz; simplify_eq; lia|].
  destruct (f_to_Z_exact_finite _ _ _ _ Hz) as (a & Ha & -> & Heq). destruct s; [|lia].
  enough (a <= M)%Z by lia.
  apply (f_range_upper (S754_finite false m e) m0 e0 M a); try done.
  - cbn in Hz |- *. split_cases_in Hz; simplify_eq; f_equal; lia.
  - unfold f_lt, SFltb, SFcompare in Hlt |- *. destruct (Z.compare_spec e e0) as [->|Hl|Hl].
    + rewrite Z.compare_refl. change (Pos.compare_cont Eq m m0) with (m ?= m0)%positive in Hlt.
      change (Pos.compare_cont Eq m0 m) with (m0 ?= m)%positive.
      destruct (Pos.compare_spec m m0), (Pos.compare_spec m0 m); try done; lia.
    + apply Z.compare_gt_iff in Hl. by rewrite Hl.
    + done.
Qed.
