(* ===== verification/GoStrings.v ===== *)
(** * The Go strings and strconv functions the agent uses *)
From S2P Require Import Prelude GoNum.

(** Go strings and byte slices are byte sequences.  Text that the code indexes or scans is
    a [bytes]; keys and configuration values are [string].  [str] and [unstr] convert. *)
Abbreviation bytes := (list ascii).
Abbreviation str := list_ascii_of_string.
Abbreviation unstr := string_of_list_ascii.

Definition code (c : ascii) : N := N_of_ascii c.
Definition byte_in (lo hi : N) (c : ascii) : bool := (lo <=? code c)%N && (code c <=? hi)%N.
Definition is_upper (c : ascii) : bool := byte_in 65 90 c.
Definition is_lower (c : ascii) : bool := byte_in 97 122 c.
Definition is_digit (c : ascii) : bool := byte_in 48 57 c.
Definition is_ascii_byte (c : ascii) : bool := (code c <? 128)%N.

(** ** Parameters: the Unicode tables and the numeric and address parsers of Go's library

    strings.ToLower and strings.EqualFold take an ASCII fast path and fall back to the
    Unicode tables only when a byte of 0x80 or more occurs; strconv.Quote and Unquote
    consult unicode.IsPrint for such strings.  Those fall-backs, the decimal conversions of
    float64 (ParseFloat s 64, None on an error, when ParseFloatErr is the value returned beside
    it; FormatFloat v 'f' prec 64) and net.ParseIP
    (true when the address is not nil) are parameters of the model: every theorem holds for
    all of them. *)
Class GoLib := {
  uni_to_lower : bytes -> bytes;
  uni_equal_fold : bytes -> bytes -> bool;
  uni_quote : bytes -> bytes;
  uni_unquote : bytes -> option bytes;
  ParseFloat : string -> option float64;
  ParseFloatErr : string -> float64;
  FormatFloat : float64 -> Z -> string;
  ParseIP : string -> bool;
}.

(** ** strings.TrimSpace: ASCII blanks and the multi-byte UTF-8 encodings unicode.IsSpace accepts *)

Definition ascii_space (c : ascii) : bool := byte_in 9 13 c || (code c =? 32)%N.

Definition space2 (c d : ascii) : bool :=
  (code c =? 194)%N && ((code d =? 133)%N || (code d =? 160)%N).

Definition space3 (c d e : ascii) : bool :=
  ((code c =? 225)%N && (code d =? 154)%N && (code e =? 128)%N) ||
  ((code c =? 226)%N && (code d =? 128)%N &&
     (byte_in 128 138 e || (code e =? 168)%N || (code e =? 169)%N || (code e =? 175)%N)) ||
  ((code c =? 226)%N && (code d =? 129)%N && (code e =? 159)%N) ||
  ((code c =? 227)%N && (code d =? 128)%N && (code e =? 128)%N).

(** Drops leading space runes; [s2] and [s3] recognise the two- and three-byte ones. *)
Fixpoint strip (s2 : ascii -> ascii -> bool) (s3 : ascii -> ascii -> ascii -> bool) (l : bytes) : bytes :=
  match l with
  | [] => []
  | c :: r =>
      if ascii_space c then strip s2 s3 r
      else match r with
           | [] => l
           | d :: r2 =>
               if s2 c d then strip s2 s3 r2
               else match r2 with
                    | [] => l
                    | e :: r3 => if s3 c d e then strip s2 s3 r3 else l
                    end
           end
  end.

Definition trim_left (l : bytes) : bytes := strip space2 space3 l.
Definition trim_right (l : bytes) : bytes :=
  rev (strip (fun c d => space2 d c) (fun c d e => space3 e d c) (rev l)).
Definition trim_space (l : bytes) : bytes := trim_right (trim_left l).
Definition TrimSpace (s : string) : string := unstr (trim_space (str s)).

(** ** Prefixes, suffixes, substring search *)

Fixpoint has_prefix (l p : bytes) : bool :=
  match p, l with
  | [], _ => true
  | _ :: _, [] => false
  | b :: p', a :: l' => Ascii.eqb a b && has_prefix l' p'
  end.
Definition has_suffix (l p : bytes) : bool := has_prefix (rev l) (rev p).
Definition trim_prefix (l p : bytes) : bytes := if has_prefix l p then drop (length p) l else l.
Definition trim_suffix (l p : bytes) : bytes :=
  if has_suffix l p then take (length l - length p) l else l.

(** strings.Index: the least offset at which [p] occurs. *)
Fixpoint index_of (l p : bytes) : option nat :=
  if has_prefix l p then Some 0
  else match l with
       | [] => None
       | _ :: r => S <$> index_of r p
       end.
Definition contains (l p : bytes) : bool :=
  match index_of l p with Some _ => true | None => false end.

Definition HasPrefix (s p : string) : bool := has_prefix (str s) (str p).
Definition HasSuffix (s p : string) : bool := has_suffix (str s) (str p).
Definition TrimPrefix (s p : string) : string := unstr (trim_prefix (str s) (str p)).
Definition Contains (s p : string) : bool := contains (str s) (str p).

(** ** Letter case *)

Definition lower_byte (c : ascii) : ascii :=
  if is_upper c then ascii_of_N (code c + 32) else c.

Section Case.
Context `{GoLib}.

Definition to_lower (l : bytes) : bytes :=
  if forallb is_ascii_byte l then map lower_byte l else uni_to_lower l.
Definition ToLower (s : string) : string := unstr (to_lower (str s)).

Fixpoint equal_fold (s t : bytes) : bool :=
  match s, t with
  | [], [] => true
  | a :: s', b :: t' =>
      if is_ascii_byte a && is_ascii_byte b
      then Ascii.eqb (lower_byte a) (lower_byte b) && equal_fold s' t'
      else uni_equal_fold s t
  | _, _ => false
  end.
Definition EqualFold (s t : string) : bool := equal_fold (str s) (str t).

End Case.

(** ** strconv.Quote and strconv.Unquote for double-quoted text *)

Definition dquote : ascii := ascii_of_N 34.
Definition backslash : ascii := ascii_of_N 92.
Definition newline : ascii := ascii_of_N 10.

Definition hex_digit (n : N) : ascii :=
  if (n <? 10)%N then ascii_of_N (n + 48) else ascii_of_N (n + 87).

(** The escape of one ASCII byte inside a quoted string. *)
Definition quote_byte (c : ascii) : bytes :=
  let n := code c in
  if (n =? 34)%N || (n =? 92)%N then [backslash; c]
  else if byte_in 32 126 c then [c]
  else if (n =? 7)%N then [backslash; "a"%char]
  else if (n =? 8)%N then [backslash; "b"%char]
  else if (n =? 12)%N then [backslash; "f"%char]
  else if (n =? 10)%N then [backslash; "n"%char]
  else if (n =? 13)%N then [backslash; "r"%char]
  else if (n =? 9)%N then [backslash; "t"%char]
  else if (n =? 11)%N then [backslash; "v"%char]
  else [backslash; "x"%char; hex_digit (n / 16); hex_digit (n mod 16)].

Definition hex_val (c : ascii) : option N :=
  if is_digit c then Some (code c - 48)%N
  else if byte_in 97 102 c then Some (code c - 87)%N
  else if byte_in 65 70 c then Some (code c - 55)%N
  else None.

Definition octal_val (c : ascii) : option N :=
  if byte_in 48 55 c then Some (code c - 48)%N else None.

(** The body of a quoted ASCII string up to its closing quote, which must end the text. *)
Fixpoint unquote_body (l : bytes) : option bytes :=
  match l with
  | [] => None
  | c :: r =>
      if Ascii.eqb c dquote then (match r with [] => Some [] | _ => None end)
      else if Ascii.eqb c newline then None
      else if Ascii.eqb c backslash then
        match r with
        | [] => None
        | e :: r1 =>
            let simple b := cons (ascii_of_N b) <$> unquote_body r1 in
            if Ascii.eqb e "a" then simple 7%N
            else if Ascii.eqb e "b" then simple 8%N
            else if Ascii.eqb e "f" then simple 12%N
            else if Ascii.eqb e "n" then simple 10%N
            else if Ascii.eqb e "r" then simple 13%N
            else if Ascii.eqb e "t" then simple 9%N
            else if Ascii.eqb e "v" then simple 11%N
            else if Ascii.eqb e backslash then simple 92%N
            else if Ascii.eqb e dquote then simple 34%N
            else if Ascii.eqb e "x" then
              match r1 with
              | h1 :: h2 :: r3 =>
                  match hex_val h1, hex_val h2 with
                  | Some a, Some b => cons (ascii_of_N (a * 16 + b)) <$> unquote_body r3
                  | _, _ => None
                  end
              | _ => None
              end
            else
              match octal_val e, r1 with
              | Some a, o2 :: o3 :: r3 =>
                  match octal_val o2, octal_val o3 with
                  | Some b, Some d =>
                      if (a * 64 + b * 8 + d <? 256)%N
                      then cons (ascii_of_N (a * 64 + b * 8 + d)) <$> unquote_body r3
                      else None
                  | _, _ => None
                  end
              | _, _ => None
              end
        end
      else cons c <$> unquote_body r
  end.

(** Text with a backslash-u or backslash-U escape denotes a rune beyond this byte-wise reading. *)
Fixpoint has_rune_escape (l : bytes) : bool :=
  match l with
  | c :: ((e :: r1) as r) =>
      if Ascii.eqb c backslash then Ascii.eqb e "u" || Ascii.eqb e "U" || has_rune_escape r1
      else has_rune_escape r
  | _ => false
  end.

Section Quote.
Context `{GoLib}.

Definition quote (l : bytes) : bytes :=
  if forallb is_ascii_byte l then dquote :: (l ≫= quote_byte) ++ [dquote] else uni_quote l.
Definition Quote (s : string) : string := unstr (quote (str s)).

(** strconv.Unquote on a text that starts with a double quote. *)
Definition unquote (l : bytes) : option bytes :=
  match l with
  | [] => None
  | _ :: body =>
      if forallb is_ascii_byte l && negb (has_rune_escape body) then unquote_body body else uni_unquote l
  end.

End Quote.

(** ** strconv: decimal integers *)

Definition digit_val (c : ascii) : Z := Z.of_N (code c) - 48.
Definition digit_char (d : Z) : ascii := ascii_of_N (Z.to_N (d + 48)).

(** The value of a run of decimal digits, None when another byte occurs. *)
Fixpoint digits_val (acc : Z) (l : bytes) : option Z :=
  match l with
  | [] => Some acc
  | c :: r => if is_digit c then digits_val (10 * acc + digit_val c) r else None
  end.

(** strconv.ParseUint(s, 10, bits); the error is not distinguished. *)
Definition parse_uint (bits : Z) (l : bytes) : option Z :=
  match l with
  | [] => None
  | _ => match digits_val 0 l with
         | Some v => if (v <? 2 ^ bits)%Z then Some v else None
         | None => None
         end
  end.

(** strconv.ParseInt(s, 10, bits). *)
Definition parse_int (bits : Z) (l : bytes) : option Z :=
  match l with
  | [] => None
  | c :: r =>
      let neg := Ascii.eqb c "-" in
      let body := if Ascii.eqb c "+" || neg then r else l in
      match parse_uint bits body with
      | None => None
      | Some un =>
          if neg then (if (un <=? 2 ^ (bits - 1))%Z then Some (- un)%Z else None)
          else (if (un <? 2 ^ (bits - 1))%Z then Some un else None)
      end
  end.

(** strconv.FormatUint(n, 10); the fuel bounds the number of digits. *)
Fixpoint format_digits (fuel : nat) (n : Z) : bytes :=
  match fuel with
  | O => []
  | S k => if (n <? 10)%Z then [digit_char n]
           else format_digits k (n / 10) ++ [digit_char (n mod 10)]
  end.
Definition format_uint (n : Z) : bytes := format_digits (S (Z.to_nat (Z.log2 n))) n.
Definition format_int (n : Z) : bytes :=
  if (n <? 0)%Z then "-"%char :: format_uint (- n) else format_uint n.

Definition ParseUint (bits : Z) (s : string) : option Z := parse_uint bits (str s).
Definition ParseInt (bits : Z) (s : string) : option Z := parse_int bits (str s).
Definition FormatUint (n : Z) : string := unstr (format_uint n).
Definition FormatInt (n : Z) : string := unstr (format_int n).

(** The value ParseInt(s, 10, 32) returns, also beside an error: 0 when the text is not a number,
    the nearest int32 when it is out of range. *)
Inductive uint_scan := UVal (n : Z) | URange | USyntax.

Fixpoint scan_uint32 (acc : Z) (l : bytes) : uint_scan :=
  match l with
  | [] => UVal acc
  | c :: r =>
      if is_digit c then
        let acc := (acc * 10 + digit_val c)%Z in
        if (2 ^ 32 - 1 <? acc)%Z then URange else scan_uint32 acc r
      else USyntax
  end.

Definition parse_int32_value (l : bytes) : Z :=
  match l with
  | [] => 0
  | c :: r =>
      let neg := Ascii.eqb c "-" in
      let body := if neg || Ascii.eqb c "+" then r else l in
      match body with
      | [] => 0
      | _ =>
          match scan_uint32 0 body with
          | USyntax => 0
          | URange => if neg then - 2 ^ 31 else 2 ^ 31 - 1
          | UVal un => if neg then (if (2 ^ 31 <? un)%Z then - 2 ^ 31 else - un)
                       else (if (2 ^ 31 <=? un)%Z then 2 ^ 31 - 1 else un)
          end
      end
  end%Z.

Fixpoint take_while (p : ascii -> bool) (l : bytes) : bytes :=
  match l with
  | [] => []
  | c :: r => if p c then c :: take_while p r else []
  end.

(** strings.Split on one byte. *)
Fixpoint split_on (c : ascii) (l : bytes) : list bytes :=
  match l with
  | [] => [[]]
  | x :: r => if Ascii.eqb x c then [] :: split_on c r
              else match split_on c r with h :: t => (x :: h) :: t | [] => [[x]] end
  end.

(** ** time.Time.Format: the UTC calendar *)

(** Year, month and day of a number of days since January 1 of year 1 (Gregorian). *)
Definition civil (days : Z) : Z * Z * Z :=
  (let z := days + 306 in
   let era := z / 146097 in
   let doe := z mod 146097 in
   let yoe := (doe - doe / 1460 + doe / 36524 - doe / 146096) / 365 in
   let doy := doe - (365 * yoe + yoe / 4 - yoe / 100) in
   let mp := (5 * doy + 2) / 153 in
   let d := doy - (153 * mp + 2) / 5 + 1 in
   let m := if mp <? 10 then mp + 3 else mp - 9 in
   (yoe + era * 400 + (if m <=? 2 then 1 else 0), m, d))%Z.

Definition pad (width : nat) (n : Z) : bytes :=
  let l := format_uint n in replicate (width - length l) "0"%char ++ l.

Definition clock_part (t : time) : bytes :=
  let secs := (t / second)%Z in
  let '(y, m, d) := civil (secs / 86400) in
  let s := (secs mod 86400)%Z in
  pad 4 y ++ "-"%char :: pad 2 m ++ "-"%char :: pad 2 d ++ "T"%char ::
  pad 2 (s / 3600)%Z ++ ":"%char :: pad 2 ((s / 60) mod 60)%Z ++ ":"%char :: pad 2 (s mod 60)%Z.

(** time.RFC3339 and time.RFC3339Nano for a time in UTC. *)
Definition FormatRFC3339 (t : time) : string := unstr (clock_part t ++ ["Z"%char]).

Definition FormatRFC3339Nano (t : time) : string :=
  let frac := rev (drop (length (take_while (Ascii.eqb "0") (rev (pad 9 (t mod second)%Z)))) (rev (pad 9 (t mod second)%Z))) in
  unstr (clock_part t ++ (match frac with [] => [] | _ => "."%char :: frac end) ++ ["Z"%char]).

Example format_leap_day :
  let t := secs (62135596800 + 1709210096) in (FormatRFC3339 t, FormatRFC3339Nano (t + 120000000)%Z) =
  ("2024-02-29T12:34:56Z", "2024-02-29T12:34:56.12Z").
Proof. vm_compute. reflexivity. Qed.

(** *** An instance of the parameters for concrete evaluation on ASCII text: integral decimals and
    dotted quads *)
Definition dotted_quad (s : string) : bool :=
  let parts := split_on "." (str s) in
  (length parts =? 4) && forallb (fun p => match parse_uint 8 p with Some _ => true | None => false end) parts.

Definition ascii_golib : GoLib := {|
  uni_to_lower := id;
  uni_equal_fold := fun a b => bool_decide (a = b);
  uni_quote := id;
  uni_unquote := Some;
  ParseFloat := fun s => f_of_Z <$> parse_int 32 (str s);
  ParseFloatErr := fun _ => f_zero;
  FormatFloat := fun x _ => match f_to_Z_exact x with
                            | Some z => FormatInt z +:+ ".000"
                            | None => "0.000"
                            end;
  ParseIP := dotted_quad
|}.


(** ** Lemmas: conversions *)

Lemma unstr_str (s : string) : unstr (str s) = s.
Proof. apply string_of_list_ascii_of_string. Qed.

Lemma str_unstr (l : bytes) : str (unstr l) = l.
Proof. apply list_ascii_of_string_of_list_ascii. Qed.

#[export] Hint Rewrite unstr_str str_unstr : ems.

Lemma str_inj (s t : string) : str s = str t -> s = t.
Proof. intros E. rewrite <- (unstr_str s), <- (unstr_str t). by rewrite E. Qed.

(** ** Lemmas: prefixes and spans *)

Lemma has_prefix_nil (l : bytes) : has_prefix l [] = true.
Proof. by destruct l. Qed.

Lemma has_prefix_app (p l : bytes) : has_prefix (p ++ l) p = true.
Proof. induction p as [|c p IH]; cbn; [by destruct l|]. by rewrite Ascii.eqb_refl. Qed.

Lemma has_prefix_spec (l p : bytes) : has_prefix l p = true <-> exists r, l = p ++ r.
Proof.
  split; [|intros [r ->]; apply has_prefix_app]. revert l. induction p as [|c p IH]; intros l Hp; [by exists l|].
  destruct l as [|a l]; [done|]. cbn in Hp. apply andb_true_iff in Hp as [Ha Hp]. apply Ascii.eqb_eq in Ha as ->. destruct (IH l Hp) as [r ->]. by exists r.
Qed.

Lemma take_while_stop (p : ascii -> bool) (a r : bytes) :
  forallb p a = true -> match r with [] => True | c :: _ => p c = false end -> take_while p (a ++ r) = a.
Proof.
  intros Ha Hr. induction a as [|c a IH]; cbn in *; [destruct r; cbn; [done|by rewrite Hr]|].
  apply andb_true_iff in Ha as [Hc Ha]. rewrite Hc. f_equal. auto.
Qed.

(** ** Lemmas: TrimSpace *)

(** [lead l] says that [l] starts with a space rune. *)
Definition lead (s2 : ascii -> ascii -> bool) (s3 : ascii -> ascii -> ascii -> bool) (l : bytes) : bool :=
  match l with
  | [] => false
  | c :: r => ascii_space c ||
      match r with
      | [] => false
      | d :: r2 => s2 c d || match r2 with [] => false | e :: _ => s3 c d e end
      end
  end.

Lemma strip_lead s2 s3 l : lead s2 s3 l = false -> strip s2 s3 l = l.
Proof.
  destruct l as [|c [|d [|e r]]]; simpl; intros E;
    repeat (apply orb_false_iff in E; destruct E as [? E]);
    repeat match goal with H : _ = false |- _ => rewrite H; clear H end; done.
Qed.

Lemma lead_strip s2 s3 l : lead s2 s3 (strip s2 s3 l) = false.
Proof.
  revert l. fix IH 1. intros [|c r]; [done|]. simpl.
  destruct (ascii_space c) eqn:Ec; [apply IH|].
  destruct r as [|d r2]; [simpl; by rewrite Ec|].
  destruct (s2 c d) eqn:E2; [apply IH|].
  destruct r2 as [|e r3]; [simpl; by rewrite Ec, E2|].
  destruct (s3 c d e) eqn:E3; [apply IH|]. simpl. by rewrite Ec, E2, E3.
Qed.

Lemma strip_suffix s2 s3 l : exists p, l = p ++ strip s2 s3 l.
Proof.
  revert l. fix IH 1. intros [|c r]; [by exists []|]. simpl.
  destruct (ascii_space c).
  { destruct (IH r) as [p E]. exists (c :: p). simpl. by rewrite <- E. }
  destruct r as [|d r2]; [by exists []|].
  destruct (s2 c d).
  { destruct (IH r2) as [p E]. exists (c :: d :: p). simpl. by rewrite <- E. }
  destruct r2 as [|e r3]; [by exists []|].
  destruct (s3 c d e); [|by exists []].
  destruct (IH r3) as [p E]. exists (c :: d :: e :: p). simpl. by rewrite <- E.
Qed.

Lemma lead_prefix s2 s3 p q : lead s2 s3 (p ++ q) = false -> lead s2 s3 p = false.
Proof.
  destruct p as [|c [|d [|e r]]]; simpl; intros E;
    repeat (apply orb_false_iff in E; destruct E as [? E]);
    repeat match goal with H : _ = false |- _ => rewrite H; clear H end; done.
Qed.

Lemma trim_right_prefix l : exists q, l = trim_right l ++ q.
Proof.
  unfold trim_right.
  destruct (strip_suffix (fun c d => space2 d c) (fun c d e => space3 e d c) (rev l)) as [p E].
  exists (rev p). rewrite <- rev_app_distr, <- E. by rewrite rev_involutive.
Qed.

Lemma trim_right_idem l : trim_right (trim_right l) = trim_right l.
Proof.
  unfold trim_right. rewrite rev_involutive. f_equal. apply strip_lead, lead_strip.
Qed.

Lemma trim_left_of_trim l : trim_left (trim_space l) = trim_space l.
Proof.
  apply strip_lead. unfold trim_space.
  destruct (trim_right_prefix (trim_left l)) as [q E].
  eapply lead_prefix. rewrite <- E. apply lead_strip.
Qed.

Lemma trim_space_idem l : trim_space (trim_space l) = trim_space l.
Proof.
  unfold trim_space at 1. rewrite trim_left_of_trim. apply trim_right_idem.
Qed.

Lemma TrimSpace_idem (s : string) : TrimSpace (TrimSpace s) = TrimSpace s.
Proof. unfold TrimSpace. by rewrite str_unstr, trim_space_idem. Qed.

#[export] Hint Rewrite TrimSpace_idem : ems.

Lemma TrimSpace_empty : TrimSpace EmptyString = EmptyString.
Proof. reflexivity. Qed.

(** A byte that is its own, non-blank rune. *)
Definition solid_byte (c : ascii) : bool := is_ascii_byte c && negb (ascii_space c).

Lemma solid_lead (c : ascii) (s : bytes) : solid_byte c = true -> lead space2 space3 (c :: s) = false.
Proof.
  unfold solid_byte, is_ascii_byte. intros Hc. b2p. match goal with H : (_ <? _)%N = true |- _ => apply N.ltb_lt in H end.
  simpl. match goal with H : ascii_space c = false |- _ => rewrite H end.
  assert (forall b, space2 c b = false) as N2
    by (intros b; unfold space2; destruct (N.eqb_spec (code c) 194); [lia|done]).
  assert (forall b e, space3 c b e = false) as N3.
  { intros b e. unfold space3.
    destruct (N.eqb_spec (code c) 225), (N.eqb_spec (code c) 226), (N.eqb_spec (code c) 227); try lia; done. }
  destruct s as [|x [|y s]]; simpl; by rewrite ?N2, ?N3.
Qed.

Lemma solid_lead_rev (d : ascii) (s : bytes) :
  solid_byte d = true -> lead (fun c e => space2 e c) (fun c e f => space3 f e c) (d :: s) = false.
Proof.
  unfold solid_byte, is_ascii_byte. intros Hd. b2p. match goal with H : (_ <? _)%N = true |- _ => apply N.ltb_lt in H end.
  simpl. match goal with H : ascii_space d = false |- _ => rewrite H end.
  assert (forall a, space2 a d = false) as M2.
  { intros a. unfold space2. destruct (N.eqb_spec (code d) 133), (N.eqb_spec (code d) 160); try lia; by rewrite andb_false_r. }
  assert (forall a b, space3 a b d = false) as M3.
  { intros a b. unfold space3, byte_in.
    destruct (N.leb_spec 128 (code d)), (N.eqb_spec (code d) 128), (N.eqb_spec (code d) 168),
      (N.eqb_spec (code d) 169), (N.eqb_spec (code d) 175), (N.eqb_spec (code d) 159); try lia;
      simpl; by rewrite !andb_false_r. }
  destruct s as [|x [|y s]]; simpl; by rewrite ?M2, ?M3.
Qed.

Lemma strip_spaces s2 s3 (a l : bytes) : forallb ascii_space a = true -> strip s2 s3 (a ++ l) = strip s2 s3 l.
Proof. induction a as [|c a IH]; cbn; [done|]. intros Ha. b2p. destruct (ascii_space c); [auto|done]. Qed.

(** TrimSpace removes ASCII blanks around a text with solid ends, and nothing else. *)
Lemma trim_space_around (a core b : bytes) :
  forallb ascii_space a = true -> forallb ascii_space b = true ->
  (exists c r, core = c :: r /\ solid_byte c = true) -> (exists r d, core = r ++ [d] /\ solid_byte d = true) ->
  trim_space (a ++ core ++ b) = core.
Proof.
  intros Ha Hb (c & r & Ec & Hc) (r' & d & Ed & Hd). unfold trim_space, trim_left. rewrite strip_spaces by done.
  rewrite strip_lead by (rewrite Ec; by apply solid_lead). unfold trim_right.
  rewrite rev_app_distr, strip_spaces.
  - rewrite strip_lead; [apply rev_involutive|]. rewrite Ed, rev_app_distr. by apply solid_lead_rev.
  - rewrite forallb_forall in *. intros x Hx. apply Hb. by apply in_rev.
Qed.

(** A text that starts and ends with a non-blank ASCII byte is its own trim. *)
Lemma trim_space_solid (core : bytes) :
  (exists c r, core = c :: r /\ solid_byte c = true) -> (exists r d, core = r ++ [d] /\ solid_byte d = true) ->
  trim_space core = core.
Proof. intros Hc Hd. pose proof (trim_space_around [] core [] eq_refl eq_refl Hc Hd) as H. by rewrite app_nil_r in H. Qed.

(** ** Lemmas: decimal integers *)

Lemma digit_char_code (d : Z) : (0 <= d < 10)%Z -> code (digit_char d) = Z.to_N (d + 48).
Proof.
  intros Hd. unfold code, digit_char. apply N_ascii_embedding. lia.
Qed.

Lemma digit_char_is_digit (d : Z) : (0 <= d < 10)%Z -> is_digit (digit_char d) = true.
Proof.
  intros Hd. unfold is_digit, byte_in. rewrite digit_char_code by done.
  apply andb_true_iff. split; apply N.leb_le; lia.
Qed.

Lemma digit_char_val (d : Z) : (0 <= d < 10)%Z -> digit_val (digit_char d) = d.
Proof. intros Hd. unfold digit_val. rewrite digit_char_code by done. lia. Qed.

Lemma digits_val_app acc l1 l2 :
  digits_val acc (l1 ++ l2) = match digits_val acc l1 with Some v => digits_val v l2 | None => None end.
Proof. revert acc. induction l1 as [|c l1 IH]; intros acc; simpl; [done|]. by destruct (is_digit c). Qed.

Lemma str_app (a b : string) : str (a +:+ b) = str a ++ str b.
Proof. induction a as [|c a IH]; [done|]. change (String c a +:+ b) with (String c (a +:+ b)). cbn [list_ascii_of_string app]. by rewrite IH. Qed.

Lemma format_digits_val (fuel : nat) (n : Z) :
  (0 <= n < 10 ^ Z.of_nat fuel)%Z -> digits_val 0 (format_digits fuel n) = Some n.
Proof.
  revert n. induction fuel as [|k IH]; intros n Hn; [simpl in *; f_equal; lia|].
  simpl. destruct (Z.ltb_spec n 10).
  - simpl. rewrite digit_char_is_digit, digit_char_val by lia. f_equal; lia.
  - rewrite digits_val_app, IH.
    + simpl. assert (0 <= n mod 10 < 10)%Z by (apply Z.mod_pos_bound; lia).
      rewrite digit_char_is_digit, digit_char_val by lia. f_equal.
      pose proof (Z.div_mod n 10). lia.
    + rewrite Nat2Z.inj_succ, Z.pow_succ_r in Hn by lia. split; [apply Z.div_pos; lia|].
      apply Z.div_lt_upper_bound; lia.
Qed.

Lemma format_digits_all_digits (fuel : nat) (n : Z) :
  (0 <= n)%Z -> Forall (fun c => is_digit c = true) (format_digits fuel n).
Proof.
  revert n. induction fuel as [|k IH]; intros n Hn; [constructor|]. simpl.
  destruct (Z.ltb_spec n 10).
  - constructor; [|constructor]. apply digit_char_is_digit; lia.
  - apply Forall_app. split; [apply IH, Z.div_pos; lia|].
    constructor; [|constructor]. apply digit_char_is_digit, Z.mod_pos_bound; lia.
Qed.

Lemma format_uint_fuel (n : Z) : (0 <= n)%Z -> (n < 10 ^ Z.of_nat (S (Z.to_nat (Z.log2 n))))%Z.
Proof.
  intros Hn. rewrite Nat2Z.inj_succ, Z2Nat.id by apply Z.log2_nonneg.
  destruct (Z.eq_dec n 0%Z) as [->|]; [done|].
  assert (n < 2 ^ Z.succ (Z.log2 n))%Z by (apply Z.log2_spec; lia).
  assert (2 ^ Z.succ (Z.log2 n) <= 10 ^ Z.succ (Z.log2 n))%Z by (apply Z.pow_le_mono_l; lia).
  lia.
Qed.

Lemma format_uint_val (n : Z) : (0 <= n)%Z -> digits_val 0 (format_uint n) = Some n.
Proof. intros Hn. apply format_digits_val. split; [done|]. by apply format_uint_fuel. Qed.

Lemma format_uint_nonempty (n : Z) : format_uint n <> [].
Proof.
  unfold format_uint. simpl. destruct (n <? 10)%Z; [done|].
  intros E. by apply app_eq_nil in E as [_ ?].
Qed.

Lemma parse_format_uint (bits n : Z) :
  (0 <= n < 2 ^ bits)%Z -> parse_uint bits (format_uint n) = Some n.
Proof.
  intros Hn. unfold parse_uint. pose proof (format_uint_nonempty n).
  rewrite format_uint_val by lia. destruct (format_uint n); [done|].
  by destruct (Z.ltb_spec n (2 ^ bits)); [|lia].
Qed.

Lemma format_uint_head_digit (n : Z) :
  (0 <= n)%Z -> exists c r, format_uint n = c :: r /\ is_digit c = true.
Proof.
  intros Hn. pose proof (format_uint_nonempty n).
  pose proof (format_digits_all_digits (S (Z.to_nat (Z.log2 n))) n Hn) as Hall.
  fold (format_uint n) in Hall. destruct (format_uint n) as [|c r]; [done|].
  inversion Hall; subst. eauto.
Qed.

Lemma digit_not_sign (c : ascii) :
  is_digit c = true -> Ascii.eqb c "-" = false /\ Ascii.eqb c "+" = false.
Proof.
  intros H. split; apply Ascii.eqb_neq; intros ->; vm_compute in H; done.
Qed.

Lemma parse_format_int (n : Z) :
  (- 2 ^ 31 <= n < 2 ^ 31)%Z -> parse_int 32 (format_int n) = Some n.
Proof.
  intros Hn. unfold format_int. destruct (Z.ltb_spec n 0).
  - cbn [parse_int Ascii.eqb]. change (Ascii.eqb "-" "-") with true. rewrite orb_true_r.
    rewrite parse_format_uint by lia.
    change (32 - 1)%Z with 31%Z. destruct (Z.leb_spec (- n) (2 ^ 31)); [f_equal; lia|lia].
  - pose proof (parse_format_uint 32 n ltac:(lia)) as E.
    destruct (format_uint_head_digit n ltac:(lia)) as (c & r & Ef & Hd).
    destruct (digit_not_sign c Hd) as [Hm Hp].
    rewrite Ef in *. unfold parse_int. rewrite Hm, Hp. cbv beta zeta. cbn [orb]. rewrite E.
    change (32 - 1)%Z with 31%Z. by destruct (Z.ltb_spec n (2 ^ 31)); [|lia].
Qed.

Lemma ParseInt_FormatInt (n : Z) :
  (- 2 ^ 31 <= n < 2 ^ 31)%Z -> ParseInt 32 (FormatInt n) = Some n.
Proof. intros Hn. unfold ParseInt, FormatInt. rewrite str_unstr. by apply parse_format_int. Qed.

Lemma ParseUint_FormatUint (n : Z) :
  (0 <= n < 2 ^ 32)%Z -> ParseUint 32 (FormatUint n) = Some n.
Proof. intros Hn. unfold ParseUint, FormatUint. rewrite str_unstr. by apply parse_format_uint. Qed.

Lemma digit_val_nonneg (c : ascii) : is_digit c = true -> (0 <= digit_val c)%Z.
Proof.
  intros Hc. unfold is_digit, byte_in in Hc. b2p. unfold digit_val.
  assert (48 <= code c)%N by (apply N.leb_le; done). lia.
Qed.

Lemma digits_val_nonneg (l : bytes) (acc v : Z) : (0 <= acc)%Z -> digits_val acc l = Some v -> (0 <= v)%Z.
Proof.
  revert acc v. induction l as [|x l IH]; simpl; intros acc w Hacc Hw; [by simplify_eq|].
  destruct (is_digit x) eqn:Ex; [|done]. eapply IH; [|exact Hw]. apply digit_val_nonneg in Ex. lia.
Qed.

Lemma parse_uint_range (bits : Z) (l : bytes) (n : Z) :
  parse_uint bits l = Some n -> (0 <= n < 2 ^ bits)%Z.
Proof.
  unfold parse_uint. destruct l; [done|]. destruct (digits_val _ _) as [v|] eqn:Ev; [|done].
  destruct (Z.ltb_spec v (2 ^ bits)); intros; simplify_eq. split; [|done]. by eapply digits_val_nonneg.
Qed.

Lemma parse_int_range (l : bytes) (n : Z) :
  parse_int 32 l = Some n -> (- 2 ^ 31 <= n < 2 ^ 31)%Z.
Proof.
  destruct l as [|c r]; [done|]. unfold parse_int. change (32 - 1)%Z with 31%Z.
  set (body := if _ || _ then r else c :: r).
  destruct (parse_uint 32 body) as [un|] eqn:E; [|done]. apply parse_uint_range in E.
  destruct (Ascii.eqb c "-").
  - destruct (Z.leb_spec un (2 ^ 31)); intros; simplify_eq; lia.
  - destruct (Z.ltb_spec un (2 ^ 31)); intros; simplify_eq; lia.
Qed.

#[global] Arguments TrimSpace : simpl never.
#[global] Arguments HasPrefix : simpl never.
#[global] Arguments HasSuffix : simpl never.
#[global] Arguments Contains : simpl never.
#[global] Arguments dquote : simpl never.
#[global] Arguments backslash : simpl never.
#[global] Arguments newline : simpl never.
