(* ===== verification/Durations.v ===== *)
(** * time.ParseDuration

    The configuration file gives its periods, delays and timeouts as texts such as 20s or 1m30s. The
    parser works on uint64 and fails on what does not fit an int64 of nanoseconds. *)
From S2P Require Import Prelude GoNum GoStrings.

(** time.quote: bytes outside of printable ASCII as \x escapes. *)
Definition time_quote_byte (c : ascii) : bytes :=
  if (128 <=? code c)%N || (code c <? 32)%N then [backslash; "x"%char; hex_digit (code c / 16); hex_digit (code c mod 16)]
  else if Ascii.eqb c dquote || Ascii.eqb c backslash then [backslash; c] else [c].

Definition time_quote (s : string) : string := unstr (dquote :: (str s ≫= time_quote_byte) ++ [dquote]).

Definition unitMap (u : string) : option Z :=
  if String.eqb u "ns" then Some 1%Z
  else if existsb (String.eqb u) ["us"; "µs"; "μs"] then Some 1000%Z
  else if String.eqb u "ms" then Some 1000000%Z
  else if String.eqb u "s" then Some second
  else if String.eqb u "m" then Some (secs 60)
  else if String.eqb u "h" then Some (secs 3600)
  else None.

(** leadingInt on the digits at the head of the text; None when they exceed 2^63. *)
Fixpoint leadingInt (x : Z) (l : bytes) : option (Z * bytes) :=
  match l with
  | [] => Some (x, [])
  | c :: r =>
      if negb (is_digit c) then Some (x, l)
      else if (2 ^ 63 / 10 <? x)%Z then None
      else let x := (x * 10 + digit_val c)%Z in if (2 ^ 63 <? x)%Z then None else leadingInt x r
  end.

(** leadingFraction: digits past the range of an int64 are skipped. *)
Fixpoint leadingFraction (x : Z) (scale : float64) (overflow : bool) (l : bytes) : Z * float64 * bytes :=
  match l with
  | [] => (x, scale, [])
  | c :: r =>
      if negb (is_digit c) then (x, scale, l)
      else if overflow then leadingFraction x scale true r
      else if ((2 ^ 63 - 1) / 10 <? x)%Z then leadingFraction x scale true r
      else let y := (x * 10 + digit_val c)%Z in
           if (2 ^ 63 <? y)%Z then leadingFraction x scale true r else leadingFraction y (f_mul scale (f_of_Z 10)) false r
  end.

Definition digit_or_dot (c : ascii) : bool := Ascii.eqb c "." || is_digit c.

(** A number and its unit at the head of the text: the nanoseconds and the rest. *)
Definition duration_term (orig : string) (l : bytes) : result string (Z * bytes) :=
  let invalid := Err ("time: invalid duration " +:+ time_quote orig) in
  match l with
  | [] => invalid
  | c :: _ =>
      if negb (digit_or_dot c) then invalid
      else match leadingInt 0 l with
           | None => invalid
           | Some (v, l1) =>
               let pre := negb (length l =? length l1) in
               let '(f, scale, post, l2) :=
                 match l1 with
                 | c :: r => if Ascii.eqb c "." then let '(f, scale, rest) := leadingFraction 0 (f_of_Z 1) false r in (f, scale, negb (length r =? length rest), rest)
                             else (0%Z, f_of_Z 1, false, l1)
                 | [] => (0%Z, f_of_Z 1, false, l1)
                 end in
               if negb pre && negb post then invalid
               else
                 let u := take_while (fun c => negb (digit_or_dot c)) l2 in
                 let rest := drop (length u) l2 in
                 match u with
                 | [] => Err ("time: missing unit in duration " +:+ time_quote orig)
                 | _ =>
                     match unitMap (unstr u) with
                     | None => Err ("time: unknown unit " +:+ time_quote (unstr u) +:+ " in duration " +:+ time_quote orig)
                     | Some unit =>
                         if (2 ^ 63 / unit <? v)%Z then invalid
                         else
                           let v := (v * unit)%Z in
                           if (0 <? f)%Z
                           then let v := uint64_add v (f_to_int64 (f_mul (f_of_Z f) (f_div (f_of_Z unit) scale))) in
                                if (2 ^ 63 <? v)%Z then invalid else Ok (v, rest)
                           else Ok (v, rest)
                     end
                 end
           end
  end.

(** The loop over the terms; each takes at least a byte. *)
Fixpoint duration_terms (fuel : nat) (orig : string) (d : Z) (l : bytes) : result string Z :=
  match l, fuel with
  | [], _ => Ok d
  | _, 0 => Err ("time: invalid duration " +:+ time_quote orig)
  | _, S fuel =>
      let? vr := duration_term orig l in
      let '(v, rest) := vr in
      let d := uint64_add d v in
      if (2 ^ 63 <? d)%Z then Err ("time: invalid duration " +:+ time_quote orig) else duration_terms fuel orig d rest
  end.

Definition ParseDuration (s : string) : result string duration :=
  let invalid := Err ("time: invalid duration " +:+ time_quote s) in
  let '(neg, l) := match str s with
                   | c :: r => if Ascii.eqb c "-" || Ascii.eqb c "+" then (Ascii.eqb c "-", r) else (false, str s)
                   | [] => (false, [])
                   end in
  if bool_decide (l = ["0"%char]) then Ok 0%Z
  else match l with
       | [] => invalid
       | _ =>
           let? d := duration_terms (length l) s 0 l in
           if neg then Ok (wrap_signed 64 (- wrap_signed 64 d))
           else if (2 ^ 63 - 1 <? d)%Z then invalid else Ok d
       end.

Example durations :
  ParseDuration "20s" = Ok (secs 20) /\ ParseDuration "1m30s" = Ok (secs 90) /\ ParseDuration "-1.5h" = Ok (- secs 5400)%Z /\
  ParseDuration "0.25ms" = Ok 250000%Z /\ ParseDuration "+.5us" = Ok 500%Z /\ ParseDuration "0" = Ok 0%Z /\
  ParseDuration "2562047h47m16.854775807s" = Ok max_duration /\
  ParseDuration "9223372036854775808ns" = Err ("time: invalid duration " +:+ time_quote "9223372036854775808ns") /\
  ParseDuration "-9223372036854775808ns" = Ok min_duration /\
  ParseDuration "5" = Err ("time: missing unit in duration " +:+ time_quote "5") /\
  ParseDuration "5d" = Err ("time: unknown unit " +:+ time_quote "d" +:+ " in duration " +:+ time_quote "5d").
Proof. vm_compute. split_and!; reflexivity. Qed.

(** ** Lemmas *)

Lemma take_while_length (p : ascii -> bool) (l : bytes) : length (take_while p l) <= length l.
Proof. induction l as [|c l IH]; cbn; [done|]. destruct (p c); cbn; lia. Qed.

(** Each term takes a byte at least: the fuel of the loop is never used up. *)
Lemma leadingInt_rest (x x' : Z) (l l' : bytes) : leadingInt x l = Some (x', l') -> length l' <= length l.
Proof.
  revert x. induction l as [|c l IH]; cbn; intros x H; [by injection H as _ <-|].
  destruct (is_digit c); cbn in H; [|by injection H as _ <-]. do 2 (case_match; [done|]). apply IH in H. lia.
Qed.

Lemma leadingFraction_rest (x : Z) (scale : float64) (o : bool) (l : bytes) : length (snd (leadingFraction x scale o l)) <= length l.
Proof.
  revert x scale o. induction l as [|c l IH]; cbn; intros x scale o; [lia|]. destruct (is_digit c); cbn; [|lia].
  repeat case_match; (etrans; [apply IH|lia]).
Qed.

Lemma duration_term_shrinks (orig : string) (l rest : bytes) (v : Z) : duration_term orig l = Ok (v, rest) -> length rest < length l.
Proof.
  unfold duration_term. destruct l as [|c r]; [done|]. destruct (digit_or_dot c); cbn [negb]; [|done].
  destruct (leadingInt 0 (c :: r)) as [[x l1]|] eqn:E; [|done]. apply leadingInt_rest in E.
  set (frac := match l1 with [] => _ | _ => _ end). destruct frac as [[[f scale] post] l2] eqn:Ef.
  assert (Hl2 : length l2 <= length l1).
  { unfold frac in Ef. destruct l1 as [|c1 r1]; [by injection Ef as _ _ _ <-|]. destruct (Ascii.eqb c1 "."); [|by injection Ef as _ _ _ <-].
    pose proof (leadingFraction_rest 0 (f_of_Z 1) false r1) as Hr. destruct (leadingFraction _ _ _ _) as [[f' s'] rest']. injection Ef as _ _ _ <-. cbn in *. lia. }
  destruct (_ && _); [done|]. destruct (take_while _ l2) as [|u us] eqn:Eu; [done|]. intros H.
  assert (rest = drop (length (u :: us)) l2) as -> by (repeat case_match; try done; by injection H as _ <-).
  pose proof (take_while_length (fun c => negb (digit_or_dot c)) l2) as Hu. rewrite Eu in Hu. rewrite length_drop. cbn [length] in *. lia.
Qed.

Lemma duration_fuel (n m : nat) (orig : string) (d : Z) (l : bytes) :
  length l <= n -> length l <= m -> duration_terms n orig d l = duration_terms m orig d l.
Proof.
  revert m d l. induction n as [|n IH]; intros m d l Hn Hm; [by destruct l, m; cbn in *; try lia|].
  destruct l as [|c l]; [by destruct m|]. destruct m as [|m]; [cbn in Hm; lia|]. cbn [duration_terms].
  destruct (duration_term orig (c :: l)) as [[v rest]|e] eqn:E; [|done]. apply duration_term_shrinks in E. cbn [result_bind]. cbv zeta.
  destruct (_ <? _)%Z; [done|]. apply IH; cbn in *; lia.
Qed.

Lemma duration_terms_range (n : nat) (orig : string) (d d' : Z) (l : bytes) :
  (0 <= d <= 2 ^ 63)%Z -> duration_terms n orig d l = Ok d' -> (0 <= d' <= 2 ^ 63)%Z.
Proof.
  revert d l. induction n as [|n IH]; intros d l Hd H; destruct l as [|c l]; cbn [duration_terms] in H; [by injection H as <-|done|by injection H as <-|].
  destruct (duration_term orig (c :: l)) as [[v rest]|e]; [|done]. cbn [result_bind] in H. cbv zeta in H.
  destruct (2 ^ 63 <? uint64_add d v)%Z eqn:E; [done|]. apply (IH _ _) in H; [done|]. apply Z.ltb_ge in E.
  split; [|done]. apply Z.mod_pos_bound. lia.
Qed.

(** A duration that parses fits an int64. *)
Lemma ParseDuration_fits (s : string) (d : duration) : ParseDuration s = Ok d -> fits_int 64 d.
Proof.
  unfold ParseDuration. destruct (match str s with [] => _ | _ => _ end) as [neg l]. destruct (bool_decide _); [intros [= <-]; unfold fits_int; lia|].
  destruct l as [|c l]; [done|]. destruct (duration_terms _ _ _ _) as [x|e] eqn:E; [|done]. apply duration_terms_range in E; [|lia]. cbn [result_bind].
  destruct neg; [|destruct (_ <? _)%Z eqn:El; [done|]]; intros [= <-].
  - unfold fits_int, wrap_signed. pose proof (Z.mod_pos_bound (- wrap_signed 64 x + 2 ^ (64 - 1)) (2 ^ 64)). unfold wrap_signed in *. lia.
  - apply Z.ltb_ge in El. unfold fits_int. cbn. lia.
Qed.
