(* ===== verification/FileSystem.v ===== *)
(** * The file system the agent writes to

    Each system call takes the next entry of a schedule of faults and fails when it is an error, so
    that a theorem about a world holds for every place an I/O error can strike. rename(2) is atomic; a
    failed write leaves a prefix in the file. *)
From stdpp Require Import stringmap.
From S2P Require Import Prelude GoNum GoStrings.

(** ** The file system *)

Inductive errno := ENOENT | EPERM | EBUSY | EXDEV | EIO.

#[export] Instance errno_eq_dec : EqDecision errno.
Proof. solve_decision. Defined.

Record Inode := mkInode { contents : bytes; perm : Z; owner : Z * Z }.

(** An entry of the schedule: no fault, or an error (with the bytes a failing write gets out). *)
Definition fault : Type := option (errno * nat).

Record World := mkWorld { disk : gmap string Inode; faults : list fault }.

Definition strerror (e : errno) : string :=
  match e with
  | ENOENT => "no such file or directory"
  | EPERM => "operation not permitted"
  | EBUSY => "device or resource busy"
  | EXDEV => "invalid cross-device link"
  | EIO => "input/output error"
  end.

(** Takes the next entry of the schedule; an exhausted schedule means no more faults. *)
Definition tick (w : World) : World * fault :=
  match faults w with
  | [] => (w, None)
  | f :: r => (w <|faults := r|>, f)
  end.

(** A call that may fail, and changes the disk only when it succeeds. *)
Definition syscall {A} (act : gmap string Inode -> errno + (gmap string Inode * A)) (w : World) :
    World * result errno A :=
  match tick w with
  | (w, Some (e, _)) => (w, Err e)
  | (w, None) => match act (disk w) with
                 | inl e => (w, Err e)
                 | inr (d, a) => (w <|disk := d|>, Ok a)
                 end
  end.

Definition ReadFile (path : string) : World -> World * result errno bytes :=
  syscall (fun d => match d !! path with Some i => inr (d, contents i) | None => inl ENOENT end).

Definition Stat (path : string) : World -> World * result errno Inode :=
  syscall (fun d => match d !! path with Some i => inr (d, i) | None => inl ENOENT end).

(** os.CreateTemp picks a name that does not exist and creates it with mode 0600, owned by the
    agent, which runs as root. *)
Definition CreateTemp (dir pattern : string) : World -> World * result errno string :=
  syscall (fun d => let name := fresh_string (dir +:+ "/" +:+ pattern) d in
                    inr (<[name := mkInode [] 384 (0, 0)%Z]> d, name)).

Definition on_file (name : string) (f : Inode -> Inode) : World -> World * result errno unit :=
  syscall (fun d => match d !! name with Some i => inr (<[name := f i]> d, tt) | None => inl ENOENT end).

Definition Chown (name : string) (uid gid : Z) := on_file name (fun i => i <|owner := (uid, gid)|>).
Definition Chmod (name : string) (mode : Z) := on_file name (fun i => i <|perm := mode|>).
Definition Sync (name : string) := on_file name id.
Definition Close (name : string) := on_file name id.

Definition Write (name : string) (data : bytes) (w : World) : World * result errno unit :=
  match tick w with
  | (w, Some (e, n)) =>
      (match disk w !! name with
       | Some i => w <|disk := <[name := i <|contents := take n data|>]> (disk w)|>
       | None => w
       end, Err e)
  | (w, None) =>
      match disk w !! name with
      | Some i => (w <|disk := <[name := i <|contents := data|>]> (disk w)|>, Ok tt)
      | None => (w, Err ENOENT)
      end
  end.

Definition Remove (name : string) : World -> World * result errno unit :=
  syscall (fun d => match d !! name with Some _ => inr (delete name d, tt) | None => inl ENOENT end).

Definition Rename (old new : string) : World -> World * result errno unit :=
  syscall (fun d => match d !! old with Some i => inr (<[new := i]> (delete old d), tt) | None => inl ENOENT end).

(** filepath.Dir on a Unix path. *)
Definition filepath_Dir (path : string) : string :=
  match rev (drop (length (take_while (fun c => negb (Ascii.eqb c "/")) (rev (str path)))) (rev (str path))) with
  | [] => "."
  | l => match rev (drop (length (take_while (Ascii.eqb "/") (rev l))) (rev l)) with
         | [] => "/"
         | p => unstr p
         end
  end.

(** ** Schedules *)

(** No fault is left. *)
Definition quiet (w : World) : Prop := Forall (fun f => f = None) (faults w).

(** At most one fault is left. *)
Fixpoint at_most_one (l : list fault) : Prop :=
  match l with
  | [] => True
  | None :: r => at_most_one r
  | Some _ :: r => Forall (fun f => f = None) r
  end.

(** The directory is synced on a best-effort basis: opening, syncing and closing it are three
    calls whose results are ignored. *)
Definition sync_dir (w : World) : World :=
  match tick w with
  | (w, Some _) => w
  | (w, None) => fst (tick (fst (tick w)))
  end.

(** os.WriteFile: open or create (truncating), write, close. *)
Definition OpenTrunc (name : string) (mode : Z) : World -> World * result errno unit :=
  syscall (fun d => let i := match d !! name with Some i => i <|contents := []|> | None => mkInode [] mode (0, 0)%Z end in
                    inr (<[name := i]> d, tt)).

Definition WriteFile (name : string) (data : bytes) (mode : Z) (w : World) : World * result errno unit :=
  match OpenTrunc name mode w with
  | (w, Err e) => (w, Err e)
  | (w, Ok _) =>
      let '(w, written) := Write name data w in
      let '(w, closed) := Close name w in
      (w, match written with Err e => Err e | Ok _ => closed end)
  end.

(** os.MkdirAll; the model keeps no directories, so that the call can only fail. *)
Definition MkdirAll (dir : string) : World -> World * result errno unit := syscall (fun d => inr (d, tt)).

(** ** Lemmas: single calls *)

Lemma tick_disk (w : World) : disk (fst (tick w)) = disk w.
Proof. unfold tick. by destruct (faults w), w. Qed.

Lemma quiet_at_most_one (l : list fault) : Forall (fun f => f = None) l -> at_most_one l.
Proof. induction 1 as [|f l -> _ IH]; done. Qed.

Lemma tick_quiet (w : World) : quiet w -> quiet (fst (tick w)) /\ snd (tick w) = None.
Proof.
  unfold quiet, tick. destruct (faults w) as [|f r] eqn:E; intros Hq; cbn; [by rewrite E|].
  apply Forall_cons in Hq as [-> Hq]. by destruct w.
Qed.

Lemma tick_single (w : World) :
  at_most_one (faults w) ->
  match tick w with
  | (w', None) => at_most_one (faults w')
  | (w', Some _) => quiet w'
  end.
Proof.
  unfold quiet, tick. destruct (faults w) as [|[f|] r] eqn:E; intros Hs; cbn; [by rewrite E|by destruct w..].
Qed.

(** A call either succeeds with its effect, or leaves the disk alone; its failure uses up the fault
    unless the call was refused for itself. *)
Lemma syscall_spec {A} (act : gmap string Inode -> errno + (gmap string Inode * A)) (w : World) :
  match syscall act w with
  | (w', Ok a) => act (disk w) = inr (disk w', a)
  | (w', Err e) => disk w' = disk w /\ ((exists a, act (disk w) = inr a) -> at_most_one (faults w) -> quiet w')
  end.
Proof.
  unfold syscall. pose proof (tick_disk w) as Hd. pose proof (tick_single w) as Hs.
  destruct (tick w) as [w1 [[e n]|]]; cbn in Hd; [by auto|]. rewrite Hd.
  destruct (act (disk w)) as [e|[d a]] eqn:Ea; [|by destruct w1]. split; [done|]. intros [a ?]. congruence.
Qed.

Lemma syscall_faults {A} (act : gmap string Inode -> errno + (gmap string Inode * A)) (w : World) :
  at_most_one (faults w) -> at_most_one (faults (fst (syscall act w))).
Proof.
  intros Hs. unfold syscall. pose proof (tick_single w Hs) as Ht. destruct (tick w) as [w1 [[e n]|]]; cbn.
  - by apply quiet_at_most_one.
  - destruct (act (disk w1)) as [e|[d a]]; by destruct w1.
Qed.

Lemma syscall_quiet {A} (act : gmap string Inode -> errno + (gmap string Inode * A)) (w : World) :
  quiet w -> quiet (fst (syscall act w)) /\
  snd (syscall act w) = match act (disk w) with inl e => Err e | inr (_, a) => Ok a end /\
  disk (fst (syscall act w)) = match act (disk w) with inl _ => disk w | inr (d, _) => d end.
Proof.
  intros Hq. destruct (tick_quiet w Hq) as [Hq' Hn]. unfold syscall. pose proof (tick_disk w) as Hd.
  destruct (tick w) as [w1 [f|]]; cbn in *; [done|]. rewrite Hd.
  destruct (act (disk w)) as [e|[d a]]; cbn; [done|]. by destruct w1.
Qed.

(** The disk is the original one, up to one file that did not exist. *)
Definition only (d : gmap string Inode) (t : string) (w : World) : Prop :=
  exists i, disk w = <[t := i]> d.

Definition scratch (d : gmap string Inode) (w : World) : Prop :=
  disk w = d \/ exists t i, d !! t = None /\ disk w = <[t := i]> d.

Lemma on_file_only (d : gmap string Inode) (t : string) (f : Inode -> Inode) (w : World) (i : Inode) :
  disk w = <[t := i]> d ->
  match on_file t f w with
  | (w', Ok _) => disk w' = <[t := f i]> d
  | (w', Err _) => disk w' = <[t := i]> d
  end.
Proof.
  intros Hd. unfold on_file. match goal with |- match syscall ?a w with _ => _ end => pose proof (syscall_spec a w) as Hs end.
  destruct (syscall _ w) as [w' [[]|e]]; [|destruct Hs as [-> _]; done].
  rewrite Hd, lookup_insert_eq in Hs. injection Hs as Hs. by rewrite <- Hs, insert_insert_eq.
Qed.

Lemma Write_only (d : gmap string Inode) (t : string) (data : bytes) (w : World) (i : Inode) :
  disk w = <[t := i]> d ->
  match Write t data w with
  | (w', Ok _) => disk w' = <[t := i <|contents := data|>]> d
  | (w', Err _) => only d t w'
  end.
Proof.
  intros Hd. unfold Write. pose proof (tick_disk w) as Ht. destruct (tick w) as [w1 [[e n]|]]; cbn in Ht;
    rewrite Ht, Hd, lookup_insert_eq, insert_insert_eq; destruct w1; cbn; [by eexists|done].
Qed.

Lemma Remove_only (d : gmap string Inode) (t : string) (w : World) :
  d !! t = None -> only d t w -> scratch d (fst (Remove t w)).
Proof.
  intros Hn [i Hd]. unfold Remove. match goal with |- scratch d (fst (syscall ?a w)) => pose proof (syscall_spec a w) as Hs end.
  destruct (syscall _ w) as [w' [[]|e]]; cbn [fst].
  - left. rewrite Hd, lookup_insert_eq in Hs. injection Hs as <-. by rewrite delete_insert_id.
  - right. exists t, i. destruct Hs as [-> _]. done.
Qed.

Lemma discard_only (close : bool) (d : gmap string Inode) (t : string) (w : World) :
  d !! t = None -> only d t w -> scratch d (fst (Remove t (if close then fst (Close t w) else w))).
Proof.
  intros Hn [i Hi]. apply Remove_only; [done|]. destruct close; [|by exists i].
  unfold Close. pose proof (on_file_only d t id w i Hi) as Hc. destruct (on_file t id w) as [w' []]; by exists i.
Qed.

(** ** Lemmas: schedules are only consumed *)

Section Tail.
Variable P : list fault -> Prop.
Hypothesis P_tail : forall f r, P (f :: r) -> P r.

Lemma tick_tail (w : World) : P (faults w) -> P (faults (fst (tick w))).
Proof. unfold tick. destruct (faults w) as [|f r] eqn:E; intros Hp; cbn; [by rewrite E|]. destruct w. cbn. by eapply P_tail. Qed.

Lemma syscall_tail {A} (act : gmap string Inode -> errno + (gmap string Inode * A)) (w : World) :
  P (faults w) -> P (faults (fst (syscall act w))).
Proof.
  intros Hp. apply tick_tail in Hp. unfold syscall. destruct (tick w) as [w1 [[e n]|]]; cbn in *; [done|].
  destruct (act (disk w1)) as [e|[d a]]; by destruct w1.
Qed.

Lemma Write_tail (t : string) (data : bytes) (w : World) : P (faults w) -> P (faults (fst (Write t data w))).
Proof.
  intros Hp. apply tick_tail in Hp. unfold Write. destruct (tick w) as [w1 [[e n]|]]; cbn in *;
    destruct (disk w1 !! t); by destruct w1.
Qed.

End Tail.

Lemma quiet_tail (f : fault) (r : list fault) : Forall (fun f => f = None) (f :: r) -> Forall (fun f => f = None) r.
Proof. by intros [_ ?]%Forall_cons. Qed.

Lemma at_most_one_tail (f : fault) (r : list fault) : at_most_one (f :: r) -> at_most_one r.
Proof. destruct f; cbn; [apply quiet_at_most_one|done]. Qed.

(** ** Lemmas: whole files *)

Lemma tmp_name (path : string) : path +:+ ".tmp" <> path.
Proof.
  intros He. assert (Hl : forall p, String.length (p +:+ ".tmp") = String.length p + 4).
  { induction p as [|c p IH]; [done|]. change (String c p +:+ ".tmp") with (String c (p +:+ ".tmp")). cbn [String.length]. lia. }
  specialize (Hl path). rewrite He in Hl. lia.
Qed.

Lemma WriteFile_spec (name : string) (data : bytes) (mode : Z) (w : World) :
  let '(w', r) := WriteFile name data mode w in
  (forall k, k <> name -> disk w' !! k = disk w !! k) /\
  (is_ok r = true -> exists i, disk w' !! name = Some i /\ contents i = data).
Proof.
  assert (Hc : forall i (u : World), (exists d, disk u = <[name := i]> d) ->
            disk (fst (Close name u)) = disk u).
  { intros i u [d Hd]. unfold Close, on_file, syscall. pose proof (tick_disk u) as Ht.
    destruct (tick u) as [u1 [[e n]|]]; cbn in *; [done|]. rewrite Ht, Hd, lookup_insert_eq. destruct u1; cbn in *.
    subst. by rewrite insert_insert_eq. }
  unfold WriteFile, OpenTrunc, syscall. pose proof (tick_disk w) as Ht. destruct (tick w) as [w1 [[e n]|]]; cbn [fst] in *.
  { split; [by intros; rewrite Ht|done]. }
  set (i := match disk w1 !! name with Some i => _ | None => _ end). destruct w1 as [d1 f1]. cbn in Ht. subst d1.
  set (w2 := update_field disk _ _). assert (Hd2 : disk w2 = <[name := i]> (disk w)) by done.
  pose proof (Write_only (disk w) name data w2 i Hd2) as Hw. destruct (Write name data w2) as [w3 r] eqn:Ew.
  assert (H3 : exists j, disk w3 = <[name := j]> (disk w) /\ (is_ok r = true -> contents j = data)).
  { destruct r; [eexists; split; [exact Hw|intros _; clear -i; clearbody i; by destruct i]|]. destruct Hw as [j Hj]. by exists j. }
  destruct H3 as (j & Hd3 & Hj). pose proof (Hc j w3 ltac:(by eexists)) as Hd4. destruct (Close name w3) as [w4 c].
  cbn [fst] in Hd4. rewrite Hd4, Hd3. split; [intros k Hk; by rewrite lookup_insert_ne|].
  intros Hr. exists j. split; [apply lookup_insert_eq|]. apply Hj. by destruct r.
Qed.

Lemma syscall_disk {A} (act : gmap string Inode -> errno + (gmap string Inode * A)) (w : World) :
  disk (fst (syscall act w)) = disk w \/ exists d a, act (disk w) = inr (d, a) /\ disk (fst (syscall act w)) = d /\ snd (syscall act w) = Ok a.
Proof.
  unfold syscall. pose proof (tick_disk w) as Ht. destruct (tick w) as [w1 [[e n]|]]; cbn in *; [by left|]. rewrite Ht.
  destruct (act (disk w)) as [e|[d a]]; [by left|]. right. exists d, a. by destruct w1.
Qed.

