(* ===== verification/Json.v ===== *)
(** * JSON documents (encoding/json)

    The documents the agent publishes. A Go map is an object whose members are kept in the order
    json.Marshal writes them, that is by key. *)
From S2P Require Import Prelude GoNum GoStrings.

(** ** JSON values *)

Inductive json :=
| JNull
| JStr (s : string)
| JInt (z : Z)
| JNum (text : string)
| JBool (b : bool)
| JArr (l : list json)
| JObj (l : list (string * json)).

Fixpoint jget (k : string) (l : list (string * json)) : option json :=
  match l with
  | [] => None
  | (k', v) :: r => if String.eqb k' k then Some v else jget k r
  end.

(** Assignment to a map entry. *)
Fixpoint jset (k : string) (v : json) (l : list (string * json)) : list (string * json) :=
  match l with
  | [] => [(k, v)]
  | (k', v') :: r =>
      match String.compare k k' with
      | Eq => (k, v) :: r
      | Lt => (k, v) :: l
      | Gt => (k', v') :: jset k v r
      end
  end.

(** *** encoding/json.Marshal *)

(** The bytes of the first rune when they are well-formed UTF-8 outside ASCII. *)
Definition rune_width (l : bytes) : option nat :=
  let cont c := byte_in 128 191 c in
  match l with
  | a :: b :: r =>
      if byte_in 194 223 a then if cont b then Some 2 else None
      else match r with
           | c :: r =>
               if ((code a =? 224)%N && byte_in 160 191 b || (byte_in 225 236 a || byte_in 238 239 a) && cont b ||
                   (code a =? 237)%N && byte_in 128 159 b) then if cont c then Some 3 else None
               else match r with
                    | d :: _ =>
                        if ((code a =? 240)%N && byte_in 144 191 b || byte_in 241 243 a && cont b ||
                            (code a =? 244)%N && byte_in 128 143 b) && cont c && cont d then Some 4 else None
                    | [] => None
                    end
           | [] => None
           end
  | _ => None
  end.

(** unicode/utf8.Valid *)
Fixpoint valid_utf8 (fuel : nat) (l : bytes) : bool :=
  match fuel with
  | 0 => true
  | S fuel =>
      match l with
      | [] => true
      | c :: r => if is_ascii_byte c then valid_utf8 fuel r
                  else match rune_width l with Some w => valid_utf8 fuel (drop w l) | None => false end
      end
  end.

Definition utf8 (s : string) : bool := valid_utf8 (String.length s) (str s).

Definition json_byte (c : ascii) : bytes :=
  let n := code c in
  if (n =? 34)%N || (n =? 92)%N then [backslash; c]
  else if (n =? 8)%N then backslash :: str "b"
  else if (n =? 9)%N then backslash :: str "t"
  else if (n =? 10)%N then backslash :: str "n"
  else if (n =? 12)%N then backslash :: str "f"
  else if (n =? 13)%N then backslash :: str "r"
  else if (n <? 32)%N || (n =? 60)%N || (n =? 62)%N || (n =? 38)%N
  then backslash :: str "u00" ++ [hex_digit (n / 16); hex_digit (n mod 16)]
  else [c].

Fixpoint json_body (fuel : nat) (l : bytes) : bytes :=
  match fuel with
  | 0 => []
  | S fuel =>
      match l with
      | [] => []
      | c :: r =>
          if is_ascii_byte c then json_byte c ++ json_body fuel r
          else match rune_width l with
               | None => backslash :: str "ufffd" ++ json_body fuel r
               | Some w =>
                   let rune := take w l in
                   (if bool_decide (rune = [ascii_of_N 226; ascii_of_N 128; ascii_of_N 168]) then backslash :: str "u2028"
                    else if bool_decide (rune = [ascii_of_N 226; ascii_of_N 128; ascii_of_N 169]) then backslash :: str "u2029"
                    else rune) ++ json_body fuel (drop w l)
               end
      end
  end.

Definition json_string (s : string) : bytes :=
  dquote :: json_body (String.length s) (str s) ++ [dquote].

Fixpoint commas (l : list bytes) : bytes :=
  match l with
  | [] => []
  | [x] => x
  | x :: r => x ++ ","%char :: commas r
  end.

Fixpoint Marshal (j : json) : bytes :=
  match j with
  | JNull => str "null"
  | JStr s => json_string s
  | JInt z => format_int z
  | JNum t => str t
  | JBool b => str (if b then "true" else "false")
  | JArr l => "["%char :: commas (map Marshal l) ++ ["]"%char]
  | JObj l => "{"%char :: commas (map (fun e => json_string (fst e) ++ ":"%char :: Marshal (snd e)) l) ++ ["}"%char]
  end.

(** ** Lemmas *)

Lemma jget_jset (k k' : string) (v : json) (l : list (string * json)) :
  jget k (jset k' v l) = if String.eqb k' k then Some v else jget k l.
Proof.
  induction l as [|[a x] l IH]; cbn; [done|]. destruct (String.compare k' a) eqn:E; cbn.
  - apply String.compare_eq_iff in E as ->. by destruct (String.eqb a k).
  - done.
  - rewrite IH. destruct (String.eqb a k) eqn:Ea; [|done]. b2p; subst.
    destruct (String.eqb k' k) eqn:Ek; [|done]. b2p; subst. pose proof (String.compare_antisym k k) as Ha. by rewrite E in Ha.
Qed.

