(* ===== verification/Locks.v ===== *)
(** * NETCONF datastore locks (internal/ems/netconfcm/locks.go, rpc_error.go) *)
From S2P Require Import Prelude GoStrings GoNum.

(** ** RPC errors *)

Definition ErrorTagInUse : string := "in-use".
Definition ErrorTagInvalidValue : string := "invalid-value".
Definition ErrorTagLockDenied : string := "lock-denied".
Definition ErrorTagOperationFailed : string := "operation-failed".

Record RPCError := mkRPCError {
  Tag : string;
  Type_ : string;
  AppTag : string;
  Message : string;
  OwnerSessionID : Z
}.

Definition NewRPCError (tag message : string) : RPCError :=
  mkRPCError (if String.eqb tag "" then ErrorTagOperationFailed else tag) "application" "" message 0.

Definition NewLockDenied (message : string) (owner : Z) : RPCError :=
  mkRPCError ErrorTagLockDenied "protocol" "" message owner.

Definition NewInUse (message : string) (owner : Z) : RPCError :=
  mkRPCError ErrorTagInUse "protocol" "" message owner.

Definition RPCError_Error (e : RPCError) : string :=
  if negb (OwnerSessionID e =? 0)%Z
  then Message e +:+ " (session " +:+ FormatUint (OwnerSessionID e) +:+ ")"
  else Message e.

(** ** State *)

Record SessionMeta := mkSession { SessionID : Z; Username : string }.

Record lockOwner := mkOwner { lo_SessionID : Z; lo_Username : string; lo_LastSeen : time }.

Record lockManager := mkLM {
  locks : gmap string lockOwner;
  sessions : gmap Z lockOwner;
  ttl : duration
}.

#[global] Instance lockOwner_eq_dec : EqDecision lockOwner.
Proof. solve_decision. Defined.

Definition DefaultLockTTL : duration := (30 * second)%Z.
Definition newLockManager : lockManager := mkLM ∅ ∅ DefaultLockTTL.

Definition normalizeDatastore (ds : string) : option string :=
  let ds := TrimSpace ds in
  if String.eqb ds "candidate" || String.eqb ds "running" then Some ds else None.

(** ** Expiry and session bookkeeping *)

(** A lock is removed once its owner has been silent for longer than the TTL; locks of session 0
    and locks with no time stamp stay. *)
Definition lock_stale (ttl : duration) (now : time) (o : lockOwner) : bool :=
  negb (lo_SessionID o =? 0)%Z && negb (time_is_zero (lo_LastSeen o)) &&
  negb (time_sub now (lo_LastSeen o) <=? ttl)%Z.

Definition session_stale (ttl : duration) (now : time) (o : lockOwner) : bool :=
  negb (time_is_zero (lo_LastSeen o)) && (ttl <? time_sub now (lo_LastSeen o))%Z.

Definition stale_owners (stale : lockOwner -> bool) (m : gmap string lockOwner) : gset Z :=
  map_to_set (fun _ o => lo_SessionID o) (filter (fun kv => stale kv.2 = true) m).

Definition expireLocked (now : time) (m : lockManager) : lockManager * gset Z * bool :=
  if (ttl m <=? 0)%Z then (m, ∅, false)
  else
    let stale := lock_stale (ttl m) now in
    let gone := session_stale (ttl m) now in
    (mkLM (filter (fun kv => stale kv.2 = false) (locks m))
          (filter (fun kv => gone kv.2 = false) (sessions m)) (ttl m),
     stale_owners stale (locks m) ∪ dom (filter (fun kv => gone kv.2 = true) (sessions m)),
     match locks m !! "candidate" with Some o => stale o | None => false end).

Definition touchLocked (meta : SessionMeta) (now : time) (m : lockManager) : lockManager :=
  if (SessionID meta =? 0)%Z then m
  else
    let user := TrimSpace (Username meta) in
    let user := match sessions m !! SessionID meta with
                | Some existing => if String.eqb user "" then lo_Username existing else user
                | None => user
                end in
    mkLM (locks m) (<[SessionID meta := mkOwner (SessionID meta) user now]> (sessions m)) (ttl m).

Section WithGoLib.
Context `{GoLib}.

Definition unsupported_datastore (ds : string) : RPCError :=
  NewRPCError ErrorTagInvalidValue ("unsupported datastore " +:+ Quote (TrimSpace ds)).

(** ** Operations; [now] arguments are the successive readings of time.Now *)

Definition lock (ds : string) (meta : SessionMeta) (now : time) (m : lockManager) : lockManager * option RPCError :=
  match normalizeDatastore ds with
  | None => (m, Some (unsupported_datastore ds))
  | Some ds =>
      let '(m, _, _) := expireLocked now m in
      let m := touchLocked meta now m in
      match locks m !! ds with
      | Some owner =>
          if (lo_SessionID owner =? SessionID meta)%Z
          then (mkLM (<[ds := mkOwner (lo_SessionID owner) (lo_Username owner) now]> (locks m)) (sessions m) (ttl m),
                Some (NewLockDenied (ds +:+ " datastore is already locked by this session") (lo_SessionID owner)))
          else (m, Some (NewLockDenied (ds +:+ " datastore is locked by another session") (lo_SessionID owner)))
      | None =>
          (mkLM (<[ds := mkOwner (SessionID meta) (TrimSpace (Username meta)) now]> (locks m)) (sessions m) (ttl m), None)
      end
  end.

Definition unlock (ds : string) (meta : SessionMeta) (now1 now2 : time) (m : lockManager) : lockManager * option RPCError :=
  match normalizeDatastore ds with
  | None => (m, Some (unsupported_datastore ds))
  | Some ds =>
      let '(m, _, _) := expireLocked now1 m in
      let m := touchLocked meta now2 m in
      match locks m !! ds with
      | None => (m, None)
      | Some owner =>
          if negb (lo_SessionID owner =? SessionID meta)%Z
          then (m, Some (mkRPCError ErrorTagOperationFailed "protocol" ""
                           (ds +:+ " datastore is locked by another session") (lo_SessionID owner)))
          else (mkLM (delete ds (locks m)) (sessions m) (ttl m), None)
      end
  end.

Definition ensure (ds : string) (meta : SessionMeta) (conflictTag : string) (now1 now2 : time) (m : lockManager)
  : lockManager * option RPCError :=
  match normalizeDatastore ds with
  | None => (m, Some (unsupported_datastore ds))
  | Some ds =>
      let '(m, _, _) := expireLocked now1 m in
      let m := touchLocked meta now2 m in
      match locks m !! ds with
      | Some owner =>
          if negb (lo_SessionID owner =? SessionID meta)%Z
          then (m, Some ((if String.eqb conflictTag ErrorTagInUse then NewInUse else NewLockDenied)
                           (ds +:+ " datastore is locked by another session") (lo_SessionID owner)))
          else (m, None)
      | None => (m, None)
      end
  end.

Definition releaseSession (sessionID : Z) (m : lockManager) : lockManager * bool :=
  if (sessionID =? 0)%Z then (m, false)
  else
    (mkLM (filter (fun kv => lo_SessionID kv.2 <> sessionID) (locks m)) (delete sessionID (sessions m)) (ttl m),
     match locks m !! "candidate" with Some o => (lo_SessionID o =? sessionID)%Z | None => false end).

Definition resetAll (m : lockManager) : lockManager * bool :=
  (mkLM ∅ ∅ (ttl m), match locks m !! "candidate" with Some _ => true | None => false end).

(** One session of a keep-alive message. *)
Definition keepAlive_one (now : time) (meta : SessionMeta) (m : lockManager) : lockManager :=
  if (SessionID meta =? 0)%Z then m
  else
    let user := TrimSpace (Username meta) in
    let refresh current :=
      if (lo_SessionID current =? SessionID meta)%Z
      then mkOwner (lo_SessionID current) (if String.eqb user "" then lo_Username current else user) now
      else current in
    mkLM (refresh <$> locks m) (<[SessionID meta := mkOwner (SessionID meta) user now]> (sessions m)) (ttl m).

Definition keepAlive (metas : list SessionMeta) (now clock : time) (m : lockManager) : lockManager :=
  let now := if time_is_zero now then clock else now in
  foldl (fun m meta => keepAlive_one now meta m) m metas.

Definition sweep (now clock : time) (m : lockManager) : lockManager * gset Z * bool :=
  expireLocked (if time_is_zero now then clock else now) m.

End WithGoLib.

(** ** Sequences of operations *)

Inductive lock_op : Type :=
| OpLock (ds : string) (meta : SessionMeta) (now : time)
| OpUnlock (ds : string) (meta : SessionMeta) (now1 now2 : time)
| OpEnsure (ds : string) (meta : SessionMeta) (conflictTag : string) (now1 now2 : time)
| OpRelease (sessionID : Z)
| OpReset
| OpKeepAlive (metas : list SessionMeta) (now clock : time)
| OpSweep (now clock : time).

Definition run_op `{GoLib} (op : lock_op) (m : lockManager) : lockManager :=
  match op with
  | OpLock ds meta now => fst (lock ds meta now m)
  | OpUnlock ds meta now1 now2 => fst (unlock ds meta now1 now2 m)
  | OpEnsure ds meta tag now1 now2 => fst (ensure ds meta tag now1 now2 m)
  | OpRelease id => fst (releaseSession id m)
  | OpReset => fst (resetAll m)
  | OpKeepAlive metas now clock => keepAlive metas now clock m
  | OpSweep now clock => fst (fst (sweep now clock m))
  end.

Definition run_ops `{GoLib} (ops : list lock_op) (m : lockManager) : lockManager :=
  foldl (fun m op => run_op op m) m ops.

(** ** Specification: who holds which datastore *)

(** The abstract state maps a locked datastore to the session that holds it. *)
Module LockSpec.
Definition acquire (ds : string) (sid : Z) (h : gmap string Z) : gmap string Z * option Z :=
  match h !! ds with
  | Some o => (h, Some o)
  | None => (<[ds := sid]> h, None)
  end.
Definition release (ds : string) (sid : Z) (h : gmap string Z) : gmap string Z * option Z :=
  match h !! ds with
  | None => (h, None)
  | Some o => if (o =? sid)%Z then (delete ds h, None) else (h, Some o)
  end.
Definition check (ds : string) (sid : Z) (h : gmap string Z) : gmap string Z * option Z :=
  match h !! ds with
  | Some o => if (o =? sid)%Z then (h, None) else (h, Some o)
  | None => (h, None)
  end.
End LockSpec.

(** A lock counts at time [now] when expireLocked would keep it. *)
Definition live (ttl : duration) (now : time) (o : lockOwner) : bool :=
  (ttl <=? 0)%Z || negb (lock_stale ttl now o).

Definition holders (now : time) (m : lockManager) : gmap string Z :=
  lo_SessionID <$> filter (fun kv => live (ttl m) now kv.2 = true) (locks m).

(** Locks exist for the two datastores only, and a session is filed under its own non-zero id. *)
Definition lm_wf (m : lockManager) : Prop :=
  (forall ds o, locks m !! ds = Some o -> ds = "candidate" \/ ds = "running") /\
  (forall id o, sessions m !! id = Some o -> id <> 0%Z /\ lo_SessionID o = id).

(** ** Lemmas *)

Lemma expire_locks (now : time) (m : lockManager) :
  locks (expireLocked now m).1.1 = filter (fun kv => live (ttl m) now kv.2 = true) (locks m).
Proof.
  unfold expireLocked, live. destruct (Z.leb_spec (ttl m) 0); simpl.
  - symmetry. apply map_filter_id. done.
  - apply map_filter_ext. intros ds o _. simpl. by rewrite negb_true_iff.
Qed.

Lemma expire_ttl (now : time) (m : lockManager) : ttl (expireLocked now m).1.1 = ttl m.
Proof. unfold expireLocked. by destruct (_ <=? _)%Z. Qed.

Lemma touch_locks (meta : SessionMeta) (now : time) (m : lockManager) :
  locks (touchLocked meta now m) = locks m.
Proof. unfold touchLocked. by destruct (_ =? _)%Z. Qed.

Lemma touch_ttl (meta : SessionMeta) (now : time) (m : lockManager) :
  ttl (touchLocked meta now m) = ttl m.
Proof. unfold touchLocked. by destruct (_ =? _)%Z. Qed.

Lemma normalizeDatastore_cases (ds d : string) :
  normalizeDatastore ds = Some d -> d = "candidate" \/ d = "running".
Proof.
  unfold normalizeDatastore. destruct (String.eqb_spec (TrimSpace ds) "candidate") as [E|E]; simpl.
  - intros [= <-]. by left.
  - destruct (String.eqb_spec (TrimSpace ds) "running") as [E'|E']; [|done].
    intros [= <-]. by right.
Qed.

Lemma fresh_live (ttl : duration) (now : time) (sid : Z) (u : string) : live ttl now (mkOwner sid u now) = true.
Proof.
  unfold live, lock_stale, time_sub. simpl. destruct (Z.leb_spec ttl 0); [done|]. simpl.
  destruct (Z.leb_spec (Z.max min_duration (Z.min max_duration (now - now))) ttl) as [|Hgt].
  - by rewrite andb_false_r.
  - rewrite Z.sub_diag in Hgt. unfold min_duration, max_duration in Hgt. lia.
Qed.

Lemma holders_lookup (now : time) (m : lockManager) (ds : string) :
  holders now m !! ds = lo_SessionID <$> (filter (fun kv => live (ttl m) now kv.2 = true) (locks m) !! ds).
Proof. unfold holders. apply lookup_fmap. Qed.

Lemma filter_live_idem (ttl : duration) (now : time) (l : gmap string lockOwner) :
  filter (fun kv => live ttl now kv.2 = true) (filter (fun kv => live ttl now kv.2 = true) l) =
  filter (fun kv => live ttl now kv.2 = true) l.
Proof. apply map_filter_id. intros ds o Ho. by apply map_lookup_filter_Some in Ho as [_ ?]. Qed.

Lemma holders_insert_fresh (now : time) (ds : string) (sid : Z) (u : string) (l : gmap string lockOwner) s t :
  l = filter (fun kv => live t now kv.2 = true) l ->
  holders now (mkLM (<[ds := mkOwner sid u now]> l) s t) = <[ds := sid]> (lo_SessionID <$> l).
Proof.
  intros El. unfold holders. simpl. rewrite map_filter_insert_True by apply fresh_live.
  rewrite fmap_insert, <- El. done.
Qed.

Lemma live_mono (ttl : duration) (now : time) (o o' : lockOwner) :
  lo_SessionID o' = lo_SessionID o -> (0 < lo_LastSeen o <= lo_LastSeen o')%Z ->
  live ttl now o = true -> live ttl now o' = true.
Proof.
  unfold live, lock_stale, time_is_zero. intros -> Ht Hl.
  destruct (Z.leb_spec ttl 0); [done|]. simpl in *. b2p.
  destruct (lo_SessionID o =? 0)%Z; [done|]. simpl in *.
  destruct (Z.eqb_spec (lo_LastSeen o) 0); [lia|].
  destruct (Z.eqb_spec (lo_LastSeen o') 0); [lia|]. simpl in *. b2p.
  pose proof (time_sub_mono now _ _ (proj2 Ht)).
  apply negb_true_iff, negb_false_iff, Z.leb_le. lia.
Qed.

(** What the three guarded operations see of the lock table after expiry and touch. *)
Lemma guarded_locks (meta : SessionMeta) (now1 now2 : time) (m : lockManager) :
  let m' := touchLocked meta now2 (expireLocked now1 m).1.1 in
  locks m' = filter (fun kv => live (ttl m) now1 kv.2 = true) (locks m) /\ ttl m' = ttl m.
Proof. simpl. by rewrite touch_locks, touch_ttl, expire_locks, expire_ttl. Qed.

Section Theorems.
Context `{GoLib}.

Lemma lock_refines (ds d : string) (meta : SessionMeta) (now : time) (m : lockManager) :
  normalizeDatastore ds = Some d ->
  LockSpec.acquire d (SessionID meta) (holders now m) =
    (holders now (lock ds meta now m).1, OwnerSessionID <$> (lock ds meta now m).2).
Proof.
  intros Hds. unfold lock. rewrite Hds.
  destruct (expireLocked now m) as [[m1 ex] ce] eqn:Ex.
  pose proof (guarded_locks meta now now m) as G. rewrite Ex in G. simpl in G. destruct G as [GL GT].
  unfold LockSpec.acquire. rewrite holders_lookup, <- GL.
  destruct (locks (touchLocked meta now m1) !! d) as [o|] eqn:El; simpl.
  - destruct (Z.eqb_spec (lo_SessionID o) (SessionID meta)); simpl; f_equal.
    + rewrite holders_insert_fresh by (rewrite GT, GL; symmetry; apply filter_live_idem).
      unfold holders. rewrite <- GL. symmetry. apply insert_id. rewrite lookup_fmap, El. done.
    + unfold holders. rewrite GT, GL. by rewrite filter_live_idem.
  - f_equal. rewrite holders_insert_fresh by (rewrite GT, GL; symmetry; apply filter_live_idem).
    unfold holders. by rewrite <- GL.
Qed.

Lemma unlock_refines (ds d : string) (meta : SessionMeta) (now1 now2 : time) (m : lockManager) :
  normalizeDatastore ds = Some d ->
  LockSpec.release d (SessionID meta) (holders now1 m) =
    (holders now1 (unlock ds meta now1 now2 m).1, OwnerSessionID <$> (unlock ds meta now1 now2 m).2).
Proof.
  intros Hds. unfold unlock. rewrite Hds.
  destruct (expireLocked now1 m) as [[m1 ex] ce] eqn:Ex.
  pose proof (guarded_locks meta now1 now2 m) as G. rewrite Ex in G. simpl in G. destruct G as [GL GT].
  unfold LockSpec.release. rewrite holders_lookup, <- GL.
  destruct (locks (touchLocked meta now2 m1) !! d) as [o|] eqn:El; simpl.
  - destruct (Z.eqb_spec (lo_SessionID o) (SessionID meta)); simpl; f_equal; unfold holders; simpl;
      rewrite GT, GL.
    + by rewrite map_filter_delete, fmap_delete, filter_live_idem.
    + by rewrite filter_live_idem.
  - f_equal. unfold holders. by rewrite GT, GL, filter_live_idem.
Qed.

Lemma ensure_refines (ds d tag : string) (meta : SessionMeta) (now1 now2 : time) (m : lockManager) :
  normalizeDatastore ds = Some d ->
  LockSpec.check d (SessionID meta) (holders now1 m) =
    (holders now1 (ensure ds meta tag now1 now2 m).1, OwnerSessionID <$> (ensure ds meta tag now1 now2 m).2).
Proof.
  intros Hds. unfold ensure. rewrite Hds.
  destruct (expireLocked now1 m) as [[m1 ex] ce] eqn:Ex.
  pose proof (guarded_locks meta now1 now2 m) as G. rewrite Ex in G. simpl in G. destruct G as [GL GT].
  unfold LockSpec.check. rewrite holders_lookup, <- GL.
  destruct (locks (touchLocked meta now2 m1) !! d) as [o|] eqn:El; simpl.
  - destruct (Z.eqb_spec (lo_SessionID o) (SessionID meta)); simpl; f_equal; unfold holders;
      rewrite ?GT, ?GL, ?filter_live_idem; try done.
    by destruct (String.eqb tag ErrorTagInUse).
  - f_equal. unfold holders. by rewrite GT, GL, filter_live_idem.
Qed.

(** *** Well-formedness *)

Lemma lm_wf_subset (m : lockManager) (l : gmap string lockOwner) (s : gmap Z lockOwner) t :
  lm_wf m -> (forall ds, is_Some (l !! ds) -> is_Some (locks m !! ds) \/ ds = "candidate" \/ ds = "running") ->
  (forall id o, s !! id = Some o -> sessions m !! id = Some o \/ (id <> 0%Z /\ lo_SessionID o = id)) ->
  lm_wf (mkLM l s t).
Proof.
  intros [Wl Ws] Hl Hs. split; simpl.
  - intros ds o Ho. destruct (Hl ds) as [[o' Ho']|]; eauto.
  - intros id o Ho. destruct (Hs id o Ho) as [?|?]; eauto.
Qed.

Lemma expire_wf (now : time) (m : lockManager) : lm_wf m -> lm_wf (expireLocked now m).1.1.
Proof.
  intros W. unfold expireLocked. destruct (_ <=? _)%Z; [done|]. simpl.
  apply (lm_wf_subset m); [done| |].
  - intros ds [o Ho]. apply map_lookup_filter_Some in Ho as [? _]. left. eauto.
  - intros id o Ho. apply map_lookup_filter_Some in Ho as [? _]. by left.
Qed.

Lemma touch_wf (meta : SessionMeta) (now : time) (m : lockManager) : lm_wf m -> lm_wf (touchLocked meta now m).
Proof.
  intros W. unfold touchLocked. destruct (Z.eqb_spec (SessionID meta) 0); [done|].
  apply (lm_wf_subset m); [done|by left|].
  intros id o Ho. destruct (decide (SessionID meta = id)) as [<-|Hne].
  - rewrite lookup_insert_eq in Ho. simplify_eq. by right.
  - rewrite lookup_insert_ne in Ho by done. by left.
Qed.

Lemma keepAlive_one_wf (now : time) (meta : SessionMeta) (m : lockManager) :
  lm_wf m -> lm_wf (keepAlive_one now meta m).
Proof.
  intros W. unfold keepAlive_one. destruct (Z.eqb_spec (SessionID meta) 0); [done|].
  apply (lm_wf_subset m); [done| |].
  - intros ds Hs. rewrite lookup_fmap in Hs. destruct (locks m !! ds); [by left|by destruct Hs].
  - intros id o Ho. destruct (decide (SessionID meta = id)) as [<-|Hne].
    + rewrite lookup_insert_eq in Ho. simplify_eq. by right.
    + rewrite lookup_insert_ne in Ho by done. by left.
Qed.

Lemma run_op_wf (op : lock_op) (m : lockManager) : lm_wf m -> lm_wf (run_op op m).
Proof.
  intros W. destruct op as [ds meta now|ds meta n1 n2|ds meta tag n1 n2|id| |metas now clock|now clock]; simpl.
  - unfold lock. destruct (normalizeDatastore ds) as [d|] eqn:Hd; [|done].
    pose proof (touch_wf meta now _ (expire_wf now m W)) as W1.
    destruct (expireLocked now m) as [[m1 ?] ?]; simpl in *.
    assert (Hins : forall o t, lm_wf (mkLM (<[d := o]> (locks (touchLocked meta now m1)))
                                 (sessions (touchLocked meta now m1)) t)).
    { intros o t. apply (lm_wf_subset _ _ _ _ W1); [|by left]. intros ds' [o' Ho'].
      destruct (decide (d = ds')) as [<-|]; [right; by eapply normalizeDatastore_cases|].
      rewrite lookup_insert_ne in Ho' by done. left; eauto. }
    destruct (locks _ !! d) as [o|]; [|apply Hins]. by destruct (_ =? _)%Z; [apply Hins|].
  - unfold unlock. destruct (normalizeDatastore ds) as [d|] eqn:Hd; [|done].
    pose proof (touch_wf meta n2 _ (expire_wf n1 m W)) as W1.
    destruct (expireLocked n1 m) as [[m1 ?] ?]; simpl in *.
    destruct (locks _ !! d) as [o|]; [|done]. destruct (negb _); [done|]. simpl.
    apply (lm_wf_subset _ _ _ _ W1); [|by left]. intros ds' [o' Ho'].
    apply lookup_delete_Some in Ho' as [_ ?]. left; eauto.
  - unfold ensure. destruct (normalizeDatastore ds) as [d|] eqn:Hd; [|done].
    pose proof (touch_wf meta n2 _ (expire_wf n1 m W)) as W1.
    destruct (expireLocked n1 m) as [[m1 ?] ?]; simpl in *.
    destruct (locks _ !! d) as [o|]; [|done]. by destruct (negb _).
  - unfold releaseSession. destruct (_ =? _)%Z; [done|]. simpl.
    apply (lm_wf_subset m); [done| |].
    + intros ds [o Ho]. apply map_lookup_filter_Some in Ho as [? _]. left; eauto.
    + intros id' o Ho. apply lookup_delete_Some in Ho as [_ ?]. by left.
  - split; simpl; intros ? ? Ho; by rewrite lookup_empty in Ho.
  - unfold keepAlive. set (t := if _ : bool then clock else now). clearbody t. revert m W.
    induction metas as [|meta metas IH]; intros m W; [done|]. simpl. by apply IH, keepAlive_one_wf.
  - unfold sweep. by apply expire_wf.
Qed.

Lemma newLockManager_wf : lm_wf newLockManager.
Proof. split; simpl; intros ? ? Ho; by rewrite lookup_empty in Ho. Qed.

Lemma run_ops_wf (ops : list lock_op) (m : lockManager) : lm_wf m -> lm_wf (run_ops ops m).
Proof. revert m. induction ops as [|op ops IH]; intros m W; [done|]. simpl. by apply IH, run_op_wf. Qed.

(** *** A held lock persists *)

(** The readings of the clock an operation makes. *)
Definition op_times (op : lock_op) : list time :=
  match op with
  | OpLock _ _ now => [now]
  | OpUnlock _ _ n1 n2 | OpEnsure _ _ _ n1 n2 => [n1; n2]
  | OpRelease _ | OpReset => []
  | OpKeepAlive _ now clock | OpSweep now clock => [if time_is_zero now then clock else now]
  end.

(** The operations by which session [sid] itself, or the agent, gives up its lock on [ds]. *)
Definition gives_up (sid : Z) (ds : string) (op : lock_op) : Prop :=
  match op with
  | OpUnlock d meta _ _ => normalizeDatastore d = Some ds /\ SessionID meta = sid
  | OpRelease id => id = sid
  | OpReset => True
  | _ => False
  end.

Definition holds (sid : Z) (ds : string) (since : time) (m : lockManager) : Prop :=
  exists o, locks m !! ds = Some o /\ lo_SessionID o = sid /\ (since <= lo_LastSeen o)%Z.

Lemma holds_live (sid : Z) (ds : string) (since now : time) (m : lockManager) (o : lockOwner) :
  (0 < since)%Z -> (now <= since + ttl m)%Z -> (0 <= ttl m)%Z -> (since <= lo_LastSeen o)%Z ->
  live (ttl m) now o = true.
Proof.
  intros Hs Hn Ht Ho. unfold live, lock_stale. destruct (Z.leb_spec (ttl m) 0); [done|].
  assert (time_sub now (lo_LastSeen o) <= ttl m)%Z.
  { apply time_sub_le; [lia|]. unfold min_duration. lia. }
  destruct (Z.leb_spec (time_sub now (lo_LastSeen o)) (ttl m)); [by rewrite andb_false_r|lia].
Qed.

Lemma expire_keeps (sid : Z) (ds : string) (since now : time) (m : lockManager) :
  (0 < since)%Z -> (now <= since + ttl m)%Z -> (0 <= ttl m)%Z ->
  holds sid ds since m -> holds sid ds since (expireLocked now m).1.1.
Proof.
  intros Hs Hn Ht (o & Ho & Hsid & Hsince). exists o. split; [|done].
  rewrite expire_locks. apply map_lookup_filter_Some. split; [done|]. by eapply holds_live.
Qed.

Lemma keepAlive_one_keeps (sid : Z) (ds : string) (since now : time) (meta : SessionMeta) (m : lockManager) :
  (since <= now)%Z -> holds sid ds since m -> holds sid ds since (keepAlive_one now meta m).
Proof.
  intros Hn (o & Ho & Hsid & Hsince). unfold keepAlive_one.
  destruct (_ =? 0)%Z; [by exists o|]. unfold holds. simpl. rewrite lookup_fmap, Ho. simpl.
  destruct (lo_SessionID o =? SessionID meta)%Z; eexists; split; try done; simpl; auto.
Qed.

Lemma keepAlive_one_ttl now meta m : ttl (keepAlive_one now meta m) = ttl m.
Proof. unfold keepAlive_one. by destruct (_ =? _)%Z. Qed.

Lemma run_op_ttl (op : lock_op) (m : lockManager) : ttl (run_op op m) = ttl m.
Proof.
  destruct op as [ds meta now|ds meta n1 n2|ds meta tag n1 n2|id| |metas now clock|now clock]; simpl.
  - unfold lock. destruct (normalizeDatastore ds); [|done].
    pose proof (expire_ttl now m) as E. destruct (expireLocked now m) as [[m1 ?] ?].
    destruct (locks _ !! _); [destruct (_ =? _)%Z|]; simpl; by rewrite touch_ttl.
  - unfold unlock. destruct (normalizeDatastore ds); [|done].
    pose proof (expire_ttl n1 m) as E. destruct (expireLocked n1 m) as [[m1 ?] ?].
    destruct (locks _ !! _); [destruct (negb _)|]; simpl; by rewrite touch_ttl.
  - unfold ensure. destruct (normalizeDatastore ds); [|done].
    pose proof (expire_ttl n1 m) as E. destruct (expireLocked n1 m) as [[m1 ?] ?].
    destruct (locks _ !! _); [destruct (negb _)|]; simpl; by rewrite touch_ttl.
  - unfold releaseSession. by destruct (_ =? _)%Z.
  - done.
  - unfold keepAlive. set (t := if _ : bool then clock else now). clearbody t. revert m.
    induction metas as [|meta metas IH]; intros m; [done|]. simpl. by rewrite IH, keepAlive_one_ttl.
  - apply expire_ttl.
Qed.

Lemma run_op_keeps (sid : Z) (ds : string) (since : time) (op : lock_op) (m : lockManager) :
  (0 < since)%Z -> (0 <= ttl m)%Z ->
  Forall (fun t => (since <= t <= since + ttl m)%Z) (op_times op) -> ~ gives_up sid ds op ->
  holds sid ds since m -> holds sid ds since (run_op op m).
Proof.
  intros Hs Ht Htimes Hg Hh.
  assert (Hex : forall n1 n2 meta, (since <= n1 <= since + ttl m)%Z ->
            exists o, locks (touchLocked meta n2 (expireLocked n1 m).1.1) !! ds = Some o /\
                      lo_SessionID o = sid /\ (since <= lo_LastSeen o)%Z).
  { intros n1 n2 meta Hn. destruct (expire_keeps sid ds since n1 m) as (o & Ho & ?); try done; [lia|].
    exists o. by rewrite touch_locks. }
  destruct op as [d meta now|d meta n1 n2|d meta tag n1 n2|id| |metas now clock|now clock]; simpl in *.
  - apply Forall_cons in Htimes as [Htimes _]. unfold lock. destruct (normalizeDatastore d) as [d'|]; [|done].
    destruct (Hex now now meta Htimes) as (o & Ho & Hsid & Hsince).
    destruct (expireLocked now m) as [[m1 ?] ?]. simpl in *.
    destruct (decide (d' = ds)) as [->|Hne].
    + rewrite Ho. destruct (lo_SessionID o =? _)%Z; [|by exists o]. simpl.
      eexists. simpl. rewrite lookup_insert_eq. split; [done|]. simpl. lia.
    + destruct (locks _ !! d') as [o'|]; [destruct (_ =? _)%Z|]; simpl; exists o;
        simpl; rewrite ?lookup_insert_ne by done; done.
  - apply Forall_cons in Htimes as [Ht1 _]. unfold unlock. destruct (normalizeDatastore d) as [d'|] eqn:Ed; [|done].
    destruct (Hex n1 n2 meta Ht1) as (o & Ho & Hsid & Hsince).
    destruct (expireLocked n1 m) as [[m1 ?] ?]. simpl in *.
    destruct (decide (d' = ds)) as [->|Hne].
    + rewrite Ho. destruct (Z.eqb_spec (lo_SessionID o) (SessionID meta)); simpl; [|by exists o].
      exfalso. apply Hg. split; [done|]. congruence.
    + destruct (locks _ !! d') as [o'|]; [destruct (negb _)|]; simpl; exists o;
        simpl; rewrite ?lookup_delete_ne by done; done.
  - apply Forall_cons in Htimes as [Ht1 _]. unfold ensure. destruct (normalizeDatastore d) as [d'|] eqn:Ed; [|done].
    destruct (Hex n1 n2 meta Ht1) as (o & Ho & Hsid & Hsince).
    destruct (expireLocked n1 m) as [[m1 ?] ?]. simpl in *.
    destruct (locks _ !! d') as [o'|]; [destruct (negb _)|]; simpl; by exists o.
  - unfold releaseSession. destruct (_ =? 0)%Z; [done|]. destruct Hh as (o & Ho & Hsid & Hsince).
    exists o. simpl. split; [|done]. apply map_lookup_filter_Some. split; [done|]. simpl. congruence.
  - done.
  - apply Forall_cons in Htimes as [Htimes _]. unfold keepAlive. set (t := if _ : bool then clock else now) in *.
    clearbody t. clear -Htimes Hh. revert m Htimes Hh.
    induction metas as [|meta metas IH]; intros m Htimes Hh; [done|]. simpl. apply IH.
    + by rewrite keepAlive_one_ttl.
    + apply keepAlive_one_keeps; [lia|done].
  - apply Forall_cons in Htimes as [Htimes _]. unfold sweep. apply expire_keeps; try done. lia.
Qed.

Lemma run_ops_ttl (ops : list lock_op) (m : lockManager) : ttl (run_ops ops m) = ttl m.
Proof. revert m. induction ops as [|op ops IH]; intros m; [done|]. simpl. by rewrite IH, run_op_ttl. Qed.

Lemma run_ops_keeps (sid : Z) (ds : string) (since : time) (ops : list lock_op) (m : lockManager) :
  (0 < since)%Z -> (0 <= ttl m)%Z ->
  Forall (fun op => Forall (fun t => (since <= t <= since + ttl m)%Z) (op_times op) /\ ~ gives_up sid ds op) ops ->
  holds sid ds since m -> holds sid ds since (run_ops ops m).
Proof.
  intros Hs. revert m. induction ops as [|op ops IH]; intros m Ht Hops Hh; [done|]. simpl.
  apply Forall_cons in Hops as [[Ho1 Ho2] Hops].
  apply IH; [by rewrite run_op_ttl|by rewrite run_op_ttl|]. by apply run_op_keeps.
Qed.

Lemma holds_holders (sid : Z) (ds : string) (since now : time) (m : lockManager) :
  (0 < since)%Z -> (now <= since + ttl m)%Z -> (0 <= ttl m)%Z ->
  holds sid ds since m -> holders now m !! ds = Some sid.
Proof.
  intros Hs Hn Ht (o & Ho & <- & Hsince). rewrite holders_lookup.
  replace (filter _ (locks m) !! ds) with (Some o); [done|]. symmetry.
  apply map_lookup_filter_Some. split; [done|]. by eapply holds_live.
Qed.

(** ** Properties *)

(** C1: the lock table refines its specification.  For each supported datastore, lock, unlock and
    ensure act on the datastores held at that moment exactly as acquiring, releasing and checking
    a mutual-exclusion lock, and the session they report in the error is the holder. *)
Theorem lock_manager_refines_spec (ds d tag : string) (meta : SessionMeta) (now now2 : time) (m : lockManager) :
  normalizeDatastore ds = Some d ->
  LockSpec.acquire d (SessionID meta) (holders now m) =
    (holders now (lock ds meta now m).1, OwnerSessionID <$> (lock ds meta now m).2) /\
  LockSpec.release d (SessionID meta) (holders now m) =
    (holders now (unlock ds meta now now2 m).1, OwnerSessionID <$> (unlock ds meta now now2 m).2) /\
  LockSpec.check d (SessionID meta) (holders now m) =
    (holders now (ensure ds meta tag now now2 m).1, OwnerSessionID <$> (ensure ds meta tag now now2 m).2).
Proof. intros Hd. split_and!; [by apply lock_refines|by apply unlock_refines|by apply ensure_refines]. Qed.

(** Mutual exclusion over time.  From the moment session [sid] holds [ds], and as long as the
    clock stays within the TTL, no sequence of operations in which [sid] does not give the lock up
    (unlock, session close, global reset) takes it away, and every attempt of another session to
    lock, unlock or use the datastore is refused in the name of [sid]. *)
Theorem lock_mutual_exclusion (sid : Z) (ds tag : string) (since t t2 : time) (ops : list lock_op)
    (meta : SessionMeta) (m : lockManager) :
  (0 < since)%Z -> (0 <= ttl m)%Z -> holds sid ds since m ->
  Forall (fun op => Forall (fun t => (since <= t <= since + ttl m)%Z) (op_times op) /\ ~ gives_up sid ds op) ops ->
  (since <= t <= since + ttl m)%Z -> normalizeDatastore ds = Some ds -> SessionID meta <> sid ->
  let m' := run_ops ops m in
  holds sid ds since m' /\
  OwnerSessionID <$> (lock ds meta t m').2 = Some sid /\
  OwnerSessionID <$> (unlock ds meta t t2 m').2 = Some sid /\
  OwnerSessionID <$> (ensure ds meta tag t t2 m').2 = Some sid.
Proof.
  intros Hs Ht Hh Hops Htt Hd Hne m'.
  assert (Hh' : holds sid ds since m') by (by apply run_ops_keeps).
  assert (Et : ttl m' = ttl m) by apply run_ops_ttl.
  pose proof (holds_holders sid ds since t m' Hs ltac:(lia) ltac:(lia) Hh') as E.
  pose proof (lock_refines ds ds meta t m' Hd) as R1.
  pose proof (unlock_refines ds ds meta t t2 m' Hd) as R2.
  pose proof (ensure_refines ds ds tag meta t t2 m' Hd) as R3.
  unfold LockSpec.acquire, LockSpec.release, LockSpec.check in *. rewrite E in *.
  destruct (Z.eqb_spec sid (SessionID meta)); [congruence|].
  injection R1. injection R2. injection R3. done.
Qed.

(** A sweep removes exactly the silent sessions.  With a positive TTL, an owned and stamped
    lock survives iff its owner was heard from within the TTL; the ids reported are exactly those
    of the removed locks and of the sessions silent for longer; and the flag says whether the
    candidate lock was among them. *)
Theorem sweep_exact (now clock : time) (m : lockManager) :
  (0 < ttl m)%Z -> now <> 0%Z ->
  let '(m', expired, cand) := sweep now clock m in
  (forall ds o, locks m' !! ds = Some o <->
     locks m !! ds = Some o /\
     (lo_SessionID o = 0%Z \/ lo_LastSeen o = 0%Z \/ (time_sub now (lo_LastSeen o) <= ttl m)%Z)) /\
  (forall id, id ∈ expired <->
     (exists ds o, locks m !! ds = Some o /\ locks m' !! ds = None /\ lo_SessionID o = id) \/
     (exists o, sessions m !! id = Some o /\ lo_LastSeen o <> 0%Z /\ (ttl m < time_sub now (lo_LastSeen o))%Z)) /\
  (cand = true <-> is_Some (locks m !! "candidate") /\ locks m' !! "candidate" = None).
Proof.
  intros Ht Hn. unfold sweep, time_is_zero at 1. destruct (Z.eqb_spec now 0); [done|].
  unfold expireLocked. destruct (Z.leb_spec (ttl m) 0); [lia|]. simpl.
  assert (St : forall o, lock_stale (ttl m) now o = false <->
     (lo_SessionID o = 0%Z \/ lo_LastSeen o = 0%Z \/ (time_sub now (lo_LastSeen o) <= ttl m)%Z)).
  { intros o. unfold lock_stale, time_is_zero.
    destruct (Z.eqb_spec (lo_SessionID o) 0), (Z.eqb_spec (lo_LastSeen o) 0),
      (Z.leb_spec (time_sub now (lo_LastSeen o)) (ttl m)); simpl; intuition lia. }
  assert (Gone : forall ds, filter (fun kv : string * lockOwner => lock_stale (ttl m) now kv.2 = false) (locks m) !! ds = None <->
     forall o, locks m !! ds = Some o -> lock_stale (ttl m) now o = true).
  { intros ds. rewrite map_lookup_filter_None. split.
    - intros [E|E] o Ho; [congruence|]. by destruct (lock_stale _ _ o) eqn:E'; [|destruct (E o Ho)].
    - intros E. right. intros o Ho. simpl. by rewrite E. }
  split_and!.
  - intros ds o. rewrite map_lookup_filter_Some. simpl. by rewrite St.
  - intros id. rewrite elem_of_union, elem_of_dom. f_equiv.
    + unfold stale_owners. rewrite elem_of_map_to_set. split.
      * intros (ds & o & Ho & Hid). apply map_lookup_filter_Some in Ho as [Ho Hst]. simpl in Hst.
        exists ds, o. split_and!; [done| |done]. apply Gone. intros o' Ho'. simplify_eq. done.
      * intros (ds & o & Ho & Hg & Hid). exists ds, o. split; [|done].
        apply map_lookup_filter_Some. split; [done|]. by apply (proj1 (Gone ds) Hg).
    + split.
      * intros [o Ho]. apply map_lookup_filter_Some in Ho as [Ho Hst]. exists o. split; [done|].
        unfold session_stale, time_is_zero in Hst. simpl in Hst. by b2p.
      * intros (o & Ho & Hz & Hlt). exists o. apply map_lookup_filter_Some. split; [done|].
        unfold session_stale, time_is_zero. simpl. apply andb_true_iff. split; [|lia].
        by apply negb_true_iff, Z.eqb_neq.
  - rewrite Gone. destruct (locks m !! "candidate") as [o|] eqn:Ec; [|by split; [|intros [[? ?] _]]].
    split; [intros Hst; split; [eauto|]; intros o' [= <-]; done|].
    intros [_ Hg]. by apply Hg.
Qed.

End Theorems.

(** ** Witnesses *)

Definition alice : SessionMeta := mkSession 7 "alice".
Definition bob : SessionMeta := mkSession 9 "bob".
Definition alice_locked : lockManager := (lock (H:=ascii_golib) "candidate" alice (secs 100) newLockManager).1.

Lemma lock_manager_refines_spec_witness :
  normalizeDatastore " candidate " = Some "candidate" /\
  (lock (H:=ascii_golib) " candidate " bob (secs 101) alice_locked).2 =
    Some (NewLockDenied "candidate datastore is locked by another session" 7) /\
  LockSpec.acquire "candidate" 9 (holders (secs 101) alice_locked) =
    (holders (secs 101) (lock (H:=ascii_golib) " candidate " bob (secs 101) alice_locked).1, Some 7%Z).
Proof.
  split; [vm_compute; reflexivity|]. split; [vm_compute; reflexivity|].
  exact (proj1 (lock_manager_refines_spec (H:=ascii_golib) " candidate " "candidate" "" bob
                  (secs 101) (secs 101) alice_locked eq_refl)).
Defined.

Lemma lock_mutual_exclusion_witness :
  let m' := run_ops (H:=ascii_golib) [OpUnlock "candidate" bob (secs 105) (secs 105);
                                      OpSweep (secs 110) 0%Z; OpRelease 9] alice_locked in
  OwnerSessionID <$> (lock (H:=ascii_golib) "candidate" bob (secs 120) m').2 = Some 7%Z.
Proof.
  apply (lock_mutual_exclusion (H:=ascii_golib) 7 "candidate" "" (secs 100) (secs 120) (secs 120)
    [OpUnlock "candidate" bob (secs 105) (secs 105); OpSweep (secs 110) 0%Z; OpRelease 9]
    bob alice_locked).
  - vm_compute. reflexivity.
  - vm_compute. discriminate.
  - exists (mkOwner 7 "alice" (secs 100)). vm_compute. split_and!; [reflexivity|reflexivity|discriminate].
  - repeat constructor; simpl; try (vm_compute; discriminate); intros []; discriminate.
  - vm_compute. split; discriminate.
  - vm_compute. reflexivity.
  - discriminate.
Defined.

Lemma sweep_exact_witness :
  exists m' expired cand, sweep (secs 131) 0%Z alice_locked = (m', expired, cand) /\
    locks m' !! "candidate" = None /\ 7%Z ∈ expired.
Proof.
  pose proof (sweep_exact (secs 131) 0%Z alice_locked ltac:(vm_compute; reflexivity)
                ltac:(vm_compute; discriminate)) as S.
  destruct (sweep (secs 131) 0%Z alice_locked) as [[m' ex] c]. exists m', ex, c.
  destruct S as (S1 & S2 & _). split; [done|].
  assert (Hn : locks m' !! "candidate" = None).
  { destruct (locks m' !! "candidate") as [o|] eqn:Eo; [|done]. apply S1 in Eo as [Eo Hd].
    vm_compute in Eo. injection Eo as <-. vm_compute in Hd. destruct Hd as [Hd|[Hd|Hd]]; [done|done|by destruct Hd]. }
  split; [done|]. apply S2. left. exists "candidate", (mkOwner 7 "alice" (secs 100)). done.
Defined.
