(* ===== verification/ConfigData.v ===== *)
(** * The editable eNB configuration (internal/ems/configuration/store.go: data, leaf edits,
    validation) *)
From S2P Require Import Prelude GoNum GoStrings.

(** ** Data *)

Record QCIProfile := mkQCI {
  QCI : Z;
  DiscardTimer : Z;
  PDCPSNSize : Z;
  TPollRetx : Z;
  MaxRetxThresh : Z;
  TReordering : Z;
  Priority : Z
}.

Record EditableConfig := mkEditableConfig {
  ENBSerial : string;
  SIBConfigFile : string;
  RRConfigFile : string;
  RBConfigFile : string;
  ReportJSONUDSEnable : bool;
  ReportJSONUDSPath : string;
  AlarmsLogEnable : bool;
  AlarmsFilename : string;
  ENBID : string;
  MCC : string;
  MNC : string;
  MMEAddr : string;
  GTPBindAddr : string;
  S1CBindAddr : string;
  S1CBindPort : Z;
  NPRB : Z;
  TM : Z;
  DeviceName : string;
  DeviceArgs : string;
  TXGain : float64;
  RXGain : float64;
  TimeAdvNSamples : string;
  SchedPolicy : string;
  PDSCHMaxMCS : Z;
  PUSCHMaxMCS : Z;
  TargetBLER : float64;
  MinCtrlSymbols : Z;
  MaxCtrlSymbols : Z;
  CellID : string;
  TAC : string;
  DLEARFCN : Z;
  PCI : Z;
  HOActive : bool;
  A3Offset : Z;
  TimeToTrigger : Z;
  Hysteresis : Z;
  QRxLevMin : Z;
  CellBarred : string;
  NumRAPreambles : Z;
  PreambleInitRxTargetPwr : Z;
  PwrRampingStep : Z;
  ReferenceSignalPower : Z;
  P0NominalPUSCH : Z;
  P0NominalPUCCH : Z;
  Alpha : float64;
  DefaultPagingCycle : Z;
  T300 : Z;
  T301 : Z;
  T310 : Z;
  N310 : Z;
  T311 : Z;
  QCIProfiles : list QCIProfile;
  PUSCHMaxIts : Z;
  NRPUSCHMaxIts : Z;
  PUSCH8bitDecoder : bool;
  NofPHYThreads : Z;
  MetricsPeriodSecs : Z;
  TXAmplitude : float64;
  RRCInactivityTimer : Z;
  RLFReleaseTimerMs : Z;
  EEAPrefList : string;
  EIAPrefList : string;
  GTPUTunnelTimeout : Z;
  S1SetupMaxRetries : Z;
  S1ConnectTimer : Z;
  RXGainOffset : float64;
  UseCedronFEstAlg : bool;
  RLFMinULSNREstim : float64;
  MaxMacDLKOs : Z;
  MaxMacULKOs : Z
}.

(** Dynamically typed values: what JSON decoding and the NETCONF bindings put into a change map.
    Integers carry the width of their Go type; a float32 is given by its float64 value. *)
Inductive any : Type :=
| AString (s : string)
| AFloat64 (x : float64)
| AFloat32 (x : float64)
| AInt (z : Z)
| AInt32 (z : Z)
| AInt64 (z : Z)
| AUint32 (z : Z)
| ABool (b : bool)
| ANumber (s : string)
| AOther.

(** ** The JSON view of a configuration

    The struct tags give every editable scalar leaf its name; the profiles (a list) and the
    fields tagged "-" are kept apart. *)
Definition json_view (c : EditableConfig) : list (string * any) :=
  [ ("enb_serial", AString (ENBSerial c));
    ("enb_id", AString (ENBID c));
    ("mcc", AString (MCC c));
    ("mnc", AString (MNC c));
    ("mme_addr", AString (MMEAddr c));
    ("gtp_bind_addr", AString (GTPBindAddr c));
    ("s1c_bind_addr", AString (S1CBindAddr c));
    ("s1c_bind_port", AUint32 (S1CBindPort c));
    ("n_prb", AUint32 (NPRB c));
    ("tm", AUint32 (TM c));
    ("device_name", AString (DeviceName c));
    ("device_args", AString (DeviceArgs c));
    ("tx_gain", AFloat64 (TXGain c));
    ("rx_gain", AFloat64 (RXGain c));
    ("time_adv_nsamples", AString (TimeAdvNSamples c));
    ("sched_policy", AString (SchedPolicy c));
    ("pdsch_max_mcs", AInt32 (PDSCHMaxMCS c));
    ("pusch_max_mcs", AInt32 (PUSCHMaxMCS c));
    ("target_bler", AFloat64 (TargetBLER c));
    ("min_nof_ctrl_symbols", AInt32 (MinCtrlSymbols c));
    ("max_nof_ctrl_symbols", AInt32 (MaxCtrlSymbols c));
    ("cell_id", AString (CellID c));
    ("tac", AString (TAC c));
    ("dl_earfcn", AUint32 (DLEARFCN c));
    ("pci", AUint32 (PCI c));
    ("ho_active", ABool (HOActive c));
    ("a3_offset", AInt32 (A3Offset c));
    ("time_to_trigger", AInt32 (TimeToTrigger c));
    ("hysteresis", AInt32 (Hysteresis c));
    ("q_rx_lev_min", AInt32 (QRxLevMin c));
    ("cell_barred", AString (CellBarred c));
    ("num_ra_preambles", AInt32 (NumRAPreambles c));
    ("preamble_init_rx_target_pwr", AInt32 (PreambleInitRxTargetPwr c));
    ("pwr_ramping_step", AInt32 (PwrRampingStep c));
    ("reference_signal_power", AInt32 (ReferenceSignalPower c));
    ("p0_nominal_pusch", AInt32 (P0NominalPUSCH c));
    ("p0_nominal_pucch", AInt32 (P0NominalPUCCH c));
    ("alpha", AFloat64 (Alpha c));
    ("default_paging_cycle", AInt32 (DefaultPagingCycle c));
    ("t300", AInt32 (T300 c));
    ("t301", AInt32 (T301 c));
    ("t310", AInt32 (T310 c));
    ("n310", AInt32 (N310 c));
    ("t311", AInt32 (T311 c));
    ("pusch_max_its", AInt32 (PUSCHMaxIts c));
    ("nr_pusch_max_its", AInt32 (NRPUSCHMaxIts c));
    ("pusch_8bit_decoder", ABool (PUSCH8bitDecoder c));
    ("nof_phy_threads", AInt32 (NofPHYThreads c));
    ("metrics_period_secs", AInt32 (MetricsPeriodSecs c));
    ("tx_amplitude", AFloat64 (TXAmplitude c));
    ("rrc_inactivity_timer", AInt32 (RRCInactivityTimer c));
    ("rlf_release_timer_ms", AInt32 (RLFReleaseTimerMs c));
    ("eea_pref_list", AString (EEAPrefList c));
    ("eia_pref_list", AString (EIAPrefList c));
    ("gtpu_tunnel_timeout", AInt32 (GTPUTunnelTimeout c));
    ("s1_setup_max_retries", AInt32 (S1SetupMaxRetries c));
    ("s1_connect_timer", AInt32 (S1ConnectTimer c));
    ("rx_gain_offset", AFloat64 (RXGainOffset c));
    ("use_cedron_f_est_alg", ABool (UseCedronFEstAlg c));
    ("rlf_min_ul_snr_estim", AFloat64 (RLFMinULSNREstim c));
    ("max_mac_dl_kos", AInt32 (MaxMacDLKOs c));
    ("max_mac_ul_kos", AInt32 (MaxMacULKOs c)) ].

Definition private_view (c : EditableConfig) : string * string * string * bool * string * bool * string :=
  (SIBConfigFile c, RRConfigFile c, RBConfigFile c, ReportJSONUDSEnable c, ReportJSONUDSPath c,
   AlarmsLogEnable c, AlarmsFilename c).

Fixpoint view_get (key : string) (l : list (string * any)) : option any :=
  match l with
  | [] => None
  | (k, x) :: r => if String.eqb k key then Some x else view_get key r
  end.

Definition json_get (key : string) (c : EditableConfig) : option any := view_get key (json_view c).

Definition view_set (key : string) (x : any) (l : list (string * any)) : list (string * any) :=
  map (fun e => if String.eqb (fst e) key then (key, x) else e) l.

(** ** Conversions *)

Definition MaxUint32 : Z := 4294967295%Z.
Definition minInt32 : Z := (-2147483648)%Z.
Definition maxInt32 : Z := 2147483647%Z.

Definition asString (v : any) : option string :=
  match v with AString s => Some s | _ => None end.

Definition asUint32 (v : any) : option Z :=
  match v with
  | AFloat64 x =>
      if f_lt x f_zero || f_lt (f_of_Z MaxUint32) x || f_not_integral x then None else f_to_Z_exact x
  | AInt x => if (x <? 0)%Z then None else Some (wrap_unsigned 32 x)
  | AInt64 x => if (x <? 0)%Z || (MaxUint32 <? x)%Z then None else Some (wrap_unsigned 32 x)
  | AUint32 x => Some x
  | ANumber s => ParseUint 32 s
  | _ => None
  end.

Definition asInt32 (v : any) : option Z :=
  match v with
  | AFloat64 x =>
      if f_lt x (f_of_Z minInt32) || f_lt (f_of_Z maxInt32) x || f_not_integral x then None else f_to_Z_exact x
  | AInt x | AInt64 x => if (x <? minInt32)%Z || (maxInt32 <? x)%Z then None else Some x
  | AInt32 x => Some x
  | ANumber s => ParseInt 32 s
  | _ => None
  end.

Definition asBool (v : any) : option bool :=
  match v with ABool b => Some b | _ => None end.

Section WithGoLib.
Context {GL : GoLib}.

Definition asFloat64 (v : any) : option float64 :=
  match v with
  | AFloat64 x | AFloat32 x => if f_is_nan x || f_is_inf x then None else Some x
  | AInt x | AInt64 x => Some (f_of_Z x)
  | ANumber s => ParseFloat s
  | _ => None
  end.

(** ** Leaf edits

    A setter stores the converted value of one leaf; each case of the switch in applyChange is an
    entry of one of the tables below. *)
Inductive setter : Type :=
| SString (set : string -> EditableConfig -> EditableConfig)
| SUint32 (set : Z -> EditableConfig -> EditableConfig)
| SInt32 (set : Z -> EditableConfig -> EditableConfig)
| SFloat64 (set : float64 -> EditableConfig -> EditableConfig)
| SBool (set : bool -> EditableConfig -> EditableConfig).

Definition leaves_node : list (string * setter) :=
  [ ("enb_serial", SString (fun v c => c <|ENBSerial := v|>));
    ("mcc", SString (fun v c => c <|MCC := v|>));
    ("mnc", SString (fun v c => c <|MNC := v|>));
    ("enb_id", SString (fun v c => c <|ENBID := v|>));
    ("mme_addr", SString (fun v c => c <|MMEAddr := v|>));
    ("gtp_bind_addr", SString (fun v c => c <|GTPBindAddr := v|>));
    ("s1c_bind_addr", SString (fun v c => c <|S1CBindAddr := v|>));
    ("s1c_bind_port", SUint32 (fun v c => c <|S1CBindPort := v|>));
    ("tx_gain", SFloat64 (fun v c => c <|TXGain := v|>));
    ("rx_gain", SFloat64 (fun v c => c <|RXGain := v|>));
    ("device_name", SString (fun v c => c <|DeviceName := v|>));
    ("device_args", SString (fun v c => c <|DeviceArgs := v|>));
    ("time_adv_nsamples", SString (fun v c => c <|TimeAdvNSamples := v|>));
    ("n_prb", SUint32 (fun v c => c <|NPRB := v|>));
    ("tm", SUint32 (fun v c => c <|TM := v|>));
    ("dl_earfcn", SUint32 (fun v c => c <|DLEARFCN := v|>));
    ("pci", SUint32 (fun v c => c <|PCI := v|>)) ].

Definition leaves_cell : list (string * setter) :=
  [ ("cell_id", SString (fun v c => c <|CellID := v|>));
    ("tac", SString (fun v c => c <|TAC := v|>));
    ("ho_active", SBool (fun v c => c <|HOActive := v|>));
    ("a3_offset", SInt32 (fun v c => c <|A3Offset := v|>));
    ("time_to_trigger", SInt32 (fun v c => c <|TimeToTrigger := v|>));
    ("hysteresis", SInt32 (fun v c => c <|Hysteresis := v|>));
    ("sched_policy", SString (fun v c => c <|SchedPolicy := v|>));
    ("pdsch_max_mcs", SInt32 (fun v c => c <|PDSCHMaxMCS := v|>));
    ("pusch_max_mcs", SInt32 (fun v c => c <|PUSCHMaxMCS := v|>));
    ("target_bler", SFloat64 (fun v c => c <|TargetBLER := v|>));
    ("min_nof_ctrl_symbols", SInt32 (fun v c => c <|MinCtrlSymbols := v|>));
    ("max_nof_ctrl_symbols", SInt32 (fun v c => c <|MaxCtrlSymbols := v|>)) ].

Definition leaves_sib : list (string * setter) :=
  [ ("q_rx_lev_min", SInt32 (fun v c => c <|QRxLevMin := v|>));
    ("cell_barred", SString (fun v c => c <|CellBarred := v|>));
    ("num_ra_preambles", SInt32 (fun v c => c <|NumRAPreambles := v|>));
    ("preamble_init_rx_target_pwr", SInt32 (fun v c => c <|PreambleInitRxTargetPwr := v|>));
    ("pwr_ramping_step", SInt32 (fun v c => c <|PwrRampingStep := v|>));
    ("reference_signal_power", SInt32 (fun v c => c <|ReferenceSignalPower := v|>));
    ("p0_nominal_pusch", SInt32 (fun v c => c <|P0NominalPUSCH := v|>));
    ("p0_nominal_pucch", SInt32 (fun v c => c <|P0NominalPUCCH := v|>));
    ("alpha", SFloat64 (fun v c => c <|Alpha := v|>));
    ("default_paging_cycle", SInt32 (fun v c => c <|DefaultPagingCycle := v|>));
    ("t300", SInt32 (fun v c => c <|T300 := v|>));
    ("t301", SInt32 (fun v c => c <|T301 := v|>));
    ("t310", SInt32 (fun v c => c <|T310 := v|>));
    ("n310", SInt32 (fun v c => c <|N310 := v|>));
    ("t311", SInt32 (fun v c => c <|T311 := v|>)) ].

Definition leaves_expert : list (string * setter) :=
  [ ("pusch_max_its", SInt32 (fun v c => c <|PUSCHMaxIts := v|>));
    ("nr_pusch_max_its", SInt32 (fun v c => c <|NRPUSCHMaxIts := v|>));
    ("pusch_8bit_decoder", SBool (fun v c => c <|PUSCH8bitDecoder := v|>));
    ("nof_phy_threads", SInt32 (fun v c => c <|NofPHYThreads := v|>));
    ("metrics_period_secs", SInt32 (fun v c => c <|MetricsPeriodSecs := v|>));
    ("tx_amplitude", SFloat64 (fun v c => c <|TXAmplitude := v|>));
    ("rrc_inactivity_timer", SInt32 (fun v c => c <|RRCInactivityTimer := v|>));
    ("rlf_release_timer_ms", SInt32 (fun v c => c <|RLFReleaseTimerMs := v|>));
    ("eea_pref_list", SString (fun v c => c <|EEAPrefList := v|>));
    ("eia_pref_list", SString (fun v c => c <|EIAPrefList := v|>));
    ("gtpu_tunnel_timeout", SInt32 (fun v c => c <|GTPUTunnelTimeout := v|>));
    ("s1_setup_max_retries", SInt32 (fun v c => c <|S1SetupMaxRetries := v|>));
    ("s1_connect_timer", SInt32 (fun v c => c <|S1ConnectTimer := v|>));
    ("rx_gain_offset", SFloat64 (fun v c => c <|RXGainOffset := v|>));
    ("use_cedron_f_est_alg", SBool (fun v c => c <|UseCedronFEstAlg := v|>));
    ("rlf_min_ul_snr_estim", SFloat64 (fun v c => c <|RLFMinULSNREstim := v|>));
    ("max_mac_dl_kos", SInt32 (fun v c => c <|MaxMacDLKOs := v|>));
    ("max_mac_ul_kos", SInt32 (fun v c => c <|MaxMacULKOs := v|>)) ].

Definition leaves : list (string * setter) := leaves_node ++ leaves_cell ++ leaves_sib ++ leaves_expert.

(** The case of the switch a key selects. *)
Fixpoint find_leaf (key : string) (l : list (string * setter)) : option setter :=
  match l with
  | [] => None
  | (k, s) :: r => if String.eqb k key then Some s else find_leaf key r
  end.

Definition store_leaf {A} (key kind : string) (conv : option A) (set : A -> EditableConfig -> EditableConfig)
    (cfg : EditableConfig) : result string EditableConfig :=
  match conv with
  | Some x => Ok (set x cfg)
  | None => Err (key +:+ " must be " +:+ kind)
  end.

Definition apply_setter (key : string) (s : setter) (val : any) (cfg : EditableConfig) : result string EditableConfig :=
  match s with
  | SString set => store_leaf key "string" (TrimSpace <$> asString val) set cfg
  | SUint32 set => store_leaf key "uint32" (asUint32 val) set cfg
  | SInt32 set => store_leaf key "int32" (asInt32 val) set cfg
  | SFloat64 set => store_leaf key "number" (asFloat64 val) set cfg
  | SBool set => store_leaf key "boolean" (asBool val) set cfg
  end.

(** *** Keys of the form qci_profiles[<qci>].<field> *)

Definition is_ident_start (c : ascii) : bool := is_upper c || is_lower c || Ascii.eqb c "_".
Definition is_ident (c : ascii) : bool := is_ident_start c || is_digit c.

Definition qci_prefix : string := "qci_profiles[".

Definition parseQCIProfileKey (key : string) : option (Z * string) :=
  if negb (HasPrefix key qci_prefix) then None
  else
    let rest := drop (String.length qci_prefix) (str key) in
    match index_of rest ["]"%char] with
    | None => None
    | Some close =>
        if (close <=? 0) || (length rest <=? close + 1) ||
           negb (match rest !! (close + 1) with Some c => Ascii.eqb c "." | None => false end)
        then None
        else match parse_int 32 (take close rest) with
             | None => None
             | Some qci =>
                 let field := drop (close + 2) rest in
                 match field with
                 | [] => None
                 | _ => if forallb is_ident field then Some (qci, unstr field) else None
                 end
             end
    end.

Definition set_qci_field (field : string) (val : any) (p : QCIProfile) : result string QCIProfile :=
  let store set := match asInt32 val with
                   | Some i => Ok (set i)
                   | None => Err (field +:+ " must be int32")
                   end in
  if String.eqb field "discard_timer" then store (fun i => p <|DiscardTimer := i|>)
  else if String.eqb field "pdcp_sn_size" then store (fun i => p <|PDCPSNSize := i|>)
  else if String.eqb field "t_poll_retx" then store (fun i => p <|TPollRetx := i|>)
  else if String.eqb field "max_retx_thresh" then store (fun i => p <|MaxRetxThresh := i|>)
  else if String.eqb field "t_reordering" then store (fun i => p <|TReordering := i|>)
  else if String.eqb field "priority" then store (fun i => p <|Priority := i|>)
  else Err ("unsupported qci profile field: " +:+ field).

(** The index of the first profile with this QCI. *)
Fixpoint qci_index (qci : Z) (ps : list QCIProfile) : option nat :=
  match ps with
  | [] => None
  | p :: r => if (QCI p =? qci)%Z then Some 0 else S <$> qci_index qci r
  end.

Definition applyQCIProfileChange (key : string) (val : any) (cfg : EditableConfig) : result string EditableConfig :=
  match parseQCIProfileKey key with
  | None => Err ("invalid qci_profiles key: " +:+ key)
  | Some (qci, field) =>
      if (qci <? 1)%Z || (9 <? qci)%Z then Err "qci must be in range 1..9"
      else
        let '(ps, idx) :=
          match qci_index qci (QCIProfiles cfg) with
          | Some i => (QCIProfiles cfg, i)
          | None => (QCIProfiles cfg ++ [mkQCI qci 0 0 0 0 0 0], length (QCIProfiles cfg))
          end in
        match ps !! idx with
        | None => Err "index out of range"
        | Some p =>
            match set_qci_field field val p with
            | Err e => Err e
            | Ok p' => Ok (cfg <|QCIProfiles := <[idx := p']> ps|>)
            end
        end
  end.

Definition applyChange (cfg : EditableConfig) (key : string) (val : any) : result string EditableConfig :=
  match find_leaf key leaves with
  | Some s => apply_setter key s val cfg
  | None =>
      if HasPrefix key qci_prefix then applyQCIProfileChange key val cfg
      else Err ("unsupported config key: " +:+ key)
  end.

(** ** Validation *)

Definition isFixedDigits (s : string) (n : nat) : bool :=
  (String.length s =? n) && forallb is_digit (str s).

Definition blank (s : string) : bool := String.eqb (TrimSpace s) "".
Definition longer (s : string) (n : nat) : bool := n <? String.length s.
Definition bad_ip (s : string) : bool := negb (ParseIP (TrimSpace s)).
Definition out_of (lo hi : Z) (x : float64) : bool := f_lt x (f_of_Z lo) || f_lt (f_of_Z hi) x.
Definition one_of (x : Z) (l : list Z) : bool := existsb (Z.eqb x) l.

(** The checks of validate in order, each with the message it fails with. *)
Definition validate_checks (cfg : EditableConfig) : list (bool * string) :=
  [ (blank (ENBSerial cfg) || longer (ENBSerial cfg) 128, "enb_serial is invalid");
    (negb (isFixedDigits (MCC cfg) 3), "mcc must match [0-9]{3}");
    (negb (isFixedDigits (MNC cfg) 2 || isFixedDigits (MNC cfg) 3), "mnc must match [0-9]{2,3}");
    (blank (ENBID cfg) || longer (ENBID cfg) 64, "enb_id is invalid");
    (blank (MMEAddr cfg) || longer (MMEAddr cfg) 64, "mme_addr is invalid");
    (bad_ip (MMEAddr cfg), "mme_addr must be a valid IP address");
    (blank (GTPBindAddr cfg) || longer (GTPBindAddr cfg) 64, "gtp_bind_addr is invalid");
    (bad_ip (GTPBindAddr cfg), "gtp_bind_addr must be a valid IP address");
    (blank (S1CBindAddr cfg) || longer (S1CBindAddr cfg) 64, "s1c_bind_addr is invalid");
    (bad_ip (S1CBindAddr cfg), "s1c_bind_addr must be a valid IP address");
    ((65535 <? S1CBindPort cfg)%Z, "s1c_bind_port must be in range 0..65535");
    ((503 <? PCI cfg)%Z, "pci must be in range 0..503");
    ((262143 <? DLEARFCN cfg)%Z, "dl_earfcn must be in range 0..262143");
    (out_of 0 120 (TXGain cfg), "tx_gain must be in range 0..120");
    (out_of 0 120 (RXGain cfg), "rx_gain must be in range 0..120");
    (longer (DeviceName cfg) 128, "device_name is too long");
    (longer (DeviceArgs cfg) 512, "device_args is too long");
    (negb (one_of (NPRB cfg) [6; 15; 25; 50; 75; 100]%Z), "n_prb must be one of 6,15,25,50,75,100");
    (negb (TM cfg =? 0)%Z && ((TM cfg <? 1)%Z || (4 <? TM cfg)%Z), "tm must be in range 1..4");
    (negb (MinCtrlSymbols cfg =? 0)%Z && ((MinCtrlSymbols cfg <? 1)%Z || (3 <? MinCtrlSymbols cfg)%Z),
     "min_nof_ctrl_symbols must be in range 1..3");
    (negb (MaxCtrlSymbols cfg =? 0)%Z && ((MaxCtrlSymbols cfg <? 1)%Z || (3 <? MaxCtrlSymbols cfg)%Z),
     "max_nof_ctrl_symbols must be in range 1..3");
    (negb (f_eq (TargetBLER cfg) f_zero) && out_of 0 1 (TargetBLER cfg), "target_bler must be in range 0..1");
    (blank (CellID cfg), "cell_id is invalid");
    (blank (TAC cfg), "tac is invalid");
    (existsb (fun p => (QCI p <? 1)%Z || (9 <? QCI p)%Z) (QCIProfiles cfg), "qci must be in range 1..9") ].

(** The first failing check, None when the configuration is valid. *)
Fixpoint first_failure (l : list (bool * string)) : option string :=
  match l with
  | [] => None
  | (bad, msg) :: r => if bad then Some msg else first_failure r
  end.

Definition validate (cfg : EditableConfig) : option string := first_failure (validate_checks cfg).

End WithGoLib.

(** ** What a leaf edit writes *)

Section LeafLemmas.
Context {GL : GoLib}.

(** The value a setter stores for a dynamically typed input. *)
Definition setter_value (s : setter) (val : any) : option any :=
  match s with
  | SString _ => AString ∘ TrimSpace <$> asString val
  | SUint32 _ => AUint32 <$> asUint32 val
  | SInt32 _ => AInt32 <$> asInt32 val
  | SFloat64 _ => AFloat64 <$> asFloat64 val
  | SBool _ => ABool <$> asBool val
  end.

(** The frame of a scalar write: one leaf of the JSON view, nothing else. *)
Definition writes_leaf (k : string) (x : any) (c c' : EditableConfig) : Prop :=
  json_view c' = view_set k x (json_view c) /\ private_view c' = private_view c /\
  QCIProfiles c' = QCIProfiles c.

Definition setter_ok (e : string * setter) : Prop :=
  forall val c, match setter_value (snd e) val with
                | None => exists msg, apply_setter (fst e) (snd e) val c = Err msg
                | Some x => exists c', apply_setter (fst e) (snd e) val c = Ok c' /\ writes_leaf (fst e) x c c'
                end.

Ltac setter_case :=
  intros val c; cbn [fst snd apply_setter setter_value];
  match goal with |- context [ _ <$> ?conv ] => destruct conv end; cbn [fmap option_fmap option_map store_leaf];
  eexists; repeat split; destruct c; reflexivity.

Lemma leaves_node_ok : Forall setter_ok leaves_node.
Proof. unfold leaves_node. repeat (constructor; [setter_case|]). constructor. Qed.

Lemma leaves_cell_ok : Forall setter_ok leaves_cell.
Proof. unfold leaves_cell. repeat (constructor; [setter_case|]). constructor. Qed.

Lemma leaves_sib_ok : Forall setter_ok leaves_sib.
Proof. unfold leaves_sib. repeat (constructor; [setter_case|]). constructor. Qed.

Lemma leaves_expert_ok : Forall setter_ok leaves_expert.
Proof. unfold leaves_expert. repeat (constructor; [setter_case|]). constructor. Qed.

Lemma leaves_ok : Forall setter_ok leaves.
Proof. repeat apply Forall_app_2; auto using leaves_node_ok, leaves_cell_ok, leaves_sib_ok, leaves_expert_ok. Qed.

Lemma find_leaf_in (k : string) (l : list (string * setter)) (s : setter) :
  find_leaf k l = Some s -> (k, s) ∈ l.
Proof.
  induction l as [|[k' s'] l IH]; cbn; [done|]. destruct (String.eqb k' k) eqn:E; intros E'.
  - b2p. simplify_eq. left.
  - right. auto.
Qed.

(** *** Machine widths *)

(** The values a Go variable of the dynamic type can hold. *)
Definition any_wf (v : any) : Prop :=
  match v with
  | AFloat64 x | AFloat32 x => f_valid x = true
  | AInt z | AInt64 z => fits_int 64 z
  | AInt32 z => fits_int 32 z
  | AUint32 z => fits_uint 32 z
  | _ => True
  end.

(** ParseFloat yields a float64; the conversions of integers and the zero do too. *)
Definition float_lib_wf : Prop := forall s x, ParseFloat s = Some x -> f_valid x = true.

Lemma asUint32_fits (v : any) (z : Z) : any_wf v -> asUint32 v = Some z -> fits_uint 32 z.
Proof.
  destruct v as [s|x|x|x|x|x|x|b|s|]; cbn -[f_lt f_of_Z f_to_Z_exact]; intros Hwf Hz; try done.
  - destruct (f_lt x f_zero) eqn:E1; [done|]. destruct (f_lt (f_of_Z MaxUint32) x) eqn:E2; [done|].
    destruct (f_not_integral x) eqn:E3; [done|]. cbn [orb] in Hz.
    assert (z <= MaxUint32)%Z.
    { eapply f_range_upper; [exact Hwf|exact Hz|exact E2|..]; by vm_compute. }
    assert (0 <= z)%Z; [|unfold fits_uint, MaxUint32 in *; lia].
    destruct x as [s|s| |[] m e]; try done; [by cbn in Hz; simplify_eq|].
    destruct (f_to_Z_exact_finite _ _ _ _ Hz) as (a & ? & -> & _). done.
  - destruct (x <? 0)%Z; simplify_eq. by apply wrap_unsigned_fits.
  - destruct ((x <? 0)%Z || (MaxUint32 <? x)%Z); simplify_eq. by apply wrap_unsigned_fits.
  - congruence.
  - by apply parse_uint_range in Hz.
Qed.

Lemma asInt32_fits (v : any) (z : Z) : any_wf v -> asInt32 v = Some z -> fits_int 32 z.
Proof.
  destruct v as [s|x|x|x|x|x|x|b|s|]; cbn -[f_lt f_of_Z f_to_Z_exact]; intros Hwf Hz; try done.
  - destruct (f_lt x (f_of_Z minInt32)) eqn:E1; [done|]. destruct (f_lt (f_of_Z maxInt32) x) eqn:E2; [done|].
    destruct (f_not_integral x) eqn:E3; [done|]. cbn [orb] in Hz.
    assert (z <= maxInt32)%Z by (eapply f_range_upper; [exact Hwf|exact Hz|exact E2|..]; by vm_compute).
    assert (minInt32 <= z)%Z by (eapply (f_range_lower x _ _ 2147483648); [exact Hwf|exact Hz|exact E1|..]; by vm_compute).
    unfold fits_int, minInt32, maxInt32 in *. lia.
  - unfold minInt32, maxInt32, fits_int in *. split_cases_in Hz; simplify_eq; b2p; lia.
  - congruence.
  - unfold minInt32, maxInt32, fits_int in *. split_cases_in Hz; simplify_eq; b2p; lia.
  - by apply parse_int_range in Hz.
Qed.

End LeafLemmas.

#[global] Arguments validate : simpl never.
#[global] Arguments applyChange : simpl never.
#[global] Arguments find_leaf : simpl never.
#[global] Arguments json_get : simpl never.
#[global] Arguments parseQCIProfileKey : simpl never.
