(* ===== verification/ConfigEdit.v ===== *)
(** * Sets of leaf edits: what one edit writes, and why map iteration order does not matter

    Store.Edit and Store.PreviewEdit range over a Go map, whose iteration order is unspecified.
    This file splits every edit into a target and a value, gives configurations an equivalence that
    forgets only the relative order of QCI profiles with different QCIs, and shows that edits of
    different targets commute up to it. *)
From S2P Require Import Prelude GoNum GoStrings ConfigData.
From stdpp Require Import sorting.

(** ** Equivalent configurations *)

Definition qci_class (q : Z) (ps : list QCIProfile) : list QCIProfile :=
  filter (fun p => QCI p = q) ps.

Record cfg_equiv (c c' : EditableConfig) : Prop := mkCfgEquiv {
  equiv_json : json_view c = json_view c';
  equiv_private : private_view c = private_view c';
  equiv_qci : forall q, qci_class q (QCIProfiles c) = qci_class q (QCIProfiles c')
}.

#[export] Instance cfg_equiv_equivalence : Equivalence cfg_equiv.
Proof.
  split.
  - intros c. by split.
  - intros c c' [E1 E2 E3]. by split.
  - intros c c' c'' [E1 E2 E3] [F1 F2 F3]. split; [congruence|congruence|]. intros q. by rewrite E3.
Qed.

(** Outcomes of fallible steps: both succeed with related values, or both fail. *)
Definition result_rel {E A : Type} (R : A -> A -> Prop) (x y : result E A) : Prop :=
  match x, y with
  | Ok a, Ok b => R a b
  | Err _, Err _ => True
  | _, _ => False
  end.

#[export] Instance result_rel_equivalence {E A} (R : A -> A -> Prop) `{!Equivalence R} :
  Equivalence (result_rel (E:=E) R).
Proof.
  split.
  - intros [a|e]; cbn; [reflexivity|done].
  - intros [a|e] [b|e']; cbn; try done; apply symmetry.
  - intros [a|e] [b|e'] [c|e'']; cbn; try done. apply transitivity.
Qed.

Lemma result_rel_bind {E A B} (R : A -> A -> Prop) (S : B -> B -> Prop)
    (x y : result E A) (f g : A -> result E B) :
  result_rel R x y -> (forall a b, R a b -> result_rel S (f a) (g b)) ->
  result_rel S (result_bind x f) (result_bind y g).
Proof. destruct x, y; cbn; auto; done. Qed.

(** ** Views *)

Lemma view_get_set (k k' : string) (x : any) (l : list (string * any)) :
  view_get k' (view_set k x l) =
  if String.eqb k k' then (match view_get k l with Some _ => Some x | None => None end) else view_get k' l.
Proof.
  unfold view_set. induction l as [|[a y] l IH]; cbn; [by destruct (String.eqb k k')|].
  destruct (String.eqb a k) eqn:E1; cbn; rewrite ?IH.
  - b2p. subst a. by destruct (String.eqb k k').
  - destruct (String.eqb k k') eqn:E2; b2p; subst; [by rewrite (proj2 (String.eqb_neq _ _) E1)|done].
Qed.

Lemma view_set_comm (k1 k2 : string) (x1 x2 : any) (l : list (string * any)) :
  k1 <> k2 -> view_set k1 x1 (view_set k2 x2 l) = view_set k2 x2 (view_set k1 x1 l).
Proof.
  intros Hne. unfold view_set. rewrite !map_map. apply map_ext. intros [a y]; cbn.
  destruct (String.eqb a k2) eqn:E2, (String.eqb a k1) eqn:E1; cbn; rewrite ?E1, ?E2; b2p; subst; try done;
    autorewrite with ems; try done.
  - by rewrite (proj2 (String.eqb_neq k2 k1)).
  - by rewrite (proj2 (String.eqb_neq k1 k2)).
Qed.

(** The three views determine a configuration. *)
Lemma config_ext (c c' : EditableConfig) :
  json_view c = json_view c' -> private_view c = private_view c' -> QCIProfiles c = QCIProfiles c' -> c = c'.
Proof.
  destruct c, c'; unfold json_view, private_view; cbn. intros E1 E2 E3.
  injection E1; injection E2; intros; subst. reflexivity.
Qed.

(** ** Profile lists by class *)

Definition fresh_profile (q : Z) : QCIProfile := mkQCI q 0 0 0 0 0 0.

(** The find-or-create write of applyQCIProfileChange. *)
Definition qci_write (q : Z) (g : QCIProfile -> QCIProfile) (ps : list QCIProfile) : list QCIProfile :=
  match qci_index q ps with
  | Some i => alter g i ps
  | None => ps ++ [g (fresh_profile q)]
  end.

(** Its effect on the class of its QCI: the first element is written, or a fresh one created. *)
Definition class_write (q : Z) (g : QCIProfile -> QCIProfile) (l : list QCIProfile) : list QCIProfile :=
  match l with
  | [] => [g (fresh_profile q)]
  | p :: r => g p :: r
  end.

Lemma qci_write_cons (q : Z) g (p : QCIProfile) (ps : list QCIProfile) :
  qci_write q g (p :: ps) = if (QCI p =? q)%Z then g p :: ps else p :: qci_write q g ps.
Proof.
  unfold qci_write; cbn. destruct (QCI p =? q)%Z; [done|]. by destruct (qci_index q ps).
Qed.

Lemma qci_class_cons (q : Z) (p : QCIProfile) (ps : list QCIProfile) :
  qci_class q (p :: ps) = if decide (QCI p = q) then p :: qci_class q ps else qci_class q ps.
Proof. unfold qci_class. rewrite filter_cons. done. Qed.

Lemma qci_class_write (q q' : Z) g (ps : list QCIProfile) :
  (forall p, QCI (g p) = QCI p) ->
  qci_class q' (qci_write q g ps) =
  if decide (q' = q) then class_write q g (qci_class q ps) else qci_class q' ps.
Proof.
  intros Hg. induction ps as [|p ps IH].
  - unfold qci_write; cbn [qci_index app]. rewrite qci_class_cons, Hg. cbn. repeat case_decide; cbn; congruence.
  - rewrite qci_write_cons. destruct (QCI p =? q)%Z eqn:E; b2p; rewrite !qci_class_cons.
    + rewrite Hg. repeat case_decide; subst; cbn; try congruence.
    + rewrite IH. repeat case_decide; subst; cbn; try congruence.
Qed.

Lemma class_write_comm (q : Z) g1 g2 (l : list QCIProfile) :
  (forall p, g1 (g2 p) = g2 (g1 p)) -> class_write q g1 (class_write q g2 l) = class_write q g2 (class_write q g1 l).
Proof. intros Hc. destruct l; cbn; by rewrite Hc. Qed.

Lemma qci_class_elem (p : QCIProfile) (ps : list QCIProfile) : p ∈ ps <-> p ∈ qci_class (QCI p) ps.
Proof. unfold qci_class. rewrite list_elem_of_filter. tauto. Qed.

Section Edits.
Context {GL : GoLib}.

(** ** The target and the value of an edit *)

Inductive target : Type :=
| TLeaf (key : string)
| TQCI (qci : Z) (field : string).

#[export] Instance target_eq_dec : EqDecision target.
Proof. solve_decision. Defined.

Definition qci_setter (field : string) : option (Z -> QCIProfile -> QCIProfile) :=
  if String.eqb field "discard_timer" then Some (fun i p => p <|DiscardTimer := i|>)
  else if String.eqb field "pdcp_sn_size" then Some (fun i p => p <|PDCPSNSize := i|>)
  else if String.eqb field "t_poll_retx" then Some (fun i p => p <|TPollRetx := i|>)
  else if String.eqb field "max_retx_thresh" then Some (fun i p => p <|MaxRetxThresh := i|>)
  else if String.eqb field "t_reordering" then Some (fun i p => p <|TReordering := i|>)
  else if String.eqb field "priority" then Some (fun i p => p <|Priority := i|>)
  else None.

(** The place a key addresses, None when no edit of the key can succeed. *)
Definition key_target (key : string) : option target :=
  match find_leaf key leaves with
  | Some _ => Some (TLeaf key)
  | None =>
      match parseQCIProfileKey key with
      | Some (q, field) => if ((1 <=? q) && (q <=? 9))%Z then Some (TQCI q field) else None
      | None => None
      end
  end.

Lemma qci_setter_keeps (field : string) g (i : Z) (p : QCIProfile) :
  qci_setter field = Some g -> QCI (g i p) = QCI p.
Proof.
  unfold qci_setter. intros E. split_cases_in E; simplify_eq; by destruct p.
Qed.

Lemma qci_setter_comm (f1 f2 : string) g1 g2 (i j : Z) (p : QCIProfile) :
  f1 <> f2 -> qci_setter f1 = Some g1 -> qci_setter f2 = Some g2 -> g1 i (g2 j p) = g2 j (g1 i p).
Proof.
  unfold qci_setter. intros Hne E1 E2.
  split_cases_in E1; b2p; subst; simplify_eq; split_cases_in E2; b2p; subst; simplify_eq; try done; by destruct p.
Qed.

Lemma set_qci_field_spec (field : string) (val : any) (p : QCIProfile) :
  result_rel eq (set_qci_field field val p)
    (match qci_setter field, asInt32 val with
     | Some g, Some i => Ok (g i p)
     | _, _ => Err ""
     end).
Proof. unfold set_qci_field, qci_setter. split_cases; simplify_eq; cbn; done. Qed.

Lemma qci_index_lookup (q : Z) (ps : list QCIProfile) (i : nat) :
  qci_index q ps = Some i -> exists p, ps !! i = Some p /\ QCI p = q.
Proof.
  revert i. induction ps as [|p ps IH]; cbn; intros i Hi; [done|].
  destruct (QCI p =? q)%Z eqn:E; b2p; simplify_eq; [by exists p|].
  destruct (qci_index q ps) eqn:E'; cbn in Hi; simplify_eq. by apply IH.
Qed.

Lemma applyQCIProfileChange_spec (key : string) (val : any) (c : EditableConfig) :
  result_rel eq (applyQCIProfileChange key val c)
    (match parseQCIProfileKey key with
     | Some (q, field) =>
         if ((1 <=? q) && (q <=? 9))%Z then
           match qci_setter field, asInt32 val with
           | Some g, Some i => Ok (c <|QCIProfiles ::= qci_write q (g i)|>)
           | _, _ => Err ""
           end
         else Err ""
     | None => Err ""
     end).
Proof.
  unfold applyQCIProfileChange. destruct (parseQCIProfileKey key) as [[q field]|]; [|done].
  assert (Hr : (q <? 1)%Z || (9 <? q)%Z = negb ((1 <=? q) && (q <=? 9))%Z) by lia.
  rewrite Hr. clear Hr. destruct ((1 <=? q) && (q <=? 9))%Z; cbn [negb]; [|done].
  assert (Hat : forall ps idx p, ps !! idx = Some p ->
            (forall g, qci_write q g (QCIProfiles c) = <[idx := g p]> ps) ->
            result_rel eq
              (match ps !! idx with
               | Some p => match set_qci_field field val p with
                           | Ok p' => Ok (c <|QCIProfiles := <[idx := p']> ps|>)
                           | Err e => Err e
                           end
               | None => Err "index out of range"
               end)
              (match qci_setter field, asInt32 val with
               | Some g, Some i => Ok (c <|QCIProfiles ::= qci_write q (g i)|>)
               | _, _ => Err ""
               end)).
  { intros ps idx p Hp Hw. rewrite Hp. pose proof (set_qci_field_spec field val p) as Hs.
    destruct (set_qci_field field val p), (qci_setter field) as [g|], (asInt32 val) as [i|]; cbn in *; try done.
    subst. specialize (Hw (g i)). destruct c; cbn in *. by rewrite Hw. }
  destruct (qci_index q (QCIProfiles c)) as [i|] eqn:Ei.
  - destruct (qci_index_lookup _ _ _ Ei) as (p & Hp & _). apply (Hat _ _ p Hp).
    intros g. unfold qci_write. rewrite Ei. apply list_eq. intros j.
    destruct (decide (j = i)) as [->|Hne].
    + rewrite list_lookup_alter_eq, Hp. cbn. by rewrite list_lookup_insert_eq by (by eapply lookup_lt_Some).
    + by rewrite list_lookup_alter_ne, list_lookup_insert_ne by done.
  - apply (Hat _ _ (fresh_profile q)); [by apply list_lookup_middle|].
    intros g. unfold qci_write. rewrite Ei. by rewrite insert_app_r_alt, Nat.sub_diag by lia.
Qed.

(** The edit a change asks for, None when it is refused. *)
Definition edit_effect (key : string) (val : any) : option (target * any) :=
  match find_leaf key leaves with
  | Some s => pair (TLeaf key) <$> setter_value s val
  | None =>
      match key_target key with
      | Some (TQCI q f) =>
          match qci_setter f with
          | Some _ => (fun i => (TQCI q f, AInt32 i)) <$> asInt32 val
          | None => None
          end
      | _ => None
      end
  end.

(** What an edit does to the configuration. *)
Definition effect_on (t : target) (x : any) (c c' : EditableConfig) : Prop :=
  match t with
  | TLeaf k => writes_leaf k x c c'
  | TQCI q f =>
      json_view c' = json_view c /\ private_view c' = private_view c /\
      exists g i, qci_setter f = Some g /\ x = AInt32 i /\ QCIProfiles c' = qci_write q (g i) (QCIProfiles c)
  end.

Lemma parseQCIProfileKey_prefix (key : string) (r : Z * string) :
  parseQCIProfileKey key = Some r -> HasPrefix key qci_prefix = true.
Proof. unfold parseQCIProfileKey. by destruct (HasPrefix key qci_prefix). Qed.

Lemma applyChange_effect (c : EditableConfig) (key : string) (val : any) :
  match edit_effect key val with
  | None => exists e, applyChange c key val = Err e
  | Some (t, x) => key_target key = Some t /\ exists c', applyChange c key val = Ok c' /\ effect_on t x c c'
  end.
Proof.
  unfold edit_effect, applyChange, key_target. destruct (find_leaf key leaves) as [s|] eqn:El.
  - apply find_leaf_in in El. pose proof leaves_ok as Hok. rewrite Forall_forall in Hok.
    specialize (Hok _ El val c). cbn [fst snd] in Hok.
    destruct (setter_value s val); cbn; [|done]. split; [done|]. destruct Hok as (c' & ? & ?). by exists c'.
  - pose proof (applyQCIProfileChange_spec key val c) as Hq.
    destruct (parseQCIProfileKey key) as [[q f]|] eqn:Ep.
    + rewrite (parseQCIProfileKey_prefix _ _ Ep).
      destruct ((1 <=? q) && (q <=? 9))%Z; [destruct (qci_setter f) as [g|] eqn:Eg; [destruct (asInt32 val) as [i|]|]|];
        destruct (applyQCIProfileChange key val c) as [c'|e]; cbn in Hq |- *; try done; eauto.
      subst. split; [done|]. eexists. split; [done|]. destruct c; cbn. repeat split; eauto.
    + destruct (HasPrefix key qci_prefix); [|eauto].
      destruct (applyQCIProfileChange key val c); [done|eauto].
Qed.

(** Two descriptions of the same profile write agree. *)
Ltac same_write :=
  repeat match goal with
  | H1 : qci_setter ?f = Some ?g, H2 : qci_setter ?f = Some ?g' |- _ =>
      rewrite H1 in H2; injection H2 as <-
  | H : AInt32 _ = AInt32 _ |- _ => injection H as <-
  end.

Lemma effect_on_proper (t : target) (x : any) (c c' d d' : EditableConfig) :
  cfg_equiv c d -> effect_on t x c c' -> effect_on t x d d' -> cfg_equiv c' d'.
Proof.
  intros [E1 E2 E3]. destruct t as [k|q f]; cbn [effect_on].
  - intros (V1 & P1 & Q1) (V2 & P2 & Q2). split; [congruence|congruence|]. intros q. by rewrite Q1, Q2.
  - intros (V1 & P1 & g & i & Hg & -> & Q1) (V2 & P2 & g' & i' & Hg' & ? & Q2). same_write.
    split; [congruence|congruence|]. intros q'. rewrite Q1, Q2, !qci_class_write by (intros; by eapply qci_setter_keeps).
    by rewrite !E3.
Qed.

Lemma effect_on_comm (t1 t2 : target) (x1 x2 : any) (c c1 c12 c2 c21 : EditableConfig) :
  t1 <> t2 -> effect_on t1 x1 c c1 -> effect_on t2 x2 c1 c12 -> effect_on t2 x2 c c2 -> effect_on t1 x1 c2 c21 ->
  cfg_equiv c12 c21.
Proof.
  intros Hne. destruct t1 as [k1|q1 f1], t2 as [k2|q2 f2]; cbn [effect_on].
  - intros (V1 & P1 & Q1) (V2 & P2 & Q2) (V3 & P3 & Q3) (V4 & P4 & Q4).
    split; [|congruence|]. { rewrite V2, V1, V4, V3. apply view_set_comm. congruence. }
    intros q. congruence.
  - intros (V1 & P1 & Q1) (V2 & P2 & g & i & Hg & -> & Q2) (V3 & P3 & g' & i' & Hg' & ? & Q3) (V4 & P4 & Q4).
    same_write. split; [congruence|congruence|]. intros q. congruence.
  - intros (V1 & P1 & g & i & Hg & -> & Q1) (V2 & P2 & Q2) (V3 & P3 & Q3) (V4 & P4 & g' & i' & Hg' & ? & Q4).
    same_write. split; [congruence|congruence|]. intros q. congruence.
  - intros (V1 & P1 & g1 & i1 & Hg1 & -> & Q1) (V2 & P2 & g2 & i2 & Hg2 & -> & Q2).
    intros (V3 & P3 & g2' & i2' & Hg2' & ? & Q3) (V4 & P4 & g1' & i1' & Hg1' & ? & Q4). same_write.
    split; [congruence|congruence|]. intros q.
    rewrite Q2, Q1, Q4, Q3, !qci_class_write by (intros; by eapply qci_setter_keeps).
    repeat case_decide; subst; try done. apply class_write_comm.
    intros p. symmetry. eapply qci_setter_comm; [|done|done]. congruence.
Qed.

(** ** Sets of changes, in iteration order *)

(** The loop shared by PreviewEdit and editLocked. *)
Fixpoint apply_changes (changes : list (string * any)) (next : EditableConfig) : result string EditableConfig :=
  match changes with
  | [] => Ok next
  | (k, v) :: rest => let? next' := applyChange next (TrimSpace k) v in apply_changes rest next'
  end.

Definition change_targets (changes : list (string * any)) : list target :=
  omap (fun kv => key_target (TrimSpace (fst kv))) changes.

Lemma applyChange_proper (key : string) (val : any) (c d : EditableConfig) :
  cfg_equiv c d -> result_rel cfg_equiv (applyChange c key val) (applyChange d key val).
Proof.
  intros Hcd. pose proof (applyChange_effect c key val) as Hc. pose proof (applyChange_effect d key val) as Hd.
  destruct (edit_effect key val) as [[t x]|].
  - destruct Hc as (_ & c' & -> & Hc), Hd as (_ & d' & -> & Hd). cbn. by eapply effect_on_proper.
  - by destruct Hc as [e ->], Hd as [e' ->].
Qed.

Lemma apply_changes_proper (changes : list (string * any)) (c d : EditableConfig) :
  cfg_equiv c d -> result_rel cfg_equiv (apply_changes changes c) (apply_changes changes d).
Proof.
  revert c d. induction changes as [|[k v] r IH]; intros c d Hcd; [done|].
  cbn. eapply result_rel_bind; [by apply applyChange_proper|]. auto.
Qed.

Lemma applyChange_comm (c : EditableConfig) (k1 k2 : string) (v1 v2 : any) :
  NoDup (omap key_target [k1; k2]) ->
  result_rel cfg_equiv (result_bind (applyChange c k1 v1) (fun c1 => applyChange c1 k2 v2))
                       (result_bind (applyChange c k2 v2) (fun c2 => applyChange c2 k1 v1)).
Proof.
  intros Hnd. pose proof (applyChange_effect c k1 v1) as H1. pose proof (applyChange_effect c k2 v2) as H2.
  destruct (edit_effect k1 v1) as [[t1 x1]|] eqn:E1, (edit_effect k2 v2) as [[t2 x2]|] eqn:E2.
  - destruct H1 as (T1 & c1 & -> & F1), H2 as (T2 & c2 & -> & F2). cbn [result_bind].
    pose proof (applyChange_effect c1 k2 v2) as G1. pose proof (applyChange_effect c2 k1 v1) as G2.
    rewrite E2 in G1. rewrite E1 in G2. destruct G1 as (_ & c12 & -> & G1), G2 as (_ & c21 & -> & G2). cbn.
    apply (effect_on_comm t1 t2 x1 x2 c c1 c12 c2 c21); [|assumption..]. cbn in Hnd. rewrite T1, T2 in Hnd.
    intros ->. by apply NoDup_cons in Hnd as [[]%not_elem_of_cons _].
  - destruct H1 as (T1 & c1 & -> & F1), H2 as [e ->]. cbn.
    pose proof (applyChange_effect c1 k2 v2) as G1. rewrite E2 in G1. destruct G1 as [e' ->]. done.
  - destruct H1 as [e ->], H2 as (T2 & c2 & -> & F2). cbn.
    pose proof (applyChange_effect c2 k1 v1) as G1. rewrite E1 in G1. by destruct G1 as [e' ->].
  - by destruct H1 as [e ->], H2 as [e' ->].
Qed.

Lemma result_bind_assoc {E A B C} (x : result E A) (f : A -> result E B) (g : B -> result E C) :
  result_bind (result_bind x f) g = result_bind x (fun a => result_bind (f a) g).
Proof. by destruct x. Qed.

Lemma apply_changes_perm (l l' : list (string * any)) (c : EditableConfig) :
  l ≡ₚ l' -> NoDup (change_targets l) -> result_rel cfg_equiv (apply_changes l c) (apply_changes l' c).
Proof.
  intros Hp. revert c. induction Hp as [|[k v] l l' Hp IH|[k1 v1] [k2 v2] l|l l' l'' Hp IH Hp' IH']; intros c Hnd.
  - done.
  - cbn. unfold change_targets in Hnd; cbn in Hnd.
    assert (NoDup (change_targets l)) by (destruct (key_target (TrimSpace k)); [by apply NoDup_cons in Hnd as [_ ?]|done]).
    destruct (applyChange c (TrimSpace k) v); cbn; auto.
  - cbn. rewrite <- !result_bind_assoc. eapply result_rel_bind; [|intros; by apply apply_changes_proper].
    apply applyChange_comm. unfold change_targets in Hnd. cbn in *.
    destruct (key_target (TrimSpace k2)), (key_target (TrimSpace k1)); cbn in *; auto using NoDup_nil_2, NoDup_singleton.
    inversion_clear Hnd as [|? ? Hn Hnd']. constructor; [|apply NoDup_singleton]. set_solver.
  - etransitivity; [by apply IH|]. apply IH'. unfold change_targets in *. by rewrite <- Hp.
Qed.

(** ** Validation does not see the order either *)

Lemma existsb_elem {A} (f : A -> bool) (l : list A) : existsb f l = true <-> exists x, x ∈ l /\ f x = true.
Proof. rewrite existsb_exists. by setoid_rewrite list_elem_of_In. Qed.

Lemma validate_proper (c d : EditableConfig) : cfg_equiv c d -> validate c = validate d.
Proof.
  intros [E1 E2 E3].
  assert (Hd : exists qs, d = c <|QCIProfiles := qs|>).
  { exists (QCIProfiles d). apply config_ext; [rewrite <- E1|rewrite <- E2|]; by destruct c. }
  destruct Hd as [qs ->].
  assert (Hx : existsb (fun p => (QCI p <? 1)%Z || (9 <? QCI p)%Z) (QCIProfiles c) =
               existsb (fun p => (QCI p <? 1)%Z || (9 <? QCI p)%Z) qs).
  { apply eq_true_iff_eq. rewrite !existsb_elem. setoid_rewrite qci_class_elem. setoid_rewrite E3. by destruct c. }
  unfold validate, validate_checks. rewrite Hx. f_equal. clear. destruct c. reflexivity.
Qed.

(** ** Frames and widths of a set of changes *)

Definition int_wf (v : any) : Prop :=
  match v with
  | AInt32 z => fits_int 32 z
  | AUint32 z => fits_uint 32 z
  | _ => True
  end.

Record profile_wf (p : QCIProfile) : Prop := mkProfileWf {
  pw_qci : fits_int 32 (QCI p);
  pw_discard : fits_int 32 (DiscardTimer p);
  pw_sn : fits_int 32 (PDCPSNSize p);
  pw_poll : fits_int 32 (TPollRetx p);
  pw_retx : fits_int 32 (MaxRetxThresh p);
  pw_reord : fits_int 32 (TReordering p);
  pw_prio : fits_int 32 (Priority p)
}.

(** Every integer field holds a value of its Go type. *)
Definition cfg_wf (c : EditableConfig) : Prop :=
  Forall (fun e => int_wf (snd e)) (json_view c) /\ Forall profile_wf (QCIProfiles c).

Lemma setter_value_wf (s : setter) (val x : any) : any_wf val -> setter_value s val = Some x -> int_wf x.
Proof.
  destruct s; cbn; intros Hw Hx.
  - destruct (asString val); by simplify_eq/=.
  - destruct (asUint32 val) eqn:E; simplify_eq/=. by eapply asUint32_fits.
  - destruct (asInt32 val) eqn:E; simplify_eq/=. by eapply asInt32_fits.
  - destruct (asFloat64 val); by simplify_eq/=.
  - destruct (asBool val); by simplify_eq/=.
Qed.

Lemma view_set_wf (k : string) (x : any) (l : list (string * any)) :
  int_wf x -> Forall (fun e => int_wf (snd e)) l -> Forall (fun e => int_wf (snd e)) (view_set k x l).
Proof.
  intros Hx. unfold view_set. intros Hl. rewrite Forall_map.
  eapply Forall_impl; [exact Hl|]. intros [a y]; cbn. by destruct (String.eqb a k).
Qed.

Lemma qci_setter_wf (f : string) g (i : Z) (p : QCIProfile) :
  qci_setter f = Some g -> fits_int 32 i -> profile_wf p -> profile_wf (g i p).
Proof.
  unfold qci_setter. intros E Hi [? ? ? ? ? ? ?]. split_cases_in E; simplify_eq; destruct p; by split.
Qed.

Lemma qci_write_wf (q : Z) g (ps : list QCIProfile) :
  fits_int 32 q -> (forall p, profile_wf p -> profile_wf (g p)) -> Forall profile_wf ps -> Forall profile_wf (qci_write q g ps).
Proof.
  intros Hq Hg. assert (fits_int 32 0) by (unfold fits_int; lia).
  induction ps as [|p ps IH]; intros Hps.
  - repeat constructor; by apply Hg.
  - rewrite qci_write_cons. apply Forall_cons in Hps as [Hp Hps]. destruct (QCI p =? q)%Z; constructor; auto.
Qed.

Lemma key_target_qci (key : string) (q : Z) (f : string) :
  key_target key = Some (TQCI q f) -> HasPrefix key qci_prefix = true /\ (1 <= q <= 9)%Z.
Proof.
  unfold key_target. destruct (find_leaf key leaves); [done|].
  destruct (parseQCIProfileKey key) as [[q' f']|] eqn:E; [|done].
  destruct ((1 <=? q') && (q' <=? 9))%Z eqn:Er; [|done]. intros [= <- <-]. b2p.
  split; [by eapply parseQCIProfileKey_prefix|lia].
Qed.

Lemma edit_effect_wf (key : string) (val x : any) (t : target) :
  any_wf val -> edit_effect key val = Some (t, x) -> int_wf x.
Proof.
  unfold edit_effect. intros Hw. destruct (find_leaf key leaves) as [s|].
  - destruct (setter_value s val) eqn:E; cbn; [|done]. intros [= <- <-]. by eapply setter_value_wf.
  - destruct (key_target key) as [[k|q f]|]; try done. destruct (qci_setter f); [|done].
    destruct (asInt32 val) eqn:E; cbn; [|done]. intros [= <- <-]. by eapply asInt32_fits.
Qed.

(** An accepted change addresses its target. *)
Lemma applyChange_ok (c c' : EditableConfig) (key : string) (val : any) :
  applyChange c key val = Ok c' ->
  exists t x, edit_effect key val = Some (t, x) /\ key_target key = Some t /\ effect_on t x c c'.
Proof.
  intros Hok. pose proof (applyChange_effect c key val) as He. destruct (edit_effect key val) as [[t x]|].
  - destruct He as (Ht & c'' & Hc & Heff). rewrite Hc in Hok. simplify_eq. eauto.
  - destruct He as [e He]. congruence.
Qed.

Lemma applyChange_wf (c c' : EditableConfig) (key : string) (val : any) :
  any_wf val -> cfg_wf c -> applyChange c key val = Ok c' -> cfg_wf c'.
Proof.
  intros Hw [Hj Hq] Hok. destruct (applyChange_ok _ _ _ _ Hok) as (t & x & He & Ht & Heff).
  pose proof (edit_effect_wf _ _ _ _ Hw He) as Hx. destruct t as [k|q f]; cbn [effect_on] in Heff.
  - destruct Heff as (V & _ & Q). split; [rewrite V; by apply view_set_wf|by rewrite Q].
  - destruct Heff as (V & _ & g & i & Hg & -> & Q). split; [by rewrite V|rewrite Q].
    apply key_target_qci in Ht as [_ ?]. apply qci_write_wf; [unfold fits_int; lia| |done].
    intros p. by apply (qci_setter_wf f).
Qed.

Lemma apply_changes_wf (l : list (string * any)) (c c' : EditableConfig) :
  Forall (fun kv => any_wf (snd kv)) l -> cfg_wf c -> apply_changes l c = Ok c' -> cfg_wf c'.
Proof.
  revert c. induction l as [|[k v] l IH]; intros c Hl Hc Hok; cbn in Hok; [by simplify_eq|].
  apply Forall_cons in Hl as [Hv Hl]. destruct (applyChange c (TrimSpace k) v) eqn:E; [|done].
  eapply IH; [done| |exact Hok]. by eapply applyChange_wf.
Qed.

(** Leaves and profiles no target of the keys mentions are equal in both configurations. *)
Record agree_off (keys : list string) (c c' : EditableConfig) : Prop := mkAgreeOff {
  off_leaf : forall k, k ∉ keys -> json_get k c' = json_get k c;
  off_private : private_view c' = private_view c;
  off_class : forall q, (forall k f, k ∈ keys -> key_target k <> Some (TQCI q f)) ->
              qci_class q (QCIProfiles c') = qci_class q (QCIProfiles c);
  off_rb : (forall k q f, k ∈ keys -> key_target k <> Some (TQCI q f)) -> QCIProfiles c' = QCIProfiles c
}.

Lemma agree_off_refl (keys : list string) (c : EditableConfig) : agree_off keys c c.
Proof. by split. Qed.

Lemma agree_off_trans (k1 k2 : list string) (c1 c2 c3 : EditableConfig) :
  agree_off k1 c1 c2 -> agree_off k2 c2 c3 -> agree_off (k1 ++ k2) c1 c3.
Proof.
  intros [L1 P1 C1 R1] [L2 P2 C2 R2]. split.
  - intros k [Hk1 Hk2]%not_elem_of_app. by rewrite L2, L1.
  - congruence.
  - intros q Hq. rewrite C2, C1; [done|..]; intros k f Hk; apply Hq; apply elem_of_app; auto.
  - intros Hq. rewrite R2, R1; [done|..]; intros k q f Hk; apply Hq; apply elem_of_app; auto.
Qed.

Lemma key_target_leaf (key k : string) : key_target key = Some (TLeaf k) -> k = key /\ is_Some (find_leaf key leaves).
Proof.
  unfold key_target. destruct (find_leaf key leaves) eqn:E; [intros [= <-]; eauto|].
  destruct (parseQCIProfileKey key) as [[q f]|]; [|done]. by destruct ((1 <=? q) && (q <=? 9))%Z.
Qed.

Lemma applyChange_agree_off (c c' : EditableConfig) (key : string) (val : any) :
  applyChange c key val = Ok c' -> agree_off [key] c c'.
Proof.
  intros Hok. destruct (applyChange_ok _ _ _ _ Hok) as (t & x & _ & Ht & Heff).
  destruct t as [k|q f]; cbn [effect_on] in Heff.
  - destruct Heff as (V & P & Q). apply key_target_leaf in Ht as [-> _]. split; [|done|by rewrite Q..].
    intros k Hk. unfold json_get. rewrite V, view_get_set. destruct (String.eqb key k) eqn:E; [|done].
    b2p. subst. by apply not_elem_of_cons in Hk as [[] _].
  - destruct Heff as (V & P & g & i & Hg & -> & Q). split; [|done|..].
    + intros k _. unfold json_get. by rewrite V.
    + intros q' Hq'. rewrite Q, qci_class_write by (intros; by eapply qci_setter_keeps).
      case_decide; [|done]. subst. exfalso. apply (Hq' key f); [left|done].
    + intros Hq'. exfalso. apply (Hq' key q f); [left|done].
Qed.

Lemma apply_changes_agree_off (l : list (string * any)) (c c' : EditableConfig) :
  apply_changes l c = Ok c' -> agree_off (TrimSpace ∘ fst <$> l) c c'.
Proof.
  revert c. induction l as [|[k v] l IH]; intros c Hok; cbn in Hok; [simplify_eq; apply agree_off_refl|].
  destruct (applyChange c (TrimSpace k) v) as [c1|e] eqn:E; [|done].
  apply (agree_off_trans [TrimSpace k] _ _ c1); [by eapply applyChange_agree_off|]. by apply IH.
Qed.

Lemma apply_changes_targets (l : list (string * any)) (c c' : EditableConfig) :
  apply_changes l c = Ok c' -> Forall (fun k => is_Some (key_target k)) (TrimSpace ∘ fst <$> l).
Proof.
  revert c. induction l as [|[k v] l IH]; intros c Hok; cbn in Hok; [constructor|].
  destruct (applyChange c (TrimSpace k) v) eqn:E; [|done].
  constructor; [|by eapply IH]. destruct (applyChange_ok _ _ _ _ E) as (t & x & _ & Ht & _). cbn. by rewrite Ht.
Qed.

(** Two configurations that agree on every named leaf, the private fields and the profiles are equal. *)
Lemma json_view_get (c c' : EditableConfig) :
  (forall k, json_get k c' = json_get k c) -> json_view c' = json_view c.
Proof.
  intros Hk. unfold json_get in Hk.
  assert (Hg : forall l l' : list (string * any), NoDup l.*1 -> l.*1 = l'.*1 ->
            (forall k, view_get k l' = view_get k l) -> l' = l).
  { induction l as [|[a x] l IH]; intros [|[b y] l'] Hnd Hkeys Hget; cbn in *; simplify_eq; [done|].
    apply NoDup_cons in Hnd as [Ha Hnd]. pose proof (Hget b) as Hb. rewrite string_eqb_refl in Hb. simplify_eq.
    f_equal. apply IH; [done|done|]. intros k. specialize (Hget k). destruct (String.eqb b k) eqn:E; [|done].
    b2p; subst. assert (Hn : forall m : list (string * any), k ∉ m.*1 -> view_get k m = None).
    { induction m as [|[d z] m IHm]; cbn; [done|]. intros [? ?]%not_elem_of_cons.
      rewrite (proj2 (String.eqb_neq d k)) by done. by apply IHm. }
    rewrite !Hn; congruence. }
  apply Hg; [|by destruct c, c'|done]. apply (bool_decide_unpack (NoDup (json_view c).*1)). by destruct c; vm_compute.
Qed.

End Edits.
