(* ===== verification/ConfigStore.v ===== *)
(** * The configuration store in memory (internal/ems/configuration/store.go)

    Running and candidate configurations, the dirty bookkeeping that decides which files a commit
    rewrites, and the operations on them. A change map is the list of its entries in the order the
    range loop visits them. The files a commit writes are the subject of Persist.v. *)
From S2P Require Import Prelude GoNum GoStrings ConfigData ConfigEdit.

Record Dirty := mkDirty { enb : bool; rr : bool; sib : bool; rb : bool }.

Definition clean : Dirty := mkDirty false false false false.

(** A nil dirtyKeys map is the empty set: the code only ever reads its keys. *)
Record Store := mkStore {
  running : EditableConfig;
  cand : EditableConfig;
  enbPath : string;
  rrPath : string;
  sibPath : string;
  rbPath : string;
  dirty : Dirty;
  dirtyKeys : gset string
}.

Inductive managed_file := FENB | FRR | FSIB | FRB.

#[export] Instance managed_file_eq_dec : EqDecision managed_file.
Proof. solve_decision. Defined.

Section Store.
Context {GL : GoLib}.

(** ** Operations *)

Definition enb_keys : list string :=
  [ "enb_serial"; "enb_id"; "mcc"; "mnc"; "mme_addr"; "gtp_bind_addr"; "s1c_bind_addr"; "s1c_bind_port"; "n_prb"; "tm";
    "tx_gain"; "rx_gain"; "time_adv_nsamples"; "device_name"; "device_args";
    "sched_policy"; "pdsch_max_mcs"; "pusch_max_mcs"; "target_bler"; "min_nof_ctrl_symbols"; "max_nof_ctrl_symbols";
    "pusch_max_its"; "nr_pusch_max_its"; "pusch_8bit_decoder"; "nof_phy_threads"; "metrics_period_secs"; "tx_amplitude";
    "rrc_inactivity_timer"; "rlf_release_timer_ms"; "eea_pref_list"; "eia_pref_list"; "gtpu_tunnel_timeout"; "s1_setup_max_retries";
    "s1_connect_timer"; "rx_gain_offset"; "use_cedron_f_est_alg"; "rlf_min_ul_snr_estim"; "max_mac_dl_kos"; "max_mac_ul_kos" ].

Definition rr_keys : list string :=
  [ "cell_id"; "tac"; "dl_earfcn"; "pci"; "ho_active"; "a3_offset"; "time_to_trigger"; "hysteresis" ].

Definition sib_keys : list string :=
  [ "q_rx_lev_min"; "cell_barred"; "num_ra_preambles"; "preamble_init_rx_target_pwr"; "pwr_ramping_step";
    "reference_signal_power"; "p0_nominal_pusch"; "p0_nominal_pucch"; "alpha"; "default_paging_cycle";
    "t300"; "t301"; "t310"; "n310"; "t311" ].

(** The flag markDirtyLocked raises for a key, if any. *)
Definition file_of (key : string) : option managed_file :=
  if HasPrefix key qci_prefix then Some FRB
  else if existsb (String.eqb key) enb_keys then Some FENB
  else if existsb (String.eqb key) rr_keys then Some FRR
  else if existsb (String.eqb key) sib_keys then Some FSIB
  else None.

Definition mark_file (f : managed_file) (d : Dirty) : Dirty :=
  match f with
  | FENB => d <|enb := true|>
  | FRR => d <|rr := true|>
  | FSIB => d <|sib := true|>
  | FRB => d <|rb := true|>
  end.

Definition is_dirty (f : managed_file) (d : Dirty) : bool :=
  match f with FENB => enb d | FRR => rr d | FSIB => sib d | FRB => rb d end.

Definition markDirtyLocked (key : string) (s : Store) : Store :=
  match file_of key with
  | Some f => s <|dirty ::= mark_file f|>
  | None => s
  end.

(** NewStore after the four files have been parsed into cfg. *)
Definition newStore (enbP rrP sibP rbP : string) (cfg : EditableConfig) : result string Store :=
  match validate cfg with
  | Some e => Err e
  | None => Ok (mkStore cfg cfg enbP rrP sibP rbP clean ∅)
  end.

Definition HasPendingChanges (s : Store) : bool :=
  enb (dirty s) || rr (dirty s) || sib (dirty s) || rb (dirty s).

(** The loop of editLocked: dirty marks are set as the entries are visited. *)
Fixpoint edit_loop (changes : list (string * any)) (s : Store) (next : EditableConfig) :
    Store * result string EditableConfig :=
  match changes with
  | [] => (s, Ok next)
  | (k, v) :: rest =>
      let key := TrimSpace k in
      match applyChange next key v with
      | Err e => (s, Err e)
      | Ok next' => edit_loop rest ((markDirtyLocked key s) <|dirtyKeys ::= fun ks => {[key]} ∪ ks|>) next'
      end
  end.

Definition editLocked (changes : list (string * any)) (s : Store) : Store * result string EditableConfig :=
  match edit_loop changes s (cand s) with
  | (s', Err e) => (s', Err e)
  | (s', Ok next) =>
      match validate next with
      | Some e => (s', Err e)
      | None => (s' <|cand := next|>, Ok next)
      end
  end.

Definition Edit (changes : list (string * any)) (s : Store) : Store * result string EditableConfig :=
  editLocked changes s.

Definition PreviewEdit (changes : list (string * any)) (s : Store) : result string EditableConfig :=
  let? next := apply_changes changes (cand s) in
  match validate next with
  | Some e => Err e
  | None => Ok next
  end.

Definition ValidateConfig (cfg : EditableConfig) : option string := validate cfg.

Definition ResetCandidate (s : Store) : Store :=
  s <|cand := running s|> <|dirty := clean|> <|dirtyKeys := ∅|>.

Definition FinalizeCommit (s : Store) : Store * option string :=
  match validate (cand s) with
  | Some e => (s, Some e)
  | None => (s <|running := cand s|> <|dirty := clean|> <|dirtyKeys := ∅|>, None)
  end.

(** ** Steps *)

Inductive store_op :=
| OpEdit (changes : list (string * any))
| OpPreview (changes : list (string * any))
| OpReset
| OpFinalize.

Definition store_step (op : store_op) (s : Store) : Store :=
  match op with
  | OpEdit changes => fst (Edit changes s)
  | OpPreview _ => s
  | OpReset => ResetCandidate s
  | OpFinalize => fst (FinalizeCommit s)
  end.

Definition store_run (ops : list store_op) (s : Store) : Store := foldl (flip store_step) s ops.

(** ** Lemmas on the edit loop *)

(** What a sequence of visited keys does to the bookkeeping. *)
Definition mark_keys (keys : list string) (s : Store) : Store :=
  foldl (fun s key => (markDirtyLocked key s) <|dirtyKeys ::= fun ks => {[key]} ∪ ks|>) s keys.

Lemma markDirtyLocked_frame (key : string) (s : Store) :
  running (markDirtyLocked key s) = running s /\ cand (markDirtyLocked key s) = cand s /\
  dirtyKeys (markDirtyLocked key s) = dirtyKeys s.
Proof. unfold markDirtyLocked. by destruct (file_of key), s. Qed.

Lemma mark_keys_frame (keys : list string) (s : Store) :
  running (mark_keys keys s) = running s /\ cand (mark_keys keys s) = cand s /\
  dirtyKeys (mark_keys keys s) = list_to_set keys ∪ dirtyKeys s.
Proof.
  revert s. induction keys as [|k keys IH]; intros s; cbn; [set_solver|].
  destruct (IH ((markDirtyLocked k s) <|dirtyKeys ::= fun ks => {[k]} ∪ ks|>)) as (Hr & Hc & Hk).
  unfold mark_keys in *. rewrite Hr, Hc, Hk. destruct (markDirtyLocked_frame k s) as (<- & <- & <-).
  destruct (markDirtyLocked k s); cbn. set_solver.
Qed.

Lemma mark_keys_dirty (keys : list string) (s : Store) (f : managed_file) :
  is_dirty f (dirty (mark_keys keys s)) =
  is_dirty f (dirty s) || existsb (fun k => bool_decide (file_of k = Some f)) keys.
Proof.
  revert s. induction keys as [|k keys IH]; intros s; cbn; [by rewrite orb_false_r|].
  unfold mark_keys in IH. rewrite IH, orb_assoc. f_equal.
  unfold markDirtyLocked. destruct (file_of k) as [g|] eqn:E; destruct s as [? ? ? ? ? ? [] ?]; cbn.
  - destruct f, g; cbn; rewrite ?orb_true_r, ?orb_false_r; done.
  - by rewrite orb_false_r.
Qed.

(** The loop either visits every change, or stops with the marks of a prefix. *)
Lemma edit_loop_spec (changes : list (string * any)) (s : Store) (next : EditableConfig) :
  match edit_loop changes s next with
  | (s', Ok next') => apply_changes changes next = Ok next' /\ s' = mark_keys (TrimSpace ∘ fst <$> changes) s
  | (s', Err e) => apply_changes changes next = Err e /\
                   exists pre, pre `prefix_of` (TrimSpace ∘ fst <$> changes) /\ s' = mark_keys pre s
  end.
Proof.
  revert s next. induction changes as [|[k v] r IH]; intros s next; [done|].
  cbn [edit_loop apply_changes]. destruct (applyChange next (TrimSpace k) v) as [next'|e] eqn:E; cbn [result_bind].
  - specialize (IH ((markDirtyLocked (TrimSpace k) s) <|dirtyKeys ::= fun ks => {[TrimSpace k]} ∪ ks|>) next').
    destruct (edit_loop r _ next') as [s' [n|e]]; destruct IH as [H1 H2].
    + split; [done|]. by rewrite H2.
    + split; [done|]. destruct H2 as (pre & Hpre & ->). exists (TrimSpace k :: pre). split; [|done].
      by apply prefix_cons.
  - split; [done|]. exists []. split; [apply prefix_nil|done].
Qed.

(** Edit and PreviewEdit compute the same outcome. *)
Lemma editLocked_result (changes : list (string * any)) (s : Store) :
  snd (editLocked changes s) = PreviewEdit changes s.
Proof.
  unfold editLocked, PreviewEdit. pose proof (edit_loop_spec changes s (cand s)) as Hl.
  destruct (edit_loop changes s (cand s)) as [s' [n|e]]; destruct Hl as [-> _]; cbn; [|done].
  by destruct (validate n).
Qed.

Lemma editLocked_spec (changes : list (string * any)) (s : Store) :
  match PreviewEdit changes s with
  | Ok next => fst (editLocked changes s) = (mark_keys (TrimSpace ∘ fst <$> changes) s) <|cand := next|>
  | Err _ => exists pre, pre `prefix_of` (TrimSpace ∘ fst <$> changes) /\
                         fst (editLocked changes s) = mark_keys pre s
  end.
Proof.
  unfold editLocked, PreviewEdit. pose proof (edit_loop_spec changes s (cand s)) as Hl.
  destruct (edit_loop changes s (cand s)) as [s' [n|e]]; destruct Hl as [-> Hs]; cbn; [|done].
  destruct (validate n); cbn; [|by rewrite Hs]. eauto.
Qed.

(** ** Invariant *)

Lemma leaves_have_file : Forall (fun e => is_Some (file_of (fst e))) leaves.
Proof. apply (bool_decide_unpack (Forall (fun e => is_Some (file_of (fst e))) leaves)). by vm_compute. Qed.

(** Every key a change can address belongs to one managed file. *)
Lemma key_target_file (key : string) : is_Some (key_target key) -> is_Some (file_of key).
Proof.
  intros [[k|q f] Ht].
  - apply key_target_leaf in Ht as [-> [s Hs]]. apply find_leaf_in in Hs.
    pose proof leaves_have_file as Hf. rewrite Forall_forall in Hf. apply (Hf _ Hs).
  - apply key_target_qci in Ht as [Hp _]. unfold file_of. by rewrite Hp.
Qed.

Lemma key_target_rb (key : string) (q : Z) (f : string) :
  key_target key = Some (TQCI q f) -> file_of key = Some FRB.
Proof. intros [Hp _]%key_target_qci. unfold file_of. by rewrite Hp. Qed.

(** The consistency of a store: both configurations are valid and width-correct, a file is flagged
    exactly when one of the dirty keys lives in it, every dirty key lives in some file, and
    candidate and running agree wherever no dirty key points. *)
Record store_inv (s : Store) : Prop := mkStoreInv {
  inv_running : validate (running s) = None /\ cfg_wf (running s);
  inv_cand : validate (cand s) = None /\ cfg_wf (cand s);
  inv_flags : forall f, is_dirty f (dirty s) = true <-> exists k, k ∈ dirtyKeys s /\ file_of k = Some f;
  inv_keys : forall k, k ∈ dirtyKeys s -> is_Some (key_target k);
  inv_agree : agree_off (elements (dirtyKeys s)) (running s) (cand s)
}.

Definition op_wf (op : store_op) : Prop :=
  match op with
  | OpEdit changes | OpPreview changes => Forall (fun kv => any_wf (snd kv)) changes
  | _ => True
  end.

Lemma mark_keys_flags (keys : list string) (s : Store) :
  (forall f, is_dirty f (dirty s) = true <-> exists k, k ∈ dirtyKeys s /\ file_of k = Some f) ->
  forall f, is_dirty f (dirty (mark_keys keys s)) = true <-> exists k, k ∈ dirtyKeys (mark_keys keys s) /\ file_of k = Some f.
Proof.
  intros Hs f. rewrite mark_keys_dirty, orb_true_iff, Hs, existsb_elem.
  destruct (mark_keys_frame keys s) as (_ & _ & ->). setoid_rewrite bool_decide_eq_true.
  setoid_rewrite elem_of_union. setoid_rewrite elem_of_list_to_set. naive_solver.
Qed.

Lemma agree_off_mono (k1 k2 : list string) (c c' : EditableConfig) :
  k1 ⊆ k2 -> agree_off k1 c c' -> agree_off k2 c c'.
Proof. intros Hsub [L P C R]. split; [auto|done|..]; intros; [apply C|apply R]; eauto. Qed.

Lemma apply_changes_prefix_targets (l : list (string * any)) (c : EditableConfig) (s : Store) :
  match edit_loop l s c with
  | (s', Err _) => exists pre, s' = mark_keys pre s /\ Forall (fun k => is_Some (key_target k)) pre
  | _ => True
  end.
Proof.
  revert s c. induction l as [|[k v] l IH]; intros s c; [done|]. cbn [edit_loop].
  destruct (applyChange c (TrimSpace k) v) as [c'|e] eqn:E.
  - specialize (IH ((markDirtyLocked (TrimSpace k) s) <|dirtyKeys ::= fun ks => {[TrimSpace k]} ∪ ks|>) c').
    destruct (edit_loop l _ c') as [s' [n|e]]; [done|]. destruct IH as (pre & -> & Hpre).
    exists (TrimSpace k :: pre). split; [done|]. constructor; [|done].
    destruct (applyChange_ok _ _ _ _ E) as (t & x & _ & Ht & _). by rewrite Ht.
  - by exists [].
Qed.

Lemma store_inv_mark (keys : list string) (s : Store) :
  Forall (fun k => is_Some (key_target k)) keys -> store_inv s -> store_inv (mark_keys keys s).
Proof.
  intros Hk [Hr Hc Hf Hks Ha]. destruct (mark_keys_frame keys s) as (Er & Ec & Ek).
  split; rewrite ?Er, ?Ec; [done|done|by apply mark_keys_flags|..].
  - rewrite Ek. intros k. rewrite elem_of_union, elem_of_list_to_set. rewrite Forall_forall in Hk.
    intros [?|?]; auto.
  - eapply agree_off_mono; [|done]. intros k. rewrite !elem_of_elements, Ek. set_solver.
Qed.

Lemma store_inv_edit (changes : list (string * any)) (s : Store) :
  Forall (fun kv => any_wf (snd kv)) changes -> store_inv s -> store_inv (fst (editLocked changes s)).
Proof.
  intros Hw Hs. unfold editLocked.
  pose proof (edit_loop_spec changes s (cand s)) as Hl.
  pose proof (apply_changes_prefix_targets changes (cand s) s) as Hp.
  destruct (edit_loop changes s (cand s)) as [s' [next|e]].
  2:{ destruct Hp as (pre & -> & Hpre). by apply store_inv_mark. }
  destruct Hl as [Hok ->]. pose proof (apply_changes_targets _ _ _ Hok) as Ht.
  pose proof (store_inv_mark _ _ Ht Hs) as Hm.
  destruct (validate next) as [e|] eqn:Ev; [done|]. cbn [fst].
  destruct (mark_keys_frame (TrimSpace ∘ fst <$> changes) s) as (Er & Ec & Ek).
  destruct Hs as [Hr Hc Hf Hks Ha], Hm as [Hr' _ Hf' Hks' _].
  split; destruct (mark_keys _ s); cbn in *; [done| |done|done|].
  - split; [done|]. eapply apply_changes_wf; [done| |done]. apply Hc.
  - subst. eapply agree_off_mono; [|exact (agree_off_trans _ _ _ _ _ Ha (apply_changes_agree_off _ _ _ Hok))].
    intros k. rewrite elem_of_app, !elem_of_elements. set_solver.
Qed.

Lemma store_inv_settled (s : Store) (c : EditableConfig) :
  validate c = None -> cfg_wf c ->
  store_inv (s <|running := c|> <|cand := c|> <|dirty := clean|> <|dirtyKeys := ∅|>).
Proof.
  intros Hv Hw. split; destruct s; cbn; [done|done| |set_solver|apply agree_off_refl].
  intros f. split; [by destruct f|]. intros (k & Hk & _). set_solver.
Qed.

Lemma store_inv_step (op : store_op) (s : Store) : op_wf op -> store_inv s -> store_inv (store_step op s).
Proof.
  intros Hw Hs. destruct op as [changes|changes| |]; cbn.
  - by apply store_inv_edit.
  - done.
  - destruct Hs as [[Hr Hrw] _ _ _ _]. pose proof (store_inv_settled s _ Hr Hrw) as Hi. by destruct s.
  - unfold FinalizeCommit. destruct Hs as [Hr [Hc Hcw] Hf Hk Ha]. rewrite Hc. cbn.
    pose proof (store_inv_settled s _ Hc Hcw) as Hi. by destruct s.
Qed.

Lemma store_inv_run (ops : list store_op) (s : Store) : Forall op_wf ops -> store_inv s -> store_inv (store_run ops s).
Proof.
  revert s. induction ops as [|op ops IH]; intros s Hops Hs; [done|].
  apply Forall_cons in Hops as [? ?]. apply IH; [done|]. by apply store_inv_step.
Qed.

Lemma newStore_inv (e r sb b : string) (cfg : EditableConfig) (s : Store) :
  cfg_wf cfg -> newStore e r sb b cfg = Ok s -> store_inv s.
Proof.
  unfold newStore. destruct (validate cfg) eqn:Ev; [done|]. intros Hw [= <-].
  apply (store_inv_settled (mkStore cfg cfg e r sb b clean ∅) cfg Ev Hw).
Qed.

(** With no file flagged the candidate is the running configuration. *)
Lemma store_inv_clean (s : Store) : store_inv s -> HasPendingChanges s = false -> cand s = running s.
Proof.
  intros [_ _ Hf Hk [Hl Hp _ Hr]] Hn.
  assert (He : forall k, k ∉ dirtyKeys s).
  { intros k Hin. destruct (key_target_file k (Hk k Hin)) as [f Hfk].
    assert (is_dirty f (dirty s) = true) as Hd by (apply Hf; eauto).
    unfold HasPendingChanges in Hn. b2p. destruct f; cbn in Hd; congruence. }
  apply config_ext; [|done|].
  - apply json_view_get. intros k. apply Hl. rewrite elem_of_elements. auto.
  - apply Hr. intros k q f Hin. rewrite elem_of_elements in Hin. exfalso. by eapply He.
Qed.

End Store.

(** ** A concrete configuration *)

Definition sample_cfg : EditableConfig :=
  {| ENBSerial := "enb-1"; SIBConfigFile := "sib.conf"; RRConfigFile := "rr.conf"; RBConfigFile := "rb.conf";
     ReportJSONUDSEnable := false; ReportJSONUDSPath := ""; AlarmsLogEnable := false; AlarmsFilename := "";
     ENBID := "0x19B"; MCC := "001"; MNC := "01"; MMEAddr := "127.0.1.100"; GTPBindAddr := "127.0.1.1";
     S1CBindAddr := "127.0.1.1"; S1CBindPort := 0; NPRB := 50; TM := 1; DeviceName := "zmq"; DeviceArgs := "";
     TXGain := f_of_Z 80; RXGain := f_of_Z 40; TimeAdvNSamples := "auto"; SchedPolicy := "time_pf";
     PDSCHMaxMCS := -1; PUSCHMaxMCS := -1; TargetBLER := f_zero; MinCtrlSymbols := 1; MaxCtrlSymbols := 3;
     CellID := "0x01"; TAC := "0x0007"; DLEARFCN := 3350; PCI := 1; HOActive := true; A3Offset := 6;
     TimeToTrigger := 480; Hysteresis := 0; QRxLevMin := -65; CellBarred := "Not_Barred"; NumRAPreambles := 52;
     PreambleInitRxTargetPwr := -104; PwrRampingStep := 6; ReferenceSignalPower := 0; P0NominalPUSCH := -85;
     P0NominalPUCCH := -107; Alpha := f_zero; DefaultPagingCycle := 128; T300 := 2000; T301 := 100; T310 := 200;
     N310 := 1; T311 := 10000; QCIProfiles := [mkQCI 7 (-1) 12 0 0 0 13; mkQCI 9 150 12 120 4 60 11];
     PUSCHMaxIts := 8; NRPUSCHMaxIts := 10; PUSCH8bitDecoder := false; NofPHYThreads := 3; MetricsPeriodSecs := 1;
     TXAmplitude := f_zero; RRCInactivityTimer := 30000; RLFReleaseTimerMs := 4000; EEAPrefList := "EEA0";
     EIAPrefList := "EIA2"; GTPUTunnelTimeout := 0; S1SetupMaxRetries := -1; S1ConnectTimer := 10;
     RXGainOffset := f_of_Z 62; UseCedronFEstAlg := false; RLFMinULSNREstim := f_of_Z (-2); MaxMacDLKOs := 100;
     MaxMacULKOs := 100 |}%Z.

Definition sample_store : Store :=
  mkStore sample_cfg sample_cfg "/etc/enb.conf" "/etc/rr.conf" "/etc/sib.conf" "/etc/rb.conf" clean ∅.

Lemma sample_cfg_valid : validate (GL:=ascii_golib) sample_cfg = None.
Proof. by vm_compute. Qed.

Lemma sample_cfg_wf : cfg_wf sample_cfg.
Proof. split; repeat constructor; by vm_compute. Qed.

(** ** Properties *)

Section Properties.
Context {GL : GoLib}.

Lemma leaves_named (c : EditableConfig) : Forall (fun e => is_Some (json_get (fst e) c)) leaves.
Proof.
  apply (bool_decide_unpack (Forall (fun e => is_Some (json_get (fst e) c)) leaves)). destruct c. by vm_compute.
Qed.

(** C5: an accepted edit of a scalar key stores the converted value in the leaf that carries the
    key's name in the JSON view, and changes no other leaf, no profile and no private field. *)
Theorem applyChange_writes_named_leaf (c c' : EditableConfig) (key : string) (s : setter) (val : any) :
  find_leaf key leaves = Some s -> applyChange c key val = Ok c' ->
  exists x, setter_value s val = Some x /\ json_get key c' = Some x /\
            (forall k, k <> key -> json_get k c' = json_get k c) /\
            QCIProfiles c' = QCIProfiles c /\ private_view c' = private_view c.
Proof.
  intros Hs Hok. destruct (applyChange_ok _ _ _ _ Hok) as (t & x & He & Ht & Heff).
  unfold edit_effect in He. rewrite Hs in He. destruct (setter_value s val) as [y|] eqn:Ev; cbn in He; simplify_eq.
  destruct Heff as (V & P & Q). exists x. split; [done|]. split.
  - apply find_leaf_in in Hs. pose proof (leaves_named c) as Hn. rewrite Forall_forall in Hn.
    destruct (Hn _ Hs) as [y Hy]. unfold json_get in *. cbn [fst] in Hy.
    by rewrite V, view_get_set, string_eqb_refl, Hy.
  - split; [|done]. intros k Hk. unfold json_get. rewrite V, view_get_set.
    destruct (String.eqb key k) eqn:E; [b2p; by subst|done].
Qed.


(** Every store reached from a fresh one by edits, previews, resets and commits keeps running
    and candidate valid and within their integer widths, flags exactly the files its dirty keys
    live in, and lets candidate and running differ only where a dirty key points. *)
Theorem store_invariant_reachable (ops : list store_op) (e r sb b : string) (cfg : EditableConfig) (s : Store) :
  cfg_wf cfg -> newStore e r sb b cfg = Ok s -> Forall op_wf ops -> store_inv (store_run ops s).
Proof. intros Hw Hn Hops. apply store_inv_run; [done|]. by eapply newStore_inv. Qed.

(** HasPendingChanges is exact in the direction commits rely on: when it answers false, the
    candidate equals the running configuration, so nothing edited is left behind. *)
Theorem no_pending_changes_settled (ops : list store_op) (e r sb b : string) (cfg : EditableConfig) (s : Store) :
  cfg_wf cfg -> newStore e r sb b cfg = Ok s -> Forall op_wf ops ->
  HasPendingChanges (store_run ops s) = false -> cand (store_run ops s) = running (store_run ops s).
Proof. intros Hw Hn Hops. apply store_inv_clean. apply store_inv_run; [done|]. by eapply newStore_inv. Qed.

(** Edit is all or nothing on the configurations: it returns what PreviewEdit computes; a
    refused edit changes neither running nor candidate, an accepted one makes the valid result
    the candidate and leaves running alone. *)
Theorem edit_all_or_nothing (changes : list (string * any)) (s : Store) :
  snd (Edit changes s) = PreviewEdit changes s /\ running (fst (Edit changes s)) = running s /\
  match PreviewEdit changes s with
  | Ok next => cand (fst (Edit changes s)) = next /\ ValidateConfig next = None
  | Err _ => cand (fst (Edit changes s)) = cand s
  end.
Proof.
  split; [apply editLocked_result|]. unfold Edit. pose proof (editLocked_spec changes s) as Hs.
  destruct (PreviewEdit changes s) as [next|e] eqn:Ep.
  - rewrite Hs. destruct (mark_keys_frame (TrimSpace ∘ fst <$> changes) s) as (Hr & _ & _).
    destruct (mark_keys _ s); cbn in *. split_and!; [done|done|].
    unfold PreviewEdit in Ep. destruct (apply_changes changes (cand s)) as [n|]; cbn in Ep; [|done].
    unfold ValidateConfig. destruct (validate n) eqn:Ev; by simplify_eq.
  - destruct Hs as (pre & _ & ->). by destruct (mark_keys_frame pre s) as (-> & -> & _).
Qed.

End Properties.

Lemma applyChange_writes_named_leaf_witness :
  exists c' x, applyChange (GL:=ascii_golib) sample_cfg "pci" (AInt 7) = Ok c' /\ json_get "pci" c' = Some x.
Proof.
  destruct (applyChange (GL:=ascii_golib) sample_cfg "pci" (AInt 7)) as [c'|e] eqn:E; [|vm_compute in E; discriminate].
  destruct (applyChange_writes_named_leaf (GL:=ascii_golib) sample_cfg c' "pci"
              (SUint32 (fun v c => c <|PCI := v|>)) (AInt 7) eq_refl E) as (x & _ & Hx & _).
  exists c', x. split; [reflexivity|exact Hx].
Defined.

Definition sample_changes : list (string * any) :=
  [("pci", AInt 7); ("qci_profiles[5].priority", AInt 2); (" tac ", AString "0x0008"); ("qci_profiles[3].priority", AInt 4)].

Lemma sample_changes_wf : Forall (fun kv => any_wf (snd kv)) sample_changes.
Proof. unfold sample_changes. repeat apply Forall_cons_2; try apply Forall_nil_2; by vm_compute. Qed.


Lemma store_invariant_reachable_witness :
  store_inv (GL:=ascii_golib) (store_run (GL:=ascii_golib) [OpEdit sample_changes; OpFinalize; OpReset] sample_store).
Proof.
  refine (store_invariant_reachable (GL:=ascii_golib) [OpEdit sample_changes; OpFinalize; OpReset]
            "/etc/enb.conf" "/etc/rr.conf" "/etc/sib.conf" "/etc/rb.conf" sample_cfg sample_store sample_cfg_wf _ _).
  - vm_compute. reflexivity.
  - repeat first [apply Forall_nil_2 | apply Forall_cons_2; [first [exact I | exact sample_changes_wf]|]].
Defined.

Lemma no_pending_changes_settled_witness :
  let s := store_run (GL:=ascii_golib) [OpEdit sample_changes; OpFinalize] sample_store in
  HasPendingChanges s = false /\ cand s = running s.
Proof.
  cbv zeta. split; [vm_compute; reflexivity|].
  refine (no_pending_changes_settled (GL:=ascii_golib) [OpEdit sample_changes; OpFinalize]
            "/etc/enb.conf" "/etc/rr.conf" "/etc/sib.conf" "/etc/rb.conf" sample_cfg sample_store sample_cfg_wf _ _ _).
  - vm_compute. reflexivity.
  - repeat first [apply Forall_nil_2 | apply Forall_cons_2; [first [exact I | exact sample_changes_wf]|]].
  - vm_compute. reflexivity.
Defined.

(** ** Finding *)

(** A refused edit leaves dirty marks behind: the store then reports pending changes although the
    candidate is the running configuration. *)
Lemma refused_edit_marks_dirty :
  let '(s, r) := Edit (GL := ascii_golib) [("pci", AUint32 7); ("no_such_leaf", AUint32 1)] sample_store in
  is_ok r = false /\ cand s = running s /\ HasPendingChanges s = true.
Proof. vm_compute. split_and!; reflexivity. Qed.
