(* ===== verification/Scan.v ===== *)
(** * Byte scanners over libconfig text (internal/ems/configuration/renderer.go, lines 490-657)

    The loops of the Go code that advance an index become functions with fuel; every iteration
    moves the index forward, so a fuel of one more than the length of the text never runs out
    ([find_assignment_fuel] and its siblings). *)
From S2P Require Import Prelude GoNum GoStrings ConfigData.

Definition slice (data : bytes) (a b : nat) : bytes := take (b - a) (drop a data).

Definition at_byte (data : bytes) (i : nat) (c : ascii) : bool :=
  match data !! i with Some d => Ascii.eqb d c | None => false end.

Definition blank4 (c : ascii) : bool :=
  Ascii.eqb c " " || Ascii.eqb c "009" || Ascii.eqb c "013" || Ascii.eqb c "010".

(** The index where a loop of the form [for i < len && p(data[i]) { i++ }] stops. *)
Definition span_end (p : ascii -> bool) (data : bytes) (i : nat) : nat :=
  i + length (take_while p (drop i data)).

Definition isIdentStart (c : ascii) : bool := is_ident_start c.
Definition isIdent (c : ascii) : bool := is_ident c.

Definition skipASCIIWhitespace (data : bytes) (i : nat) : nat := span_end blank4 data i.
Definition skipLine (data : bytes) (i : nat) : nat := span_end (fun c => negb (Ascii.eqb c newline)) data i.

Fixpoint trimRightASCII (data : bytes) (start e : nat) : nat :=
  match e with
  | 0 => 0
  | S e' =>
      if start <? e then
        match data !! e' with
        | Some c => if blank4 c then trimRightASCII data start e' else e
        | None => e
        end
      else e
  end.

Definition isLineCommentStart (data : bytes) (i : nat) : bool :=
  match data !! i with
  | None => false
  | Some c =>
      if negb (Ascii.eqb c "#") && negb (Ascii.eqb c "/" && at_byte data (i + 1) "/") then false
      else match i with
           | 0 => true
           | S p => match data !! p with Some d => blank4 d | None => false end
           end
  end.

(** The offset of the closing quote in the bytes after the opening one. *)
Fixpoint string_close (escaped : bool) (l : bytes) : option nat :=
  match l with
  | [] => None
  | c :: r =>
      if escaped then S <$> string_close false r
      else if Ascii.eqb c backslash then S <$> string_close true r
      else if Ascii.eqb c dquote then Some 0
      else S <$> string_close false r
  end.

Definition skipString (data : bytes) (quote : nat) : option nat :=
  (fun k => S quote + k) <$> string_close false (drop (S quote) data).

Record assignmentSpan := mkSpan { KeyStart : nat; KeyEnd : nat; Equal : nat; ValueStart : nat }.

(** [same] compares a token with the key: byte equality here, case folding in the parser. *)
Fixpoint find_assignment_loop (same : bytes -> bool) (fuel : nat) (data : bytes) (i : nat) : option assignmentSpan :=
  match fuel with
  | 0 => None
  | S fuel =>
      match data !! i with
      | None => None
      | Some c =>
          if isLineCommentStart data i then find_assignment_loop same fuel data (S (skipLine data i))
          else if Ascii.eqb c dquote then
            match skipString data i with
            | None => None
            | Some next => find_assignment_loop same fuel data (S next)
            end
          else if negb (isIdentStart c) then find_assignment_loop same fuel data (S i)
          else
            let stop := span_end isIdent data i in
            let j := skipASCIIWhitespace data stop in
            if same (slice data i stop) && at_byte data j "="
            then Some (mkSpan i stop j (skipASCIIWhitespace data (S j)))
            else find_assignment_loop same fuel data stop
      end
  end.

Definition findAssignment (data : bytes) (key : string) (from : nat) : option assignmentSpan :=
  find_assignment_loop (fun token => bool_decide (token = str key)) (S (length data)) data from.

Definition ends_scalar (c : ascii) : bool := Ascii.eqb c ";" || Ascii.eqb c "010" || Ascii.eqb c "013".
Definition opens_group (c : ascii) : bool :=
  Ascii.eqb c "{" || Ascii.eqb c "}" || Ascii.eqb c "(" || Ascii.eqb c ")".

Fixpoint scalar_end_loop (fuel : nat) (data : bytes) (from i : nat) : option nat :=
  match fuel with
  | 0 => None
  | S fuel =>
      match data !! i with
      | None => Some (trimRightASCII data from (length data))
      | Some c =>
          if isLineCommentStart data i then Some (trimRightASCII data from i)
          else if Ascii.eqb c dquote then
            match skipString data i with
            | None => None
            | Some next => scalar_end_loop fuel data from (S next)
            end
          else if ends_scalar c then Some (trimRightASCII data from i)
          else if opens_group c then None
          else scalar_end_loop fuel data from (S i)
      end
  end.

Definition findScalarValueEnd (data : bytes) (from : nat) : option nat :=
  scalar_end_loop (S (length data)) data from from.

Fixpoint matching_brace_loop (fuel : nat) (data : bytes) (i : nat) (depth : Z) (inString escaped : bool) : option nat :=
  match fuel with
  | 0 => None
  | S fuel =>
      match data !! i with
      | None => None
      | Some c =>
          if negb inString && isLineCommentStart data i then
            matching_brace_loop fuel data (S (skipLine data i)) depth inString escaped
          else if inString then
            if escaped then matching_brace_loop fuel data (S i) depth true false
            else if Ascii.eqb c backslash then matching_brace_loop fuel data (S i) depth true true
            else if Ascii.eqb c dquote then matching_brace_loop fuel data (S i) depth false false
            else matching_brace_loop fuel data (S i) depth true false
          else if Ascii.eqb c dquote then matching_brace_loop fuel data (S i) depth true escaped
          else if Ascii.eqb c "{" then matching_brace_loop fuel data (S i) (depth + 1) false escaped
          else if Ascii.eqb c "}" then
            if (depth - 1 =? 0)%Z then Some i else matching_brace_loop fuel data (S i) (depth - 1) false escaped
          else matching_brace_loop fuel data (S i) depth false escaped
      end
  end.

Definition findMatchingBrace (data : bytes) (open : nat) : option nat :=
  matching_brace_loop (S (length data)) data open 0 false false.

#[global] Arguments slice : simpl never.
#[global] Arguments at_byte : simpl never.
#[global] Arguments blank4 : simpl never.
#[global] Arguments span_end : simpl never.
#[global] Arguments isIdentStart : simpl never.
#[global] Arguments isIdent : simpl never.
#[global] Arguments skipASCIIWhitespace : simpl never.
#[global] Arguments skipLine : simpl never.
#[global] Arguments isLineCommentStart : simpl never.
#[global] Arguments skipString : simpl never.
#[global] Arguments ends_scalar : simpl never.
#[global] Arguments opens_group : simpl never.

(** ** Lemmas: spans *)

Lemma take_while_spec (p : ascii -> bool) (l : bytes) :
  (forall k c, k < length (take_while p l) -> l !! k = Some c -> p c = true) /\
  length (take_while p l) <= length l /\
  (forall c, l !! length (take_while p l) = Some c -> p c = false).
Proof.
  induction l as [|x l (H1 & H2 & H3)]; cbn; [split_and!; [lia|lia|done]|].
  destruct (p x) eqn:E; cbn.
  - split_and!; [|lia|done]. intros [|k] c Hk Hl; cbn in *; [congruence|]. apply (H1 k); [lia|done].
  - split_and!; [lia|lia|]. intros c [= <-]. done.
Qed.

Lemma span_end_ge (p : ascii -> bool) (data : bytes) (i : nat) : i <= span_end p data i.
Proof. unfold span_end. lia. Qed.

Lemma span_end_le (p : ascii -> bool) (data : bytes) (i : nat) : i <= length data -> span_end p data i <= length data.
Proof.
  intros Hi. unfold span_end. destruct (take_while_spec p (drop i data)) as (_ & Hl & _).
  rewrite length_drop in Hl. lia.
Qed.

Lemma span_end_inside (p : ascii -> bool) (data : bytes) (i k : nat) (c : ascii) :
  i <= k < span_end p data i -> data !! k = Some c -> p c = true.
Proof.
  intros Hk Hc. destruct (take_while_spec p (drop i data)) as (H1 & _ & _). unfold span_end in Hk.
  apply (H1 (k - i)); [lia|]. rewrite lookup_drop. by replace (i + (k - i)) with k by lia.
Qed.

Lemma span_end_stop (p : ascii -> bool) (data : bytes) (i : nat) (c : ascii) :
  data !! span_end p data i = Some c -> p c = false.
Proof.
  destruct (take_while_spec p (drop i data)) as (_ & _ & H3). unfold span_end. rewrite <- lookup_drop. apply H3.
Qed.

(** The stop index is determined by what lies before it and at it. *)
Lemma span_end_unique (p : ascii -> bool) (data : bytes) (i r : nat) :
  i <= r <= length data -> (forall k c, i <= k < r -> data !! k = Some c -> p c = true) ->
  (forall c, data !! r = Some c -> p c = false) -> span_end p data i = r.
Proof.
  intros Hr Hin Hstop. pose proof (span_end_ge p data i). pose proof (span_end_le p data i ltac:(lia)).
  destruct (lt_eq_lt_dec (span_end p data i) r) as [[Hlt|Heq]|Hgt]; [|done|].
  - destruct (lookup_lt_is_Some_2 data (span_end p data i)) as [c Hc]; [lia|].
    pose proof (Hin (span_end p data i) c ltac:(lia) Hc). pose proof (span_end_stop _ _ _ _ Hc). congruence.
  - destruct (lookup_lt_is_Some_2 data r) as [c Hc]; [lia|].
    pose proof (Hstop _ Hc). pose proof (span_end_inside p data i r c ltac:(lia) Hc). congruence.
Qed.

(** ** Lemmas: texts that agree on a prefix *)

Definition agree (n : nat) (d d' : bytes) : Prop := take n d = take n d'.

Lemma agree_lookup (n i : nat) (d d' : bytes) : agree n d d' -> i < n -> d !! i = d' !! i.
Proof. intros Ha Hi. rewrite <- (lookup_take_lt d n i), <- (lookup_take_lt d' n i) by done. by rewrite Ha. Qed.

Lemma agree_sym (n : nat) (d d' : bytes) : agree n d d' -> agree n d' d.
Proof. done. Qed.

Lemma agree_length (n : nat) (d d' : bytes) : agree n d d' -> n <= length d -> n <= length d'.
Proof. intros Ha Hn. apply (f_equal length) in Ha. rewrite !length_take in Ha. lia. Qed.

Lemma span_end_local (p : ascii -> bool) (n i : nat) (d d' : bytes) :
  agree n d d' -> span_end p d i < n -> n <= length d -> span_end p d' i = span_end p d i.
Proof.
  intros Ha Hn Hl. pose proof (span_end_ge p d i). pose proof (agree_length _ _ _ Ha Hl).
  apply span_end_unique; [lia|..].
  - intros k c Hk. rewrite <- (agree_lookup _ _ _ _ Ha) by lia. apply (span_end_inside p d i k c); lia.
  - intros c. rewrite <- (agree_lookup _ _ _ _ Ha) by lia. apply span_end_stop.
Qed.

Lemma at_byte_local (n i : nat) (d d' : bytes) (c : ascii) :
  agree n d d' -> i < n -> at_byte d' i c = at_byte d i c.
Proof. intros Ha Hi. unfold at_byte. by rewrite (agree_lookup _ _ _ _ Ha Hi). Qed.

Lemma comment_start_local (n i : nat) (d d' : bytes) :
  agree n d d' -> S i < n -> isLineCommentStart d' i = isLineCommentStart d i.
Proof.
  intros Ha Hi. unfold isLineCommentStart. rewrite (at_byte_local n _ d d') by (done || lia).
  rewrite <- (agree_lookup n i d d') by (done || lia). destruct i; [done|].
  by rewrite <- (agree_lookup n i d d') by (done || lia).
Qed.

Lemma string_close_bound (esc : bool) (l : bytes) (k : nat) : string_close esc l = Some k -> k < length l.
Proof.
  revert esc k. induction l as [|c l IH]; intros esc k; cbn; [done|].
  intros Hk. split_cases_in Hk; simplify_eq/=; try lia;
    destruct (string_close _ l) eqn:E; simplify_eq/=; apply IH in E; lia.
Qed.

Lemma string_close_local (esc : bool) (l l' : bytes) (k : nat) :
  string_close esc l = Some k -> take (S k) l' = take (S k) l -> string_close esc l' = Some k.
Proof.
  revert esc l' k. induction l as [|c l IH]; intros esc l' k; cbn; [done|].
  destruct l' as [|c' l']; cbn; [done|]. intros Hk [= -> Ht].
  split_cases_in Hk; simplify_eq/=; try done;
    destruct (string_close _ l) as [k'|] eqn:E; simplify_eq/=; by rewrite (IH _ _ _ E Ht).
Qed.

Lemma skipString_bound (data : bytes) (q r : nat) : skipString data q = Some r -> q < r < length data.
Proof.
  unfold skipString. destruct (string_close _ _) eqn:E; cbn; [|done]. intros [= <-].
  apply string_close_bound in E. rewrite length_drop in E. lia.
Qed.

Lemma agree_drop (n k : nat) (d d' : bytes) : agree n d d' -> take (n - k) (drop k d) = take (n - k) (drop k d').
Proof.
  intros Ha. destruct (decide (k <= n)).
  - rewrite !take_drop_commute. replace (k + (n - k)) with n by lia. by rewrite Ha.
  - by replace (n - k) with 0 by lia.
Qed.

Lemma skipString_local (n q r : nat) (d d' : bytes) :
  agree n d d' -> skipString d q = Some r -> r < n -> skipString d' q = Some r.
Proof.
  unfold skipString. intros Ha. destruct (string_close false (drop (S q) d)) as [k|] eqn:E; cbn; [|done].
  intros [= <-] Hr. rewrite (string_close_local _ _ (drop (S q) d') _ E); [done|].
  pose proof (agree_drop n (S q) d d' Ha) as Hd. apply (f_equal (take (S k))) in Hd.
  rewrite !take_take in Hd. replace (S k `min` (n - S q)) with (S k) in Hd by lia. done.
Qed.

Lemma slice_local (n a b : nat) (d d' : bytes) : agree n d d' -> a <= b <= n -> slice d' a b = slice d a b.
Proof.
  intros Ha Hb. unfold slice. pose proof (agree_drop n a d d' Ha) as Hd.
  apply (f_equal (take (b - a))) in Hd. rewrite !take_take in Hd.
  by replace ((b - a) `min` (n - a)) with (b - a) in Hd by lia.
Qed.

(** ** Lemmas: findAssignment *)

Lemma comment_blank (d : bytes) (i : nat) (c : ascii) :
  d !! i = Some c -> blank4 c = true -> isLineCommentStart d i = false.
Proof.
  intros Hc Hb. unfold isLineCommentStart. rewrite Hc.
  destruct (Ascii.eqb_spec c "#") as [->|]; [done|]. by destruct (Ascii.eqb_spec c "/") as [->|].
Qed.

Lemma ident_not_blank (c : ascii) : is_ident_start c = true -> blank4 c = false.
Proof. destruct c as [[] [] [] [] [] [] [] []]; vm_compute; congruence. Qed.

Lemma ident_start_ident (c : ascii) : is_ident_start c = true -> is_ident c = true.
Proof. unfold is_ident. by intros ->. Qed.

Lemma ident_span_gt (d : bytes) (i : nat) (c : ascii) :
  d !! i = Some c -> is_ident_start c = true -> i < span_end isIdent d i.
Proof.
  intros Hc Hs. pose proof (span_end_ge isIdent d i).
  destruct (decide (span_end isIdent d i = i)) as [E|]; [|lia].
  pose proof (span_end_stop isIdent d i c) as Hst. rewrite E in Hst. specialize (Hst Hc).
  unfold isIdent in Hst. by rewrite (ident_start_ident _ Hs) in Hst.
Qed.

(** What a found assignment is. *)
Record assignment_at (same : bytes -> bool) (d : bytes) (a : assignmentSpan) : Prop := mkAsn {
  asn_start : exists c, d !! KeyStart a = Some c /\ is_ident_start c = true;
  asn_key : same (slice d (KeyStart a) (KeyEnd a)) = true;
  asn_key_end : KeyEnd a = span_end isIdent d (KeyStart a);
  asn_eq : Equal a = skipASCIIWhitespace d (KeyEnd a);
  asn_eq_char : d !! Equal a = Some "="%char;
  asn_value : ValueStart a = skipASCIIWhitespace d (S (Equal a))
}.

Lemma assignment_order same (d : bytes) (a : assignmentSpan) :
  assignment_at same d a ->
  KeyStart a < KeyEnd a <= Equal a /\ Equal a < ValueStart a <= length d.
Proof.
  intros [(c & Hc & Hs) _ He Hq Hqc Hv].
  pose proof (ident_span_gt d _ c Hc Hs) as Hgt. apply lookup_lt_Some in Hqc as Hl.
  pose proof (span_end_ge blank4 d (KeyEnd a)). pose proof (span_end_ge blank4 d (S (Equal a))).
  pose proof (span_end_le blank4 d (S (Equal a)) ltac:(lia)).
  unfold skipASCIIWhitespace in *. lia.
Qed.

Lemma find_assignment_sound same (fuel : nat) (d : bytes) (i : nat) (a : assignmentSpan) :
  find_assignment_loop same fuel d i = Some a -> i <= KeyStart a /\ assignment_at same d a.
Proof.
  revert i. induction fuel as [|fuel IH]; intros i; cbn; [done|].
  destruct (d !! i) as [c|] eqn:Ec; [|done].
  destruct (isLineCommentStart d i).
  { intros Hf. apply IH in Hf as [Hi Ha]. split; [|done]. pose proof (span_end_ge (fun c => negb (Ascii.eqb c newline)) d i).
    unfold skipLine in Hi. lia. }
  destruct (Ascii.eqb c dquote).
  { destruct (skipString d i) as [r|] eqn:Es; [|done]. intros Hf. apply IH in Hf as [Hi Ha]. split; [|done].
    apply skipString_bound in Es. lia. }
  destruct (isIdentStart c) eqn:Es; cbn [negb].
  2:{ intros Hf. apply IH in Hf as [Hi Ha]. split; [lia|done]. }
  destruct (same _) eqn:Em; cbn [andb].
  2:{ intros Hf. apply IH in Hf as [Hi Ha]. pose proof (span_end_ge isIdent d i). split; [lia|done]. }
  unfold at_byte. destruct (d !! skipASCIIWhitespace d (span_end isIdent d i)) as [e|] eqn:Ee; [|intros Hf].
  - destruct (Ascii.eqb_spec e "=") as [->|Hne]; [intros [= <-]|intros Hf].
    + split; [cbn; lia|]. split; cbn; eauto.
    + apply IH in Hf as [Hi Ha]. pose proof (span_end_ge isIdent d i). split; [lia|done].
  - apply IH in Hf as [Hi Ha]. pose proof (span_end_ge isIdent d i). split; [lia|done].
Qed.

(** A found assignment is found again in every text that agrees up to its value. *)
Lemma find_assignment_local same (fuel fuel' : nat) (d d' : bytes) (i : nat) (a : assignmentSpan) :
  find_assignment_loop same fuel d i = Some a -> agree (ValueStart a) d d' ->
  (forall c, d' !! ValueStart a = Some c -> blank4 c = false) ->
  length d' - i < fuel' -> find_assignment_loop same fuel' d' i = Some a.
Proof.
  intros Hf Hag Hv. revert i fuel' Hf. induction fuel as [|fuel IH]; intros i fuel' Hf Hfuel; [done|].
  destruct (find_assignment_sound _ _ _ _ _ Hf) as [Hi Ha]. destruct (assignment_order _ _ _ Ha) as [Ho1 Ho2].
  pose proof (agree_length _ _ _ Hag ltac:(lia)) as Hlen.
  destruct fuel' as [|fuel']; [lia|]. cbn in Hf |- *.
  rewrite <- (agree_lookup _ i _ _ Hag) by lia. destruct (d !! i) as [c|] eqn:Ec; [|done].
  rewrite (comment_start_local _ i _ _ Hag) by lia. destruct (isLineCommentStart d i).
  { destruct (find_assignment_sound _ _ _ _ _ Hf) as [Hi' _]. unfold skipLine in *.
    rewrite (span_end_local _ _ _ _ _ Hag) by lia. apply IH; [done|].
    pose proof (span_end_ge (fun c => negb (Ascii.eqb c newline)) d i). lia. }
  destruct (Ascii.eqb c dquote).
  { destruct (skipString d i) as [r|] eqn:Es; [|done]. destruct (find_assignment_sound _ _ _ _ _ Hf) as [Hi' _].
    rewrite (skipString_local _ _ r _ _ Hag Es) by lia. apply IH; [done|]. apply skipString_bound in Es. lia. }
  destruct (isIdentStart c) eqn:Eid; cbn [negb] in *; [|apply IH; [done|lia]].
  set (stop := span_end isIdent d i) in *. set (j := skipASCIIWhitespace d stop) in *.
  assert (Hgt : i < stop) by by apply (ident_span_gt d i c).
  assert (Hstop : stop <= KeyEnd a).
  { destruct (same _ && _); [by simplify_eq|].
    destruct (find_assignment_sound _ _ _ _ _ Hf) as [Hi' _]. lia. }
  assert (Hj : j <= Equal a).
  { destruct (same _ && _); [by simplify_eq|]. destruct (find_assignment_sound _ _ _ _ _ Hf) as [Hi' _].
    destruct (decide (j <= KeyStart a)); [lia|]. destruct Ha as [(k & Hk & Hs) _ _ _ _ _].
    assert (blank4 k = true) by (eapply (span_end_inside blank4 d stop); [|exact Hk]; unfold j, skipASCIIWhitespace in *; lia).
    apply ident_not_blank in Hs. congruence. }
  rewrite (span_end_local _ _ _ _ _ Hag) by (fold stop; lia). fold stop.
  unfold skipASCIIWhitespace. rewrite (span_end_local blank4 _ stop _ _ Hag) by (fold (skipASCIIWhitespace d stop); fold j; lia).
  fold (skipASCIIWhitespace d stop). fold j.
  rewrite (slice_local _ _ _ _ _ Hag), (at_byte_local _ _ _ _ _ Hag) by lia.
  destruct (same _ && _) eqn:Em; [|apply IH; [done|lia]].
  injection Hf as <-. cbn [ValueStart Equal KeyEnd KeyStart] in *. f_equal. f_equal.
  unfold skipASCIIWhitespace. apply span_end_unique; [unfold skipASCIIWhitespace in *; lia| |exact Hv].
  intros k e Hk. rewrite <- (agree_lookup _ k _ _ Hag) by (unfold skipASCIIWhitespace in *; lia).
  by apply (span_end_inside blank4 d (S j)).
Qed.

(** The fuel of findAssignment is enough. *)
Lemma find_assignment_fuel same (f1 f2 : nat) (d : bytes) (i : nat) :
  length d - i < f1 -> length d - i < f2 -> find_assignment_loop same f1 d i = find_assignment_loop same f2 d i.
Proof.
  revert f2 i. induction f1 as [|f1 IH]; intros [|f2] i H1 H2; [lia..|]. cbn.
  destruct (d !! i) as [c|] eqn:Ec; [|done]. apply lookup_lt_Some in Ec as Hi.
  pose proof (span_end_ge (fun c => negb (Ascii.eqb c newline)) d i) as Hsl.
  destruct (isLineCommentStart d i); [apply IH; unfold skipLine; lia|].
  destruct (Ascii.eqb c dquote).
  { destruct (skipString d i) as [r|] eqn:Es; [|done]. apply skipString_bound in Es. apply IH; lia. }
  destruct (isIdentStart c) eqn:Eid; cbn [negb]; [|apply IH; lia].
  pose proof (ident_span_gt d i c Ec Eid). destruct (same _ && _); [done|]. apply IH; lia.
Qed.

(** ** Lemmas: findScalarValueEnd *)

Lemma trimRightASCII_S (d : bytes) (start e : nat) :
  trimRightASCII d start (S e) =
  if start <? S e then
    match d !! e with
    | Some c => if blank4 c then trimRightASCII d start e else S e
    | None => S e
    end
  else S e.
Proof. done. Qed.

Lemma trimRightASCII_bounds (d : bytes) (start e : nat) :
  start <= e -> start <= trimRightASCII d start e <= e.
Proof.
  induction e as [|e IH]; intros He; [cbn; lia|]. rewrite trimRightASCII_S.
  destruct (start <? S e) eqn:E; b2p; [|lia]. destruct (d !! e) as [c|]; [|lia].
  destruct (blank4 c); [|lia]. specialize (IH ltac:(lia)). lia.
Qed.

Lemma trimRightASCII_blank (d : bytes) (start e k : nat) (c : ascii) :
  trimRightASCII d start e <= k < e -> d !! k = Some c -> blank4 c = true.
Proof.
  induction e as [|e IH]; [cbn; lia|]. rewrite trimRightASCII_S. destruct (start <? S e) eqn:E; [|lia].
  destruct (d !! e) as [x|] eqn:Ex; [|lia]. destruct (blank4 x) eqn:Eb; [|lia]. intros Hk Hc.
  destruct (decide (k = e)) as [->|]; [congruence|]. apply IH; [lia|done].
Qed.

Lemma trimRightASCII_last (d : bytes) (start e : nat) (c : ascii) :
  start < trimRightASCII d start e -> d !! pred (trimRightASCII d start e) = Some c -> blank4 c = false.
Proof.
  induction e as [|e IH]; [cbn; lia|]. rewrite trimRightASCII_S. destruct (start <? S e) eqn:E; b2p; [|lia].
  destruct (d !! e) as [x|] eqn:Ex; cbn; [|congruence]. destruct (blank4 x) eqn:Eb; [done|]. cbn. congruence.
Qed.

Lemma trimRightASCII_unique (d : bytes) (start e r : nat) :
  start <= r <= e -> e <= length d -> (forall k c, r <= k < e -> d !! k = Some c -> blank4 c = true) ->
  (r = start \/ exists c, d !! pred r = Some c /\ blank4 c = false) -> trimRightASCII d start e = r.
Proof.
  induction e as [|e IH]; intros Hr Hl Hb Hlast; [cbn; lia|]. rewrite trimRightASCII_S.
  destruct (start <? S e) eqn:E; b2p; [|lia].
  destruct (lookup_lt_is_Some_2 d e) as [x Hx]; [lia|]. rewrite Hx.
  destruct (decide (r = S e)) as [->|].
  - destruct Hlast as [?|(c & Hc & Hcb)]; [lia|]. cbn in Hc. simplify_eq. by rewrite Hcb.
  - rewrite (Hb e x ltac:(lia) Hx). apply IH; [lia|lia| |done]. intros k c Hk. apply Hb. lia.
Qed.

(** Where a scalar scan stops. *)
Definition scan_stop (d : bytes) (t : nat) : Prop :=
  t = length d \/ isLineCommentStart d t = true \/ exists c, d !! t = Some c /\ ends_scalar c = true.

Lemma scalar_end_shape (fuel : nat) (d : bytes) (from i r : nat) :
  i <= length d -> scalar_end_loop fuel d from i = Some r ->
  exists t, i <= t <= length d /\ r = trimRightASCII d from t /\ scan_stop d t.
Proof.
  revert i. induction fuel as [|fuel IH]; intros i Hi; cbn; [done|].
  destruct (d !! i) as [c|] eqn:Ec.
  - apply lookup_lt_Some in Ec as Hl. destruct (isLineCommentStart d i) eqn:Ecm.
    { intros [= <-]. exists i. split_and!; [lia|lia|done|]. right. by left. }
    destruct (Ascii.eqb c dquote).
    { destruct (skipString d i) as [q|] eqn:Es; [|done]. apply skipString_bound in Es. intros Hr.
      destruct (IH (S q) ltac:(lia) Hr) as (t & ? & ? & ?). exists t. split; [lia|done]. }
    destruct (ends_scalar c) eqn:Ee.
    { intros [= <-]. exists i. split_and!; [lia|lia|done|]. right. right. eauto. }
    destruct (opens_group c); [done|]. intros Hr.
    destruct (IH (S i) ltac:(lia) Hr) as (t & ? & ? & ?). exists t. split; [lia|done].
  - apply lookup_ge_None in Ec. intros [= <-]. exists (length d). split_and!; [lia|lia|done|by left].
Qed.

Lemma scalar_end_fuel (f1 f2 : nat) (d : bytes) (from i : nat) :
  length d - i < f1 -> length d - i < f2 -> scalar_end_loop f1 d from i = scalar_end_loop f2 d from i.
Proof.
  revert f2 i. induction f1 as [|f1 IH]; intros [|f2] i H1 H2; [lia..|]. cbn.
  destruct (d !! i) as [c|] eqn:Ec; [|done]. apply lookup_lt_Some in Ec as Hi.
  destruct (isLineCommentStart d i); [done|]. destruct (Ascii.eqb c dquote).
  { destruct (skipString d i) as [r|] eqn:Es; [|done]. apply skipString_bound in Es. apply IH; lia. }
  destruct (ends_scalar c); [done|]. destruct (opens_group c); [done|]. apply IH; lia.
Qed.

(** Over blanks up to a stop, the scan ends there or at an earlier line end. *)
Lemma scalar_end_blanks (fuel : nat) (d : bytes) (from i t : nat) :
  i <= t <= length d -> scan_stop d t -> (forall k c, i <= k < t -> d !! k = Some c -> blank4 c = true) ->
  length d - i < fuel -> exists q, i <= q <= t /\ scalar_end_loop fuel d from i = Some (trimRightASCII d from q).
Proof.
  revert i. induction fuel as [|fuel IH]; intros i Hi Hst Hb Hf; [lia|]. cbn.
  destruct (decide (i = t)) as [->|Hne].
  - exists t. split; [lia|]. destruct Hst as [->|[Hc|(c & Hc & He)]].
    + by rewrite (lookup_ge_None_2 d (length d)) by lia.
    + unfold isLineCommentStart in *. destruct (d !! t); [|done]. by rewrite Hc.
    + rewrite Hc. destruct (isLineCommentStart d t); [done|]. rewrite He.
      destruct (Ascii.eqb_spec c dquote) as [->|]; [done|done].
  - destruct (lookup_lt_is_Some_2 d i) as [c Hc]; [lia|]. rewrite Hc.
    pose proof (Hb i c ltac:(lia) Hc) as Hbc. rewrite (comment_blank _ _ _ Hc Hbc).
    destruct (Ascii.eqb_spec c dquote) as [->|_]; [done|].
    destruct (ends_scalar c); [exists i; split; [lia|done]|].
    assert (opens_group c = false) as ->.
    { clear -Hbc. destruct c as [[] [] [] [] [] [] [] []]; vm_compute in Hbc |- *; congruence. }
    destruct (IH (S i)) as (q & Hq & Hr); [lia|done| |lia|exists q; split; [lia|done]].
    intros k e Hk. apply Hb. lia.
Qed.
