(* ===== verification/Renderer.v ===== *)
(** * Rendering a commit into the operator's files (internal/ems/configuration/renderer.go)

    A commit does not rewrite a file: for every dirty key it formats one value and patches one
    assignment of the existing text. The scanners are in Scan.v. *)
From S2P Require Import Prelude GoNum GoStrings ConfigData Scan.

(** ** Text helpers *)

(** strings.SplitAfter(data, "\n") without the empty last part. *)
Fixpoint splitLines (data : bytes) : list bytes :=
  match data with
  | [] => []
  | c :: r =>
      if Ascii.eqb c newline then [c] :: splitLines r
      else match splitLines r with
           | h :: t => (c :: h) :: t
           | [] => [[c]]
           end
  end.

Definition splitEOL (line : bytes) : bytes * bytes :=
  if has_suffix line (["013"%char; newline]) then (take (length line - 2) line, ["013"%char; newline])
  else if has_suffix line [newline] then (take (length line - 1) line, [newline])
  else (line, []).

Definition tab_or_space (c : ascii) : bool := Ascii.eqb c " " || Ascii.eqb c "009".

Definition insertLine (lines : list bytes) (idx : nat) (line : bytes) : list bytes :=
  let idx := if length lines <? idx then length lines else idx in
  take idx lines ++ [line] ++ drop idx lines.

Definition insertBytes (data : bytes) (idx : nat) (ins : bytes) : bytes := take idx data ++ ins ++ drop idx data.

Definition replaceRange (data : bytes) (start e : nat) (replacement : bytes) : bytes :=
  take start data ++ replacement ++ drop e data.

(** The blanks at the start of the line that holds position pos. *)
Fixpoint last_newline (l : bytes) (i : nat) (best : nat) : nat :=
  match l with
  | [] => best
  | c :: r => last_newline r (S i) (if Ascii.eqb c newline then S i else best)
  end.

Definition closingIndent (data : bytes) (pos : nat) : bytes :=
  let before := take pos data in
  take_while tab_or_space (drop (last_newline before 0 0) before).

Definition formatBool (v : bool) : string := if v then "true" else "false".

Definition trim_right_char (c : ascii) (l : bytes) : bytes :=
  rev (drop (length (take_while (Ascii.eqb c) (rev l))) (rev l)).

Section Renderer.
Context {GL : GoLib}.

Definition trimFloat (v : float64) : string :=
  let s := trim_right_char "0" (str (FormatFloat v 3)) in
  let s := trim_right_char "." s in
  match s with [] => "0" | _ => unstr s end.

(** ** Which assignment a key is written to, and its value *)

Definition enb_patches : list (string * (string * string * (EditableConfig -> string))) :=
  [ ("enb_id", ("enb", "enb_id", fun c => ENBID c));
    ("mcc", ("enb", "mcc", fun c => MCC c));
    ("mnc", ("enb", "mnc", fun c => MNC c));
    ("mme_addr", ("enb", "mme_addr", fun c => MMEAddr c));
    ("gtp_bind_addr", ("enb", "gtp_bind_addr", fun c => GTPBindAddr c));
    ("s1c_bind_addr", ("enb", "s1c_bind_addr", fun c => S1CBindAddr c));
    ("s1c_bind_port", ("enb", "s1c_bind_port", fun c => FormatUint (S1CBindPort c)));
    ("n_prb", ("enb", "n_prb", fun c => FormatUint (NPRB c)));
    ("tm", ("enb", "tm", fun c => FormatUint (TM c)));
    ("tx_gain", ("rf", "tx_gain", fun c => trimFloat (TXGain c)));
    ("rx_gain", ("rf", "rx_gain", fun c => trimFloat (RXGain c)));
    ("time_adv_nsamples", ("rf", "time_adv_nsamples", fun c => TimeAdvNSamples c));
    ("device_name", ("rf", "device_name", fun c => DeviceName c));
    ("device_args", ("rf", "device_args", fun c => DeviceArgs c));
    ("sched_policy", ("scheduler", "policy", fun c => SchedPolicy c));
    ("pdsch_max_mcs", ("scheduler", "pdsch_max_mcs", fun c => FormatInt (PDSCHMaxMCS c)));
    ("pusch_max_mcs", ("scheduler", "pusch_max_mcs", fun c => FormatInt (PUSCHMaxMCS c)));
    ("target_bler", ("scheduler", "target_bler", fun c => trimFloat (TargetBLER c)));
    ("min_nof_ctrl_symbols", ("scheduler", "min_nof_ctrl_symbols", fun c => FormatInt (MinCtrlSymbols c)));
    ("max_nof_ctrl_symbols", ("scheduler", "max_nof_ctrl_symbols", fun c => FormatInt (MaxCtrlSymbols c)));
    ("enb_serial", ("expert", "enb_serial", fun c => ENBSerial c));
    ("pusch_max_its", ("expert", "pusch_max_its", fun c => FormatInt (PUSCHMaxIts c)));
    ("nr_pusch_max_its", ("expert", "nr_pusch_max_its", fun c => FormatInt (NRPUSCHMaxIts c)));
    ("pusch_8bit_decoder", ("expert", "pusch_8bit_decoder", fun c => formatBool (PUSCH8bitDecoder c)));
    ("nof_phy_threads", ("expert", "nof_phy_threads", fun c => FormatInt (NofPHYThreads c)));
    ("metrics_period_secs", ("expert", "metrics_period_secs", fun c => FormatInt (MetricsPeriodSecs c)));
    ("tx_amplitude", ("expert", "tx_amplitude", fun c => trimFloat (TXAmplitude c)));
    ("rrc_inactivity_timer", ("expert", "rrc_inactivity_timer", fun c => FormatInt (RRCInactivityTimer c)));
    ("rlf_release_timer_ms", ("expert", "rlf_release_timer_ms", fun c => FormatInt (RLFReleaseTimerMs c)));
    ("eea_pref_list", ("expert", "eea_pref_list", fun c => EEAPrefList c));
    ("eia_pref_list", ("expert", "eia_pref_list", fun c => EIAPrefList c));
    ("gtpu_tunnel_timeout", ("expert", "gtpu_tunnel_timeout", fun c => FormatInt (GTPUTunnelTimeout c)));
    ("s1_setup_max_retries", ("expert", "s1_setup_max_retries", fun c => FormatInt (S1SetupMaxRetries c)));
    ("s1_connect_timer", ("expert", "s1_connect_timer", fun c => FormatInt (S1ConnectTimer c)));
    ("rx_gain_offset", ("expert", "rx_gain_offset", fun c => trimFloat (RXGainOffset c)));
    ("use_cedron_f_est_alg", ("expert", "use_cedron_f_est_alg", fun c => formatBool (UseCedronFEstAlg c)));
    ("rlf_min_ul_snr_estim", ("expert", "rlf_min_ul_snr_estim", fun c => trimFloat (RLFMinULSNREstim c)));
    ("max_mac_dl_kos", ("expert", "max_mac_dl_kos", fun c => FormatInt (MaxMacDLKOs c)));
    ("max_mac_ul_kos", ("expert", "max_mac_ul_kos", fun c => FormatInt (MaxMacULKOs c))) ].

Definition rr_patches : list (string * (string * (EditableConfig -> string))) :=
  [ ("cell_id", ("cell_id", fun c => CellID c));
    ("tac", ("tac", fun c => TAC c));
    ("dl_earfcn", ("dl_earfcn", fun c => FormatUint (DLEARFCN c)));
    ("pci", ("pci", fun c => FormatUint (PCI c)));
    ("ho_active", ("ho_active", fun c => formatBool (HOActive c)));
    ("a3_offset", ("a3_offset", fun c => FormatInt (A3Offset c)));
    ("time_to_trigger", ("time_to_trigger", fun c => FormatInt (TimeToTrigger c)));
    ("hysteresis", ("hysteresis", fun c => FormatInt (Hysteresis c))) ].

Definition sib_patches : list (string * (string * (EditableConfig -> string))) :=
  [ ("q_rx_lev_min", ("q_rx_lev_min", fun c => FormatInt (QRxLevMin c)));
    ("cell_barred", ("cell_barred", fun c => Quote (CellBarred c)));
    ("num_ra_preambles", ("num_ra_preambles", fun c => FormatInt (NumRAPreambles c)));
    ("preamble_init_rx_target_pwr", ("preamble_init_rx_target_pwr", fun c => FormatInt (PreambleInitRxTargetPwr c)));
    ("pwr_ramping_step", ("pwr_ramping_step", fun c => FormatInt (PwrRampingStep c)));
    ("reference_signal_power", ("reference_signal_power", fun c => FormatInt (ReferenceSignalPower c)));
    ("p0_nominal_pusch", ("p0_nominal_pusch", fun c => FormatInt (P0NominalPUSCH c)));
    ("p0_nominal_pucch", ("p0_nominal_pucch", fun c => FormatInt (P0NominalPUCCH c)));
    ("alpha", ("alpha", fun c => trimFloat (Alpha c)));
    ("default_paging_cycle", ("default_paging_cycle", fun c => FormatInt (DefaultPagingCycle c)));
    ("t300", ("t300", fun c => FormatInt (T300 c)));
    ("t301", ("t301", fun c => FormatInt (T301 c)));
    ("t310", ("t310", fun c => FormatInt (T310 c)));
    ("n310", ("n310", fun c => FormatInt (N310 c)));
    ("t311", ("t311", fun c => FormatInt (T311 c))) ].

Fixpoint find_patch {A} (key : string) (l : list (string * A)) : option A :=
  match l with
  | [] => None
  | (k, a) :: r => if String.eqb k key then Some a else find_patch key r
  end.

Definition enbPatch (key : string) (cfg : EditableConfig) : option (string * string * string) :=
  (fun '(sec, confKey, value) => (sec, confKey, value cfg)) <$> find_patch key enb_patches.

Definition rrPatch (key : string) (cfg : EditableConfig) : option (string * string) :=
  (fun '(confKey, value) => (confKey, value cfg)) <$> find_patch key rr_patches.

Definition sibPatch (key : string) (cfg : EditableConfig) : option (string * string) :=
  (fun '(confKey, value) => (confKey, value cfg)) <$> find_patch key sib_patches.

(** ** INI files: enb.conf *)

Definition parseINISection (line : bytes) : option bytes :=
  let x := trim_space (fst (splitEOL line)) in
  if has_prefix x (str "#") || has_prefix x (str "//") || negb (has_prefix x (str "[")) || negb (has_suffix x (str "]"))
  then None
  else Some (to_lower (trim_space (trim_suffix (trim_prefix x (str "[")) (str "]")))).

Definition isCommentLine (line : bytes) : bool :=
  let x := trim_space line in has_prefix x (str "#") || has_prefix x (str "//").

Definition lineHasAssignmentKey (line : bytes) (key : string) : bool :=
  let x := trim_space (fst (splitEOL line)) in
  match x with
  | [] => false
  | _ =>
      if has_prefix x (str "#") || has_prefix x (str "//") then false
      else match index_of x (str "=") with
           | None => false
           | Some idx => equal_fold (trim_space (take idx x)) (str key)
           end
  end.

Definition replaceAssignmentLine (line : bytes) (key value : string) (semicolon : bool) : bytes :=
  let '(body, eol) := splitEOL line in
  let leading := take_while tab_or_space body in
  let comment := match index_of body (str "#") with
                 | Some idx => str " " ++ trim_space (drop idx body)
                 | None => []
                 end in
  let suffix := if semicolon then str ";" else [] in
  leading ++ str key ++ str " = " ++ str value ++ suffix ++ comment ++ eol.

(** How the loop over the lines ends: on a line to replace, or with a place to insert. *)
Inductive ini_place :=
| ReplaceAt (i : nat)
| InsertAt (foundSection : bool) (insertAt : nat).

Fixpoint ini_loop (target : bytes) (key : string) (lines : list bytes) (i : nat)
    (current : bytes) (foundSection : bool) (insertAt : nat) : ini_place :=
  match lines with
  | [] => InsertAt foundSection insertAt
  | line :: rest =>
      match parseINISection line with
      | Some sec =>
          if foundSection && bool_decide (current = target) then InsertAt foundSection i
          else if bool_decide (sec = target) then ini_loop target key rest (S i) sec true (S i)
          else ini_loop target key rest (S i) sec foundSection insertAt
      | None =>
          if negb (bool_decide (current = target)) || isCommentLine line then
            ini_loop target key rest (S i) current foundSection insertAt
          else if negb (lineHasAssignmentKey line key) then
            ini_loop target key rest (S i) current foundSection (if foundSection then S i else insertAt)
          else ReplaceAt i
      end
  end.

Definition end_with_newline (lines : list bytes) : list bytes :=
  match last lines with
  | Some l => if has_suffix l [newline] then lines
              else take (length lines - 1) lines ++ [l ++ [newline]]
  | None => lines
  end.

Definition patchINIAssignment (data : bytes) (section key value : string) : bytes :=
  let lines := splitLines data in
  let target := to_lower (trim_space (str section)) in
  let newLine := str key ++ str " = " ++ str value ++ [newline] in
  match ini_loop target key lines 0 [] false (length lines) with
  | ReplaceAt i =>
      concat (<[i := replaceAssignmentLine (default [] (lines !! i)) key value false]> lines)
  | InsertAt false _ =>
      concat (end_with_newline lines ++ [newline :: str "[" ++ str section ++ str "]" ++ [newline]; newLine])
  | InsertAt true insertAt => concat (insertLine lines insertAt newLine)
  end.

(** ** libconfig files: rr.conf and sib.conf *)

Definition patchLibconfigScalarOptional (data : bytes) (key value : string) : option bytes :=
  match findAssignment data key 0 with
  | None => None
  | Some asn =>
      match findScalarValueEnd data (ValueStart asn) with
      | None => None
      | Some valueEnd => Some (take (ValueStart asn) data ++ str value ++ drop valueEnd data)
      end
  end.

Definition patchLibconfigScalar (data : bytes) (key value : string) : result string bytes :=
  match patchLibconfigScalarOptional data key value with
  | Some out => Ok out
  | None => Err ("key " +:+ Quote key +:+ " not found in libconfig file")
  end.

(** ** QCI profiles: rb.conf *)

Fixpoint findQCIProfile (ps : list QCIProfile) (qci : Z) : option QCIProfile :=
  match ps with
  | [] => None
  | p :: r => if (QCI p =? qci)%Z then Some p else findQCIProfile r qci
  end.

Definition qciPatch (field : string) (p : QCIProfile) : result string (string * list string) :=
  if String.eqb field "discard_timer" then Ok (FormatInt (DiscardTimer p), ["pdcp_config"])
  else if String.eqb field "pdcp_sn_size" then Ok (FormatInt (PDCPSNSize p), ["pdcp_config"])
  else if String.eqb field "t_poll_retx" then Ok (FormatInt (TPollRetx p), ["ul_am"; "ul_um"])
  else if String.eqb field "max_retx_thresh" then Ok (FormatInt (MaxRetxThresh p), ["ul_am"])
  else if String.eqb field "t_reordering" then Ok (FormatInt (TReordering p), ["dl_am"; "dl_um"])
  else if String.eqb field "priority" then Ok (FormatInt (Priority p), ["logical_channel_config"])
  else Err ("unsupported qci profile field " +:+ Quote field).

Definition qciBlockHasKey (block : bytes) (qci : Z) : bool :=
  match findAssignment block "qci" 0 with
  | None => false
  | Some asn =>
      match findScalarValueEnd block (ValueStart asn) with
      | None => false
      | Some valueEnd => bool_decide (trim_space (slice block (ValueStart asn) valueEnd) = format_int qci)
      end
  end.

Fixpoint qci_block_loop (fuel : nat) (data : bytes) (qci : Z) (i : nat) : option (nat * nat) :=
  match fuel with
  | 0 => None
  | S fuel =>
      match data !! i with
      | None => None
      | Some c =>
          if isLineCommentStart data i then qci_block_loop fuel data qci (S (skipLine data i))
          else if Ascii.eqb c dquote then
            match skipString data i with
            | None => None
            | Some next => qci_block_loop fuel data qci (S next)
            end
          else if negb (Ascii.eqb c "{") then qci_block_loop fuel data qci (S i)
          else match findMatchingBrace data i with
               | None => None
               | Some e => if qciBlockHasKey (slice data i (S e)) qci then Some (i, S e)
                           else qci_block_loop fuel data qci (S e)
               end
      end
  end.

Definition findQCIBlock (data : bytes) (qci : Z) : option (nat * nat) :=
  match findAssignment data "qci_config" 0 with
  | None => None
  | Some anchor => qci_block_loop (S (length data)) data qci (ValueStart anchor)
  end.

Fixpoint container_loop (fuel : nat) (data : bytes) (name : string) (searchFrom : nat) : option (nat * nat) :=
  match fuel with
  | 0 => None
  | S fuel =>
      match findAssignment data name searchFrom with
      | None => None
      | Some asn =>
          let open := skipASCIIWhitespace data (ValueStart asn) in
          if negb (at_byte data open "{") then container_loop fuel data name (S (ValueStart asn))
          else match findMatchingBrace data open with
               | None => None
               | Some close => Some (open, close)
               end
      end
  end.

Definition findLibconfigContainer (data : bytes) (name : string) : option (nat * nat) :=
  container_loop (S (length data)) data name 0.

(** The first of the containers that exists takes the new line, before its closing brace. *)
Fixpoint insert_into_first (block : bytes) (containers : list string) (assignment : string) : option bytes :=
  match containers with
  | [] => None
  | name :: rest =>
      match findLibconfigContainer block name with
      | None => insert_into_first block rest assignment
      | Some (_, e) =>
          let line := closingIndent block e ++ str "  " ++ str assignment ++ [newline] in
          Some (insertBytes block e line)
      end
  end.

Definition insertQCIAssignment (block : bytes) (containers : list string) (assignment : string) : result string bytes :=
  match insert_into_first block containers assignment with
  | Some out => Ok out
  | None => Err ("none of containers [" +:+ String.concat " " containers +:+ "] found in qci profile")
  end.

Definition patchQCIProfile (data : bytes) (key : string) (cfg : EditableConfig) : result string bytes :=
  match parseQCIProfileKey key with
  | None => Err ("invalid qci profile key " +:+ Quote key)
  | Some (qci, field) =>
      match findQCIProfile (QCIProfiles cfg) qci with
      | None => Err ("qci profile " +:+ FormatInt qci +:+ " is not present in candidate")
      | Some profile =>
          let? (value, containers) := qciPatch field profile in
          match findQCIBlock data qci with
          | None => Err ("qci profile " +:+ FormatInt qci +:+ " not found in rb.conf")
          | Some (start, e) =>
              let block := slice data start e in
              match patchLibconfigScalarOptional block field value with
              | Some patched => Ok (replaceRange data start e patched)
              | None =>
                  let? patched := insertQCIAssignment block containers (field +:+ " = " +:+ value +:+ ";") in
                  Ok (replaceRange data start e patched)
              end
          end
      end
  end.

(** ** Rendering one file *)

Fixpoint insert_key (k : string) (l : list string) : list string :=
  match l with
  | [] => [k]
  | x :: r => if String.leb k x then k :: l else x :: insert_key k r
  end.

Definition sort_keys (l : list string) : list string := foldr insert_key [] l.

Definition sortedDirtyKeys (keys : gset string) : list string := sort_keys (TrimSpace <$> elements keys).

(** Each renderer folds its patch over the sorted keys; the file has already been read. *)
Fixpoint render_loop (patch : string -> bytes -> result string bytes) (keys : list string) (out : bytes) :
    result string bytes :=
  match keys with
  | [] => Ok out
  | key :: rest => let? out' := patch key out in render_loop patch rest out'
  end.

Definition renderENBConfig (data : bytes) (cfg : EditableConfig) (dirty : gset string) : result string bytes :=
  render_loop (fun key out =>
    match enbPatch key cfg with
    | None => Ok out
    | Some (section, confKey, value) => Ok (patchINIAssignment out section confKey value)
    end) (sortedDirtyKeys dirty) data.

Definition renderRRConfig (data : bytes) (cfg : EditableConfig) (dirty : gset string) : result string bytes :=
  render_loop (fun key out =>
    match rrPatch key cfg with
    | None => Ok out
    | Some (confKey, value) => patchLibconfigScalar out confKey value
    end) (sortedDirtyKeys dirty) data.

Definition renderSIBConfig (data : bytes) (cfg : EditableConfig) (dirty : gset string) : result string bytes :=
  render_loop (fun key out =>
    match sibPatch key cfg with
    | None => Ok out
    | Some (confKey, value) => patchLibconfigScalar out confKey value
    end) (sortedDirtyKeys dirty) data.

Definition renderRBConfig (data : bytes) (cfg : EditableConfig) (dirty : gset string) : result string bytes :=
  render_loop (fun key out =>
    if negb (HasPrefix key qci_prefix) then Ok out else patchQCIProfile out key cfg) (sortedDirtyKeys dirty) data.

End Renderer.

(** ** Values a scan reads whole *)

(** A byte no scanner treats specially. *)
Definition plain_byte (c : ascii) : bool :=
  negb (blank4 c || ends_scalar c || opens_group c || Ascii.eqb c dquote || Ascii.eqb c "#" || Ascii.eqb c "/").

(** Numbers, booleans and identifiers, or one complete quoted string. *)
Definition scalar_text (v : bytes) : Prop :=
  (v <> [] /\ forallb plain_byte v = true) \/
  (exists body, v = dquote :: body /\ string_close false body = Some (pred (length body)) /\ body <> []).

Lemma plain_byte_spec (c : ascii) :
  plain_byte c = true ->
  blank4 c = false /\ ends_scalar c = false /\ opens_group c = false /\ Ascii.eqb c dquote = false /\
  Ascii.eqb c "#" = false /\ Ascii.eqb c "/" = false.
Proof. unfold plain_byte. intros Hp. b2p. tauto. Qed.

Lemma scan_plain (v pre suf : bytes) (from fuel : nat) :
  forallb plain_byte v = true -> length (pre ++ v ++ suf) - length pre < fuel ->
  scalar_end_loop fuel (pre ++ v ++ suf) from (length pre) =
  scalar_end_loop fuel (pre ++ v ++ suf) from (length pre + length v).
Proof.
  revert pre fuel. induction v as [|c v IH]; intros pre fuel Hv Hf; [by rewrite Nat.add_0_r|].
  cbn [forallb] in Hv. b2p. destruct (plain_byte_spec c) as (Hb & He & Hg & Hq & Hh & Hs); [done|].
  destruct fuel as [|fuel]; [lia|]. cbn [scalar_end_loop app].
  rewrite list_lookup_middle by done. unfold isLineCommentStart at 1. rewrite list_lookup_middle by done.
  rewrite Hh, Hs, Hq, He, Hg. cbn [negb andb]. rewrite !length_app in Hf. cbn [length] in Hf.
  specialize (IH (pre ++ [c]) fuel ltac:(done)).
  rewrite <- (app_assoc pre [c] (v ++ suf)) in IH. cbn [app] in IH.
  assert (E1 : length (pre ++ [c]) = S (length pre)) by (rewrite length_app; cbn; lia). rewrite E1 in IH.
  rewrite IH by (rewrite !length_app; cbn; rewrite length_app; lia).
  replace (S (length pre) + length v) with (length pre + length (c :: v)) by (cbn; lia).
  change (scalar_end_loop fuel (pre ++ c :: v ++ suf) from (length pre + length (c :: v)) =
          scalar_end_loop (S fuel) (pre ++ c :: v ++ suf) from (length pre + length (c :: v))).
  apply scalar_end_fuel; rewrite length_app; cbn; rewrite length_app; lia.
Qed.

Lemma scan_scalar_text (v pre suf : bytes) (from fuel : nat) :
  scalar_text v -> length (pre ++ v ++ suf) - length pre < fuel ->
  scalar_end_loop fuel (pre ++ v ++ suf) from (length pre) =
  scalar_end_loop fuel (pre ++ v ++ suf) from (length pre + length v).
Proof.
  intros [[_ Hp]|(body & -> & Hc & Hne)] Hf; [by apply scan_plain|].
  destruct fuel as [|fuel]; [lia|]. cbn [scalar_end_loop app].
  rewrite list_lookup_middle by done. unfold isLineCommentStart at 1. rewrite list_lookup_middle by done.
  cbn [negb andb Ascii.eqb]. change (Ascii.eqb dquote "#") with false. change (Ascii.eqb dquote "/") with false.
  cbn [negb andb]. rewrite Ascii.eqb_refl.
  assert (Hs : skipString (pre ++ dquote :: body ++ suf) (length pre) = Some (length pre + length body)).
  { unfold skipString. rewrite drop_app_ge by lia. replace (S (length pre) - length pre) with 1 by lia. cbn [drop].
    match goal with |- context [string_close false ?g] => change g with (body ++ suf) end.
    rewrite (string_close_local _ _ (body ++ suf) _ Hc).
    - cbn. f_equal. destruct body; [done|cbn; lia].
    - destruct body; [done|]. cbn [length pred]. rewrite take_app_le, !take_ge by (cbn; lia). done. }
  rewrite Hs. replace (length pre + length (dquote :: body)) with (S (length pre + length body)) by (cbn; lia).
  rewrite ?length_app in Hf. cbn [length app] in Hf. rewrite ?length_app in Hf.
  change (scalar_end_loop fuel (pre ++ dquote :: body ++ suf) from (S (length pre + length body)) =
          scalar_end_loop (S fuel) (pre ++ dquote :: body ++ suf) from (S (length pre + length body))).
  apply scalar_end_fuel; rewrite length_app; cbn; rewrite length_app; lia.
Qed.

Lemma string_close_last (b : bytes) (k : nat) (esc : bool) :
  string_close esc b = Some k -> b !! k = Some dquote.
Proof.
  assert (Hrec : forall esc b k, (forall k esc, string_close esc b = Some k -> b !! k = Some dquote) ->
            forall c : ascii, S <$> string_close esc b = Some k -> (c :: b) !! k = Some dquote).
  { clear. intros esc b k IH c. destruct (string_close esc b) eqn:E; cbn; [|done]. intros [= <-]. by eapply IH. }
  revert k esc. induction b as [|c b IH]; intros k esc Hk; cbn in Hk; [done|].
  destruct esc; [by eapply Hrec|]. destruct (Ascii.eqb c backslash); [by eapply Hrec|].
  destruct (Ascii.eqb_spec c dquote) as [->|]; [by simplify_eq|by eapply Hrec].
Qed.

(** Such a value starts and ends with a byte that is not blank. *)
Lemma scalar_text_ends (v : bytes) :
  scalar_text v -> (exists c, v !! 0 = Some c /\ blank4 c = false) /\
                   (exists c, v !! pred (length v) = Some c /\ blank4 c = false).
Proof.
  intros [[Hne Hp]|(body & -> & Hc & Hne)].
  - rewrite forallb_forall in Hp.
    assert (Hat : forall k, k < length v -> exists c, v !! k = Some c /\ blank4 c = false).
    { intros k Hk. destruct (lookup_lt_is_Some_2 v k Hk) as [c Hc]. exists c. split; [done|].
      apply plain_byte_spec. apply Hp. apply list_elem_of_In. by eapply list_elem_of_lookup_2. }
    destruct v; [done|]. split; apply Hat; cbn; lia.
  - split; [by exists dquote|]. exists dquote. split; [|done].
    destruct body; [done|]. apply string_close_last in Hc. done.
Qed.

(** Text spliced between two cuts of another text. *)
Lemma lookup_splice (d v : bytes) (a b k : nat) :
  a <= length d -> b <= length d -> (take a d ++ v ++ drop b d) !! (a + length v + k) = d !! (b + k).
Proof.
  intros Ha Hb. rewrite app_assoc, lookup_app_r by (rewrite length_app, length_take; lia).
  rewrite length_app, length_take, lookup_drop. f_equal. lia.
Qed.

Lemma length_splice (d v : bytes) (a b : nat) :
  a <= length d -> b <= length d -> length (take a d ++ v ++ drop b d) = a + length v + (length d - b).
Proof. intros. rewrite !length_app, length_take, length_drop. lia. Qed.

Lemma agree_splice (d v : bytes) (a b : nat) : a <= length d -> agree a d (take a d ++ v ++ drop b d).
Proof. intros Ha. unfold agree. rewrite take_app_le by (rewrite length_take; lia). rewrite take_take. f_equal. lia. Qed.

(** Reading a spliced value back. *)
Lemma scalar_end_splice (d v : bytes) (from e : nat) :
  from <= length d -> findScalarValueEnd d from = Some e -> from < e -> scalar_text v ->
  findScalarValueEnd (take from d ++ v ++ drop e d) from = Some (from + length v).
Proof.
  intros Hfrom He Hlt Hv. unfold findScalarValueEnd in He.
  destruct (scalar_end_shape _ _ _ _ _ Hfrom He) as (t & Ht & Er & Hst).
  pose proof (trimRightASCII_bounds d from t ltac:(lia)) as Hb. rewrite <- Er in Hb.
  set (d' := take from d ++ v ++ drop e d).
  pose proof (length_splice d v from e Hfrom ltac:(lia)) as Hl. fold d' in Hl.
  set (t' := from + length v + (t - e)).
  assert (Hat : forall k, d' !! (from + length v + k) = d !! (e + k)) by (intros; apply lookup_splice; lia).
  assert (Hblank : forall k c, from + length v <= k < t' -> d' !! k = Some c -> blank4 c = true).
  { intros k c Hk. replace k with (from + length v + (k - (from + length v))) by lia. rewrite Hat.
    intros Hc. eapply (trimRightASCII_blank d from t); [|exact Hc]. rewrite <- Er. unfold t' in Hk. lia. }
  assert (Hstop : scan_stop d' t').
  { destruct Hst as [->|[Hc|(c & Hc & Hes)]].
    - left. unfold t'. lia.
    - right. left. destruct (decide (t = e)) as [->|Hne].
      + exfalso. unfold isLineCommentStart in Hc. destruct (d !! e) as [c|]; [|done].
        destruct (negb _ && _); [done|]. destruct e as [|e']; [lia|].
        destruct (d !! e') as [x|] eqn:Ex; [|done].
        pose proof (trimRightASCII_last d from (S e') x) as Hlast. rewrite <- Er in Hlast. cbn in Hlast.
        rewrite Hlast in Hc by (done || lia). done.
      + unfold isLineCommentStart in *. unfold at_byte in *.
        replace (t' + 1) with (from + length v + (t + 1 - e)) by (unfold t'; lia). unfold t' at 1. rewrite !Hat.
        replace (e + (t - e)) with t by lia. replace (e + (t + 1 - e)) with (t + 1) by lia.
        destruct (d !! t) as [c|]; [|done]. destruct (negb _ && _); [done|].
        destruct t as [|p]; [lia|]. unfold t'.
        replace (from + length v + (S p - e)) with (S (from + length v + (p - e))) by lia.
        rewrite Hat. by replace (e + (p - e)) with p by lia.
    - right. right. exists c. split; [|done]. unfold t'. rewrite Hat. by replace (e + (t - e)) with t by lia. }
  unfold findScalarValueEnd. assert (Hpre : length (take from d) = from) by (rewrite length_take; lia).
  pose proof (scan_scalar_text v (take from d) (drop e d) from (S (length d')) Hv) as Hscan.
  fold d' in Hscan. rewrite Hpre in Hscan. rewrite Hscan by lia.
  destruct (scalar_end_blanks (S (length d')) d' from (from + length v) t') as (q & Hq & ->);
    [unfold t'; lia|done|done|lia|].
  f_equal. apply trimRightASCII_unique; [lia|unfold t' in *; lia| |].
  - intros k c Hk. apply Hblank. lia.
  - right. destruct (scalar_text_ends v Hv) as [_ (c & Hc & Hcb)]. exists c. split; [|done].
    unfold d'. apply lookup_lt_Some in Hc as Hcl. rewrite lookup_app_r by lia. rewrite Hpre.
    rewrite lookup_app_l by lia. rewrite <- Hc. f_equal. lia.
Qed.
