(* ===== verification/Parser.v ===== *)
(** * Loading the srsRAN files (internal/ems/configuration/srsranconf, and NewStore)

    Module [Srs] is the package srsranconf: parser.go reads enb.conf and rr.conf line by line,
    sib_rb_parser.go scans sib.conf and rb.conf as text. The functions take the contents of the
    file; opening and reading it is a file-system step. The text scanners repeat the byte scanners
    of the renderer and are the same functions where the code is the same. *)
From S2P Require Import Prelude GoNum GoStrings ConfigData ConfigStore Scan.

Module Srs.

Record ENBConfig := mkENB {
  Serial : string;
  MCC : string;
  MNC : string;
  NPRB : Z;
  ENBID : string;
  MMEAddr : string;
  GTPBindAddr : string;
  S1CBindAddr : string;
  S1CBindPort : Z;
  TM : Z;
  TXGain : float64;
  RXGain : float64;
  TimeAdvNSamples : string;
  DeviceName : string;
  DeviceArgs : string;
  BaseSrateHz : float64;
  SIBConfigFile : string;
  RRConfigFile : string;
  RBConfigFile : string;
  SchedPolicy : string;
  PDSCHMaxMCS : Z;
  PUSCHMaxMCS : Z;
  TargetBLER : float64;
  MinNofCtrlSymbols : Z;
  MaxNofCtrlSymbols : Z;
  PUSCHMaxIts : Z;
  NRPUSCHMaxIts : Z;
  PUSCH8bitDecoder : bool;
  NofPHYThreads : Z;
  MetricsPeriodSecs : Z;
  TXAmplitude : float64;
  RRCInactivityTimer : Z;
  RLFReleaseTimerMs : Z;
  EEAPrefList : string;
  EIAPrefList : string;
  GTPUTunnelTimeout : Z;
  S1SetupMaxRetries : Z;
  S1ConnectTimer : Z;
  RXGainOffset : float64;
  UseCedronFEstAlg : bool;
  RLFMinULSNREstim : float64;
  MaxMacDLKOs : Z;
  MaxMacULKOs : Z;
  ReportJSONUDS : bool;
  ReportJSONUDSPath : string;
  AlarmsLogEnable : bool;
  AlarmsFilename : string
}.

Definition zeroENB : ENBConfig :=
  mkENB "" "" "" 0 "" "" "" "" 0 0 f_zero f_zero "" "" "" f_zero "" "" "" "" 0 0 f_zero 0 0 0 0 false 0 0 f_zero 0 0 "" "" 0 0 0 f_zero false f_zero 0 0 false "" false "".

Record RRConfig := mkRR {
  DLEARFCN : Z;
  PCI : Z;
  CellID : string;
  TAC : string;
  HOActive : option bool;
  A3Offset : Z;
  TimeToTrigger : Z;
  Hysteresis : Z
}.

Record SIBConfig := mkSIB {
  QRxLevMin : Z;
  CellBarred : string;
  NumRAPreambles : Z;
  PreambleInitRxTargetPwr : Z;
  PwrRampingStep : Z;
  DefaultPagingCycle : Z;
  P0NominalPUSCH : Z;
  P0NominalPUCCH : Z;
  Alpha : float64;
  ReferenceSignalPower : Z;
  T300 : Z;
  T301 : Z;
  T310 : Z;
  N310 : Z;
  T311 : Z
}.

Record RBProfile := mkRBProfile {
  pQCI : Z;
  pDiscardTimer : Z;
  pPDCPSNSize : Z;
  pTPollRetx : Z;
  pMaxRetxThresh : Z;
  pTReordering : Z;
  pPriority : Z
}.

Record RBConfig := mkRB { Profiles : list RBProfile }.

(** ** Lines (bufio.Scanner with its 64 KiB token limit) *)

Definition drop_cr (l : bytes) : bytes :=
  if has_suffix l ["013"%char] then take (length l - 1) l else l.

Fixpoint scan_lines (data : bytes) : list bytes :=
  match data with
  | [] => []
  | c :: r =>
      if Ascii.eqb c newline then [] :: scan_lines r
      else match scan_lines r with
           | h :: t => (c :: h) :: t
           | [] => [[c]]
           end
  end.

Definition too_long (l : bytes) : bool := (65536 <=? N.of_nat (length l))%N.

Definition scanner (data : bytes) : result string (list bytes) :=
  let lines := scan_lines data in
  if existsb too_long lines then Err "bufio.Scanner: token too long" else Ok (drop_cr <$> lines).

(** [isInlineCommentAt]: the byte before is a blank, or there is none. *)
Definition comment_pos (prev : option ascii) : bool :=
  match prev with None => true | Some c => blank4 c end.

Fixpoint strip_loop (prev : option ascii) (inString escaped : bool) (s : bytes) : bytes :=
  match s with
  | [] => []
  | c :: r =>
      if inString then
        if escaped then c :: strip_loop (Some c) true false r
        else if Ascii.eqb c backslash then c :: strip_loop (Some c) true true r
        else if Ascii.eqb c dquote then c :: strip_loop (Some c) false false r
        else c :: strip_loop (Some c) true false r
      else if Ascii.eqb c dquote then c :: strip_loop (Some c) true escaped r
      else if Ascii.eqb c "#" then if comment_pos prev then [] else c :: strip_loop (Some c) false escaped r
      else if Ascii.eqb c "/" then
        if has_prefix r (str "/") && comment_pos prev then [] else c :: strip_loop (Some c) false escaped r
      else c :: strip_loop (Some c) false escaped r
  end.

Definition stripInlineComment (s : bytes) : bytes := trim_space (strip_loop None false false s).

Definition isIdentifierStart (c : ascii) : bool := is_ident_start c.
Definition isIdentifier (c : ascii) : bool := is_ident c.
Definition skipSpace (s : bytes) (i : nat) : nat := span_end blank4 s i.

Section Lib.
Context {GL : GoLib}.

Definition parseSectionLine (line : bytes) : option bytes :=
  let x := trim_space line in
  if (length x <? 3) || negb (at_byte x 0 "[") || negb (at_byte x (length x - 1) "]") then None
  else match trim_space (slice x 1 (length x - 1)) with
       | [] => None
       | name => Some (to_lower name)
       end.

Definition parseAssignmentLine (line : bytes) : option (bytes * bytes) :=
  let x := trim_space line in
  match x with
  | [] => None
  | c :: _ =>
      if negb (isIdentifierStart c) then None
      else
        let i := span_end isIdentifier x 1 in
        let key := trim_space (take i x) in
        let j := skipSpace x i in
        match key with
        | [] => None
        | _ =>
            if negb (at_byte x j "=") then None
            else
              let value := trim_space (drop (S j) x) in
              Some (key, if has_suffix value (str ";") then trim_space (trim_suffix value (str ";")) else value)
        end
  end.

Definition unquoteScalar (v : bytes) : bytes :=
  let v := trim_space v in
  if (2 <=? length v) && at_byte v 0 dquote && at_byte v (length v - 1) dquote then
    match unquote v with
    | Some u => u
    | None => slice v 1 (length v - 1)
    end
  else v.

(** ** enb.conf *)

Definition parseDeviceArgsBaseSrate (deviceArgs : bytes) : option float64 :=
  let fix go (parts : list bytes) : option float64 :=
    match parts with
    | [] => None
    | p :: rest =>
        let kv := trim_space p in
        match index_of kv (str "=") with
        | None => go rest
        | Some i =>
            if bool_decide (trim_space (take i kv) = str "base_srate") then
              match ParseFloat (unstr (trim_space (drop (S i) kv))) with
              | Some f => if f_le f f_zero then None else Some f
              | None => None
              end
            else go rest
        end
    end in
  go (split_on "," deviceArgs).

(** How a case of the switch stores a value; an unparsable number or boolean leaves the field. *)
Inductive enb_setter :=
| EStr (set : string -> ENBConfig -> ENBConfig)
| EUint (set : Z -> ENBConfig -> ENBConfig)
| EInt (set : Z -> ENBConfig -> ENBConfig)
| EFloat (set : float64 -> ENBConfig -> ENBConfig)
| EBool (set : bool -> ENBConfig -> ENBConfig)
| EArgs.

Definition parse_bool_text (val : bytes) : option bool :=
  let l := to_lower val in
  if bool_decide (l = str "true") then Some true
  else if bool_decide (l = str "false") then Some false
  else None.

Definition store_opt {A} (v : option A) (set : A -> ENBConfig -> ENBConfig) (out : ENBConfig) : ENBConfig :=
  match v with Some x => set x out | None => out end.

Definition enb_store (s : enb_setter) (val : bytes) (out : ENBConfig) : ENBConfig :=
  match s with
  | EStr set => set (unstr val) out
  | EUint set => store_opt (parse_uint 32 val) set out
  | EInt set => store_opt (parse_int 32 val) set out
  | EFloat set => store_opt (ParseFloat (unstr val)) set out
  | EBool set => store_opt (parse_bool_text val) set out
  | EArgs =>
      store_opt (parseDeviceArgsBaseSrate val) (fun f c => c <|BaseSrateHz := f|>)
        (out <|DeviceArgs := unstr val|>)
  end.

Definition enb_section_enb : list (string * enb_setter) :=
  [ ("enb_id", EStr (fun v c => c <|ENBID := v|>));
    ("mcc", EStr (fun v c => c <|MCC := v|>));
    ("mnc", EStr (fun v c => c <|MNC := v|>));
    ("mme_addr", EStr (fun v c => c <|MMEAddr := v|>));
    ("gtp_bind_addr", EStr (fun v c => c <|GTPBindAddr := v|>));
    ("s1c_bind_addr", EStr (fun v c => c <|S1CBindAddr := v|>));
    ("s1c_bind_port", EUint (fun v c => c <|S1CBindPort := v|>));
    ("n_prb", EUint (fun v c => c <|NPRB := v|>));
    ("tm", EUint (fun v c => c <|TM := v|>)) ].

Definition enb_section_enb_files : list (string * enb_setter) :=
  [ ("sib_config", EStr (fun v c => c <|SIBConfigFile := v|>));
    ("rr_config", EStr (fun v c => c <|RRConfigFile := v|>));
    ("rb_config", EStr (fun v c => c <|RBConfigFile := v|>)) ].

Definition enb_section_rf : list (string * enb_setter) :=
  [ ("tx_gain", EFloat (fun v c => c <|TXGain := v|>));
    ("rx_gain", EFloat (fun v c => c <|RXGain := v|>));
    ("time_adv_nsamples", EStr (fun v c => c <|TimeAdvNSamples := v|>));
    ("device_args", EArgs);
    ("device_name", EStr (fun v c => c <|DeviceName := v|>)) ].

Definition enb_section_scheduler : list (string * enb_setter) :=
  [ ("policy", EStr (fun v c => c <|SchedPolicy := v|>));
    ("pdsch_max_mcs", EInt (fun v c => c <|PDSCHMaxMCS := v|>));
    ("pusch_max_mcs", EInt (fun v c => c <|PUSCHMaxMCS := v|>));
    ("target_bler", EFloat (fun v c => c <|TargetBLER := v|>));
    ("min_nof_ctrl_symbols", EInt (fun v c => c <|MinNofCtrlSymbols := v|>));
    ("max_nof_ctrl_symbols", EInt (fun v c => c <|MaxNofCtrlSymbols := v|>)) ].

Definition enb_section_expert : list (string * enb_setter) :=
  [ ("enb_serial", EStr (fun v c => c <|Serial := v|>));
    ("pusch_max_its", EInt (fun v c => c <|PUSCHMaxIts := v|>));
    ("nr_pusch_max_its", EInt (fun v c => c <|NRPUSCHMaxIts := v|>));
    ("pusch_8bit_decoder", EBool (fun v c => c <|PUSCH8bitDecoder := v|>));
    ("nof_phy_threads", EInt (fun v c => c <|NofPHYThreads := v|>));
    ("metrics_period_secs", EInt (fun v c => c <|MetricsPeriodSecs := v|>));
    ("report_json_uds_enable", EBool (fun v c => c <|ReportJSONUDS := v|>));
    ("report_json_uds_path", EStr (fun v c => c <|ReportJSONUDSPath := v|>));
    ("alarms_log_enable", EBool (fun v c => c <|AlarmsLogEnable := v|>));
    ("alarms_filename", EStr (fun v c => c <|AlarmsFilename := v|>));
    ("tx_amplitude", EFloat (fun v c => c <|TXAmplitude := v|>));
    ("rrc_inactivity_timer", EInt (fun v c => c <|RRCInactivityTimer := v|>));
    ("rlf_release_timer_ms", EInt (fun v c => c <|RLFReleaseTimerMs := v|>));
    ("eea_pref_list", EStr (fun v c => c <|EEAPrefList := v|>));
    ("eia_pref_list", EStr (fun v c => c <|EIAPrefList := v|>));
    ("gtpu_tunnel_timeout", EInt (fun v c => c <|GTPUTunnelTimeout := v|>));
    ("s1_setup_max_retries", EInt (fun v c => c <|S1SetupMaxRetries := v|>));
    ("s1_connect_timer", EInt (fun v c => c <|S1ConnectTimer := v|>));
    ("rx_gain_offset", EFloat (fun v c => c <|RXGainOffset := v|>));
    ("use_cedron_f_est_alg", EBool (fun v c => c <|UseCedronFEstAlg := v|>));
    ("rlf_min_ul_snr_estim", EFloat (fun v c => c <|RLFMinULSNREstim := v|>));
    ("max_mac_dl_kos", EInt (fun v c => c <|MaxMacDLKOs := v|>));
    ("max_mac_ul_kos", EInt (fun v c => c <|MaxMacULKOs := v|>)) ].

(** The assignments of one section. *)
Definition enb_section (section : string) : list (string * enb_setter) :=
  if String.eqb section "enb" then enb_section_enb
  else if String.eqb section "enb_files" then enb_section_enb_files
  else if String.eqb section "rf" then enb_section_rf
  else if String.eqb section "scheduler" then enb_section_scheduler
  else if String.eqb section "expert" then enb_section_expert
  else [].

Fixpoint find_setter (key : string) (l : list (string * enb_setter)) : option enb_setter :=
  match l with
  | [] => None
  | (k, s) :: r => if String.eqb k key then Some s else find_setter key r
  end.

Definition enb_assign (section key : string) (val : bytes) (out : ENBConfig) : ENBConfig :=
  match find_setter key (enb_section section) with
  | Some s => enb_store s val out
  | None => out
  end.

(** One iteration of the loop of ParseENB. *)
Definition enb_line (st : bytes * ENBConfig) (text : bytes) : bytes * ENBConfig :=
  let '(section, out) := st in
  let line := stripInlineComment text in
  match line with
  | [] => st
  | _ =>
      match parseSectionLine line with
      | Some sec => (sec, out)
      | None =>
          match parseAssignmentLine line with
          | None => st
          | Some (rawKey, rawVal) =>
              (section, enb_assign (unstr section) (unstr (to_lower rawKey)) (unquoteScalar rawVal) out)
          end
      end
  end.

Definition ParseENB (path : string) (data : bytes) : result string ENBConfig :=
  let? lines := scanner data in
  let out := snd (foldl enb_line ([], zeroENB) lines) in
  if String.eqb (TrimSpace (Serial out)) "" then Err ("enb_serial is not found in " +:+ path)
  else if (NPRB out =? 0)%Z then Err ("n_prb is not found in " +:+ path)
  else Ok out.

(** ** rr.conf: the first cell_id, tac, dl_earfcn, pci and ho_active count, the last of the others *)

Definition rr_line (st : RRConfig * bool * bool) (text : bytes) : RRConfig * bool * bool :=
  let '(out, gotEARFCN, gotPCI) := st in
  let line := stripInlineComment text in
  match line with
  | [] => st
  | _ =>
      match parseAssignmentLine line with
      | None => st
      | Some (rawKey, rawVal) =>
          let key := unstr (to_lower rawKey) in
          let val := unquoteScalar rawVal in
          if String.eqb key "cell_id" then
            (if String.eqb (CellID out) "" then out <|CellID := unstr val|> else out, gotEARFCN, gotPCI)
          else if String.eqb key "tac" then
            (if String.eqb (TAC out) "" then out <|TAC := unstr val|> else out, gotEARFCN, gotPCI)
          else if String.eqb key "dl_earfcn" then
            if gotEARFCN then st
            else match parse_uint 32 val with
                 | Some v => (out <|DLEARFCN := v|>, true, gotPCI)
                 | None => st
                 end
          else if String.eqb key "pci" then
            if gotPCI then st
            else match parse_uint 32 val with
                 | Some v => (out <|PCI := v|>, gotEARFCN, true)
                 | None => st
                 end
          else if String.eqb key "ho_active" then
            match HOActive out with
            | Some _ => st
            | None => match parse_bool_text val with
                      | Some b => (out <|HOActive := Some b|>, gotEARFCN, gotPCI)
                      | None => st
                      end
            end
          else if String.eqb key "a3_offset" then
            match parse_int 32 val with Some i => (out <|A3Offset := i|>, gotEARFCN, gotPCI) | None => st end
          else if String.eqb key "time_to_trigger" then
            match parse_int 32 val with Some i => (out <|TimeToTrigger := i|>, gotEARFCN, gotPCI) | None => st end
          else if String.eqb key "hysteresis" then
            match parse_int 32 val with Some i => (out <|Hysteresis := i|>, gotEARFCN, gotPCI) | None => st end
          else st
      end
  end.

Definition ParseRR (path : string) (data : bytes) : result string RRConfig :=
  let? lines := scanner data in
  let '(out, gotEARFCN, gotPCI) := foldl rr_line (mkRR 0 0 "" "" None 0 0 0, false, false) lines in
  if negb gotEARFCN || negb gotPCI then Err ("dl_earfcn/pci are not found in " +:+ path) else Ok out.

(** ** Text scanners of sib_rb_parser.go *)

Definition isTextLineCommentStart (src : bytes) (i : nat) : bool := isLineCommentStart src i.
Definition skipTextLine (src : bytes) (i : nat) : nat := skipLine src i.
Definition skipTextSpace (src : bytes) (i : nat) : nat := skipASCIIWhitespace src i.
Definition trimTextRight (src : bytes) (start e : nat) : nat := trimRightASCII src start e.

(** Called only where src[i] is a quote; any other position is a failure. *)
Definition skipTextString (src : bytes) (i : nat) : option nat :=
  if negb (at_byte src i dquote) then None else skipString src i.

Definition findAssignmentInText (src : bytes) (key : string) (from : nat) : option assignmentSpan :=
  find_assignment_loop (fun token => equal_fold token (str key)) (S (length src)) src from.

Definition findTextScalarValueEnd (src : bytes) (from : nat) : option nat :=
  scalar_end_loop (S (length src)) src from from.

Fixpoint matching_delimiter_loop (fuel : nat) (src : bytes) (openCh closeCh : ascii) (i : nat) (depth : Z) : option nat :=
  match fuel with
  | 0 => None
  | S fuel =>
      match src !! i with
      | None => None
      | Some c =>
          if isTextLineCommentStart src i then
            matching_delimiter_loop fuel src openCh closeCh (S (skipTextLine src i)) depth
          else if Ascii.eqb c dquote then
            match skipTextString src i with
            | None => None
            | Some next => matching_delimiter_loop fuel src openCh closeCh (S next) depth
            end
          else if Ascii.eqb c openCh then matching_delimiter_loop fuel src openCh closeCh (S i) (depth + 1)
          else if Ascii.eqb c closeCh then
            if (depth - 1 =? 0)%Z then Some i
            else matching_delimiter_loop fuel src openCh closeCh (S i) (depth - 1)
          else matching_delimiter_loop fuel src openCh closeCh (S i) depth
      end
  end.

Definition findMatchingDelimiter (src : bytes) (open : nat) (openCh closeCh : ascii) : option nat :=
  matching_delimiter_loop (S (length src)) src openCh closeCh open 0.

Definition extractParenSectionAfter (src : bytes) (anchor : string) : option bytes :=
  match findAssignmentInText src anchor 0 with
  | None => None
  | Some asn =>
      let p := skipTextSpace src (ValueStart asn) in
      if negb (at_byte src p "(") then None
      else match findMatchingDelimiter src p "(" ")" with
           | None => None
           | Some e => Some (slice src p (S e))
           end
  end.

Fixpoint brace_objects_loop (fuel : nat) (section : bytes) (i : nat) : list bytes :=
  match fuel with
  | 0 => []
  | S fuel =>
      match section !! i with
      | None => []
      | Some c =>
          if isTextLineCommentStart section i then brace_objects_loop fuel section (S (skipTextLine section i))
          else if Ascii.eqb c dquote then
            match skipTextString section i with
            | None => []
            | Some next => brace_objects_loop fuel section (S next)
            end
          else if negb (Ascii.eqb c "{") then brace_objects_loop fuel section (S i)
          else match findMatchingDelimiter section i "{" "}" with
               | None => []
               | Some e => slice section i (S e) :: brace_objects_loop fuel section (S e)
               end
      end
  end.

Definition extractTopLevelBraceObjects (section : bytes) : list bytes :=
  brace_objects_loop (S (length section)) section 0.

Definition extractBraceBlock (src : bytes) (braceIdx : nat) : option bytes :=
  if negb (at_byte src braceIdx "{") then None
  else match findMatchingDelimiter src braceIdx "{" "}" with
       | None => None
       | Some e => Some (slice src braceIdx (S e))
       end.

Definition extractNamedBlock (src : bytes) (name : string) : option bytes :=
  match findAssignmentInText src name 0 with
  | None => None
  | Some asn =>
      let br := skipTextSpace src (ValueStart asn) in
      if negb (at_byte src br "{") then None else extractBraceBlock src br
  end.

Definition extractNestedBlock (src : bytes) (name : string) : option bytes := extractNamedBlock src name.

Definition findStringInBlock (block : bytes) (key : string) : option bytes :=
  match findAssignmentInText block key 0 with
  | None => None
  | Some asn =>
      match findTextScalarValueEnd block (ValueStart asn) with
      | None => None
      | Some valueEnd => Some (unquoteScalar (slice block (ValueStart asn) valueEnd))
      end
  end.

(** Value and ok; the callers keep the value and drop the flag. *)
Definition findInt32InBlock (block : bytes) (key : string) : Z * bool :=
  match findStringInBlock block key with
  | None => (0%Z, false)
  | Some s => (parse_int32_value s, match parse_int 32 s with Some _ => true | None => false end)
  end.

Definition findFloat64InBlock (block : bytes) (key : string) : float64 * bool :=
  match findStringInBlock block key with
  | None => (f_zero, false)
  | Some s => match ParseFloat (unstr s) with
              | Some x => (x, true)
              | None => (ParseFloatErr (unstr s), false)
              end
  end.

Definition block_of (b : option bytes) : bytes := default [] b.

Definition ParseSIB (path : string) (src : bytes) : result string SIBConfig :=
  match extractNamedBlock src "sib1" with
  | None => Err ("sib1 block is not found in " +:+ path)
  | Some sib1 =>
      match extractNamedBlock src "sib2" with
      | None => Err ("sib2 block is not found in " +:+ path)
      | Some sib2 =>
          let rach := block_of (extractNestedBlock sib2 "rach_cnfg") in
          let pcch := block_of (extractNestedBlock sib2 "pcch_cnfg") in
          let ulPwr := block_of (extractNestedBlock sib2 "ul_pwr_ctrl") in
          let pdsch := block_of (extractNestedBlock sib2 "pdsch_cnfg") in
          let timers := block_of (extractNestedBlock sib2 "ue_timers_and_constants") in
          let out := {|
            QRxLevMin := fst (findInt32InBlock sib1 "q_rx_lev_min");
            CellBarred := unstr (default [] (findStringInBlock sib1 "cell_barred"));
            NumRAPreambles := fst (findInt32InBlock rach "num_ra_preambles");
            PreambleInitRxTargetPwr := fst (findInt32InBlock rach "preamble_init_rx_target_pwr");
            PwrRampingStep := fst (findInt32InBlock rach "pwr_ramping_step");
            DefaultPagingCycle := fst (findInt32InBlock pcch "default_paging_cycle");
            P0NominalPUSCH := fst (findInt32InBlock ulPwr "p0_nominal_pusch");
            P0NominalPUCCH := fst (findInt32InBlock ulPwr "p0_nominal_pucch");
            Alpha := fst (findFloat64InBlock ulPwr "alpha");
            ReferenceSignalPower := fst (findInt32InBlock pdsch "rs_power");
            T300 := fst (findInt32InBlock timers "t300");
            T301 := fst (findInt32InBlock timers "t301");
            T310 := fst (findInt32InBlock timers "t310");
            N310 := fst (findInt32InBlock timers "n310");
            T311 := fst (findInt32InBlock timers "t311") |} in
          if (DefaultPagingCycle out =? 0)%Z then Err ("default_paging_cycle is not found in " +:+ path)
          else Ok out
      end
  end.

Definition parse_profile (obj : bytes) : RBProfile :=
  {| pQCI := fst (findInt32InBlock obj "qci");
     pDiscardTimer := fst (findInt32InBlock obj "discard_timer");
     pPDCPSNSize := fst (findInt32InBlock obj "pdcp_sn_size");
     pTPollRetx := fst (findInt32InBlock obj "t_poll_retx");
     pMaxRetxThresh := fst (findInt32InBlock obj "max_retx_thresh");
     pTReordering := fst (findInt32InBlock obj "t_reordering");
     pPriority := fst (findInt32InBlock obj "priority") |}.

Definition ParseRB (path : string) (src : bytes) : result string RBConfig :=
  match extractParenSectionAfter src "qci_config" with
  | None => Err ("qci_config is not found in " +:+ path)
  | Some section =>
      match extractTopLevelBraceObjects section with
      | [] => Err ("qci_config has no entries in " +:+ path)
      | objs =>
          match List.filter (fun p => negb (pQCI p =? 0)%Z) (parse_profile <$> objs) with
          | [] => Err ("no qci entries parsed in " +:+ path)
          | ps => Ok (mkRB ps)
          end
      end
  end.

End Lib.
End Srs.

(** ** NewStore: from the parsed files to the store *)

Definition convertQCIProfiles (ps : list Srs.RBProfile) : list QCIProfile :=
  (fun p => {| QCI := Srs.pQCI p; DiscardTimer := Srs.pDiscardTimer p; PDCPSNSize := Srs.pPDCPSNSize p;
               TPollRetx := Srs.pTPollRetx p; MaxRetxThresh := Srs.pMaxRetxThresh p;
               TReordering := Srs.pTReordering p; Priority := Srs.pPriority p |}) <$> ps.

Fixpoint firstNonEmpty (values : list string) : string :=
  match values with
  | [] => ""
  | v :: r => if String.eqb (TrimSpace v) "" then firstNonEmpty r else TrimSpace v
  end.

(** filepath.Base on a Unix path. *)
Definition filepath_Base (path : string) : string :=
  let stripped := rev (drop (length (take_while (Ascii.eqb "/") (rev (str path)))) (rev (str path))) in
  match str path, stripped with
  | [], _ => "."
  | _, [] => "/"
  | _, l => unstr (rev (take_while (fun c => negb (Ascii.eqb c "/")) (rev l)))
  end.

Section NewStore.
Context {GL : GoLib}.

Definition load_config (enbPath rrPath sibPath rbPath : string)
    (e : Srs.ENBConfig) (r : Srs.RRConfig) (s : Srs.SIBConfig) (b : Srs.RBConfig) : EditableConfig :=
  {| ENBSerial := TrimSpace (Srs.Serial e);
     SIBConfigFile := firstNonEmpty [TrimSpace (Srs.SIBConfigFile e); filepath_Base sibPath];
     RRConfigFile := firstNonEmpty [TrimSpace (Srs.RRConfigFile e); filepath_Base rrPath];
     RBConfigFile := firstNonEmpty [TrimSpace (Srs.RBConfigFile e); filepath_Base rbPath];
     ReportJSONUDSEnable := Srs.ReportJSONUDS e;
     ReportJSONUDSPath := TrimSpace (Srs.ReportJSONUDSPath e);
     AlarmsLogEnable := Srs.AlarmsLogEnable e;
     AlarmsFilename := TrimSpace (Srs.AlarmsFilename e);
     ENBID := TrimSpace (Srs.ENBID e);
     MCC := TrimSpace (Srs.MCC e);
     MNC := TrimSpace (Srs.MNC e);
     MMEAddr := TrimSpace (Srs.MMEAddr e);
     GTPBindAddr := TrimSpace (Srs.GTPBindAddr e);
     S1CBindAddr := TrimSpace (Srs.S1CBindAddr e);
     S1CBindPort := Srs.S1CBindPort e;
     NPRB := Srs.NPRB e;
     TM := Srs.TM e;
     TXGain := Srs.TXGain e;
     RXGain := Srs.RXGain e;
     TimeAdvNSamples := TrimSpace (Srs.TimeAdvNSamples e);
     DeviceName := TrimSpace (Srs.DeviceName e);
     DeviceArgs := TrimSpace (Srs.DeviceArgs e);
     SchedPolicy := TrimSpace (Srs.SchedPolicy e);
     PDSCHMaxMCS := Srs.PDSCHMaxMCS e;
     PUSCHMaxMCS := Srs.PUSCHMaxMCS e;
     TargetBLER := Srs.TargetBLER e;
     MinCtrlSymbols := Srs.MinNofCtrlSymbols e;
     MaxCtrlSymbols := Srs.MaxNofCtrlSymbols e;
     CellID := TrimSpace (Srs.CellID r);
     TAC := TrimSpace (Srs.TAC r);
     DLEARFCN := Srs.DLEARFCN r;
     PCI := Srs.PCI r;
     HOActive := default false (Srs.HOActive r);
     A3Offset := Srs.A3Offset r;
     TimeToTrigger := Srs.TimeToTrigger r;
     Hysteresis := Srs.Hysteresis r;
     QRxLevMin := Srs.QRxLevMin s;
     CellBarred := TrimSpace (Srs.CellBarred s);
     NumRAPreambles := Srs.NumRAPreambles s;
     PreambleInitRxTargetPwr := Srs.PreambleInitRxTargetPwr s;
     PwrRampingStep := Srs.PwrRampingStep s;
     ReferenceSignalPower := Srs.ReferenceSignalPower s;
     P0NominalPUSCH := Srs.P0NominalPUSCH s;
     P0NominalPUCCH := Srs.P0NominalPUCCH s;
     Alpha := Srs.Alpha s;
     DefaultPagingCycle := Srs.DefaultPagingCycle s;
     T300 := Srs.T300 s;
     T301 := Srs.T301 s;
     T310 := Srs.T310 s;
     N310 := Srs.N310 s;
     T311 := Srs.T311 s;
     QCIProfiles := convertQCIProfiles (Srs.Profiles b);
     PUSCHMaxIts := Srs.PUSCHMaxIts e;
     NRPUSCHMaxIts := Srs.NRPUSCHMaxIts e;
     PUSCH8bitDecoder := Srs.PUSCH8bitDecoder e;
     NofPHYThreads := Srs.NofPHYThreads e;
     MetricsPeriodSecs := Srs.MetricsPeriodSecs e;
     TXAmplitude := Srs.TXAmplitude e;
     RRCInactivityTimer := Srs.RRCInactivityTimer e;
     RLFReleaseTimerMs := Srs.RLFReleaseTimerMs e;
     EEAPrefList := TrimSpace (Srs.EEAPrefList e);
     EIAPrefList := TrimSpace (Srs.EIAPrefList e);
     GTPUTunnelTimeout := Srs.GTPUTunnelTimeout e;
     S1SetupMaxRetries := Srs.S1SetupMaxRetries e;
     S1ConnectTimer := Srs.S1ConnectTimer e;
     RXGainOffset := Srs.RXGainOffset e;
     UseCedronFEstAlg := Srs.UseCedronFEstAlg e;
     RLFMinULSNREstim := Srs.RLFMinULSNREstim e;
     MaxMacDLKOs := Srs.MaxMacDLKOs e;
     MaxMacULKOs := Srs.MaxMacULKOs e |}.

(** The contents of the four files, an error for a file that cannot be read. *)
Definition NewStore (enbPath rrPath sibPath rbPath : string) (read : string -> result string bytes) :
    result string Store :=
  let? enbData := read enbPath in
  let? e := Srs.ParseENB enbPath enbData in
  let? rrData := read rrPath in
  let? r := Srs.ParseRR rrPath rrData in
  let? sibData := read sibPath in
  let? s := Srs.ParseSIB sibPath sibData in
  let? rbData := read rbPath in
  let? b := Srs.ParseRB rbPath rbData in
  newStore enbPath rrPath sibPath rbPath (load_config enbPath rrPath sibPath rbPath e r s b).

End NewStore.
