(* ===== verification/ConfigFiles.v ===== *)
(** * What a commit writes is what a restart reads

    Renderer (Renderer.v) and loader (Parser.v) are two packages with scanners of their own. This
    file relates them: the two brace matchers agree, a patched libconfig scalar is read back, every
    editable key is rendered into exactly the file that is flagged for it, and a rendered enb.conf
    assignment loads into the leaf it came from. *)
From S2P Require Import Prelude GoNum GoStrings ConfigData ConfigEdit ConfigStore Scan Renderer Parser.

Section Files.
Context {GL : GoLib}.

(** ** The two brace matchers *)

Lemma brace_loop_fuel (f1 f2 : nat) (d : bytes) (i : nat) (depth : Z) (ins esc : bool) :
  length d - i < f1 -> length d - i < f2 ->
  matching_brace_loop f1 d i depth ins esc = matching_brace_loop f2 d i depth ins esc.
Proof.
  revert f2 i depth ins esc. induction f1 as [|f1 IH]; intros [|f2] i depth ins esc H1 H2; [lia..|]. cbn.
  destruct (d !! i) as [c|] eqn:Ec; [|done]. apply lookup_lt_Some in Ec as Hi.
  pose proof (span_end_ge (fun c => negb (Ascii.eqb c newline)) d i) as Hsl.
  destruct (negb ins && isLineCommentStart d i); [apply IH; unfold skipLine; lia|].
  repeat match goal with |- context [if ?b then _ else _] => destruct b end; try done; apply IH; lia.
Qed.

(** Inside a string the brace scanner runs to the closing quote. *)
Lemma brace_loop_string (fuel : nat) (d : bytes) (i : nat) (depth : Z) (esc : bool) :
  length d - i < fuel ->
  matching_brace_loop fuel d i depth true esc =
  match string_close esc (drop i d) with
  | None => None
  | Some k => matching_brace_loop fuel d (S (i + k)) depth false false
  end.
Proof.
  revert i esc. induction fuel as [|fuel IH]; intros i esc Hf; [lia|].
  destruct (d !! i) as [c|] eqn:Ec.
  2:{ cbn. rewrite Ec. apply lookup_ge_None in Ec. by rewrite drop_ge by lia. }
  apply lookup_lt_Some in Ec as Hi. rewrite (drop_S _ _ _ Ec).
  assert (Hstep : forall e, matching_brace_loop fuel d (S i) depth true e =
            match S <$> string_close e (drop (S i) d) with
            | None => None
            | Some k => matching_brace_loop (S fuel) d (S (i + k)) depth false false
            end).
  { intros e. rewrite IH by lia. destruct (string_close e (drop (S i) d)) as [k|]; cbn [fmap option_fmap option_map]; [|done].
    replace (S (i + S k)) with (S (S i + k)) by lia. apply brace_loop_fuel; lia. }
  change (matching_brace_loop (S fuel) d i depth true esc) with
    (match d !! i with
     | None => None
     | Some c =>
         if esc then matching_brace_loop fuel d (S i) depth true false
         else if Ascii.eqb c backslash then matching_brace_loop fuel d (S i) depth true true
         else if Ascii.eqb c dquote then matching_brace_loop fuel d (S i) depth false false
         else matching_brace_loop fuel d (S i) depth true false
     end).
  rewrite Ec. cbn [string_close]. destruct esc; [apply Hstep|].
  destruct (Ascii.eqb c backslash); [apply Hstep|]. destruct (Ascii.eqb c dquote); [|apply Hstep].
  rewrite Nat.add_0_r. apply brace_loop_fuel; lia.
Qed.

Lemma delimiter_loop_step (f1 f2 : nat) (d : bytes) (i : nat) (depth : Z) :
  length d - i < f1 -> length d - i < f2 ->
  matching_brace_loop f1 d i depth false false = Srs.matching_delimiter_loop f2 d "{" "}" i depth.
Proof.
  revert f1 i depth. induction f2 as [|f2 IH]; intros [|f1] i depth H1 H2; [lia..|]. cbn [Srs.matching_delimiter_loop].
  destruct (d !! i) as [c|] eqn:Ec; [|by cbn; rewrite Ec]. apply lookup_lt_Some in Ec as Hi.
  pose proof (span_end_ge (fun c => negb (Ascii.eqb c newline)) d i) as Hsl.
  unfold Srs.isTextLineCommentStart, Srs.skipTextLine, Srs.skipTextString.
  cbn [matching_brace_loop]. rewrite Ec. cbn [negb andb].
  destruct (isLineCommentStart d i); [apply IH; unfold skipLine; lia|].
  destruct (Ascii.eqb c dquote) eqn:Eq.
  { unfold at_byte. rewrite Ec, Eq. cbn [negb]. rewrite brace_loop_string by lia.
    unfold skipString. destruct (string_close false (drop (S i) d)) as [k|]; cbn [fmap option_fmap option_map]; [|done].
    apply IH; lia. }
  destruct (Ascii.eqb c "{"); [apply IH; lia|]. destruct (Ascii.eqb c "}"); [|apply IH; lia].
  destruct (depth - 1 =? 0)%Z; [done|]. apply IH; lia.
Qed.

(** The renderer's brace matcher (a flag machine) and the loader's delimiter matcher (which
    skips whole strings) find the same closing brace from every position of every text. *)
Theorem brace_matchers_agree (data : bytes) (open : nat) :
  findMatchingBrace data open = Srs.findMatchingDelimiter data open "{" "}".
Proof. apply delimiter_loop_step; lia. Qed.

(** ** libconfig scalars *)

Lemma splice_value_start (d v : bytes) (a b : nat) (c : ascii) :
  a <= length d -> scalar_text v -> (take a d ++ v ++ drop b d) !! a = Some c -> blank4 c = false.
Proof.
  intros Ha Hv Hc. destruct (scalar_text_ends v Hv) as [(x & Hx & Hxb) _].
  apply lookup_lt_Some in Hx as Hl. rewrite lookup_app_r in Hc by (rewrite length_take; lia).
  rewrite length_take, Nat.min_l, Nat.sub_diag, lookup_app_l in Hc by lia. congruence.
Qed.

Lemma slice_splice (d v : bytes) (a b : nat) :
  a <= length d -> slice (take a d ++ v ++ drop b d) a (a + length v) = v.
Proof.
  intros Ha. unfold slice. rewrite drop_app_ge by (rewrite length_take; lia).
  rewrite length_take, Nat.min_l, Nat.sub_diag, drop_0 by lia.
  replace (a + length v - a) with (length v) by lia. by rewrite take_app_length.
Qed.

Lemma drop_splice (d v : bytes) (a b : nat) :
  a <= length d -> drop (a + length v) (take a d ++ v ++ drop b d) = drop b d.
Proof.
  intros Ha. rewrite app_assoc, drop_app_ge by (rewrite length_app, length_take; lia).
  rewrite length_app, length_take, Nat.min_l, Nat.sub_diag by lia. apply drop_0.
Qed.


(** ** Every editable key is rendered by the file it dirties *)

Definition rendered_by (f : managed_file) (key : string) (cfg : EditableConfig) : bool :=
  match f with
  | FENB => bool_decide (is_Some (enbPatch key cfg))
  | FRR => bool_decide (is_Some (rrPatch key cfg))
  | FSIB => bool_decide (is_Some (sibPatch key cfg))
  | FRB => HasPrefix key qci_prefix
  end.

Definition all_files : list managed_file := [FENB; FRR; FSIB; FRB].

Lemma leaves_rendered (cfg : EditableConfig) :
  Forall (fun e => Forall (fun f => rendered_by f (fst e) cfg = bool_decide (file_of (fst e) = Some f)) all_files) leaves.
Proof.
  apply (bool_decide_unpack (Forall (fun e =>
    Forall (fun f => rendered_by f (fst e) cfg = bool_decide (file_of (fst e) = Some f)) all_files) leaves)).
  destruct cfg. by vm_compute.
Qed.

(** No row of the three tables has a key with the profile prefix. *)
Lemma patch_tables_no_qci {A} (key : string) (l : list (string * A)) :
  forallb (fun e => negb (HasPrefix (fst e) qci_prefix)) l = true -> HasPrefix key qci_prefix = true ->
  find_patch key l = None.
Proof.
  induction l as [|[k a] l IH]; cbn; [done|]. intros Hl Hk. b2p.
  destruct (String.eqb k key) eqn:E; [b2p; subst; congruence|auto].
Qed.

(** No edit is lost on the way to disk and none lands in a foreign file: a key that an edit
    accepts is handled by the renderer of the file it flags, and by no other. *)
Theorem accepted_key_rendered_once (c c' cfg : EditableConfig) (key : string) (val : any) (f : managed_file) :
  applyChange c key val = Ok c' -> rendered_by f key cfg = true <-> file_of key = Some f.
Proof.
  intros Hok. destruct (applyChange_ok _ _ _ _ Hok) as (t & x & _ & Ht & _). destruct t as [k|q fld].
  - apply key_target_leaf in Ht as [-> [s Hs]]. apply find_leaf_in in Hs.
    pose proof (leaves_rendered cfg) as Hr. rewrite Forall_forall in Hr. specialize (Hr _ Hs). cbn [fst] in Hr.
    rewrite Forall_forall in Hr. rewrite (Hr f) by (destruct f; repeat constructor). apply bool_decide_eq_true.
  - pose proof (key_target_rb _ _ _ Ht) as Hrb. apply key_target_qci in Ht as [Hp _]. rewrite Hrb.
    unfold rendered_by, enbPatch, rrPatch, sibPatch.
    rewrite !patch_tables_no_qci by (done || by vm_compute). destruct f; cbn; by rewrite ?Hp.
Qed.

(** ** enb.conf assignments load into the leaf they were rendered from *)

(** The loader trims the strings it reads. *)
Definition reload_leaf (v : any) : any := match v with AString t => AString (TrimSpace t) | _ => v end.
Definition is_float (v : any) : bool := match v with AFloat64 _ => true | _ => false end.

Lemma cfg_wf_get (c : EditableConfig) (key : string) (x : any) : cfg_wf c -> json_get key c = Some x -> int_wf x.
Proof.
  intros [Hj _] Hg. unfold json_get in Hg. induction (json_view c) as [|[k y] l IH]; cbn in Hg; [done|].
  apply Forall_cons in Hj as [Hy Hl]. destruct (String.eqb k key); [by simplify_eq|auto].
Qed.

Lemma parse_bool_format (b : bool) : Srs.parse_bool_text (str (formatBool b)) = Some b.
Proof. by destruct b; vm_compute. Qed.

Definition loads (paths : string * string * string * string) (e : Srs.ENBConfig) (r : Srs.RRConfig)
    (s : Srs.SIBConfig) (b : Srs.RBConfig) : EditableConfig :=
  let '(p1, p2, p3, p4) := paths in load_config p1 p2 p3 p4 e r s b.

Definition row_reloads (row : string * (string * string * (EditableConfig -> string))) : Prop :=
  let '(key, (sec, ck, render)) := row in
  forall cfg paths e r s b, cfg_wf cfg ->
  exists x0 x, json_get key cfg = Some x0 /\ (is_float x0 = false -> x = reload_leaf x0) /\
    json_view (loads paths (Srs.enb_assign sec ck (str (render cfg)) e) r s b) =
    view_set key x (json_view (loads paths e r s b)).

(** What the loader's setter of a row does to the JSON view of the loaded configuration. *)
Definition sets_leaf {A} (key : string) (inj : A -> any) (set : A -> Srs.ENBConfig -> Srs.ENBConfig) : Prop :=
  forall paths v e r s b, json_view (loads paths (set v e) r s b) = view_set key (inj v) (json_view (loads paths e r s b)).

Section Rows.
Variables (key sec ck : string).

Lemma row_string (get : EditableConfig -> string) set :
  (forall c, json_get key c = Some (AString (get c))) ->
  Srs.find_setter ck (Srs.enb_section sec) = Some (Srs.EStr set) ->
  sets_leaf key (AString ∘ TrimSpace) set -> row_reloads (key, (sec, ck, get)).
Proof.
  intros Hg Hs Hl cfg paths e r s b Hw. exists (AString (get cfg)), (AString (TrimSpace (get cfg))).
  split; [done|]. split; [done|]. unfold Srs.enb_assign. rewrite Hs. cbn [Srs.enb_store]. by rewrite unstr_str, Hl.
Qed.

Lemma row_int32 (get : EditableConfig -> Z) set :
  (forall c, json_get key c = Some (AInt32 (get c))) ->
  Srs.find_setter ck (Srs.enb_section sec) = Some (Srs.EInt set) ->
  sets_leaf key AInt32 set -> row_reloads (key, (sec, ck, fun c => FormatInt (get c))).
Proof.
  intros Hg Hs Hl cfg paths e r s b Hw. exists (AInt32 (get cfg)), (AInt32 (get cfg)).
  split; [done|]. split; [done|]. unfold Srs.enb_assign. rewrite Hs. cbn [Srs.enb_store].
  pose proof (cfg_wf_get _ _ _ Hw (Hg cfg)) as Hi. cbn in Hi. unfold FormatInt. rewrite str_unstr, parse_format_int by done.
  apply Hl.
Qed.

Lemma row_uint32 (get : EditableConfig -> Z) set :
  (forall c, json_get key c = Some (AUint32 (get c))) ->
  Srs.find_setter ck (Srs.enb_section sec) = Some (Srs.EUint set) ->
  sets_leaf key AUint32 set -> row_reloads (key, (sec, ck, fun c => FormatUint (get c))).
Proof.
  intros Hg Hs Hl cfg paths e r s b Hw. exists (AUint32 (get cfg)), (AUint32 (get cfg)).
  split; [done|]. split; [done|]. unfold Srs.enb_assign. rewrite Hs. cbn [Srs.enb_store].
  pose proof (cfg_wf_get _ _ _ Hw (Hg cfg)) as Hi. cbn in Hi. unfold FormatUint. rewrite str_unstr, parse_format_uint by done.
  apply Hl.
Qed.

Lemma row_bool (get : EditableConfig -> bool) set :
  (forall c, json_get key c = Some (ABool (get c))) ->
  Srs.find_setter ck (Srs.enb_section sec) = Some (Srs.EBool set) ->
  sets_leaf key ABool set -> row_reloads (key, (sec, ck, fun c => formatBool (get c))).
Proof.
  intros Hg Hs Hl cfg paths e r s b Hw. exists (ABool (get cfg)), (ABool (get cfg)).
  split; [done|]. split; [done|]. unfold Srs.enb_assign. rewrite Hs. cbn [Srs.enb_store].
  rewrite parse_bool_format. apply Hl.
Qed.

(** A float is written with three decimals: the leaf is set to what the loader parses, or kept. *)
Lemma row_float (get : EditableConfig -> float64) (old : Srs.ENBConfig -> float64) set :
  (forall c, json_get key c = Some (AFloat64 (get c))) ->
  Srs.find_setter ck (Srs.enb_section sec) = Some (Srs.EFloat set) ->
  sets_leaf key AFloat64 set ->
  (forall paths e r s b, json_view (loads paths e r s b) = view_set key (AFloat64 (old e)) (json_view (loads paths e r s b))) ->
  row_reloads (key, (sec, ck, fun c => trimFloat (get c))).
Proof.
  intros Hg Hs Hl Hold cfg paths e r s b Hw. exists (AFloat64 (get cfg)).
  unfold Srs.enb_assign. rewrite Hs. cbn [Srs.enb_store].
  destruct (ParseFloat (unstr (str (trimFloat (get cfg))))) as [x|]; cbn [Srs.store_opt].
  - exists (AFloat64 x). split_and!; [done|by cbn|apply Hl].
  - exists (AFloat64 (old e)). split_and!; [done|by cbn|apply Hold].
Qed.

Lemma row_args (get : EditableConfig -> string) :
  (forall c, json_get key c = Some (AString (get c))) ->
  Srs.find_setter ck (Srs.enb_section sec) = Some Srs.EArgs ->
  sets_leaf key (AString ∘ TrimSpace) (fun v e => e <|Srs.DeviceArgs := v|>) ->
  (forall paths e f r s b, json_view (loads paths (e <|Srs.BaseSrateHz := f|>) r s b) = json_view (loads paths e r s b)) ->
  row_reloads (key, (sec, ck, get)).
Proof.
  intros Hg Hs Hl Hb cfg paths e r s b Hw. exists (AString (get cfg)), (AString (TrimSpace (get cfg))).
  split; [done|]. split; [done|]. unfold Srs.enb_assign. rewrite Hs. cbn [Srs.enb_store]. rewrite unstr_str.
  destruct (Srs.parseDeviceArgsBaseSrate _); cbn [Srs.store_opt]; rewrite ?Hb; apply Hl.
Qed.

End Rows.

Ltac view_side := intros [[[? ?] ?] ?] ? [] [] [] ?; reflexivity.
Ltac leaf_side := intros []; reflexivity.

Ltac reload_row :=
  lazymatch goal with
  | |- row_reloads (_, (_, _, fun c => FormatInt (@?g c))) =>
      eapply (row_int32 _ _ _ g); [leaf_side|reflexivity|view_side]
  | |- row_reloads (_, (_, _, fun c => FormatUint (@?g c))) =>
      eapply (row_uint32 _ _ _ g); [leaf_side|reflexivity|view_side]
  | |- row_reloads (_, (_, _, fun c => formatBool (@?g c))) =>
      eapply (row_bool _ _ _ g); [leaf_side|reflexivity|view_side]
  | |- row_reloads (_, (_, _, fun c => trimFloat (@?g c))) =>
      eapply (row_float _ _ _ g); [leaf_side|reflexivity|view_side|intros [[[? ?] ?] ?] [] [] [] ?; reflexivity]
  | |- row_reloads ("device_args", _) =>
      eapply row_args; [leaf_side|reflexivity|view_side|intros [[[? ?] ?] ?] [] ? [] [] ?; reflexivity]
  | |- row_reloads (_, (_, _, _)) =>
      eapply row_string; [leaf_side|reflexivity|view_side]
  end.

Lemma enb_rows_reload : Forall row_reloads enb_patches.
Proof. unfold enb_patches. repeat (apply Forall_cons_2; [reload_row|]). apply Forall_nil_2. Qed.

Lemma find_patch_in {A} (key : string) (l : list (string * A)) (a : A) : find_patch key l = Some a -> (key, a) ∈ l.
Proof.
  induction l as [|[k b] l IH]; cbn; [done|]. destruct (String.eqb k key) eqn:E; intros Hf.
  - b2p. simplify_eq. left.
  - right. auto.
Qed.

(** A rendered enb.conf assignment, read by the loader, restores the leaf it came from (strings
    trimmed; floats are written with three decimals and not covered) and disturbs no other leaf of
    the loaded configuration. *)
Theorem enb_leaf_reloads (cfg : EditableConfig) (key sec ck value : string) (p1 p2 p3 p4 : string)
    (e : Srs.ENBConfig) (r : Srs.RRConfig) (s : Srs.SIBConfig) (b : Srs.RBConfig) :
  cfg_wf cfg -> enbPatch key cfg = Some (sec, ck, value) ->
  let after := load_config p1 p2 p3 p4 (Srs.enb_assign sec ck (str value) e) r s b in
  (forall x, json_get key cfg = Some x -> is_float x = false -> json_get key after = Some (reload_leaf x)) /\
  (forall k, k <> key -> json_get k after = json_get k (load_config p1 p2 p3 p4 e r s b)).
Proof.
  intros Hw Hp after. unfold enbPatch in Hp. destruct (find_patch key enb_patches) as [[[sec' ck'] render]|] eqn:Ef; [|done].
  injection Hp as -> -> <-. apply find_patch_in in Ef. pose proof enb_rows_reload as Hr. rewrite Forall_forall in Hr.
  destruct (Hr _ Ef cfg (p1, p2, p3, p4) e r s b Hw) as (x0 & x & Hx0 & Hx & Hv). cbn [loads] in Hv. fold after in Hv.
  split.
  - intros y Hy Hfl. simplify_eq. rewrite <- (Hx Hfl). unfold json_get. rewrite Hv, view_get_set, string_eqb_refl.
    assert (Hn : is_Some (json_get key (load_config p1 p2 p3 p4 e r s b))).
    { assert (Hd : forall c c' : EditableConfig, is_Some (json_get key c) -> is_Some (json_get key c')).
      { clear. intros c c'. unfold json_get. assert (Hk : (json_view c).*1 = (json_view c').*1) by by destruct c, c'.
        revert Hk. generalize (json_view c) (json_view c'). induction l as [|[k x] l IH]; intros [|[k' x'] l'] Hk; cbn in *; simplify_eq; [done|].
        destruct (String.eqb k' key); eauto. }
      eapply Hd. eauto. }
    destruct Hn as [z Hz]. unfold json_get in Hz. by rewrite Hz.
  - intros k Hk. unfold json_get. rewrite Hv, view_get_set. by rewrite (proj2 (String.eqb_neq key k)).
Qed.

(** ** INI lines *)

(** The text bufio.Scanner hands out for a line with its terminator. *)
Definition scanned_text (line : bytes) : bytes :=
  Srs.drop_cr (if has_suffix line [newline] then take (length line - 1) line else line).

Definition ini_byte (c : ascii) : bool := plain_byte c && solid_byte c.
Definition ini_value (v : bytes) : Prop := v <> [] /\ forallb ini_byte v = true.
Definition ini_key (k : bytes) : Prop :=
  (exists c r, k = c :: r /\ is_ident_start c = true) /\ forallb is_ident k = true.

Lemma ident_byte (c : ascii) : is_ident c = true -> ini_byte c = true.
Proof. destruct c as [[] [] [] [] [] [] [] []]; vm_compute; congruence. Qed.

(** Bytes the comment stripper passes over. *)
Definition strip_safe (c : ascii) : bool := negb (Ascii.eqb c dquote || Ascii.eqb c "#" || Ascii.eqb c "/").

Lemma strip_loop_safe (l r : bytes) (prev : option ascii) :
  forallb strip_safe l = true ->
  Srs.strip_loop prev false false (l ++ r) =
  l ++ Srs.strip_loop (match last l with Some c => Some c | None => prev end) false false r.
Proof.
  revert prev. induction l as [|c l IH]; intros prev Hl; [done|]. cbn [forallb] in Hl. apply andb_true_iff in Hl as [Hc Hl].
  unfold strip_safe in Hc. apply negb_true_iff in Hc. apply orb_false_iff in Hc as [Hc H3]. apply orb_false_iff in Hc as [H1 H2].
  cbn [app Srs.strip_loop]. rewrite H1, H2, H3. f_equal. rewrite IH by done. rewrite last_cons. by destruct (last l).
Qed.

Lemma forallb_impl {A} (f g : A -> bool) (l : list A) :
  (forall x, f x = true -> g x = true) -> forallb f l = true -> forallb g l = true.
Proof. intros Hfg. rewrite !forallb_forall. auto. Qed.

Lemma take_while_all (p : ascii -> bool) (l : bytes) : forallb p (take_while p l) = true.
Proof. induction l as [|c l IH]; cbn; [done|]. destruct (p c) eqn:E; cbn; [by rewrite E|done]. Qed.

Lemma ini_value_ends (v : bytes) :
  ini_value v -> (exists c r, v = c :: r /\ solid_byte c = true) /\ (exists r d, v = r ++ [d] /\ solid_byte d = true).
Proof.
  intros [Hne Hv]. assert (Hs : forallb solid_byte v = true).
  { eapply forallb_impl; [|exact Hv]. unfold ini_byte. intros c Hc. by b2p. }
  split.
  - destruct v as [|c r]; [done|]. exists c, r. cbn in Hs. b2p. done.
  - destruct (exists_last Hne) as (r & d & ->). exists r, d. split; [done|].
    rewrite forallb_app in Hs. cbn in Hs. b2p. done.
Qed.

(** An assignment text between blanks parses to its key and value. *)
Lemma parse_assignment_text (key value : bytes) :
  ini_key key -> ini_value value ->
  Srs.parseAssignmentLine (key ++ str " = " ++ value) = Some (key, value).
Proof.
  intros [(c & r & Ek & Hc) Hk] Hv. destruct (ini_value_ends value Hv) as [Hv1 Hv2].
  assert (Hkv : ini_value key) by (split; [by rewrite Ek|eapply forallb_impl; [apply ident_byte|done]]).
  destruct (ini_value_ends key Hkv) as [Hk1 Hk2].
  set (x := key ++ str " = " ++ value).
  assert (Hx : trim_space x = x).
  { apply trim_space_solid.
    - destruct Hk1 as (a & t & -> & Ha). by exists a, (t ++ str " = " ++ value).
    - destruct Hv2 as (t & d & -> & Hd). exists (key ++ str " = " ++ t), d. split; [|done]. unfold x. by rewrite <- !app_assoc. }
  assert (Hspan : span_end Srs.isIdentifier x 1 = length key).
  { apply span_end_unique.
    - unfold x. rewrite length_app. rewrite Ek. cbn. lia.
    - intros k d Hin Hd. unfold x in Hd. rewrite lookup_app_l in Hd by lia. rewrite forallb_forall in Hk.
      apply Hk. apply list_elem_of_In. by eapply list_elem_of_lookup_2.
    - intros d Hd. unfold x in Hd. rewrite lookup_app_r, Nat.sub_diag in Hd by lia. cbn in Hd. by simplify_eq. }
  assert (Hskip : Srs.skipSpace x (length key) = S (length key)).
  { apply span_end_unique.
    - unfold x. rewrite !length_app. cbn. lia.
    - intros k d Hin Hd. replace k with (length key) in Hd by lia. unfold x in Hd.
      rewrite lookup_app_r, Nat.sub_diag in Hd by lia. cbn in Hd. by simplify_eq.
    - intros d Hd. unfold x in Hd. rewrite lookup_app_r in Hd by lia.
      replace (S (length key) - length key) with 1 in Hd by lia. cbn in Hd. by simplify_eq. }
  unfold Srs.parseAssignmentLine. fold x. rewrite Hx, Hspan, Hskip.
  replace (take (length key) x) with key by (unfold x; by rewrite take_app_length).
  rewrite (trim_space_solid key Hk1 Hk2).
  assert (Heq : at_byte x (S (length key)) "=" = true).
  { unfold at_byte, x. rewrite lookup_app_r by lia. by replace (S (length key) - length key) with 1 by lia. }
  rewrite Heq. replace (drop (S (S (length key))) x) with (str " " ++ value).
  2:{ unfold x. rewrite drop_app_ge by lia. by replace (S (S (length key)) - length key) with 2 by lia. }
  assert (Hval : trim_space (str " " ++ value) = value).
  { pose proof (trim_space_around (str " ") value [] eq_refl eq_refl Hv1 Hv2) as Ht. by rewrite app_nil_r in Ht. }
  rewrite Hval. assert (Hsemi : has_suffix value (str ";") = false).
  { destruct Hv2 as (t & d & Et & _). destruct Hv as [_ Hall]. rewrite Et, forallb_app in Hall. cbn in Hall. b2p.
    match goal with H : ini_byte d = true |- _ => rename H into Hd end.
    unfold has_suffix. rewrite Et, rev_app_distr. cbn. destruct (Ascii.eqb_spec d ";") as [->|]; [|done].
    by vm_compute in Hd. }
  rewrite Hsemi. unfold x. rewrite Ek at 1. cbn [app]. unfold Srs.isIdentifierStart. rewrite Hc. cbn [negb].
  destruct key; [done|]. done.
Qed.

(** Dropping one terminator byte. *)
Definition chop (c : ascii) (l : bytes) : bytes := if has_suffix l [c] then take (length l - 1) l else l.

Lemma has_suffix_snoc (l : bytes) (x c : ascii) : has_suffix (l ++ [x]) [c] = Ascii.eqb x c.
Proof. unfold has_suffix. rewrite rev_app_distr. cbn. by rewrite has_prefix_nil, andb_true_r. Qed.

Lemma chop_same (l : bytes) (c : ascii) : chop c (l ++ [c]) = l.
Proof.
  unfold chop. rewrite has_suffix_snoc, Ascii.eqb_refl, length_app. cbn.
  replace (length l + 1 - 1) with (length l) by lia. by rewrite take_app_length.
Qed.

Lemma chop_other (l : bytes) (x c : ascii) : x <> c -> chop c (l ++ [x]) = l ++ [x].
Proof. intros Hx. unfold chop. rewrite has_suffix_snoc. by rewrite (proj2 (Ascii.eqb_neq x c)). Qed.

Lemma chop_behind (a t : bytes) (x c : ascii) : x <> c -> exists t', chop c (a ++ x :: t) = a ++ x :: t'.
Proof.
  intros Hx. destruct t as [|y t] using rev_ind.
  - exists []. by rewrite chop_other.
  - rewrite app_comm_cons, app_assoc. destruct (Ascii.eqb_spec y c) as [->|Hy].
    + rewrite chop_same. eauto.
    + rewrite chop_other by done. rewrite <- app_assoc, <- app_comm_cons. eauto.
Qed.

Lemma scanned_text_chop (line : bytes) : scanned_text line = chop "013" (chop newline line).
Proof. done. Qed.

Definition eol_text (eol : bytes) : Prop := eol = ["013"%char; newline] \/ eol = [newline] \/ eol = [].

Lemma splitEOL_eol (line : bytes) : eol_text (snd (splitEOL line)).
Proof. unfold splitEOL, eol_text. destruct (has_suffix line _); [by left|]. destruct (has_suffix line _); cbn; auto. Qed.

Lemma scanned_text_eol (q eol : bytes) (x : ascii) :
  eol_text eol -> x <> newline -> x <> "013"%char -> scanned_text ((q ++ [x]) ++ eol) = q ++ [x].
Proof.
  intros He Hn Hr. rewrite scanned_text_chop. destruct He as [->|[->| ->]].
  - rewrite (app_assoc _ ["013"%char] [newline]). by rewrite !chop_same.
  - rewrite chop_same. by apply chop_other.
  - rewrite app_nil_r. by rewrite !chop_other.
Qed.

Lemma trim_space_hash (r : bytes) : trim_space ("#"%char :: r) = [] \/ exists t, trim_space ("#"%char :: r) = "#"%char :: t.
Proof.
  unfold trim_space, trim_left. rewrite (strip_lead _ _ ("#"%char :: r)) by by apply solid_lead.
  destruct (trim_right_prefix ("#"%char :: r)) as [q Hq]. destruct (trim_right _) as [|c t]; [by left|].
  right. cbn in Hq. simplify_eq. eauto.
Qed.

Lemma index_of_hash (l : bytes) (i : nat) : index_of l (str "#") = Some i -> exists r, drop i l = "#"%char :: r.
Proof.
  revert i. induction l as [|c l IH]; intros i; cbn; [done|]. rewrite has_prefix_nil, andb_true_r.
  destruct (Ascii.eqb_spec c "#") as [->|].
  - intros [= <-]. by exists l.
  - match goal with |- S <$> ?t = _ -> _ => destruct t as [k|] eqn:E end; cbn; [|done]. intros [= <-]. cbn. by apply IH.
Qed.

(** What the loader sees of a replaced line: the assignment, then nothing but blanks or a comment. *)
Lemma replaced_line_text (line : bytes) (key value : string) :
  ini_value (str value) ->
  exists leading z, forallb tab_or_space leading = true /\
    (z = [] \/ z = [" "%char] \/ exists t, z = " "%char :: "#"%char :: t) /\
    scanned_text (replaceAssignmentLine line key value false) = (leading ++ str key ++ str " = " ++ str value) ++ z.
Proof.
  intros Hv. unfold replaceAssignmentLine. pose proof (splitEOL_eol line) as He.
  destruct (splitEOL line) as [body eol]. cbn [snd] in He.
  set (leading := take_while tab_or_space body). set (P := leading ++ str key ++ str " = " ++ str value).
  assert (Hassoc : forall z, leading ++ str key ++ str " = " ++ str value ++ [] ++ z ++ eol = (P ++ z) ++ eol)
    by (intros z; unfold P; by rewrite <- !app_assoc).
  assert (HP : exists q x, P = q ++ [x] /\ x <> newline /\ x <> "013"%char).
  { destruct (ini_value_ends _ Hv) as [_ (r & d & Er & Hd)]. exists (leading ++ str key ++ str " = " ++ r), d.
    unfold P. rewrite Er, <- !app_assoc. split; [done|]. split; intros ->; by vm_compute in Hd. }
  exists leading. destruct (index_of body (str "#")) as [idx|] eqn:Ei.
  2:{ exists []. split; [apply take_while_all|]. split; [by left|]. rewrite Hassoc. fold P. rewrite !app_nil_r.
      destruct HP as (q & x & -> & ? & ?). by apply scanned_text_eol. }
  destruct (index_of_hash _ _ Ei) as [r Hr]. rewrite Hr. destruct (trim_space_hash r) as [Ht|[t Ht]]; rewrite Ht.
  - exists [" "%char]. split; [apply take_while_all|]. split; [by right; left|]. rewrite Hassoc. fold P.
    change (str " " ++ []) with [" "%char]. by rewrite scanned_text_eol.
  - assert (Hh : exists t', scanned_text ((P ++ str " " ++ "#"%char :: t) ++ eol) = (P ++ [" "%char]) ++ "#"%char :: t').
    { rewrite scanned_text_chop. change (str " " ++ "#"%char :: t) with ([" "%char] ++ "#"%char :: t).
      rewrite app_assoc, <- app_assoc. cbn [app].
      destruct (chop_behind (P ++ [" "%char]) (t ++ eol) "#" newline) as [t1 ->]; [done|].
      destruct (chop_behind (P ++ [" "%char]) t1 "#" "013") as [t2 ->]; [done|]. eauto. }
    destruct Hh as [t' Hh]. exists (" "%char :: "#"%char :: t'). split; [apply take_while_all|].
    split; [right; right; eauto|]. rewrite Hassoc, Hh. fold P. by rewrite <- app_assoc.
Qed.

(** A line the renderer rewrites in enb.conf is read back by the loader as exactly the key and
    the value written, whatever indentation, comment or line ending the old line had. *)
Theorem ini_line_reads_back (line : bytes) (key value : string) :
  ini_key (str key) -> ini_value (str value) ->
  Srs.parseAssignmentLine (Srs.stripInlineComment (scanned_text (replaceAssignmentLine line key value false))) =
  Some (str key, str value).
Proof.
  intros Hk Hv. destruct (replaced_line_text line key value Hv) as (leading & z & Hlead & Hz & ->).
  rewrite <- (parse_assignment_text (str key) (str value) Hk Hv). f_equal. unfold Srs.stripInlineComment.
  destruct (ini_value_ends _ Hv) as [_ (rv & dv & Ev & Hdv)].
  set (core := str key ++ str " = " ++ str value).
  assert (Hsafe : forallb strip_safe (leading ++ core) = true).
  { assert (Hb : forall c, (tab_or_space c || is_ident c || ini_byte c) = true -> strip_safe c = true)
      by (intros c; destruct c as [[] [] [] [] [] [] [] []]; vm_compute; congruence).
    assert (Hi : forall f l, (forall c, f c = true -> (tab_or_space c || is_ident c || ini_byte c) = true) ->
              forallb f l = true -> forallb strip_safe l = true)
      by (intros f l Hf; apply forallb_impl; auto).
    unfold core. destruct Hk as [_ Hk], Hv as [_ Hv]. rewrite !forallb_app.
    rewrite (Hi tab_or_space leading), (Hi is_ident (str key)), (Hi ini_byte (str value)); try done;
      intros c ->; by rewrite ?orb_true_r. }
  rewrite strip_loop_safe by done.
  assert (Hrest : exists b, Srs.strip_loop (match last (leading ++ core) with Some c => Some c | None => None end)
            false false z = b /\ forallb ascii_space b = true).
  { destruct Hz as [->|[->|[t ->]]]; eexists; by split. }
  destruct Hrest as (b & -> & Hb). rewrite <- app_assoc. apply trim_space_around; [|done|..].
  - eapply forallb_impl; [|exact Hlead]. intros c. destruct c as [[] [] [] [] [] [] [] []]; vm_compute; congruence.
  - destruct Hk as [(c & r & Ek & Hc) Hk]. exists c, (r ++ str " = " ++ str value). unfold core. rewrite Ek. split; [done|].
    rewrite Ek in Hk. cbn in Hk. b2p. match goal with H : is_ident c = true |- _ => apply ident_byte in H; unfold ini_byte in H end. by b2p.
  - exists (str key ++ str " = " ++ rv), dv. unfold core. rewrite Ev, <- !app_assoc. done.
Qed.

(** ** INI files: everything but the patched line is kept *)

Lemma concat_splitLines (data : bytes) : concat (splitLines data) = data.
Proof.
  induction data as [|c r IH]; [done|]. cbn. destruct (Ascii.eqb c newline); cbn; [by rewrite IH|].
  destruct (splitLines r) as [|h t]; cbn in *; [by rewrite <- IH|by rewrite <- IH].
Qed.

(** Where the loop over the lines can end. *)
Lemma ini_loop_place (target : bytes) (key : string) (lines : list bytes) (i : nat) (cur : bytes) (found : bool) (at_ : nat) :
  match ini_loop target key lines i cur found at_ with
  | ReplaceAt j => exists line, i <= j /\ lines !! (j - i) = Some line /\ lineHasAssignmentKey line key = true
  | InsertAt f j => j = at_ \/ i <= j <= i + length lines
  end.
Proof.
  revert i cur found at_. induction lines as [|line rest IH]; intros i cur found at_; cbn [ini_loop]; [by left|].
  assert (Hrec : forall cur found at', (at' = at_ \/ at' = S i) ->
            match ini_loop target key rest (S i) cur found at' with
            | ReplaceAt j => exists line0, i <= j /\ (line :: rest) !! (j - i) = Some line0 /\ lineHasAssignmentKey line0 key = true
            | InsertAt f j => j = at_ \/ i <= j <= i + length (line :: rest)
            end).
  { intros cur' found' at' Hat. specialize (IH (S i) cur' found' at').
    destruct (ini_loop target key rest (S i) cur' found' at') as [j|f j].
    - destruct IH as (l0 & Hj & Hl & Hk). exists l0. split_and!; [lia| |done]. by replace (j - i) with (S (j - S i)) by lia.
    - cbn [length]. lia. }
  destruct (parseINISection line) as [sec|].
  - destruct (found && _); [right; cbn; lia|]. case_bool_decide; apply Hrec; auto.
  - destruct (negb _ || _); [apply Hrec; auto|]. destruct (lineHasAssignmentKey line key) eqn:Ek; cbn [negb].
    + exists line. rewrite Nat.sub_diag. split_and!; [lia|done|done].
    + apply Hrec. destruct found; auto.
Qed.

(** Patching an enb.conf assignment rewrites one line that already assigns the key, or inserts
    one line, or appends a section with one line; the text before and after is kept byte for byte. *)
Theorem ini_patch_keeps_rest (data : bytes) (section key value : string) :
  let out := patchINIAssignment data section key value in
  let newLine := str key ++ str " = " ++ str value ++ [newline] in
  (exists before line after, data = before ++ line ++ after /\ lineHasAssignmentKey line key = true /\
     out = before ++ replaceAssignmentLine line key value false ++ after) \/
  (exists before after, data = before ++ after /\ out = before ++ newLine ++ after) \/
  (exists gap, (gap = [] \/ gap = [newline]) /\
     out = data ++ gap ++ newline :: str "[" ++ str section ++ str "]" ++ newline :: newLine).
Proof.
  intros out newLine. unfold out, patchINIAssignment. set (lines := splitLines data).
  pose proof (concat_splitLines data) as Hd. fold lines in Hd.
  pose proof (ini_loop_place (to_lower (trim_space (str section))) key lines 0 [] false (length lines)) as Hp.
  destruct (ini_loop _ _ _ _ _ _ _) as [i|found i].
  - left. destruct Hp as (line & _ & Hl & Hk). rewrite Nat.sub_0_r in Hl. apply lookup_lt_Some in Hl as Hlt.
    exists (concat (take i lines)), line, (concat (drop (S i) lines)).
    rewrite Hl. cbn [default]. split_and!; [|done|].
    + rewrite <- Hd. rewrite <- (take_drop_middle lines i line Hl) at 1. by rewrite concat_app.
    + rewrite insert_take_drop by done. by rewrite concat_app.
  - right. destruct found.
    + left. unfold insertLine. assert (Hi : i <= length lines) by lia.
      destruct (length lines <? i) eqn:E; b2p; [lia|]. exists (concat (take i lines)), (concat (drop i lines)).
      rewrite !concat_app. cbn [concat]. rewrite app_nil_r. split; [|done].
      by rewrite <- Hd, <- concat_app, take_drop.
    + right. unfold end_with_newline. destruct (last lines) as [l|] eqn:El.
      * destruct (has_suffix l [newline]).
        { exists []. split; [by left|]. rewrite concat_app, Hd. cbn. by rewrite app_nil_r, <- !app_assoc. }
        exists [newline]. split; [by right|]. apply last_Some in El as [l' El]. rewrite El in Hd |- *.
        rewrite length_app, concat_app in *. cbn [length concat] in *. replace (length l' + 1 - 1) with (length l') by lia.
        rewrite take_app_length, concat_app, <- Hd. cbn. by rewrite !app_nil_r, <- !app_assoc.
      * exists []. split; [by left|]. rewrite concat_app, Hd. cbn. by rewrite app_nil_r, <- !app_assoc.
Qed.

End Files.

(** ** Concrete files *)

Definition sample_rr : bytes := str "cell_list = (
  {
    cell_id = 0x01; # first cell
    pci = 1 ;
    dl_earfcn = 3350;
  }
);
".


Lemma accepted_key_rendered_once_witness :
  rendered_by (GL:=ascii_golib) FSIB "t300" sample_cfg = true <-> file_of "t300" = Some FSIB.
Proof.
  destruct (applyChange (GL:=ascii_golib) sample_cfg "t300" (AInt 100)) as [c'|e] eqn:E; [|vm_compute in E; discriminate].
  exact (accepted_key_rendered_once (GL:=ascii_golib) sample_cfg c' sample_cfg "t300" (AInt 100) FSIB E).
Defined.

Definition sample_rrcfg : Srs.RRConfig := Srs.mkRR 3350 1 "0x01" "0x0007" (Some true) 6 480 0.
Definition sample_sib : Srs.SIBConfig := Srs.mkSIB (-65) "Not_Barred" 52 (-104) 6 128 (-85) (-107) f_zero 0 2000 100 200 1 10000.
Definition sample_rb : Srs.RBConfig := Srs.mkRB [Srs.mkRBProfile 7 (-1) 12 0 0 0 13].

Lemma enb_leaf_reloads_witness :
  json_get "nof_phy_threads"
    (load_config "enb.conf" "rr.conf" "sib.conf" "rb.conf"
       (Srs.enb_assign (GL:=ascii_golib) "expert" "nof_phy_threads" (str "3") Srs.zeroENB) sample_rrcfg sample_sib sample_rb)
  = Some (AInt32 3).
Proof.
  refine (proj1 (enb_leaf_reloads (GL:=ascii_golib) sample_cfg "nof_phy_threads" "expert" "nof_phy_threads" "3"
            "enb.conf" "rr.conf" "sib.conf" "rb.conf" Srs.zeroENB sample_rrcfg sample_sib sample_rb sample_cfg_wf _)
            (AInt32 3) _ _); vm_compute; reflexivity.
Defined.

Lemma ini_line_reads_back_witness :
  Srs.parseAssignmentLine (Srs.stripInlineComment
    (scanned_text (replaceAssignmentLine (str "  TX_gain = 80 # power" ++ [newline]) "tx_gain" "70.5" false))) =
  Some (str "tx_gain", str "70.5").
Proof.
  apply (ini_line_reads_back (str "  TX_gain = 80 # power" ++ [newline]) "tx_gain" "70.5").
  - split; [exists "t"%char, (str "x_gain"); split; reflexivity|reflexivity].
  - split; [discriminate|reflexivity].
Defined.

(** ** Where writing and reading diverge *)

(** A section whose last line has no line end: the inserted assignment is glued to it. *)
Theorem ini_insert_glues_unterminated_line :
  patchINIAssignment (GL:=ascii_golib) (str "[enb]" ++ newline :: str "mcc = 001") "enb" "mnc" "01" =
  str "[enb]" ++ newline :: str "mcc = 001mnc = 01" ++ [newline].
Proof. by vm_compute. Qed.

(** The key under which the reference signal power is written is not the key it is read from: on a
    file with the key the loader reads, rendering the edit fails. *)
Theorem reference_signal_power_not_rendered :
  let block := str "pdsch_cnfg = { p_b = 1; rs_power = 0; };" in
  fst (Srs.findInt32InBlock (GL:=ascii_golib) block "rs_power") = 0%Z /\
  (exists v, sibPatch (GL:=ascii_golib) "reference_signal_power" sample_cfg = Some ("reference_signal_power", v)) /\
  is_ok (renderSIBConfig (GL:=ascii_golib) block sample_cfg {["reference_signal_power"]}) = false.
Proof. split_and!; [by vm_compute|by eexists|by vm_compute]. Qed.

(** A comment introduced by two slashes is dropped with the value it follows, and a hash sign inside
    a quoted value is taken for a comment. *)
Theorem ini_replace_comment_handling :
  replaceAssignmentLine (str "mcc = 001 // home" ++ [newline]) "mcc" "999" false = str "mcc = 999" ++ [newline] /\
  replaceAssignmentLine (str "device_args = a#b") "device_args" "c" false = str "device_args = c #b".
Proof. split; by vm_compute. Qed.
