(* ===== verification/Persist.v ===== *)
(** * Committing the candidate to disk (internal/ems/configuration/store.go, lines 369-549, 1134-1232)

    The files are those of the file system with a schedule of faults, so that every theorem holds for
    every place an I/O error can strike. *)
From stdpp Require Import stringmap.
From S2P Require Import Prelude GoNum GoStrings FileSystem ConfigData ConfigEdit ConfigStore Scan Renderer.

(** ** Writing one file *)

(** A call whose failure closes (unless it was the close) and drops the temporary file. *)
Definition or_discard (close : bool) (tmp : string) (r : World * result errno unit)
    (k : World -> World * result string string) : World * result string string :=
  match r with
  | (w, Ok _) => k w
  | (w, Err e) =>
      let w := if close then fst (Close tmp w) else w in
      (fst (Remove tmp w), Err (strerror e))
  end.

(** Write, chmod, sync and close the temporary file. *)
Definition fill_temp (tmpName : string) (data : bytes) (mode : Z) (w : World) : World * result string string :=
  or_discard true tmpName (Write tmpName data w) (fun w =>
  or_discard true tmpName (Chmod tmpName mode w) (fun w =>
  or_discard true tmpName (Sync tmpName w) (fun w =>
  or_discard false tmpName (Close tmpName w) (fun w => (w, Ok tmpName))))).

Definition writeTempSibling (path : string) (data : bytes) (w : World) : World * result string string :=
  let dir := filepath_Dir path in
  let '(w, st) := Stat path w in
  let mode := match st with Ok i => perm i | Err _ => 420%Z end in
  let '(uid, gid) := match st with Ok i => owner i | Err _ => (-1, -1)%Z end in
  match CreateTemp dir ".cfg-" w with
  | (w, Err e) => (w, Err (strerror e))
  | (w, Ok tmpName) =>
      if ((0 <=? uid) && (0 <=? gid))%Z then
        match Chown tmpName uid gid w with
        | (w, Err e) => if bool_decide (e = EPERM) then fill_temp tmpName data mode w
                        else (fst (Remove tmpName (fst (Close tmpName w))), Err (strerror e))
        | (w, Ok _) => fill_temp tmpName data mode w
        end
      else fill_temp tmpName data mode w
  end.

Definition renameAtomic (tmp final : string) (w : World) : World * result string unit :=
  match Rename tmp final w with
  | (w, Err e) =>
      (w, Err (if bool_decide (e = EBUSY) || bool_decide (e = EXDEV) || bool_decide (e = EPERM)
               then "atomic rename " +:+ tmp +:+ " -> " +:+ final +:+ " failed: " +:+ strerror e +:+
                    " (mount the parent directory instead of bind-mounting the file)"
               else strerror e))
  | (w, Ok _) => (sync_dir w, Ok tt)
  end.

Definition atomicWrite (path : string) (data : bytes) (w : World) : World * result string unit :=
  match writeTempSibling path data w with
  | (w, Err e) => (w, Err e)
  | (w, Ok tmpName) =>
      match renameAtomic tmpName path w with
      | (w, Err e) => (fst (Remove tmpName w), Err e)
      | (w, Ok _) => (w, Ok tt)
      end
  end.

(** ** Writing a set of files *)

Record stagedFile := mkStaged { final : string; tmp : string }.

Fixpoint remove_all (names : list string) (w : World) : World :=
  match names with
  | [] => w
  | n :: r => remove_all r (fst (Remove n w))
  end.

Fixpoint commit_loop (staged : list stagedFile) (applied : list stagedFile) (w : World) : World * result string unit :=
  match staged with
  | [] => (w, Ok tt)
  | f :: rest =>
      match renameAtomic (tmp f) (final f) w with
      | (w, Err e) => (remove_all (tmp <$> applied) w, Err e)
      | (w, Ok _) => commit_loop rest (f :: applied) w
      end
  end.

Definition commitStagedFiles (staged : list stagedFile) (w : World) : World * result string unit :=
  commit_loop staged [] w.

Definition cleanupStagedFiles (staged : list stagedFile) (w : World) : World := remove_all (tmp <$> staged) w.

(** ** The commit of a store *)

Section Persist.
Context {GL : GoLib}.

Record FileBackup := mkBackup {
  ENB : option bytes;
  RR : option bytes;
  SIB : option bytes;
  RB : option bytes;
  bDirty : bool
}.

Definition backup_of (f : managed_file) (b : FileBackup) : option bytes :=
  match f with FENB => ENB b | FRR => RR b | FSIB => SIB b | FRB => RB b end.

Definition set_backup (f : managed_file) (data : bytes) (b : FileBackup) : FileBackup :=
  match f with
  | FENB => b <|ENB := Some data|>
  | FRR => b <|RR := Some data|>
  | FSIB => b <|SIB := Some data|>
  | FRB => b <|RB := Some data|>
  end <|bDirty := true|>.

Definition path_of (f : managed_file) (s : Store) : string :=
  match f with FENB => enbPath s | FRR => rrPath s | FSIB => sibPath s | FRB => rbPath s end.

Definition render (f : managed_file) (data : bytes) (cfg : EditableConfig) (keys : gset string) : result string bytes :=
  match f with
  | FENB => renderENBConfig data cfg keys
  | FRR => renderRRConfig data cfg keys
  | FSIB => renderSIBConfig data cfg keys
  | FRB => renderRBConfig data cfg keys
  end.

(** The blocks of the three functions below, in their order. *)
Definition commit_order : list managed_file := [FENB; FRR; FSIB; FRB].

Fixpoint backup_loop (fs : list managed_file) (s : Store) (b : FileBackup) (w : World) : World * result string FileBackup :=
  match fs with
  | [] => (w, Ok b)
  | f :: rest =>
      if is_dirty f (dirty s) then
        match ReadFile (path_of f s) w with
        | (w, Err e) => (w, Err (strerror e))
        | (w, Ok data) => backup_loop rest s (set_backup f data b) w
        end
      else backup_loop rest s b w
  end.

Definition backupDirtyFilesLocked (s : Store) (w : World) : World * result string FileBackup :=
  backup_loop commit_order s (mkBackup None None None None false) w.

Fixpoint stage_loop (fs : list managed_file) (s : Store) (staged : list stagedFile) (w : World) :
    World * result string (list stagedFile) :=
  match fs with
  | [] => (w, Ok staged)
  | f :: rest =>
      if is_dirty f (dirty s) then
        match ReadFile (path_of f s) w with
        | (w, Err e) => (cleanupStagedFiles staged w, Err (strerror e))
        | (w, Ok data) =>
            match render f data (cand s) (dirtyKeys s) with
            | Err e => (cleanupStagedFiles staged w, Err e)
            | Ok out =>
                match writeTempSibling (path_of f s) out w with
                | (w, Err e) => (cleanupStagedFiles staged w, Err e)
                | (w, Ok t) => stage_loop rest s (staged ++ [mkStaged (path_of f s) t]) w
                end
            end
        end
      else stage_loop rest s staged w
  end.

Definition stageDirtyFilesLocked (s : Store) (w : World) : World * result string (list stagedFile) :=
  stage_loop commit_order s [] w.

Fixpoint restore_loop (fs : list managed_file) (s : Store) (b : FileBackup) (w : World) : World * result string unit :=
  match fs with
  | [] => (w, Ok tt)
  | f :: rest =>
      match (if is_dirty f (dirty s) then backup_of f b else None) with
      | Some data =>
          match atomicWrite (path_of f s) data w with
          | (w, Err e) => (w, Err e)
          | (w, Ok _) => restore_loop rest s b w
          end
      | None => restore_loop rest s b w
      end
  end.

Definition restoreDirtyFilesLocked (s : Store) (b : FileBackup) (w : World) : World * result string unit :=
  restore_loop commit_order s b w.

Definition PersistCandidate (s : Store) (w : World) : World * result string (FileBackup * EditableConfig) :=
  match validate (cand s) with
  | Some e => (w, Err e)
  | None =>
      match backupDirtyFilesLocked s w with
      | (w, Err e) => (w, Err e)
      | (w, Ok backup) =>
          match stageDirtyFilesLocked s w with
          | (w, Err e) => (fst (restoreDirtyFilesLocked s backup w), Err e)
          | (w, Ok staged) =>
              match commitStagedFiles staged w with
              | (w, Err e) =>
                  (fst (restoreDirtyFilesLocked s backup (cleanupStagedFiles staged w)), Err e)
              | (w, Ok _) => (w, Ok (backup, cand s))
              end
          end
      end
  end.

Definition RollbackPersist (s : Store) (backup : FileBackup) (w : World) : World * result string unit :=
  restoreDirtyFilesLocked s backup w.

(** Store.Commit. *)
Definition Commit (s : Store) (w : World) : Store * World * result string EditableConfig :=
  match PersistCandidate s w with
  | (w, Err e) => (s, w, Err e)
  | (w, Ok (backup, next)) =>
      match FinalizeCommit s with
      | (s, Some e) => (s, fst (RollbackPersist s backup w), Err e)
      | (s, None) => (s, w, Ok next)
      end
  end.

End Persist.

(** ** Lemmas: one file *)

Lemma or_discard_spec (close : bool) (d : gmap string Inode) (t : string) (r : World * result errno unit)
    (k : World -> World * result string string) (post : World -> Prop) :
  d !! t = None ->
  match r with
  | (w, Ok _) => match k w with (w', Ok t') => t' = t /\ post w' | (w', Err _) => scratch d w' end
  | (w, Err _) => only d t w
  end ->
  match or_discard close t r k with (w', Ok t') => t' = t /\ post w' | (w', Err _) => scratch d w' end.
Proof. intros Hn. destruct r as [w [[]|e]]; cbn [or_discard]; [done|]. intros Ho. by apply discard_only. Qed.

Lemma fill_temp_spec (d : gmap string Inode) (t : string) (data : bytes) (mode : Z) (i : Inode) (w : World) :
  d !! t = None -> disk w = <[t := i]> d ->
  match fill_temp t data mode w with
  | (w', Ok t') => t' = t /\ disk w' = <[t := mkInode data mode (owner i)]> d
  | (w', Err _) => scratch d w'
  end.
Proof.
  intros Hn Hd. unfold fill_temp. apply or_discard_spec; [done|]. pose proof (Write_only d t data w i Hd) as Hw.
  destruct (Write t data w) as [w1 [[]|e]]; [|done].
  apply or_discard_spec; [done|]. pose proof (on_file_only d t (fun i => i <|perm := mode|>) w1 _ Hw) as Hm. unfold Chmod.
  destruct (on_file t _ w1) as [w2 [[]|e]]; [|by eexists].
  apply or_discard_spec; [done|]. pose proof (on_file_only d t id w2 _ Hm) as Hs. unfold Sync.
  destruct (on_file t id w2) as [w3 [[]|e]]; [|by eexists].
  apply or_discard_spec; [done|]. pose proof (on_file_only d t id w3 _ Hs) as Hc. unfold Close.
  destruct (on_file t id w3) as [w4 [[]|e]]; [|by eexists]. split; [done|]. rewrite Hc. by destruct i.
Qed.

(** The temporary sibling: a new file with the data, or at most a leftover that did not exist. *)
Lemma writeTempSibling_spec (path : string) (data : bytes) (w : World) :
  match writeTempSibling path data w with
  | (w', Ok t) => disk w !! t = None /\ exists i, disk w' = <[t := i]> (disk w) /\ contents i = data
  | (w', Err _) => scratch (disk w) w'
  end.
Proof.
  unfold writeTempSibling, Stat. match goal with |- context [syscall ?a w] => pose proof (syscall_spec a w) as Hs end.
  destruct (syscall _ w) as [w1 st]. assert (Hd1 : disk w1 = disk w).
  { destruct st; [|by destruct Hs]. destruct (disk w !! path); by simplify_eq. }
  clear Hs. rewrite <- Hd1. clear Hd1. set (mode := match st with Ok i => perm i | Err _ => 420%Z end).
  destruct (match st with Ok i => owner i | Err _ => _ end) as [uid gid].
  unfold CreateTemp. match goal with |- context [syscall ?a w1] => pose proof (syscall_spec a w1) as Hc end.
  destruct (syscall _ w1) as [w2 [t|e]]; [|left; by destruct Hc]. injection Hc as Hd2 Ht.
  assert (Hn : disk w1 !! t = None) by (rewrite <- Ht; apply fresh_string_fresh). rewrite Ht in Hd2. symmetry in Hd2.
  assert (Hfill : forall w3 i, disk w3 = <[t := i]> (disk w1) ->
            match fill_temp t data mode w3 with
            | (w', Ok t0) => disk w1 !! t0 = None /\ (exists i0, disk w' = <[t0 := i0]> (disk w1) /\ contents i0 = data)
            | (w', Err _) => scratch (disk w1) w'
            end).
  { intros w3 i Hi. pose proof (fill_temp_spec (disk w1) t data mode i w3 Hn Hi) as Hf.
    destruct (fill_temp t data mode w3) as [w' [t'|e]]; [|done]. destruct Hf as [-> Hf]. split; [done|]. by eexists. }
  destruct ((0 <=? uid) && (0 <=? gid))%Z; [|by eapply Hfill].
  unfold Chown. pose proof (on_file_only (disk w1) t (fun i => i <|owner := (uid, gid)|>) w2 _ Hd2) as Ho.
  destruct (on_file t _ w2) as [w3 [[]|e]]; [by eapply Hfill|]. case_bool_decide; [by eapply Hfill|].
  apply (discard_only true); [done|]. by eexists.
Qed.

(** A rename: the whole effect, or none. *)
Lemma renameAtomic_spec (t final : string) (w : World) :
  match renameAtomic t final w with
  | (w', Ok _) => exists i, disk w !! t = Some i /\ disk w' = <[final := i]> (delete t (disk w))
  | (w', Err _) => disk w' = disk w /\ (is_Some (disk w !! t) -> at_most_one (faults w) -> quiet w')
  end.
Proof.
  unfold renameAtomic, Rename. match goal with |- context [syscall ?a w] => pose proof (syscall_spec a w) as Hs end.
  destruct (syscall _ w) as [w1 [[]|e]].
  - destruct (disk w !! t) as [i|]; [|done]. injection Hs as Hs. exists i. split; [done|]. rewrite Hs.
    unfold sync_dir. pose proof (tick_disk w1) as H1. destruct (tick w1) as [w2 [f|]]; cbn in H1; [done|].
    pose proof (tick_disk w2) as H2. destruct (tick w2) as [w3 f]. cbn in *. rewrite tick_disk. congruence.
  - destruct Hs as [Hs Hq]. split; [done|]. intros [i Hi]. apply Hq. rewrite Hi. eauto.
Qed.

Lemma scratch_lookup (d : gmap string Inode) (w : World) (k : string) (i : Inode) :
  scratch d w -> d !! k = Some i -> disk w !! k = Some i.
Proof.
  intros [->|(t & j & Hn & ->)] Hk; [done|]. rewrite lookup_insert_ne; [done|]. congruence.
Qed.

(** atomicWrite replaces the contents of one existing file or keeps every existing file. *)
Lemma atomicWrite_spec (path : string) (data : bytes) (w : World) :
  match atomicWrite path data w with
  | (w', Ok _) => (exists i, disk w' !! path = Some i /\ contents i = data) /\
                  (forall k i, k <> path -> disk w !! k = Some i -> disk w' !! k = Some i)
  | (w', Err _) => forall k i, disk w !! k = Some i -> disk w' !! k = Some i
  end.
Proof.
  unfold atomicWrite. pose proof (writeTempSibling_spec path data w) as Hw.
  destruct (writeTempSibling path data w) as [w1 [t|e]]; [|intros k i; by apply scratch_lookup].
  destruct Hw as (Hn & i & Hd & Hi). pose proof (renameAtomic_spec t path w1) as Hr.
  destruct (renameAtomic t path w1) as [w2 [[]|e]].
  - destruct Hr as (j & Hj & Hd2). rewrite Hd, lookup_insert_eq in Hj. simplify_eq. rewrite Hd2. split.
    + exists j. by rewrite lookup_insert_eq.
    + intros k x Hk Hx. rewrite lookup_insert_ne by done. rewrite lookup_delete_ne by congruence.
      rewrite Hd, lookup_insert_ne by congruence. done.
  - intros k x Hx. apply (scratch_lookup (disk w)); [|done]. apply Remove_only; [done|].
    destruct Hr as [Hr _]. exists i. congruence.
Qed.

(** ** Lemmas: schedules are only consumed *)

Section Tail.
Variable P : list fault -> Prop.
Hypothesis P_tail : forall f r, P (f :: r) -> P r.

Lemma or_discard_tail (close : bool) (t : string) r k :
  P (faults (fst r)) -> (forall w, P (faults w) -> P (faults (fst (k w)))) -> P (faults (fst (or_discard close t r k))).
Proof.
  destruct r as [w [[]|e]]; cbn [or_discard fst]; intros Hp Hk; [auto|].
  apply (syscall_tail P P_tail). destruct close; [by apply (syscall_tail P P_tail)|done].
Qed.

Lemma fill_temp_tail (t : string) (data : bytes) (mode : Z) (w : World) :
  P (faults w) -> P (faults (fst (fill_temp t data mode w))).
Proof.
  intros Hp. unfold fill_temp. apply or_discard_tail; [by apply (Write_tail P P_tail)|]. intros w1 H1.
  apply or_discard_tail; [by apply (syscall_tail P P_tail)|]. intros w2 H2.
  apply or_discard_tail; [by apply (syscall_tail P P_tail)|]. intros w3 H3.
  apply or_discard_tail; [by apply (syscall_tail P P_tail)|]. done.
Qed.

Lemma writeTempSibling_tail (path : string) (data : bytes) (w : World) :
  P (faults w) -> P (faults (fst (writeTempSibling path data w))).
Proof.
  intros Hp. unfold writeTempSibling, Stat. match goal with |- context [syscall ?a w] => pose proof ((syscall_tail P P_tail) a w Hp) as H1 end.
  destruct (syscall _ w) as [w1 st]. cbn [fst] in H1. destruct (match st with Ok i => owner i | Err _ => _ end) as [uid gid].
  unfold CreateTemp. match goal with |- context [syscall ?a w1] => pose proof ((syscall_tail P P_tail) a w1 H1) as H2 end.
  destruct (syscall _ w1) as [w2 [t|e]]; cbn [fst] in *; [|done].
  destruct ((0 <=? uid) && (0 <=? gid))%Z; [|by apply fill_temp_tail].
  unfold Chown, on_file. match goal with |- context [syscall ?a w2] => pose proof ((syscall_tail P P_tail) a w2 H2) as H3 end.
  destruct (syscall _ w2) as [w3 [[]|e]]; cbn [fst] in *; [by apply fill_temp_tail|].
  case_bool_decide; [by apply fill_temp_tail|]. by apply (syscall_tail P P_tail), (syscall_tail P P_tail).
Qed.

Lemma renameAtomic_tail (t final : string) (w : World) : P (faults w) -> P (faults (fst (renameAtomic t final w))).
Proof.
  intros Hp. unfold renameAtomic, Rename. match goal with |- context [syscall ?a w] => pose proof ((syscall_tail P P_tail) a w Hp) as H1 end.
  destruct (syscall _ w) as [w1 [[]|e]]; cbn [fst] in *; [|done]. unfold sync_dir.
  pose proof ((tick_tail P P_tail) w1 H1) as H2. destruct (tick w1) as [w2 [f|]]; cbn in *; [done|]. by apply (tick_tail P P_tail), (tick_tail P P_tail).
Qed.

Lemma remove_all_tail (names : list string) (w : World) : P (faults w) -> P (faults (remove_all names w)).
Proof. revert w. induction names as [|n r IH]; intros w Hp; cbn; [done|]. apply IH. by apply (syscall_tail P P_tail). Qed.

End Tail.

(** ** Lemmas: without faults everything succeeds *)

(** The owner a rewritten file ends up with. *)
Definition kept_owner (i : Inode) : Z * Z :=
  if ((0 <=? fst (owner i)) && (0 <=? snd (owner i)))%Z then owner i else (0, 0)%Z.

Lemma on_file_quiet (d : gmap string Inode) (t : string) (f : Inode -> Inode) (w : World) (i : Inode) :
  quiet w -> disk w = <[t := i]> d -> exists w', on_file t f w = (w', Ok tt) /\ quiet w' /\ disk w' = <[t := f i]> d.
Proof.
  intros Hq Hd. unfold on_file. match goal with |- context [syscall ?a w] => destruct (syscall_quiet a w Hq) as (H1 & H2 & H3) end.
  rewrite Hd, lookup_insert_eq in H2, H3. destruct (syscall _ w) as [w' r]. cbn in *. subst r.
  exists w'. split_and!; [done|done|]. by rewrite H3, insert_insert_eq.
Qed.

Lemma fill_temp_quiet (d : gmap string Inode) (t : string) (data : bytes) (mode : Z) (i : Inode) (w : World) :
  quiet w -> disk w = <[t := i]> d ->
  exists w', fill_temp t data mode w = (w', Ok t) /\ quiet w' /\ disk w' = <[t := mkInode data mode (owner i)]> d.
Proof.
  intros Hq Hd. unfold fill_temp.
  assert (Hw : exists w1, Write t data w = (w1, Ok tt) /\ quiet w1 /\ disk w1 = <[t := i <|contents := data|>]> d).
  { unfold Write. destruct (tick_quiet w Hq) as [Hq1 Hn]. pose proof (tick_disk w) as Ht.
    destruct (tick w) as [w1 [f|]]; cbn in *; [done|]. rewrite Ht, Hd, lookup_insert_eq, insert_insert_eq.
    eexists. split; [done|]. by destruct w1. }
  destruct Hw as (w1 & -> & Hq1 & Hd1). cbn [or_discard].
  destruct (on_file_quiet d t (fun i => i <|perm := mode|>) w1 _ Hq1 Hd1) as (w2 & E2 & Hq2 & Hd2).
  unfold Chmod. rewrite E2. cbn [or_discard].
  destruct (on_file_quiet d t id w2 _ Hq2 Hd2) as (w3 & E3 & Hq3 & Hd3). unfold Sync. rewrite E3. cbn [or_discard].
  destruct (on_file_quiet d t id w3 _ Hq3 Hd3) as (w4 & E4 & Hq4 & Hd4). unfold Close. rewrite E4. cbn [or_discard].
  exists w4. split_and!; [done|done|]. rewrite Hd4. by destruct i.
Qed.

Lemma writeTempSibling_quiet (path : string) (data : bytes) (w : World) (i0 : Inode) :
  quiet w -> disk w !! path = Some i0 ->
  exists w' t, writeTempSibling path data w = (w', Ok t) /\ quiet w' /\ disk w !! t = None /\
    disk w' = <[t := mkInode data (perm i0) (kept_owner i0)]> (disk w).
Proof.
  intros Hq Hp. unfold writeTempSibling, Stat.
  match goal with |- context [syscall ?a w] => destruct (syscall_quiet a w Hq) as (Hq1 & Hr1 & Hd1) end.
  rewrite Hp in Hr1, Hd1. destruct (syscall _ w) as [w1 st]. cbn in *. subst st. destruct (owner i0) as [uid gid] eqn:Eo.
  unfold CreateTemp. match goal with |- context [syscall ?a w1] => destruct (syscall_quiet a w1 Hq1) as (Hq2 & Hr2 & Hd2) end.
  destruct (syscall _ w1) as [w2 r]. cbn in *. subst r. rewrite Hd1 in *.
  set (t := fresh_string _ (disk w)) in *. assert (Hn : disk w !! t = None) by apply fresh_string_fresh.
  assert (Hfill : forall w3 i, quiet w3 -> disk w3 = <[t := i]> (disk w) -> owner i = kept_owner i0 ->
            exists w' t', fill_temp t data (perm i0) w3 = (w', Ok t') /\ quiet w' /\ disk w !! t' = None /\
              disk w' = <[t' := mkInode data (perm i0) (kept_owner i0)]> (disk w)).
  { intros w3 i Hq3 Hd3 Ho. destruct (fill_temp_quiet (disk w) t data (perm i0) i w3 Hq3 Hd3) as (w' & -> & ? & Hd').
    exists w', t. split_and!; [done|done|done|]. by rewrite Hd', Ho. }
  unfold kept_owner in Hfill |- *. rewrite Eo in Hfill |- *. cbn [fst snd] in *.
  destruct ((0 <=? uid) && (0 <=? gid))%Z; [|by eapply Hfill].
  destruct (on_file_quiet (disk w) t (fun i => i <|owner := (uid, gid)|>) w2 _ Hq2 Hd2) as (w3 & E3 & Hq3 & Hd3).
  unfold Chown. rewrite E3. by eapply Hfill.
Qed.

Lemma renameAtomic_quiet (t final : string) (w : World) (i : Inode) :
  quiet w -> disk w !! t = Some i ->
  exists w', renameAtomic t final w = (w', Ok tt) /\ quiet w' /\ disk w' = <[final := i]> (delete t (disk w)).
Proof.
  intros Hq Ht. pose proof (renameAtomic_tail _ quiet_tail t final w Hq) as Hq'. pose proof (renameAtomic_spec t final w) as Hs.
  unfold renameAtomic, Rename in *. match goal with H : context [syscall ?a w] |- _ => destruct (syscall_quiet a w Hq) as (_ & H2 & _) end.
  destruct (syscall _ w) as [w1 r]. cbn [snd] in H2. rewrite Ht in H2. subst r.
  destruct Hs as (j & Hj & Hd). simplify_eq. eauto.
Qed.

Lemma atomicWrite_quiet (path : string) (data : bytes) (w : World) :
  quiet w -> is_Some (disk w !! path) -> exists w', atomicWrite path data w = (w', Ok tt) /\ quiet w'.
Proof.
  intros Hq [i0 Hp]. destruct (writeTempSibling_quiet path data w i0 Hq Hp) as (w1 & t & E1 & Hq1 & Hn & Hd1).
  unfold atomicWrite. rewrite E1.
  destruct (renameAtomic_quiet t path w1 _ Hq1 ltac:(by rewrite Hd1, lookup_insert_eq)) as (w2 & E2 & Hq2 & _).
  rewrite E2. eauto.
Qed.

(** ** Lemmas: the commit of a store *)

Section CommitLemmas.
Context {GL : GoLib}.
Variables (s : Store) (D : gmap string Inode).

(** The rendered contents of a dirty file. *)
Definition new_content (k : string) (c : bytes) : Prop :=
  exists f i, is_dirty f (dirty s) = true /\ path_of f s = k /\ D !! k = Some i /\
              render f (contents i) (cand s) (dirtyKeys s) = Ok c.

(** The file k exists and its contents satisfy C. *)
Definition holds (C : bytes -> Prop) (k : string) (w : World) : Prop :=
  exists i, disk w !! k = Some i /\ C (contents i).

(** Every original file is untouched. *)
Definition kept (w : World) : Prop := forall k i, D !! k = Some i -> disk w !! k = Some i.

Record staged_ok (w : World) (staged : list stagedFile) : Prop := mkStagedOk {
  st_fresh : Forall (fun f => D !! tmp f = None) staged;
  st_data : Forall (fun f => holds (new_content (final f)) (tmp f) w) staged;
  st_nodup : NoDup (tmp <$> staged)
}.

Lemma remove_all_lookup (names : list string) (w : World) (k : string) :
  k ∉ names -> disk (remove_all names w) !! k = disk w !! k.
Proof.
  revert w. induction names as [|n r IH]; intros w Hk; cbn; [done|].
  apply not_elem_of_cons in Hk as [Hn Hk]. rewrite IH by done. unfold Remove.
  match goal with |- context [syscall ?a w] => pose proof (syscall_spec a w) as Hs end.
  destruct (syscall _ w) as [w' [[]|e]]; cbn [fst]; [|by destruct Hs as [-> _]].
  destruct (disk w !! n); [|done]. injection Hs as <-. by rewrite lookup_delete_ne.
Qed.

Lemma fresh_not_original (staged : list stagedFile) (k : string) (i : Inode) :
  Forall (fun f => D !! tmp f = None) staged -> D !! k = Some i -> k ∉ tmp <$> staged.
Proof.
  intros Hf Hk Hin. apply list_elem_of_fmap in Hin as (f & -> & Hin). rewrite Forall_forall in Hf.
  specialize (Hf f Hin). cbn in Hf. congruence.
Qed.

Lemma remove_all_kept (staged : list stagedFile) (w : World) :
  Forall (fun f => D !! tmp f = None) staged -> kept w -> kept (cleanupStagedFiles staged w).
Proof.
  intros Hf Hk k i Hi. unfold cleanupStagedFiles. rewrite remove_all_lookup by by eapply fresh_not_original. auto.
Qed.

Lemma ReadFile_spec (path : string) (w : World) :
  disk (fst (ReadFile path w)) = disk w /\
  (forall data, snd (ReadFile path w) = Ok data -> exists i, disk w !! path = Some i /\ contents i = data).
Proof.
  unfold ReadFile. match goal with |- context [syscall ?a w] => pose proof (syscall_spec a w) as Hs end.
  destruct (syscall _ w) as [w' [d|e]]; cbn.
  - destruct (disk w !! path) as [i|]; [|done]. injection Hs as Hs Hd. split; [done|]. intros data [= <-]. eauto.
  - by destruct Hs.
Qed.

(** *** Backup *)

Record backup_ok (fs : list managed_file) (b : FileBackup) : Prop := mkBackupOk {
  bk_sound : forall f data, is_dirty f (dirty s) = true -> backup_of f b = Some data ->
             exists i, D !! path_of f s = Some i /\ contents i = data;
  bk_full : forall f, f ∈ fs -> is_dirty f (dirty s) = true -> is_Some (backup_of f b)
}.

Lemma backup_set (f g : managed_file) (data : bytes) (b : FileBackup) :
  backup_of g (set_backup f data b) = if decide (g = f) then Some data else backup_of g b.
Proof. by destruct f, g, b. Qed.

Lemma backup_loop_spec (done fs : list managed_file) (b : FileBackup) (w : World) :
  disk w = D -> backup_ok done b ->
  match backup_loop fs s b w with
  | (w', Ok b') => disk w' = D /\ backup_ok (done ++ fs) b'
  | (w', Err _) => disk w' = D
  end.
Proof.
  revert done b w. induction fs as [|f fs IH]; intros done b w Hd Hb; cbn [backup_loop]; [by rewrite app_nil_r|].
  rewrite (app_assoc done [f] fs : done ++ f :: fs = _). destruct (is_dirty f (dirty s)) eqn:Ef.
  - destruct (ReadFile_spec (path_of f s) w) as [Hd' Hr]. destruct (ReadFile (path_of f s) w) as [w1 [data|e]]; cbn in *; [|congruence].
    destruct (Hr data eq_refl) as (i & Hi & Hc). apply IH; [congruence|]. destruct Hb as [B1 B2]. split.
    + intros g x Hg. rewrite backup_set. case_decide; subst; [intros [= <-]; exists i; split; [congruence|done]|by apply B1].
    + intros g Hin Hg. rewrite backup_set. case_decide; [by eexists|]. apply B2; [|done].
      apply elem_of_app in Hin as [?|?%list_elem_of_singleton]; [done|congruence].
  - apply IH; [done|]. destruct Hb as [B1 B2]. split; [done|]. intros g Hin Hg. apply B2; [|done].
    apply elem_of_app in Hin as [?|?%list_elem_of_singleton]; [done|congruence].
Qed.

(** *** Staging *)

Lemma stage_loop_spec (fs : list managed_file) (staged : list stagedFile) (w : World) :
  (forall f, is_dirty f (dirty s) = true -> is_Some (D !! path_of f s)) -> kept w -> staged_ok w staged ->
  match stage_loop fs s staged w with
  | (w', Ok staged') => kept w' /\ staged_ok w' staged' /\
      final <$> staged' = (final <$> staged) ++ (flip path_of s <$> List.filter (fun f => is_dirty f (dirty s)) fs)
  | (w', Err _) => kept w'
  end.
Proof.
  intros Hex. revert staged w. induction fs as [|f fs IH]; intros staged w Hk Hst; cbn [stage_loop List.filter].
  { split_and!; [done|done|]. cbn. by rewrite app_nil_r. }
  destruct (is_dirty f (dirty s)) eqn:Ef; [|by apply IH].
  destruct (ReadFile_spec (path_of f s) w) as [Hd Hr]. destruct (ReadFile (path_of f s) w) as [w1 [data|e]]; cbn [fst snd] in *.
  2:{ apply remove_all_kept; [apply Hst|]. intros k i Hi. rewrite Hd. auto. }
  assert (Hk1 : kept w1) by (intros k i Hi; rewrite Hd; auto).
  destruct (render f data (cand s) (dirtyKeys s)) as [out|e] eqn:Er; [|apply remove_all_kept; [apply Hst|done]].
  pose proof (writeTempSibling_spec (path_of f s) out w1) as Hw.
  destruct (writeTempSibling (path_of f s) out w1) as [w2 [t|e]].
  2:{ apply remove_all_kept; [apply Hst|]. intros k i Hi. eapply scratch_lookup; [exact Hw|auto]. }
  destruct Hw as (Hn & i & Hd2 & Hi). destruct Hst as [S1 S2 S3].
  assert (HDt : D !! t = None) by (destruct (D !! t) eqn:E; [apply Hk1 in E; congruence|done]).
  assert (Hk2 : kept w2). { intros k j Hj. rewrite Hd2, lookup_insert_ne by congruence. auto. }
  assert (Hold : Forall (fun f => disk w2 !! tmp f = disk w !! tmp f /\ tmp f <> t) staged).
  { rewrite Forall_forall in S2 |- *. intros g Hg. destruct (S2 g Hg) as (j & Hj & _).
    assert (tmp g <> t) by (intros <-; rewrite Hd in Hn; congruence). split; [|done].
    rewrite Hd2, lookup_insert_ne by done. by rewrite Hd. }
  assert (Hst2 : staged_ok w2 (staged ++ [mkStaged (path_of f s) t])).
  { split.
    - apply Forall_app. split; [done|]. by constructor.
    - apply Forall_app. split.
      + rewrite Forall_forall in S2, Hold |- *. intros g Hg. destruct (S2 g Hg) as (j & Hj & Hc), (Hold g Hg) as [Hg1 _].
        exists j. split; [congruence|done].
      + constructor; [|done]. exists i. cbn. rewrite Hd2, lookup_insert_eq. split; [done|].
        destruct (Hr data eq_refl) as (i0 & Hi0 & Hc0). unfold new_content.
        destruct (Hex f Ef) as [i1 E1]. exists f, i1. split_and!; [done|done|done|].
        pose proof (Hk _ _ E1) as E2. rewrite E2 in Hi0. by simplify_eq.
    - rewrite fmap_app. cbn. apply NoDup_app. split_and!; [done| |apply NoDup_singleton].
      intros x Hx Hxt. apply list_elem_of_singleton in Hxt as ->. apply list_elem_of_fmap in Hx as (g & Hg1 & Hg).
      rewrite Forall_forall in Hold. destruct (Hold g Hg). congruence. }
  specialize (IH _ w2 Hk2 Hst2). destruct (stage_loop fs s _ w2) as [w' [st'|e]]; [|done].
  destruct IH as (? & ? & IH). split_and!; [done|done|]. rewrite IH, fmap_app. cbn. by rewrite <- app_assoc.
Qed.

(** *** Renaming *)

Lemma staged_other (f g : stagedFile) (r : list stagedFile) (w : World) :
  staged_ok w (f :: r) -> g ∈ r -> tmp g <> tmp f /\ tmp g <> final f.
Proof.
  intros [S1 S2 S3] Hg. apply Forall_cons in S1 as [F1 S1], S2 as [F2 S2]. apply NoDup_cons in S3 as [N1 S3].
  split; [intros E; apply N1; rewrite <- E; apply list_elem_of_fmap; eauto|].
  rewrite Forall_forall in S1. specialize (S1 g Hg). cbn in S1. intros E.
  destruct F2 as (y & _ & (h & z & _ & _ & Hz & _)). congruence.
Qed.

(** The staged files still to come survive a rename. *)
Lemma staged_ok_step (f : stagedFile) (r : list stagedFile) (w w1 : World) (j : Inode) :
  staged_ok w (f :: r) -> disk w1 = <[final f := j]> (delete (tmp f) (disk w)) -> staged_ok w1 r.
Proof.
  intros Hst Hd. pose proof (fun g => staged_other f g r w Hst) as Hother.
  destruct Hst as [S1 S2 S3]. apply Forall_cons in S1 as [F1 S1], S2 as [F2 S2]. apply NoDup_cons in S3 as [N1 S3].
  split; [done| |done]. rewrite Forall_forall in S2 |- *. intros g Hg. destruct (S2 g Hg) as (x & Hx & Hc), (Hother g Hg).
  exists x. split; [|done]. by rewrite Hd, lookup_insert_ne, lookup_delete_ne by done.
Qed.

Lemma commit_loop_holds (staged applied : list stagedFile) (w : World) (k : string) (i : Inode) :
  D !! k = Some i -> staged_ok w staged -> Forall (fun f => D !! tmp f = None) applied ->
  holds (fun c => c = contents i \/ new_content k c) k w ->
  holds (fun c => c = contents i \/ new_content k c) k (fst (commit_loop staged applied w)).
Proof.
  intros Hk. revert applied w. induction staged as [|f r IH]; intros applied w Hst Happ Hh; cbn [commit_loop]; [done|].
  pose proof (st_fresh _ _ Hst) as [F1 _]%Forall_cons. pose proof (st_data _ _ Hst) as [F2 _]%Forall_cons.
  pose proof (renameAtomic_spec (tmp f) (final f) w) as Hr.
  destruct (renameAtomic (tmp f) (final f) w) as [w1 [[]|e]]; cbn [fst].
  2:{ destruct Hr as [Hd _]. destruct Hh as (j & Hj & Hc). exists j. split; [|done].
      rewrite remove_all_lookup by by eapply fresh_not_original. by rewrite Hd. }
  destruct Hr as (j & Hj & Hd). apply IH; [by eapply staged_ok_step|by constructor|].
  destruct (decide (k = final f)) as [->|Hne].
  - exists j. rewrite Hd, lookup_insert_eq. split; [done|]. right. destruct F2 as (y & Hy & Hc). congruence.
  - destruct Hh as (x & Hx & Hc). exists x. split; [|done]. rewrite Hd, lookup_insert_ne by done.
    rewrite lookup_delete_ne; [done|]. congruence.
Qed.

Lemma commit_loop_ok (staged applied : list stagedFile) (w w' : World) :
  staged_ok w staged -> commit_loop staged applied w = (w', Ok tt) ->
  (forall k, k ∈ final <$> staged -> holds (new_content k) k w') /\
  (forall k, k ∉ final <$> staged -> k ∉ tmp <$> staged -> disk w' !! k = disk w !! k).
Proof.
  revert applied w. induction staged as [|f r IH]; intros applied w Hst Hok; cbn [commit_loop] in Hok.
  { injection Hok as <-. split; [|done]. intros k Hk. by apply not_elem_of_nil in Hk. }
  pose proof (st_data _ _ Hst) as [F2 _]%Forall_cons. pose proof (fun g => staged_other f g r w Hst) as Hother.
  pose proof (renameAtomic_spec (tmp f) (final f) w) as Hr.
  destruct (renameAtomic (tmp f) (final f) w) as [w1 [[]|e]]; [|done].
  destruct Hr as (j & Hj & Hd). pose proof (staged_ok_step _ _ _ _ _ Hst Hd) as Hst1.
  destruct (IH _ _ Hst1 Hok) as [I1 I2]. split.
  - intros k Hk. destruct (decide (k ∈ final <$> r)) as [|Hn]; [by apply I1|].
    apply elem_of_cons in Hk as [->|?]; [|done].
    destruct F2 as (y & Hy & Hc). exists y. split; [|done].
    rewrite I2; [rewrite Hd, lookup_insert_eq; congruence|done|].
    intros Hin. apply list_elem_of_fmap in Hin as (g & Hg1 & Hg). by destruct (Hother g Hg).
  - intros k Hk1 Hk2. cbn in Hk1, Hk2. apply not_elem_of_cons in Hk1 as [? ?], Hk2 as [? ?].
    rewrite I2 by done. by rewrite Hd, lookup_insert_ne, lookup_delete_ne by done.
Qed.

Lemma commit_loop_err (staged applied : list stagedFile) (w w' : World) (e : string) :
  staged_ok w staged -> at_most_one (faults w) -> commit_loop staged applied w = (w', Err e) -> quiet w'.
Proof.
  revert applied w. induction staged as [|f r IH]; intros applied w Hst Hs Hok; cbn [commit_loop] in Hok; [done|].
  pose proof (renameAtomic_spec (tmp f) (final f) w) as Hr. pose proof (st_data _ _ Hst) as [(y & Hy & _) _]%Forall_cons.
  pose proof (renameAtomic_tail _ at_most_one_tail (tmp f) (final f) w Hs) as Hs1.
  destruct (renameAtomic (tmp f) (final f) w) as [w1 [[]|e1]].
  - destruct Hr as (j & Hj & Hd). eapply IH; [|exact Hs1|exact Hok]. by eapply staged_ok_step.
  - injection Hok as <- <-. apply (remove_all_tail _ quiet_tail). destruct Hr as [_ Hq]. by apply Hq.
Qed.

(** *** Restoring *)

Lemma restore_loop_holds (fs fs0 : list managed_file) (b : FileBackup) (w : World) (C : bytes -> Prop) (k : string) (i : Inode) :
  backup_ok fs0 b -> D !! k = Some i -> C (contents i) -> holds C k w -> holds C k (fst (restore_loop fs s b w)).
Proof.
  intros [B1 _] Hk HC. revert w. induction fs as [|f fs IH]; intros w Hh; cbn [restore_loop]; [done|].
  destruct (is_dirty f (dirty s)) eqn:Ef; [|by apply IH]. destruct (backup_of f b) as [data|] eqn:Eb; [|by apply IH].
  destruct (B1 f data Ef Eb) as (i0 & Hi0 & Hc0). pose proof (atomicWrite_spec (path_of f s) data w) as Ha.
  destruct (atomicWrite (path_of f s) data w) as [w1 [[]|e]]; cbn [fst].
  - destruct Ha as [(j & Hj & Hjc) Hother]. apply IH. destruct (decide (k = path_of f s)) as [->|Hne].
    + exists j. split; [done|]. simplify_eq. by rewrite Hjc.
    + destruct Hh as (x & Hx & Hxc). exists x. auto.
  - destruct Hh as (x & Hx & Hxc). exists x. auto.
Qed.

(** Without further faults every dirty file has its old contents back. *)
Lemma restore_loop_quiet (fs fs0 : list managed_file) (b : FileBackup) (w : World) (f : managed_file) (i : Inode) :
  backup_ok fs0 b -> fs ⊆ fs0 -> quiet w -> (forall g, g ∈ fs -> is_dirty g (dirty s) = true -> is_Some (disk w !! path_of g s)) ->
  f ∈ fs -> is_dirty f (dirty s) = true -> D !! path_of f s = Some i ->
  holds (fun c => c = contents i) (path_of f s) (fst (restore_loop fs s b w)).
Proof.
  intros Hb Hsub. revert w. induction fs as [|g fs IH]; intros w Hq Hex Hin Hf Hi; [by apply not_elem_of_nil in Hin|].
  assert (Hsub' : fs ⊆ fs0) by (intros x Hx; apply Hsub; by right).
  cbn [restore_loop]. destruct (is_dirty g (dirty s)) eqn:Eg.
  2:{ apply IH; [done|done| | |done|done]; [intros h Hh; apply Hex; by right|].
      apply elem_of_cons in Hin as [->|?]; [congruence|done]. }
  destruct (bk_full _ _ Hb g (Hsub g ltac:(left)) Eg) as [data Eb]. rewrite Eb.
  destruct (bk_sound _ _ Hb g data Eg Eb) as (i0 & Hi0 & Hc0).
  destruct (atomicWrite_quiet (path_of g s) data w Hq (Hex g ltac:(left) Eg)) as (w1 & Ea & Hq1).
  pose proof (atomicWrite_spec (path_of g s) data w) as Ha. rewrite Ea in Ha |- *. destruct Ha as [(j & Hj & Hjc) Hother].
  assert (Hnow : path_of f s = path_of g s -> holds (fun c => c = contents i) (path_of f s) w1).
  { intros E. exists j. rewrite E. split; [done|]. rewrite E in Hi. simplify_eq. done. }
  destruct (decide (path_of f s = path_of g s)) as [E|Hne].
  { by apply (restore_loop_holds fs fs0 b w1 (fun c => c = contents i) _ i); auto. }
  apply IH; [done|done| | |done|done].
  - intros h Hh Hhd. destruct (decide (path_of h s = path_of g s)) as [->|]; [by eexists|].
    destruct (Hex h ltac:(by right) Hhd) as [x Hx]. exists x. auto.
  - apply elem_of_cons in Hin as [->|?]; [congruence|done].
Qed.

End CommitLemmas.

(** *** Schedules of the loops *)

Section CommitTail.
Context {GL : GoLib}.
Variable P : list fault -> Prop.
Hypothesis P_tail : forall f r, P (f :: r) -> P r.

Lemma backup_loop_tail (s : Store) (fs : list managed_file) (b : FileBackup) (w : World) :
  P (faults w) -> P (faults (fst (backup_loop fs s b w))).
Proof.
  revert b w. induction fs as [|f fs IH]; intros b w Hs; cbn [backup_loop]; [done|].
  destruct (is_dirty f (dirty s)); [|by apply IH]. unfold ReadFile.
  match goal with |- context [syscall ?a w] => pose proof (syscall_tail P P_tail a w Hs) as H1 end.
  destruct (syscall _ w) as [w1 [data|e]]; [by apply IH|done].
Qed.

Lemma stage_loop_tail (s : Store) (fs : list managed_file) (staged : list stagedFile) (w : World) :
  P (faults w) -> P (faults (fst (stage_loop fs s staged w))).
Proof.
  revert staged w. induction fs as [|f fs IH]; intros staged w Hs; cbn [stage_loop]; [done|].
  destruct (is_dirty f (dirty s)); [|by apply IH]. unfold ReadFile.
  match goal with |- context [syscall ?a w] => pose proof (syscall_tail P P_tail a w Hs) as H1 end.
  destruct (syscall _ w) as [w1 [data|e]]; cbn [fst] in *; [|by apply (remove_all_tail _ P_tail)].
  destruct (render f data (cand s) (dirtyKeys s)) as [out|e]; [|by apply (remove_all_tail _ P_tail)].
  pose proof (writeTempSibling_tail _ P_tail (path_of f s) out w1 H1) as H2.
  destruct (writeTempSibling _ _ w1) as [w2 [t|e]]; cbn [fst] in *; [by apply IH|by apply (remove_all_tail _ P_tail)].
Qed.

Lemma commit_loop_tail (staged applied : list stagedFile) (w : World) :
  P (faults w) -> P (faults (fst (commit_loop staged applied w))).
Proof.
  revert applied w. induction staged as [|f r IH]; intros applied w Hs; cbn [commit_loop]; [done|].
  pose proof (renameAtomic_tail _ P_tail (tmp f) (final f) w Hs) as H1.
  destruct (renameAtomic _ _ w) as [w1 [[]|e]]; cbn [fst] in *; [by apply IH|by apply (remove_all_tail _ P_tail)].
Qed.

Lemma persist_ok_tail (s : Store) (w w' : World) (r : FileBackup * EditableConfig) :
  PersistCandidate s w = (w', Ok r) -> P (faults w) -> P (faults w').
Proof.
  unfold PersistCandidate, backupDirtyFilesLocked, stageDirtyFilesLocked, commitStagedFiles. intros Hp Hs.
  destruct (validate (cand s)); [done|].
  pose proof (backup_loop_tail s commit_order (mkBackup None None None None false) w Hs) as H1.
  destruct (backup_loop _ s _ w) as [w1 [b|e]]; [|done]. pose proof (stage_loop_tail s commit_order [] w1 H1) as H2.
  destruct (stage_loop _ s [] w1) as [w2 [st|e]]; [|done]. pose proof (commit_loop_tail st [] w2 H2) as H3.
  destruct (commit_loop st [] w2) as [w3 [[]|e]]; [|done]. by simplify_eq.
Qed.

End CommitTail.

(** ** Properties *)

Section Properties.
Context {GL : GoLib}.

Definition empty_backup : FileBackup := mkBackup None None None None false.

Lemma empty_backup_ok (s : Store) (D : gmap string Inode) : backup_ok s D [] empty_backup.
Proof. split; [by intros []|]. intros f Hf. by apply not_elem_of_nil in Hf. Qed.

Lemma commit_order_full (f : managed_file) : f ∈ commit_order.
Proof. destruct f; unfold commit_order; set_solver. Qed.

Lemma backup_exists (s : Store) (D : gmap string Inode) (b : FileBackup) :
  backup_ok s D commit_order b -> forall f, is_dirty f (dirty s) = true -> is_Some (D !! path_of f s).
Proof.
  intros [B1 B2] f Hf. destruct (B2 f (commit_order_full f) Hf) as [data Hd].
  destruct (B1 f data Hf Hd) as (i & Hi & _). eauto.
Qed.

Lemma staged_nil (s : Store) (D : gmap string Inode) (w : World) : staged_ok s D w [].
Proof. split; [constructor..|apply NoDup_nil_2]. Qed.

Lemma kept_holds (D : gmap string Inode) (w : World) (C : bytes -> Prop) (k : string) (i : Inode) :
  kept D w -> D !! k = Some i -> C (contents i) -> holds C k w.
Proof. intros Hk Hi HC. exists i. auto. Qed.

(** C16: whatever I/O error strikes wherever in a commit, every file that existed before exists
    afterwards, with its old contents or, for a dirty managed file, with exactly the rendered new
    contents: no file is lost or torn. *)
Theorem persist_old_or_new (s : Store) (w : World) (k : string) (i : Inode) :
  disk w !! k = Some i ->
  exists i', disk (fst (PersistCandidate s w)) !! k = Some i' /\
    (contents i' = contents i \/
     exists f, is_dirty f (dirty s) = true /\ path_of f s = k /\
               render f (contents i) (cand s) (dirtyKeys s) = Ok (contents i')).
Proof.
  intros Hk. set (D := disk w) in *.
  enough (Hh : holds (fun c => c = contents i \/ new_content s D k c) k (fst (PersistCandidate s w))).
  { destruct Hh as (i' & Hi' & [Hc|(f & j & Hf & Hp & Hj & Hr)]); exists i'; [by auto|].
    split; [done|]. right. exists f. split_and!; [done|done|]. congruence. }
  assert (Hkept0 : forall w', disk w' = D -> holds (fun c => c = contents i \/ new_content s D k c) k w').
  { intros w' Hd. exists i. rewrite Hd. auto. }
  unfold PersistCandidate. destruct (validate (cand s)); [by apply Hkept0|].
  pose proof (backup_loop_spec s D [] commit_order empty_backup w eq_refl (empty_backup_ok s D)) as Hb.
  unfold backupDirtyFilesLocked. fold empty_backup.
  destruct (backup_loop commit_order s empty_backup w) as [w1 [b|e]]; [|by apply Hkept0]. destruct Hb as [Hd1 Hb].
  assert (Hk1 : kept D w1) by (intros x j Hj; by rewrite Hd1).
  pose proof (stage_loop_spec s D commit_order [] w1 (backup_exists _ _ _ Hb) Hk1 (staged_nil s D w1)) as Hst.
  unfold stageDirtyFilesLocked. destruct (stage_loop commit_order s [] w1) as [w2 [staged|e]]; cbn [fst].
  2:{ eapply restore_loop_holds; [exact Hb|exact Hk|by left|]. by eapply kept_holds; [exact Hst|exact Hk|left]. }
  destruct Hst as (Hk2 & Hst & _). unfold commitStagedFiles.
  pose proof (commit_loop_holds s D staged [] w2 k i Hk Hst ltac:(constructor)
                ltac:(by eapply kept_holds; [exact Hk2|exact Hk|left])) as Hc.
  destruct (commit_loop staged [] w2) as [w3 [[]|e]]; cbn [fst] in *; [done|].
  eapply restore_loop_holds; [exact Hb|exact Hk|by left|].
  destruct Hc as (x & Hx & Hxc). exists x. split; [|done]. unfold cleanupStagedFiles.
  rewrite remove_all_lookup; [done|]. eapply fresh_not_original; [apply Hst|exact Hk].
Qed.

(** The files after a commit that reports success. *)
Lemma persist_ok_exact (s : Store) (w w' : World) (b : FileBackup) (next : EditableConfig) :
  PersistCandidate s w = (w', Ok (b, next)) ->
  next = cand s /\ validate (cand s) = None /\
  (forall f, is_dirty f (dirty s) = true ->
     exists g i i', is_dirty g (dirty s) = true /\ path_of g s = path_of f s /\
       disk w !! path_of f s = Some i /\ disk w' !! path_of f s = Some i' /\
       render g (contents i) (cand s) (dirtyKeys s) = Ok (contents i')) /\
  (forall k i, disk w !! k = Some i -> (forall f, is_dirty f (dirty s) = true -> path_of f s <> k) -> disk w' !! k = Some i).
Proof.
  set (D := disk w). unfold PersistCandidate. destruct (validate (cand s)); [done|].
  pose proof (backup_loop_spec s D [] commit_order empty_backup w eq_refl (empty_backup_ok s D)) as Hb.
  unfold backupDirtyFilesLocked. fold empty_backup.
  destruct (backup_loop commit_order s empty_backup w) as [w1 [b1|e]]; [|done]. destruct Hb as [Hd1 Hb].
  assert (Hk1 : kept D w1) by (intros x j Hj; by rewrite Hd1).
  pose proof (stage_loop_spec s D commit_order [] w1 (backup_exists _ _ _ Hb) Hk1 (staged_nil s D w1)) as Hst.
  unfold stageDirtyFilesLocked. destruct (stage_loop commit_order s [] w1) as [w2 [staged|e]]; [|done].
  destruct Hst as (Hk2 & Hst & Hfin). unfold commitStagedFiles.
  destruct (commit_loop staged [] w2) as [w3 [[]|e]] eqn:Ec; [|done]. intros [= <- <- <-].
  destruct (commit_loop_ok s D staged [] w2 w3 Hst Ec) as [C1 C2]. cbn [fmap list_fmap app] in Hfin. split_and!; [done|done| |].
  - intros f Hf. assert (Hin : path_of f s ∈ final <$> staged).
    { rewrite Hfin. apply list_elem_of_fmap. exists f. split; [done|]. apply list_elem_of_In, filter_In.
      split; [|done]. apply list_elem_of_In, commit_order_full. }
    destruct (C1 _ Hin) as (i' & Hi' & (g & i & Hg & Hp & Hi & Hr)). exists g, i, i'. done.
  - intros k i Hi Hn. rewrite C2; [by apply Hk2| |eapply fresh_not_original; [apply Hst|exact Hi]].
    rewrite Hfin. intros Hin. apply list_elem_of_fmap in Hin as (f & -> & Hin).
    apply list_elem_of_In, filter_In in Hin as [_ Hf]. by apply (Hn f).
Qed.

(** C17: a commit that reports success has written the rendered contents of every dirty file, and
    changed no other file that existed. *)
Theorem persist_success_exact (s : Store) (w w' : World) (b : FileBackup) (next : EditableConfig) :
  PersistCandidate s w = (w', Ok (b, next)) ->
  next = cand s /\ validate (cand s) = None /\
  (forall f, is_dirty f (dirty s) = true ->
     exists g i i', is_dirty g (dirty s) = true /\ path_of g s = path_of f s /\
       disk w !! path_of f s = Some i /\ disk w' !! path_of f s = Some i' /\
       render g (contents i) (cand s) (dirtyKeys s) = Ok (contents i')) /\
  (forall k i, disk w !! k = Some i -> (forall f, is_dirty f (dirty s) = true -> path_of f s <> k) -> disk w' !! k = Some i).
Proof. exact (persist_ok_exact s w w' b next). Qed.

(** The files after a commit that one I/O error made fail. *)
Lemma persist_err_restores (s : Store) (w w' : World) (e : string) (k : string) (i : Inode) :
  at_most_one (faults w) -> PersistCandidate s w = (w', Err e) -> disk w !! k = Some i ->
  exists i', disk w' !! k = Some i' /\ contents i' = contents i.
Proof.
  intros Hs Hp Hk. set (D := disk w) in *. change (holds (fun c => c = contents i) k w').
  unfold PersistCandidate in Hp. destruct (validate (cand s)); [simplify_eq; by exists i|].
  pose proof (backup_loop_spec s D [] commit_order empty_backup w eq_refl (empty_backup_ok s D)) as Hb.
  pose proof (backup_loop_tail _ at_most_one_tail s commit_order empty_backup w Hs) as Hs1.
  unfold backupDirtyFilesLocked in Hp. fold empty_backup in Hp.
  destruct (backup_loop commit_order s empty_backup w) as [w1 [b|e1]]; cbn [fst] in Hs1.
  2:{ injection Hp as <- <-. exists i. by rewrite Hb. }
  destruct Hb as [Hd1 Hb]. assert (Hk1 : kept D w1) by (intros x j Hj; by rewrite Hd1).
  pose proof (stage_loop_spec s D commit_order [] w1 (backup_exists _ _ _ Hb) Hk1 (staged_nil s D w1)) as Hst.
  pose proof (stage_loop_tail _ at_most_one_tail s commit_order [] w1 Hs1) as Hs2.
  unfold stageDirtyFilesLocked in Hp.
  destruct (stage_loop commit_order s [] w1) as [w2 [staged|e2]]; cbn [fst] in Hs2.
  2:{ injection Hp as <- <-. eapply restore_loop_holds; [exact Hb|exact Hk|done|]. by eapply kept_holds. }
  destruct Hst as (Hk2 & Hst & _). unfold commitStagedFiles in Hp.
  pose proof (commit_loop_holds s D staged [] w2) as Hc.
  destruct (commit_loop staged [] w2) as [w3 [[]|e3]] eqn:Ec; [done|]. injection Hp as <- <-. cbn [fst] in Hc.
  pose proof (commit_loop_err s D _ _ _ _ _ Hst Hs2 Ec) as Hq.
  assert (Hc' : forall x j, D !! x = Some j ->
            holds (fun c => c = contents j \/ new_content s D x c) x (cleanupStagedFiles staged w3)).
  { intros x j Hj. destruct (Hc x j Hj Hst ltac:(constructor) ltac:(by eapply kept_holds; [exact Hk2|exact Hj|left])) as (y & Hy & Hyc).
    exists y. split; [|done]. unfold cleanupStagedFiles. rewrite remove_all_lookup; [done|].
    eapply fresh_not_original; [apply Hst|exact Hj]. }
  assert (Hq' : quiet (cleanupStagedFiles staged w3)) by by apply (remove_all_tail _ quiet_tail).
  destruct (Hc' k i Hk) as (y & Hy & [Hyc|(f & j & Hf & Hpf & Hj & Hr)]).
  - eapply restore_loop_holds; [exact Hb|exact Hk|done|]. by exists y.
  - rewrite <- Hpf in *. apply (restore_loop_quiet s D commit_order commit_order); auto using commit_order_full.
    intros g _ Hg. destruct (backup_exists _ _ _ Hb g Hg) as [x Hx]. destruct (Hc' _ _ Hx) as (z & Hz & _). eauto.
Qed.

(** C18: a commit that fails because of one I/O error rolls back: every file that existed has its
    old contents. *)
Theorem persist_single_fault_rolls_back (s : Store) (w w' : World) (e : string) (k : string) (i : Inode) :
  at_most_one (faults w) -> PersistCandidate s w = (w', Err e) -> disk w !! k = Some i ->
  exists i', disk w' !! k = Some i' /\ contents i' = contents i.
Proof. exact (persist_err_restores s w w' e k i). Qed.

(** A commit that went through can be taken back: when no I/O error is left, rolling back gives every
    file that existed its old contents. *)
Lemma rollback_restores (s : Store) (w w' : World) (b : FileBackup) (next : EditableConfig) (k : string) (i : Inode) :
  PersistCandidate s w = (w', Ok (b, next)) -> quiet w' -> disk w !! k = Some i ->
  holds (fun c => c = contents i) k (fst (RollbackPersist s b w')).
Proof.
  set (D := disk w). unfold PersistCandidate. destruct (validate (cand s)); [done|].
  pose proof (backup_loop_spec s D [] commit_order empty_backup w eq_refl (empty_backup_ok s D)) as Hb.
  unfold backupDirtyFilesLocked. fold empty_backup.
  destruct (backup_loop commit_order s empty_backup w) as [w1 [b1|e]]; [|done]. destruct Hb as [Hd1 Hb].
  assert (Hk1 : kept D w1) by (intros x j Hj; by rewrite Hd1).
  pose proof (stage_loop_spec s D commit_order [] w1 (backup_exists _ _ _ Hb) Hk1 (staged_nil s D w1)) as Hst.
  unfold stageDirtyFilesLocked. destruct (stage_loop commit_order s [] w1) as [w2 [staged|e]]; [|done].
  destruct Hst as (Hk2 & Hst & _). unfold commitStagedFiles. pose proof (commit_loop_holds s D staged [] w2) as Hc.
  destruct (commit_loop staged [] w2) as [w3 [[]|e]] eqn:Ec; [|done]. intros [= <- <- <-] Hq Hk. cbn [fst] in Hc.
  assert (Hc' : forall x j, D !! x = Some j -> holds (fun c => c = contents j \/ new_content s D x c) x w3).
  { intros x j Hj. apply Hc; [done|done|constructor|]. by eapply kept_holds; [exact Hk2|exact Hj|left]. }
  unfold RollbackPersist, restoreDirtyFilesLocked. destruct (Hc' k i Hk) as (y & Hy & [Hyc|(f & j & Hf & Hpf & Hj & Hr)]).
  - eapply restore_loop_holds; [exact Hb|exact Hk|done|]. by exists y.
  - rewrite <- Hpf in *. apply (restore_loop_quiet s D commit_order commit_order); auto using commit_order_full.
    intros g _ Hg. destruct (backup_exists _ _ _ Hb g Hg) as [x Hx]. destruct (Hc' _ _ Hx) as (z & Hz & _). eauto.
Qed.

Lemma ReadFile_quiet (path : string) (w : World) (i : Inode) :
  quiet w -> disk w !! path = Some i -> exists w', ReadFile path w = (w', Ok (contents i)) /\ quiet w' /\ disk w' = disk w.
Proof.
  intros Hq Hi. unfold ReadFile. match goal with |- context [syscall ?a w] => destruct (syscall_quiet a w Hq) as (H1 & H2 & H3) end.
  rewrite Hi in H2, H3. destruct (syscall _ w) as [w' r]. cbn in *. subst. eauto.
Qed.

Lemma backup_loop_quiet (s : Store) (fs : list managed_file) (b : FileBackup) (w : World) :
  quiet w -> (forall f, is_dirty f (dirty s) = true -> is_Some (disk w !! path_of f s)) ->
  exists w' b', backup_loop fs s b w = (w', Ok b') /\ quiet w' /\ disk w' = disk w.
Proof.
  revert b w. induction fs as [|f fs IH]; intros b w Hq Hex; cbn [backup_loop]; [by eauto|].
  destruct (is_dirty f (dirty s)) eqn:Ef; [|by apply IH]. destruct (Hex f Ef) as [i Hi].
  destruct (ReadFile_quiet _ _ _ Hq Hi) as (w1 & -> & Hq1 & Hd1).
  destruct (IH (set_backup f (contents i) b) w1 Hq1) as (w2 & b2 & E & Hq2 & Hd2); [by rewrite Hd1|].
  exists w2, b2. split_and!; [done|done|congruence].
Qed.

Definition renders (s : Store) (D : gmap string Inode) : Prop :=
  forall f, is_dirty f (dirty s) = true ->
    exists i out, D !! path_of f s = Some i /\ render f (contents i) (cand s) (dirtyKeys s) = Ok out.

Lemma stage_loop_quiet (s : Store) (D : gmap string Inode) (fs : list managed_file) (staged : list stagedFile) (w : World) :
  quiet w -> kept D w -> renders s D -> exists w' st, stage_loop fs s staged w = (w', Ok st) /\ quiet w'.
Proof.
  intros Hq Hk Hr. revert staged w Hq Hk. induction fs as [|f fs IH]; intros staged w Hq Hk; cbn [stage_loop]; [by eauto|].
  destruct (is_dirty f (dirty s)) eqn:Ef; [|by apply IH]. destruct (Hr f Ef) as (i & out & Hi & Hout).
  destruct (ReadFile_quiet _ _ _ Hq (Hk _ _ Hi)) as (w1 & -> & Hq1 & Hd1). rewrite Hout.
  destruct (writeTempSibling_quiet (path_of f s) out w1 i Hq1 ltac:(rewrite Hd1; auto)) as (w2 & t & -> & Hq2 & Hn & Hd2).
  apply IH; [done|]. intros k j Hj. rewrite Hd2, lookup_insert_ne; [rewrite Hd1; auto|].
  apply Hk in Hj. congruence.
Qed.

Lemma commit_loop_quiet (s : Store) (D : gmap string Inode) (staged applied : list stagedFile) (w : World) :
  quiet w -> staged_ok s D w staged -> exists w', commit_loop staged applied w = (w', Ok tt).
Proof.
  revert applied w. induction staged as [|f r IH]; intros applied w Hq Hst; cbn [commit_loop]; [by eauto|].
  pose proof (st_data _ _ _ _ Hst) as [(y & Hy & _) _]%Forall_cons.
  destruct (renameAtomic_quiet (tmp f) (final f) w y Hq Hy) as (w1 & -> & Hq1 & Hd1). apply IH; [done|].
  by eapply staged_ok_step.
Qed.

(** C19: a commit of a valid candidate whose dirty files exist and render succeeds when no I/O error
    occurs, and Store.Commit then makes the candidate the running configuration and leaves nothing
    pending. *)
Theorem commit_succeeds_without_faults (s : Store) (w : World) :
  quiet w -> validate (cand s) = None -> renders s (disk w) ->
  (exists w' b, PersistCandidate s w = (w', Ok (b, cand s))) /\
  (let '(s', _, r) := Commit s w in
   r = Ok (cand s) /\ running s' = cand s /\ cand s' = cand s /\ HasPendingChanges s' = false).
Proof.
  intros Hq Hv Hr.
  assert (Hex : forall f, is_dirty f (dirty s) = true -> is_Some (disk w !! path_of f s)).
  { intros f Hf. destruct (Hr f Hf) as (i & out & Hi & _). eauto. }
  destruct (backup_loop_quiet s commit_order empty_backup w Hq Hex) as (w1 & b & Eb & Hq1 & Hd1).
  assert (Hk1 : kept (disk w) w1) by (intros x j Hj; by rewrite Hd1).
  destruct (stage_loop_quiet s (disk w) commit_order [] w1 Hq1 Hk1 Hr) as (w2 & st & Est & Hq2).
  pose proof (stage_loop_spec s (disk w) commit_order [] w1 Hex Hk1 (staged_nil s _ w1)) as Hst. rewrite Est in Hst.
  destruct Hst as (_ & Hst & _). destruct (commit_loop_quiet s (disk w) st [] w2 Hq2 Hst) as (w3 & Ec).
  assert (Hp : PersistCandidate s w = (w3, Ok (b, cand s))).
  { unfold PersistCandidate, backupDirtyFilesLocked, stageDirtyFilesLocked, commitStagedFiles. fold empty_backup.
    by rewrite Hv, Eb, Est, Ec. }
  split; [by eauto|]. unfold Commit, FinalizeCommit. rewrite Hp, Hv. by destruct s.
Qed.

End Properties.

(** ** Concrete disks *)

Definition rr_text : bytes := str "cell_list = ( { pci = 1; dl_earfcn = 3350; } );".

Definition sample_disk : gmap string Inode :=
  {["/etc/enb.conf" := mkInode (str "[enb]") 420 (0, 0)%Z; "/etc/rr.conf" := mkInode rr_text 384 (10, 20)%Z;
    "/etc/sib.conf" := mkInode [] 420 (0, 0)%Z; "/etc/rb.conf" := mkInode [] 420 (0, 0)%Z]}.

(** The sample store with one pending edit of pci. *)
Definition edited_store : Store := fst (Edit (GL:=ascii_golib) [("pci", AInt 7)] sample_store).

Lemma persist_old_or_new_witness :
  exists i', disk (fst (PersistCandidate (GL:=ascii_golib) edited_store
                          (mkWorld sample_disk [None; None; Some (EIO, 3)]))) !! "/etc/rr.conf" = Some i'.
Proof.
  destruct (persist_old_or_new (GL:=ascii_golib) edited_store (mkWorld sample_disk [None; None; Some (EIO, 3)])
              "/etc/rr.conf" (mkInode rr_text 384 (10, 20)%Z)) as (i' & Hi' & _); [vm_compute; reflexivity|].
  exists i'. exact Hi'.
Defined.

Lemma persist_success_exact_witness :
  exists w' i', disk w' !! "/etc/rr.conf" = Some i' /\ contents i' = str "cell_list = ( { pci = 7; dl_earfcn = 3350; } );".
Proof.
  destruct (PersistCandidate (GL:=ascii_golib) edited_store (mkWorld sample_disk [])) as [w' [[b next]|e]] eqn:Ep;
    [|vm_compute in Ep; discriminate Ep].
  destruct (persist_success_exact (GL:=ascii_golib) edited_store (mkWorld sample_disk []) w' b next Ep) as (_ & _ & Hd & _).
  destruct (Hd FRR ltac:(vm_compute; reflexivity)) as (g & i & i' & Hg & _ & Hi & Hi' & Hr).
  exists w', i'. split; [exact Hi'|]. vm_compute in Hi. injection Hi as <-.
  destruct g; [vm_compute in Hg; discriminate Hg| |vm_compute in Hg; discriminate Hg..].
  destruct i' as [c p o]. cbn [contents] in *. vm_compute in Hr. injection Hr as Hr. rewrite <- Hr. vm_compute. reflexivity.
Defined.

Lemma persist_single_fault_rolls_back_witness :
  exists w' i', disk w' !! "/etc/rr.conf" = Some i' /\ contents i' = rr_text.
Proof.
  pose (w := mkWorld sample_disk (replicate 9 None ++ [Some (EBUSY, 0)])).
  destruct (PersistCandidate (GL:=ascii_golib) edited_store w) as [w' [r|e]] eqn:Ep; [vm_compute in Ep; discriminate|].
  destruct (persist_single_fault_rolls_back (GL:=ascii_golib) edited_store w w' e "/etc/rr.conf"
              (mkInode rr_text 384 (10, 20)%Z)) as (i' & Hi' & Hc); [vm_compute; auto|exact Ep|vm_compute; reflexivity|].
  exists w', i'. split; [exact Hi'|exact Hc].
Defined.

Lemma edited_store_renders : renders (GL:=ascii_golib) edited_store (disk (mkWorld sample_disk [])).
Proof.
  intros f Hf. destruct f; try (vm_compute in Hf; discriminate Hf).
  exists (mkInode rr_text 384 (10, 20)%Z), (str "cell_list = ( { pci = 7; dl_earfcn = 3350; } );"). split; vm_compute; reflexivity.
Qed.

Lemma edited_store_valid : validate (GL:=ascii_golib) (cand edited_store) = None.
Proof. vm_compute. reflexivity. Qed.

Lemma commit_succeeds_without_faults_witness :
  exists w' b, PersistCandidate (GL:=ascii_golib) edited_store (mkWorld sample_disk []) = (w', Ok (b, cand edited_store)).
Proof.
  exact (proj1 (commit_succeeds_without_faults (GL:=ascii_golib) edited_store (mkWorld sample_disk [])
           (Forall_nil_2 _) edited_store_valid edited_store_renders)).
Defined.
