(* ===== verification/Bindings.v ===== *)
(** * YANG paths and configuration keys (internal/ems/netconfcm/bindings.go)

    The registry binds every editable leaf of the YANG tree to a configuration key, a value kind and
    a getter. The map of the code is the list of its bindings: no two have the same path. *)
From S2P Require Import Prelude GoNum GoStrings ConfigData ConfigEdit ConfigStore Scan ConfigFiles.

Inductive valueKind := kindString | kindInt32 | kindUint32 | kindFloat64 | kindBool.

#[export] Instance valueKind_eq_dec : EqDecision valueKind.
Proof. solve_decision. Defined.

Record leafBinding := mkBinding {
  Path : string;
  Key : string;
  Kind : valueKind;
  Get : EditableConfig -> any;
  Include : EditableConfig -> bool
}.

Definition baseSubNetworkPath : string := "/_3gpp-common-managed-element:SubNetwork".
Definition baseManagedElement : string := baseSubNetworkPath +:+ "/_3gpp-common-managed-element:ManagedElement".
Definition baseENBFunction : string := baseManagedElement +:+ "/_3gpp-common-managed-element:ENBFunction".
Definition baseEUtranCell : string := baseENBFunction +:+ "/_3gpp-common-managed-element:EUtranCell".
Definition baseScheduler : string := baseENBFunction +:+ "/srsran-vendor-ext:scheduler".
Definition baseSIB : string := baseENBFunction +:+ "/srsran-vendor-ext:sib".
Definition baseTimers : string := baseSIB +:+ "/srsran-vendor-ext:ue_timers_and_constants".
Definition baseQCIProfiles : string := baseENBFunction +:+ "/srsran-vendor-ext:qci_profiles".
Definition baseExpert : string := baseENBFunction +:+ "/srsran-vendor-ext:expert".

Definition alwaysInclude (c : EditableConfig) : bool := true.
Definition nonEmptyString (fn : EditableConfig -> string) (c : EditableConfig) : bool :=
  negb (String.eqb (TrimSpace (fn c)) "").
Definition nonZeroInt32 (fn : EditableConfig -> Z) (c : EditableConfig) : bool := negb (fn c =? 0)%Z.
Definition nonZeroUint32 (fn : EditableConfig -> Z) (c : EditableConfig) : bool := negb (fn c =? 0)%Z.
Definition nonZeroFloat64 (fn : EditableConfig -> float64) (c : EditableConfig) : bool := negb (f_eq (fn c) f_zero).

(** ** The bindings *)

Definition bindings : list leafBinding :=
  [ mkBinding (baseENBFunction +:+ "/_3gpp-common-managed-element:enb_id") "enb_id" kindString (fun c => AString (ENBID c)) (nonEmptyString ENBID);
    mkBinding (baseENBFunction +:+ "/_3gpp-common-managed-element:mcc") "mcc" kindString (fun c => AString (MCC c)) (nonEmptyString MCC);
    mkBinding (baseENBFunction +:+ "/_3gpp-common-managed-element:mnc") "mnc" kindString (fun c => AString (MNC c)) (nonEmptyString MNC);
    mkBinding (baseENBFunction +:+ "/_3gpp-common-managed-element:mme_addr") "mme_addr" kindString (fun c => AString (MMEAddr c)) (nonEmptyString MMEAddr);
    mkBinding (baseENBFunction +:+ "/_3gpp-common-managed-element:gtp_bind_addr") "gtp_bind_addr" kindString (fun c => AString (GTPBindAddr c)) (nonEmptyString GTPBindAddr);
    mkBinding (baseENBFunction +:+ "/_3gpp-common-managed-element:s1c_bind_addr") "s1c_bind_addr" kindString (fun c => AString (S1CBindAddr c)) (nonEmptyString S1CBindAddr);
    mkBinding (baseENBFunction +:+ "/_3gpp-common-managed-element:s1c_bind_port") "s1c_bind_port" kindUint32 (fun c => AUint32 (S1CBindPort c)) (nonZeroUint32 S1CBindPort);
    mkBinding (baseENBFunction +:+ "/_3gpp-common-managed-element:n_prb") "n_prb" kindUint32 (fun c => AUint32 (NPRB c)) (nonZeroUint32 NPRB);
    mkBinding (baseENBFunction +:+ "/_3gpp-common-managed-element:tm") "tm" kindUint32 (fun c => AUint32 (TM c)) (nonZeroUint32 TM);
    mkBinding (baseEUtranCell +:+ "/_3gpp-common-managed-element:id") "cell_id" kindString (fun c => AString (CellID c)) (nonEmptyString CellID);
    mkBinding (baseEUtranCell +:+ "/_3gpp-common-managed-element:tac") "tac" kindString (fun c => AString (TAC c)) (nonEmptyString TAC);
    mkBinding (baseEUtranCell +:+ "/_3gpp-common-managed-element:dl_earfcn") "dl_earfcn" kindUint32 (fun c => AUint32 (DLEARFCN c)) (nonZeroUint32 DLEARFCN);
    mkBinding (baseEUtranCell +:+ "/_3gpp-common-managed-element:pci") "pci" kindUint32 (fun c => AUint32 (PCI c)) alwaysInclude;
    mkBinding (baseEUtranCell +:+ "/_3gpp-common-managed-element:ho_active") "ho_active" kindBool (fun c => ABool (HOActive c)) alwaysInclude;
    mkBinding (baseEUtranCell +:+ "/_3gpp-common-managed-element:a3_offset") "a3_offset" kindInt32 (fun c => AInt32 (A3Offset c)) (nonZeroInt32 A3Offset);
    mkBinding (baseEUtranCell +:+ "/_3gpp-common-managed-element:time_to_trigger") "time_to_trigger" kindInt32 (fun c => AInt32 (TimeToTrigger c)) (nonZeroInt32 TimeToTrigger);
    mkBinding (baseEUtranCell +:+ "/_3gpp-common-managed-element:hysteresis") "hysteresis" kindInt32 (fun c => AInt32 (Hysteresis c)) (nonZeroInt32 Hysteresis);
    mkBinding (baseENBFunction +:+ "/srsran-vendor-ext:enb_serial") "enb_serial" kindString (fun c => AString (ENBSerial c)) (nonEmptyString ENBSerial);
    mkBinding (baseENBFunction +:+ "/srsran-vendor-ext:tx_gain") "tx_gain" kindFloat64 (fun c => AFloat64 (TXGain c)) alwaysInclude;
    mkBinding (baseENBFunction +:+ "/srsran-vendor-ext:rx_gain") "rx_gain" kindFloat64 (fun c => AFloat64 (RXGain c)) alwaysInclude;
    mkBinding (baseENBFunction +:+ "/srsran-vendor-ext:time_adv_nsamples") "time_adv_nsamples" kindString (fun c => AString (TimeAdvNSamples c)) (nonEmptyString TimeAdvNSamples);
    mkBinding (baseENBFunction +:+ "/srsran-vendor-ext:device_name") "device_name" kindString (fun c => AString (DeviceName c)) (nonEmptyString DeviceName);
    mkBinding (baseENBFunction +:+ "/srsran-vendor-ext:device_args") "device_args" kindString (fun c => AString (DeviceArgs c)) (nonEmptyString DeviceArgs);
    mkBinding (baseScheduler +:+ "/srsran-vendor-ext:sched_policy") "sched_policy" kindString (fun c => AString (SchedPolicy c)) (nonEmptyString SchedPolicy);
    mkBinding (baseScheduler +:+ "/srsran-vendor-ext:pdsch_max_mcs") "pdsch_max_mcs" kindInt32 (fun c => AInt32 (PDSCHMaxMCS c)) (nonZeroInt32 PDSCHMaxMCS);
    mkBinding (baseScheduler +:+ "/srsran-vendor-ext:pusch_max_mcs") "pusch_max_mcs" kindInt32 (fun c => AInt32 (PUSCHMaxMCS c)) (nonZeroInt32 PUSCHMaxMCS);
    mkBinding (baseScheduler +:+ "/srsran-vendor-ext:target_bler") "target_bler" kindFloat64 (fun c => AFloat64 (TargetBLER c)) (nonZeroFloat64 TargetBLER);
    mkBinding (baseScheduler +:+ "/srsran-vendor-ext:min_nof_ctrl_symbols") "min_nof_ctrl_symbols" kindInt32 (fun c => AInt32 (MinCtrlSymbols c)) (nonZeroInt32 MinCtrlSymbols);
    mkBinding (baseScheduler +:+ "/srsran-vendor-ext:max_nof_ctrl_symbols") "max_nof_ctrl_symbols" kindInt32 (fun c => AInt32 (MaxCtrlSymbols c)) (nonZeroInt32 MaxCtrlSymbols);
    mkBinding (baseSIB +:+ "/srsran-vendor-ext:q_rx_lev_min") "q_rx_lev_min" kindInt32 (fun c => AInt32 (QRxLevMin c)) (nonZeroInt32 QRxLevMin);
    mkBinding (baseSIB +:+ "/srsran-vendor-ext:cell_barred") "cell_barred" kindString (fun c => AString (CellBarred c)) (nonEmptyString CellBarred);
    mkBinding (baseSIB +:+ "/srsran-vendor-ext:num_ra_preambles") "num_ra_preambles" kindInt32 (fun c => AInt32 (NumRAPreambles c)) (nonZeroInt32 NumRAPreambles);
    mkBinding (baseSIB +:+ "/srsran-vendor-ext:preamble_init_rx_target_pwr") "preamble_init_rx_target_pwr" kindInt32 (fun c => AInt32 (PreambleInitRxTargetPwr c)) (nonZeroInt32 PreambleInitRxTargetPwr);
    mkBinding (baseSIB +:+ "/srsran-vendor-ext:pwr_ramping_step") "pwr_ramping_step" kindInt32 (fun c => AInt32 (PwrRampingStep c)) (nonZeroInt32 PwrRampingStep);
    mkBinding (baseSIB +:+ "/srsran-vendor-ext:reference_signal_power") "reference_signal_power" kindInt32 (fun c => AInt32 (ReferenceSignalPower c)) (nonZeroInt32 ReferenceSignalPower);
    mkBinding (baseSIB +:+ "/srsran-vendor-ext:p0_nominal_pusch") "p0_nominal_pusch" kindInt32 (fun c => AInt32 (P0NominalPUSCH c)) (nonZeroInt32 P0NominalPUSCH);
    mkBinding (baseSIB +:+ "/srsran-vendor-ext:p0_nominal_pucch") "p0_nominal_pucch" kindInt32 (fun c => AInt32 (P0NominalPUCCH c)) (nonZeroInt32 P0NominalPUCCH);
    mkBinding (baseSIB +:+ "/srsran-vendor-ext:alpha") "alpha" kindFloat64 (fun c => AFloat64 (Alpha c)) (nonZeroFloat64 Alpha);
    mkBinding (baseSIB +:+ "/srsran-vendor-ext:default_paging_cycle") "default_paging_cycle" kindInt32 (fun c => AInt32 (DefaultPagingCycle c)) (nonZeroInt32 DefaultPagingCycle);
    mkBinding (baseTimers +:+ "/srsran-vendor-ext:t300") "t300" kindInt32 (fun c => AInt32 (T300 c)) (nonZeroInt32 T300);
    mkBinding (baseTimers +:+ "/srsran-vendor-ext:t301") "t301" kindInt32 (fun c => AInt32 (T301 c)) (nonZeroInt32 T301);
    mkBinding (baseTimers +:+ "/srsran-vendor-ext:t310") "t310" kindInt32 (fun c => AInt32 (T310 c)) (nonZeroInt32 T310);
    mkBinding (baseTimers +:+ "/srsran-vendor-ext:n310") "n310" kindInt32 (fun c => AInt32 (N310 c)) (nonZeroInt32 N310);
    mkBinding (baseTimers +:+ "/srsran-vendor-ext:t311") "t311" kindInt32 (fun c => AInt32 (T311 c)) (nonZeroInt32 T311);
    mkBinding (baseExpert +:+ "/srsran-vendor-ext:pusch_max_its") "pusch_max_its" kindInt32 (fun c => AInt32 (PUSCHMaxIts c)) (nonZeroInt32 PUSCHMaxIts);
    mkBinding (baseExpert +:+ "/srsran-vendor-ext:nr_pusch_max_its") "nr_pusch_max_its" kindInt32 (fun c => AInt32 (NRPUSCHMaxIts c)) (nonZeroInt32 NRPUSCHMaxIts);
    mkBinding (baseExpert +:+ "/srsran-vendor-ext:pusch_8bit_decoder") "pusch_8bit_decoder" kindBool (fun c => ABool (PUSCH8bitDecoder c)) alwaysInclude;
    mkBinding (baseExpert +:+ "/srsran-vendor-ext:nof_phy_threads") "nof_phy_threads" kindInt32 (fun c => AInt32 (NofPHYThreads c)) (nonZeroInt32 NofPHYThreads);
    mkBinding (baseExpert +:+ "/srsran-vendor-ext:metrics_period_secs") "metrics_period_secs" kindInt32 (fun c => AInt32 (MetricsPeriodSecs c)) (nonZeroInt32 MetricsPeriodSecs);
    mkBinding (baseExpert +:+ "/srsran-vendor-ext:tx_amplitude") "tx_amplitude" kindFloat64 (fun c => AFloat64 (TXAmplitude c)) (nonZeroFloat64 TXAmplitude);
    mkBinding (baseExpert +:+ "/srsran-vendor-ext:rrc_inactivity_timer") "rrc_inactivity_timer" kindInt32 (fun c => AInt32 (RRCInactivityTimer c)) (nonZeroInt32 RRCInactivityTimer);
    mkBinding (baseExpert +:+ "/srsran-vendor-ext:rlf_release_timer_ms") "rlf_release_timer_ms" kindInt32 (fun c => AInt32 (RLFReleaseTimerMs c)) (nonZeroInt32 RLFReleaseTimerMs);
    mkBinding (baseExpert +:+ "/srsran-vendor-ext:eea_pref_list") "eea_pref_list" kindString (fun c => AString (EEAPrefList c)) (nonEmptyString EEAPrefList);
    mkBinding (baseExpert +:+ "/srsran-vendor-ext:eia_pref_list") "eia_pref_list" kindString (fun c => AString (EIAPrefList c)) (nonEmptyString EIAPrefList);
    mkBinding (baseExpert +:+ "/srsran-vendor-ext:gtpu_tunnel_timeout") "gtpu_tunnel_timeout" kindInt32 (fun c => AInt32 (GTPUTunnelTimeout c)) (nonZeroInt32 GTPUTunnelTimeout);
    mkBinding (baseExpert +:+ "/srsran-vendor-ext:s1_setup_max_retries") "s1_setup_max_retries" kindInt32 (fun c => AInt32 (S1SetupMaxRetries c)) (nonZeroInt32 S1SetupMaxRetries);
    mkBinding (baseExpert +:+ "/srsran-vendor-ext:s1_connect_timer") "s1_connect_timer" kindInt32 (fun c => AInt32 (S1ConnectTimer c)) (nonZeroInt32 S1ConnectTimer);
    mkBinding (baseExpert +:+ "/srsran-vendor-ext:rx_gain_offset") "rx_gain_offset" kindFloat64 (fun c => AFloat64 (RXGainOffset c)) (nonZeroFloat64 RXGainOffset);
    mkBinding (baseExpert +:+ "/srsran-vendor-ext:use_cedron_f_est_alg") "use_cedron_f_est_alg" kindBool (fun c => ABool (UseCedronFEstAlg c)) alwaysInclude;
    mkBinding (baseExpert +:+ "/srsran-vendor-ext:rlf_min_ul_snr_estim") "rlf_min_ul_snr_estim" kindFloat64 (fun c => AFloat64 (RLFMinULSNREstim c)) (nonZeroFloat64 RLFMinULSNREstim);
    mkBinding (baseExpert +:+ "/srsran-vendor-ext:max_mac_dl_kos") "max_mac_dl_kos" kindInt32 (fun c => AInt32 (MaxMacDLKOs c)) (nonZeroInt32 MaxMacDLKOs);
    mkBinding (baseExpert +:+ "/srsran-vendor-ext:max_mac_ul_kos") "max_mac_ul_kos" kindInt32 (fun c => AInt32 (MaxMacULKOs c)) (nonZeroInt32 MaxMacULKOs) ].

Definition registry : Type := list leafBinding.
Definition newRegistry : registry := bindings.

(** ** Paths *)

(** The regular expression \[[^\]]+\] replaced by nothing. *)
Fixpoint strip_predicates (fuel : nat) (l : bytes) : bytes :=
  match fuel with
  | 0 => l
  | S fuel =>
      match l with
      | [] => []
      | c :: r =>
          if Ascii.eqb c "[" then
            let body := take_while (fun x => negb (Ascii.eqb x "]")) r in
            match body, drop (length body) r with
            | _ :: _, _ :: after => strip_predicates fuel after
            | _, _ => c :: strip_predicates fuel r
            end
          else c :: strip_predicates fuel r
      end
  end.

Fixpoint join_slash (parts : list bytes) : bytes :=
  match parts with
  | [] => []
  | [p] => p
  | p :: r => p ++ "/"%char :: join_slash r
  end.

Definition drop_module (part : bytes) : bytes :=
  match index_of part (str ":") with
  | Some idx => drop (S idx) part
  | None => part
  end.

Definition normalizePath (path : string) : string :=
  let l := str path in
  unstr (join_slash (drop_module <$> split_on "/" (strip_predicates (S (length l)) l))).

(** The regular expression of the profile paths,
    qci_profiles\[[^\]]*qci='([^']+)'\]/(?:srsran-vendor-ext:)?([A-Za-z0-9_]+)$, read off in pieces. *)
Definition is_word (c : ascii) : bool := is_ident c.

Definition match_field (l : bytes) : option bytes :=
  let f := trim_prefix l (str "srsran-vendor-ext:") in
  match f with
  | [] => None
  | _ => if forallb is_word f then Some f else None
  end.

Definition match_qci_value (l : bytes) : option (bytes * bytes) :=
  let v := take_while (fun x => negb (Ascii.eqb x "'")) l in
  match v with
  | [] => None
  | _ =>
      let rest := drop (length v) l in
      if has_prefix rest (str "']/") then pair v <$> match_field (drop 3 rest) else None
  end.

(** [^\]]* is greedy: the last possible qci=' wins. *)
Fixpoint match_predicate (l : bytes) : option (bytes * bytes) :=
  let here := if has_prefix l (str "qci='") then match_qci_value (drop 5 l) else None in
  match l with
  | [] => None
  | c :: r => if Ascii.eqb c "]" then here
              else match match_predicate r with Some m => Some m | None => here end
  end.

Fixpoint match_qci_path (l : bytes) : option (bytes * bytes) :=
  let here := if has_prefix l (str "qci_profiles[") then match_predicate (drop 13 l) else None in
  match here with
  | Some m => Some m
  | None => match l with [] => None | _ :: r => match_qci_path r end
  end.

Definition isStructuralKeyPath (path : string) (isKey : bool) : bool := isKey.

Definition qciFieldKind (field : string) : valueKind :=
  if existsb (String.eqb field) ["discard_timer"; "pdcp_sn_size"; "t_poll_retx"; "max_retx_thresh"; "t_reordering"; "priority"]
  then kindInt32 else kindString.

(** strconv.ParseBool *)
Definition ParseBool (s : string) : option bool :=
  if existsb (String.eqb s) ["1"; "t"; "T"; "TRUE"; "true"; "True"] then Some true
  else if existsb (String.eqb s) ["0"; "f"; "F"; "FALSE"; "false"; "False"] then Some false
  else None.

Section Registry.
Context {GL : GoLib}.

Definition expected (what value : string) : string := "expected " +:+ what +:+ ", got " +:+ Quote value.

Definition parseValue (kind : valueKind) (value : string) : result string any :=
  match kind with
  | kindString => Ok (AString value)
  | kindInt32 => match ParseInt 32 (TrimSpace value) with Some x => Ok (AInt32 x) | None => Err (expected "int32" value) end
  | kindUint32 => match ParseUint 32 (TrimSpace value) with Some x => Ok (AUint32 x) | None => Err (expected "uint32" value) end
  | kindFloat64 => match ParseFloat (TrimSpace value) with Some x => Ok (AFloat64 x) | None => Err (expected "number" value) end
  | kindBool => match ParseBool (TrimSpace value) with Some x => Ok (ABool x) | None => Err (expected "boolean" value) end
  end.

Fixpoint find_binding (p : leafBinding -> bool) (r : registry) : option leafBinding :=
  match r with
  | [] => None
  | b :: rest => if p b then Some b else find_binding p rest
  end.

(** A key and a value to set, or None for a structural leaf. *)
Definition resolve (r : registry) (path : string) (isKey : bool) (value : string) : result string (option (string * any)) :=
  let normalized := normalizePath path in
  if isStructuralKeyPath normalized isKey then Ok None
  else match match_qci_path (str path) with
       | Some (k, f) =>
           let key := TrimSpace (unstr k) in
           let field := TrimSpace (unstr f) in
           if String.eqb field "qci" then Ok None
           else let? parsed := parseValue (qciFieldKind field) value in
                Ok (Some ("qci_profiles[" +:+ key +:+ "]." +:+ field, parsed))
       | None =>
           let binding := match find_binding (fun b => String.eqb (Path b) normalized) r with
                          | Some b => Some b
                          | None => find_binding (fun b => String.eqb (normalizePath (Path b)) normalized) r
                          end in
           match binding with
           | None => Err ("unsupported editable path: " +:+ path)
           | Some b => match parseValue (Kind b) value with
                       | Err e => Err (Key b +:+ ": " +:+ e)
                       | Ok parsed => Ok (Some (Key b, parsed))
                       end
           end
       end.

Definition qci_field_value (field : string) (p : QCIProfile) : option any :=
  if String.eqb field "discard_timer" then Some (AInt32 (DiscardTimer p))
  else if String.eqb field "pdcp_sn_size" then Some (AInt32 (PDCPSNSize p))
  else if String.eqb field "t_poll_retx" then Some (AInt32 (TPollRetx p))
  else if String.eqb field "max_retx_thresh" then Some (AInt32 (MaxRetxThresh p))
  else if String.eqb field "t_reordering" then Some (AInt32 (TReordering p))
  else if String.eqb field "priority" then Some (AInt32 (Priority p))
  else None.

(** The regular expression ^qci_profiles\[(\d+)\]\.([A-Za-z0-9_]+)$ *)
Definition match_flat_qci (key : string) : option (bytes * bytes) :=
  if negb (HasPrefix key qci_prefix) then None
  else
    let l := drop (String.length qci_prefix) (str key) in
    let d := take_while is_digit l in
    let rest := drop (length d) l in
    match d with
    | [] => None
    | _ =>
        if has_prefix rest (str "].") then
          match drop 2 rest with
          | [] => None
          | f => if forallb is_word f then Some (d, f) else None
          end
        else None
    end.

Fixpoint first_field (qci : Z) (field : string) (ps : list QCIProfile) : option any :=
  match ps with
  | [] => None
  | p :: r => if negb (QCI p =? qci)%Z then first_field qci field r
              else match qci_field_value field p with
                   | Some v => Some v
                   | None => first_field qci field r
                   end
  end.

Definition currentQCIFieldValue (cfg : EditableConfig) (key : string) : option any :=
  match match_flat_qci key with
  | None => None
  | Some (d, f) => match parse_int 32 d with
                   | None => None
                   | Some qci => first_field qci (unstr f) (QCIProfiles cfg)
                   end
  end.

Definition currentValue (r : registry) (cfg : EditableConfig) (key : string) : option any :=
  if HasPrefix key qci_prefix then currentQCIFieldValue cfg key
  else (fun b => Get b cfg) <$> find_binding (fun b => String.eqb (Key b) key) r.

Definition valuesEqual (a b : any) : bool :=
  match a, b with
  | AString x, AString y => String.eqb x y
  | AInt32 x, AInt32 y => (x =? y)%Z
  | AUint32 x, AUint32 y => (x =? y)%Z
  | AFloat64 x, AFloat64 y => f_eq x y
  | ABool x, ABool y => Bool.eqb x y
  | _, _ => false
  end.

End Registry.

(** ** Lemmas: bindings against the configuration's own leaves *)

Definition setter_kind (s : setter) : valueKind :=
  match s with
  | SString _ => kindString
  | SUint32 _ => kindUint32
  | SInt32 _ => kindInt32
  | SFloat64 _ => kindFloat64
  | SBool _ => kindBool
  end.

Lemma bindings_getters : Forall (fun b => forall c, json_get (Key b) c = Some (Get b c)) bindings.
Proof. unfold bindings. repeat (apply Forall_cons_2; [intros []; reflexivity|]). apply Forall_nil_2. Qed.

Lemma bindings_kinds : Forall (fun b => setter_kind <$> find_leaf (Key b) leaves = Some (Kind b)) bindings.
Proof.
  apply (bool_decide_unpack (Forall (fun b => setter_kind <$> find_leaf (Key b) leaves = Some (Kind b)) bindings)).
  by vm_compute.
Qed.

Lemma bindings_cover : Forall (fun e => is_Some (find_binding (fun b => String.eqb (Key b) (fst e)) bindings)) leaves.
Proof.
  assert (H : forallb (fun e => match find_binding (fun b => String.eqb (Key b) (fst e)) bindings with Some _ => true | None => false end) leaves = true)
    by by vm_compute.
  apply Forall_forall. intros e He. rewrite forallb_forall in H. specialize (H e (proj1 (list_elem_of_In _ _) He)).
  destruct (find_binding _ bindings); [by eexists|done].
Qed.

Lemma bindings_unique : NoDup (Key <$> bindings) /\ NoDup (normalizePath ∘ Path <$> bindings).
Proof.
  split; [apply (bool_decide_unpack (NoDup (Key <$> bindings)))|
          apply (bool_decide_unpack (NoDup (normalizePath ∘ Path <$> bindings)))]; by vm_compute.
Qed.

Lemma bindings_no_qci : Forall (fun b => HasPrefix (Key b) qci_prefix = false) bindings.
Proof.
  apply (bool_decide_unpack (Forall (fun b => HasPrefix (Key b) qci_prefix = false) bindings)). by vm_compute.
Qed.

Lemma find_binding_in (p : leafBinding -> bool) (r : registry) (b : leafBinding) :
  find_binding p r = Some b -> b ∈ r /\ p b = true.
Proof.
  induction r as [|b' r IH]; cbn; [done|]. destruct (p b') eqn:E; [intros [= ->]; split; [left|done]|].
  intros Hf. destruct (IH Hf). split; [by right|done].
Qed.

Lemma HasPrefix_app (p s : string) : HasPrefix (p +:+ s) p = true.
Proof.
  unfold HasPrefix. induction p as [|c p IH]; [apply has_prefix_nil|].
  change (str (String c p +:+ s)) with (c :: str (p +:+ s)). change (str (String c p)) with (c :: str p).
  cbn [has_prefix]. by rewrite Ascii.eqb_refl, IH.
Qed.

Section RegistryLemmas.
Context {GL : GoLib}.

Lemma parseValue_setter (s : setter) (value : string) (x : any) :
  parseValue (setter_kind s) value = Ok x ->
  (forall f, x = AFloat64 f -> f_is_nan f || f_is_inf f = false) -> setter_value s x = Some (reload_leaf x).
Proof.
  destruct s; cbn; intros Hp Hf.
  - by simplify_eq.
  - destruct (ParseUint 32 (TrimSpace value)); by simplify_eq.
  - destruct (ParseInt 32 (TrimSpace value)); by simplify_eq.
  - destruct (ParseFloat (TrimSpace value)) as [f|]; simplify_eq. cbn. by rewrite (Hf f eq_refl).
  - destruct (ParseBool (TrimSpace value)); by simplify_eq.
Qed.

(** What resolve answers for a leaf that is no profile field. *)
Lemma resolve_binding (r : registry) (path : string) (isKey : bool) (value key : string) (x : any) :
  resolve r path isKey value = Ok (Some (key, x)) -> HasPrefix key qci_prefix = false ->
  exists b, b ∈ r /\ Key b = key /\ parseValue (Kind b) value = Ok x.
Proof.
  unfold resolve. destruct (isStructuralKeyPath _ isKey); [done|]. destruct (match_qci_path (str path)) as [[k f]|].
  - destruct (String.eqb _ "qci"); [done|]. destruct (parseValue _ value); cbn; [|done]. intros [= <- _] Hp.
    change "qci_profiles[" with qci_prefix in Hp. by rewrite HasPrefix_app in Hp.
  - set (p1 := fun b => String.eqb (Path b) _). set (p2 := fun b => String.eqb (normalizePath _) _).
    assert (Hb : forall b, (match find_binding p1 r with Some b => Some b | None => find_binding p2 r end) = Some b -> b ∈ r).
    { intros b. destruct (find_binding p1 r) as [b'|] eqn:E1;
        [intros [= ->]; by eapply find_binding_in|intros E2; by eapply find_binding_in]. }
    destruct (match find_binding p1 r with Some b => Some b | None => find_binding p2 r end) as [b|]; [|done].
    destruct (parseValue (Kind b) value) eqn:Ep; [|done]. intros [= <- <-] _.
    exists b. split_and!; [by apply Hb|done|done].
Qed.

Lemma resolved_setter (path : string) (isKey : bool) (value key : string) (x : any) :
  resolve newRegistry path isKey value = Ok (Some (key, x)) -> HasPrefix key qci_prefix = false ->
  exists s, find_leaf key leaves = Some s /\ parseValue (setter_kind s) value = Ok x.
Proof.
  intros Hr Hp. destruct (resolve_binding _ _ _ _ _ _ Hr Hp) as (b & Hb & <- & Hv).
  pose proof bindings_kinds as Hk. rewrite Forall_forall in Hk. specialize (Hk b Hb). cbv beta in Hk.
  destruct (find_leaf (Key b) leaves) as [s|]; [|discriminate Hk]. injection Hk as Hk. exists s. split; [done|]. congruence.
Qed.

(** *** Profile fields: the two readings of a flat key agree *)

Lemma take_while_app (p : ascii -> bool) (l : bytes) : l = take_while p l ++ drop (length (take_while p l)) l.
Proof. induction l as [|c l IH]; cbn; [done|]. destruct (p c); cbn; [by rewrite <- IH|done]. Qed.

Lemma index_of_close (d rest : bytes) :
  forallb is_digit d = true -> index_of (d ++ "]"%char :: rest) ["]"%char] = Some (length d).
Proof.
  induction d as [|c d IH]; intros Hd; cbn; rewrite has_prefix_nil, andb_true_r; [done|].
  cbn in Hd. apply andb_true_iff in Hd as [Hc Hd].
  destruct (Ascii.eqb_spec c "]") as [->|]; [by vm_compute in Hc|]. by rewrite IH.
Qed.

Lemma match_flat_qci_parse (key : string) (d f : bytes) (q : Z) :
  match_flat_qci key = Some (d, f) -> parse_int 32 d = Some q -> parseQCIProfileKey key = Some (q, unstr f).
Proof.
  unfold match_flat_qci, parseQCIProfileKey. destruct (HasPrefix key qci_prefix); [|done]. cbn [negb].
  set (l := drop _ (str key)). pose proof (take_while_app is_digit l) as Hl. pose proof (take_while_all is_digit l) as Hall.
  set (tw := take_while is_digit l) in *. set (rest := drop (length tw) l) in *. clearbody rest tw.
  assert (Htw : forall (A : Type) (x y : A), match tw with [] => x | _ :: _ => y end = if length tw <=? 0 then x else y) by (by destruct tw).
  rewrite Htw. destruct (length tw <=? 0) eqn:Hc; [intros Hm; discriminate Hm|].
  destruct (has_prefix rest (str "].")) eqn:Er; [|intros Hm; discriminate Hm].
  change (str "].") with ["]"%char; "."%char] in Er.
  destruct rest as [|r0 [|r1 rr]]; cbn [has_prefix] in Er; [discriminate Er|by rewrite andb_false_r in Er|].
  apply andb_true_iff in Er as [E0 Er]. apply andb_true_iff in Er as [E1 _].
  apply Ascii.eqb_eq in E0 as ->. apply Ascii.eqb_eq in E1 as ->. cbn [drop]. rewrite drop_0.
  destruct rr as [|f0 fr]; [done|]. destruct (forallb is_word (f0 :: fr)) eqn:Ew; [|intros Hm; discriminate Hm]. intros [= <- <-] Hq.
  rewrite Hl, index_of_close by done.
  rewrite Hc. cbn [orb].
  rewrite length_app. cbn [length].
  assert (Hc2 : (length tw + S (S (S (length fr))) <=? length tw + 1) = false) by (apply Nat.leb_gt; lia). rewrite Hc2. cbn [orb].
  rewrite lookup_app_r by lia. replace (length tw + 1 - length tw) with 1 by lia. cbn [lookup list_lookup].
  rewrite Ascii.eqb_refl. cbn [negb]. rewrite take_app_length, Hq.
  rewrite drop_app_ge by lia. replace (length tw + 2 - length tw) with 2 by lia. cbn [drop].
  change (forallb is_ident (f0 :: fr) = true) in Ew. by rewrite Ew.
Qed.

(** Writing a profile field its own value changes nothing. *)
Lemma set_same_field (field : string) (p p' : QCIProfile) (z : Z) :
  qci_field_value field p = Some (AInt32 z) -> set_qci_field field (AInt32 z) p = Ok p' -> p' = p.
Proof.
  unfold qci_field_value, set_qci_field. intros Hv Hs. split_cases_in Hv; simplify_eq/=; by destruct p.
Qed.

Lemma first_field_index (q : Z) (field : string) (ps : list QCIProfile) (v : any) :
  first_field q field ps = Some v ->
  exists i p z, qci_index q ps = Some i /\ ps !! i = Some p /\ v = AInt32 z /\ qci_field_value field p = Some v.
Proof.
  assert (Hkind : forall p v, qci_field_value field p = Some v -> exists z, v = AInt32 z).
  { intros p v'. unfold qci_field_value. intros Hf. split_cases_in Hf; simplify_eq; eauto. }
  assert (Hnone : forall p p', qci_field_value field p = None -> qci_field_value field p' = None).
  { intros p p'. unfold qci_field_value. intros Hf. split_cases_in Hf; done. }
  induction ps as [|p ps IH]; cbn; [done|]. destruct (QCI p =? q)%Z; cbn.
  - destruct (qci_field_value field p) as [v'|] eqn:E.
    + intros [= ->]. destruct (Hkind p v E) as [z ->]. by exists 0, p, z.
    + intros Hf. destruct (IH Hf) as (i & p' & z & _ & _ & _ & Hv). rewrite (Hnone p p' E) in Hv. done.
  - intros Hf. destruct (IH Hf) as (i & p' & z & -> & Hp & -> & Hv). by exists (S i), p', z.
Qed.

(** *** Finding a binding *)

Lemma bindings_find_path :
  Forall (fun b => Key <$> find_binding (fun b' => String.eqb (Path b') (normalizePath (Path b))) bindings = None /\
                   Key <$> find_binding (fun b' => String.eqb (normalizePath (Path b')) (normalizePath (Path b))) bindings = Some (Key b))
         bindings.
Proof.
  apply (bool_decide_unpack (Forall (fun b =>
    Key <$> find_binding (fun b' => String.eqb (Path b') (normalizePath (Path b))) bindings = None /\
    Key <$> find_binding (fun b' => String.eqb (normalizePath (Path b')) (normalizePath (Path b))) bindings = Some (Key b)) bindings)).
  by vm_compute.
Qed.

Lemma bindings_key_inj (b b' : leafBinding) : b ∈ bindings -> b' ∈ bindings -> Key b = Key b' -> b = b'.
Proof.
  intros [i Hi]%list_elem_of_lookup [j Hj]%list_elem_of_lookup Hk. destruct bindings_unique as [Hu _].
  assert (Hij : i = j).
  { apply (NoDup_lookup _ _ _ (Key b) Hu); rewrite list_lookup_fmap; [by rewrite Hi|rewrite Hj; cbn; by rewrite Hk]. }
  subst j. congruence.
Qed.

Lemma find_by_path (b : leafBinding) (normalized : string) :
  b ∈ bindings -> normalized = normalizePath (Path b) ->
  find_binding (fun b' => String.eqb (Path b') normalized) bindings = None /\
  find_binding (fun b' => String.eqb (normalizePath (Path b')) normalized) bindings = Some b.
Proof.
  intros Hb ->. pose proof bindings_find_path as Hf. rewrite Forall_forall in Hf. destruct (Hf b Hb) as [H1 H2].
  split; [by apply fmap_None in H1|]. apply fmap_Some in H2 as (b' & E & H2). rewrite E. f_equal. symmetry.
  apply bindings_key_inj; [done|by eapply find_binding_in|done].
Qed.

Lemma find_by_key (b : leafBinding) : b ∈ bindings -> find_binding (fun b' => String.eqb (Key b') (Key b)) bindings = Some b.
Proof.
  intros Hb. destruct (find_binding (fun b' => String.eqb (Key b') (Key b)) bindings) as [b'|] eqn:E.
  - apply find_binding_in in E as [Hb' He]. b2p. f_equal. by apply bindings_key_inj.
  - exfalso. revert E Hb. generalize bindings as r. induction r as [|a r IH]; cbn; [by rewrite elem_of_nil|].
    destruct (String.eqb (Key a) (Key b)) eqn:Ea; [done|]. rewrite elem_of_cons. intros Hr [<-|Hb]; [|by apply IH].
    by rewrite string_eqb_refl in Ea.
Qed.

Lemma currentValue_get (b : leafBinding) (c : EditableConfig) :
  b ∈ bindings -> currentValue newRegistry c (Key b) = Some (Get b c).
Proof.
  intros Hb. unfold currentValue. pose proof bindings_no_qci as Hq. rewrite Forall_forall in Hq. rewrite (Hq b Hb).
  unfold newRegistry. by rewrite find_by_key.
Qed.

(** Writing a leaf its own value changes nothing. *)
Lemma view_set_same (key : string) (x : any) (l : list (string * any)) :
  NoDup l.*1 -> view_get key l = Some x -> view_set key x l = l.
Proof.
  induction l as [|[k y] l IH]; cbn; [done|]. intros [Hk Hnd]%NoDup_cons Hg. destruct (String.eqb k key) eqn:E.
  - b2p. subst. simplify_eq. f_equal. clear IH Hnd. induction l as [|[k' y'] l IHl]; cbn; [done|].
    apply not_elem_of_cons in Hk as [Hne Hk]. cbn in Hne. rewrite (proj2 (String.eqb_neq k' key)) by done. f_equal. by apply IHl.
  - f_equal. by apply IH.
Qed.

Lemma json_view_nodup (c : EditableConfig) : NoDup (json_view c).*1.
Proof. apply (bool_decide_unpack (NoDup (json_view c).*1)). by destruct c; vm_compute. Qed.

(** What a resolved plain leaf does to the configuration. *)
Lemma resolved_write (c : EditableConfig) (path : string) (isKey : bool) (value key : string) (x : any) :
  resolve newRegistry path isKey value = Ok (Some (key, x)) -> HasPrefix key qci_prefix = false ->
  (forall f, x = AFloat64 f -> f_is_nan f || f_is_inf f = false) ->
  exists c', applyChange c key x = Ok c' /\ writes_leaf key (reload_leaf x) c c'.
Proof.
  intros Hr Hp Hf. destruct (resolved_setter _ _ _ _ _ Hr Hp) as (s & Hs & Hv).
  pose proof (parseValue_setter s value x Hv Hf) as Hx. pose proof (applyChange_effect c key x) as He.
  unfold edit_effect in He. rewrite Hs, Hx in He. cbn [fmap option_fmap option_map] in He.
  destruct He as (_ & c' & Hc & Heff). by exists c'.
Qed.

(** The current value of a plain leaf is its JSON leaf. *)
Lemma currentValue_json (c : EditableConfig) (key : string) (v : any) :
  HasPrefix key qci_prefix = false -> currentValue newRegistry c key = Some v -> json_get key c = Some v.
Proof.
  intros Hp. unfold currentValue. rewrite Hp. intros (b & Hf & ->)%fmap_Some. apply find_binding_in in Hf as [Hb He].
  b2p. pose proof bindings_getters as Hg. rewrite Forall_forall in Hg. rewrite <- He. by apply Hg.
Qed.

Lemma valuesEqual_same (a b : any) : valuesEqual a b = true -> is_float b = false -> a = b.
Proof.
  destruct a, b; cbn; try done; intros He _; f_equal; try (by apply Z.eqb_eq in He).
  - by apply String.eqb_eq in He.
  - by apply Bool.eqb_prop in He.
Qed.

(** A value of the kind of a current value is stored as it is, up to surrounding space. *)
Lemma setter_value_same (s : setter) (a x y : any) :
  valuesEqual a x = true -> is_float x = false -> setter_value s x = Some y -> y = reload_leaf x.
Proof. intros He Hfl. destruct x, a; cbn in He, Hfl; try done; destruct s; cbn; intros Hy; by simplify_eq/=. Qed.

Lemma skip_profile_field (c c' : EditableConfig) (key : string) (x : any) :
  HasPrefix key qci_prefix = true -> currentValue newRegistry c key = Some x -> applyChange c key x = Ok c' -> c' = c.
Proof.
  intros Hp. unfold currentValue, currentQCIFieldValue. rewrite Hp. destruct (match_flat_qci key) as [[d f]|] eqn:Em; [|done].
  destruct (parse_int 32 d) as [q|] eqn:Ed; [|done]. pose proof (match_flat_qci_parse _ _ _ _ Em Ed) as Hk. intros Hf.
  destruct (first_field_index _ _ _ _ Hf) as (i & p & z & Hi & Hl & -> & Hv).
  unfold applyChange. destruct (find_leaf key leaves) as [s|] eqn:El.
  { exfalso. apply find_leaf_in in El. pose proof bindings_cover as Hc. rewrite Forall_forall in Hc.
    destruct (Hc _ El) as [b Hb]. cbn [fst] in Hb. apply find_binding_in in Hb as [Hb Hbk]. b2p.
    pose proof bindings_no_qci as Hq. rewrite Forall_forall in Hq. specialize (Hq b Hb). cbn in Hq. congruence. }
  rewrite Hp. unfold applyQCIProfileChange. rewrite Hk. destruct ((q <? 1)%Z || (9 <? q)%Z); [done|]. rewrite Hi, Hl.
  destruct (set_qci_field (unstr f) (AInt32 z) p) as [p'|e] eqn:Es; [|done]. intros [= <-].
  rewrite (set_same_field _ _ _ _ Hv Es), list_insert_id by done. by destruct c.
Qed.

Lemma skip_plain_leaf (c c' : EditableConfig) (key : string) (x : any) :
  HasPrefix key qci_prefix = false -> currentValue newRegistry c key = Some x -> valuesEqual x x = true ->
  is_float x = false -> reload_leaf x = x -> applyChange c key x = Ok c' -> c' = c.
Proof.
  intros Hp Hc He Hfl Hr Hok. pose proof (currentValue_json _ _ _ Hp Hc) as Hj.
  destruct (applyChange_ok _ _ _ _ Hok) as (t & y & Hee & Ht & Heff). unfold edit_effect in Hee.
  destruct (find_leaf key leaves) as [s|] eqn:El.
  - apply fmap_Some in Hee as (y' & Hy & [= -> ->]). pose proof (setter_value_same _ _ _ _ He Hfl Hy) as ->. rewrite Hr in Heff.
    destruct Heff as (V & P & Q). apply config_ext; [|done|done]. rewrite V. apply view_set_same; [apply json_view_nodup|done].
  - exfalso. destruct t as [k|q f].
    + apply key_target_leaf in Ht as [-> [s Hs]]. congruence.
    + apply key_target_qci in Ht as [Hq _]. congruence.
Qed.

(** ** Theorems *)

(** C20: the registry binds each editable key to the leaf the store edits under that key. A path
    that names a binding's leaf, module prefixes and list predicates apart, resolves to the
    binding's key and its value read in the kind the store's setter for the key takes; the current
    value of the key is the JSON leaf of that name; and every key the store's plain setters accept
    has a binding. *)
Theorem registry_matches_store (b : leafBinding) (path value : string) (c : EditableConfig) :
  b ∈ newRegistry -> normalizePath path = normalizePath (Path b) -> match_qci_path (str path) = None ->
  resolve newRegistry path false value =
    match parseValue (Kind b) value with
    | Ok x => Ok (Some (Key b, x))
    | Err e => Err (Key b +:+ ": " +:+ e)
    end /\
  setter_kind <$> find_leaf (Key b) leaves = Some (Kind b) /\
  currentValue newRegistry c (Key b) = json_get (Key b) c /\
  (forall key s, find_leaf key leaves = Some s -> exists b', b' ∈ newRegistry /\ Key b' = key).
Proof.
  intros Hb Hn Hq. destruct (find_by_path b _ Hb Hn) as [H1 H2]. split_and!.
  - unfold resolve, isStructuralKeyPath, newRegistry. by rewrite Hq, H1, H2.
  - pose proof bindings_kinds as Hk. rewrite Forall_forall in Hk. by apply Hk.
  - rewrite currentValue_get by done. pose proof bindings_getters as Hg. rewrite Forall_forall in Hg. symmetry. by apply Hg.
  - intros key s Hs. apply find_leaf_in in Hs. pose proof bindings_cover as Hc. rewrite Forall_forall in Hc.
    destruct (Hc _ Hs) as [b' Hb']. apply find_binding_in in Hb' as [Hb' He]. cbn [fst] in He. b2p. by exists b'.
Qed.

(** A value resolve accepts, the store accepts. When a path that is no profile field resolves
    to a key and a value other than NaN or an infinity, applying the change to any configuration
    succeeds, the leaf of the key then holds the value (surrounding space trimmed from a string)
    and every other leaf, the private fields and the profiles are as before. *)
Theorem resolved_value_accepted (c : EditableConfig) (path : string) (isKey : bool) (value key : string) (x : any) :
  resolve newRegistry path isKey value = Ok (Some (key, x)) -> HasPrefix key qci_prefix = false ->
  (forall f, x = AFloat64 f -> f_is_nan f || f_is_inf f = false) ->
  exists c', applyChange c key x = Ok c' /\ json_get key c' = Some (reload_leaf x) /\
             (forall k, k <> key -> json_get k c' = json_get k c) /\
             private_view c' = private_view c /\ QCIProfiles c' = QCIProfiles c.
Proof.
  intros Hr Hp Hf. destruct (resolved_write c _ _ _ _ _ Hr Hp Hf) as (c' & Hc & V & P & Q). exists c'.
  destruct (resolved_setter _ _ _ _ _ Hr Hp) as (s & Hs & _). apply find_leaf_in in Hs.
  pose proof bindings_cover as Hcov. rewrite Forall_forall in Hcov. destruct (Hcov _ Hs) as [b Hb]. cbn [fst] in Hb.
  apply find_binding_in in Hb as [Hb He]. b2p. pose proof bindings_getters as Hg. rewrite Forall_forall in Hg.
  specialize (Hg b Hb c). rewrite He in Hg. split_and!; [done| | |done|done].
  - unfold json_get in *. rewrite V, view_get_set, string_eqb_refl, Hg. done.
  - intros k Hk. unfold json_get. rewrite V, view_get_set, (proj2 (String.eqb_neq key k)) by done. done.
Qed.

(** Leaving out a leaf whose value is the current one is sound. When the current value of a
    key, plain leaf or profile field, equals the value of a change by valuesEqual, and the value is
    no float and carries no surrounding space, then applying the change would have left the whole
    configuration as it is. *)
Theorem equal_value_skip_sound (c c' : EditableConfig) (key : string) (cur x : any) :
  currentValue newRegistry c key = Some cur -> valuesEqual cur x = true -> is_float x = false -> reload_leaf x = x ->
  applyChange c key x = Ok c' -> c' = c.
Proof.
  intros Hc He Hfl Hr Hok. pose proof (valuesEqual_same _ _ He Hfl) as ->. destruct (HasPrefix key qci_prefix) eqn:Hp.
  - by apply (skip_profile_field c c' key x).
  - by apply (skip_plain_leaf c c' key x).
Qed.

End RegistryLemmas.

(** ** Witnesses *)

Definition sample_binding : leafBinding :=
  mkBinding (baseEUtranCell +:+ "/_3gpp-common-managed-element:pci") "pci" kindUint32 (fun c => AUint32 (PCI c)) alwaysInclude.

(** The path libyang prints for the physical cell identity of cell 1. *)
Definition sample_path : string :=
  "/_3gpp-common-managed-element:SubNetwork[id='1']/ManagedElement[id='enb']/ENBFunction[id='1']/EUtranCell[id='1']/pci".

Lemma registry_matches_store_witness :
  resolve (GL:=ascii_golib) newRegistry sample_path false " 7 " = Ok (Some ("pci", AUint32 7)).
Proof.
  rewrite (proj1 (registry_matches_store (GL:=ascii_golib) sample_binding sample_path " 7 " sample_cfg
             ltac:(do 12 right; left) ltac:(by vm_compute) ltac:(by vm_compute))).
  by vm_compute.
Defined.

Lemma resolved_value_accepted_witness :
  exists c', applyChange (GL:=ascii_golib) sample_cfg "pci" (AUint32 7) = Ok c' /\ json_get "pci" c' = Some (AUint32 7).
Proof.
  destruct (resolved_value_accepted (GL:=ascii_golib) sample_cfg sample_path false " 7 " "pci" (AUint32 7)
              ltac:(by vm_compute) ltac:(by vm_compute) ltac:(done)) as (c' & Hc & Hj & _).
  by exists c'.
Defined.

Lemma equal_value_skip_sound_witness :
  match applyChange (GL:=ascii_golib) sample_cfg "pci" (AUint32 (PCI sample_cfg)) with
  | Ok c' => c' = sample_cfg
  | Err _ => False
  end.
Proof.
  destruct (applyChange (GL:=ascii_golib) sample_cfg "pci" (AUint32 (PCI sample_cfg))) as [c'|e] eqn:E;
    [|vm_compute in E; discriminate E].
  apply (equal_value_skip_sound (GL:=ascii_golib) sample_cfg c' "pci" (AUint32 (PCI sample_cfg)) (AUint32 (PCI sample_cfg)));
    [by vm_compute|by vm_compute|done|done|exact E].
Defined.
