(* ===== verification/Artifacts.v ===== *)
(** * Published datastores (internal/ems/netconfcm/bindings.go, render; internal/ems/netconf/snapshot.go,
      WriteSnapshotFile)

    The running and the candidate configuration are published as RFC 7951 JSON documents. *)
From S2P Require Import Prelude GoNum GoStrings Json FileSystem ConfigData ConfigEdit ConfigStore Scan ConfigFiles Persist Bindings.

(** ** Rendering a configuration *)

Definition lastPathSegment (path : string) : string :=
  match last (split_on "/" (str path)) with
  | Some s => unstr s
  | None => path
  end.

Definition modulePrefix (path : string) : string :=
  let name := str (lastPathSegment path) in
  match index_of name (str ":") with
  | Some idx => unstr (take idx name)
  | None => ""
  end.

Definition stripModulePrefix (name : string) : string :=
  match index_of (str name) (str ":") with
  | Some idx => unstr (drop (S idx) (str name))
  | None => name
  end.

Definition renderedChildName (parentPath childPath : string) : string :=
  let child := lastPathSegment childPath in
  if negb (String.eqb (modulePrefix parentPath) (modulePrefix childPath)) then child
  else stripModulePrefix child.

(** sort.Strings on bindings, by path. *)
Fixpoint insert_path (b : leafBinding) (l : list leafBinding) : list leafBinding :=
  match l with
  | [] => [b]
  | b' :: r => if String.leb (Path b) (Path b') then b :: l else b' :: insert_path b r
  end.

Definition sort_paths (l : list leafBinding) : list leafBinding := foldr insert_path [] l.

(** The bindings of the leaves right under a node. *)
Definition child_of (prefix : string) (b : leafBinding) : bool :=
  HasPrefix (Path b) (prefix +:+ "/") && negb (Contains (TrimPrefix (Path b) (prefix +:+ "/")) "/").

(** sort.Slice by QCI; profiles with equal QCI keep their order here, where the code leaves it open. *)
Fixpoint insert_qci (p : QCIProfile) (l : list QCIProfile) : list QCIProfile :=
  match l with
  | [] => [p]
  | p' :: r => if (QCI p <=? QCI p')%Z then p :: l else p' :: insert_qci p r
  end.

Definition sort_qci (l : list QCIProfile) : list QCIProfile := foldr insert_qci [] l.

Definition profile_json (p : QCIProfile) : json :=
  JObj (foldl (fun l e => jset (fst e) (JInt (snd e)) l) []
    [("qci", QCI p); ("discard_timer", DiscardTimer p); ("pdcp_sn_size", PDCPSNSize p); ("t_poll_retx", TPollRetx p);
     ("max_retx_thresh", MaxRetxThresh p); ("t_reordering", TReordering p); ("priority", Priority p)]).

Definition renderQCIProfiles (profiles : list QCIProfile) : list json := profile_json <$> sort_qci profiles.

Record IDs := mkIDs { SubNetwork : string; ManagedElement : string; ENBFunctionID : string }.

(** An entry of an object that is only there when it has members. *)
Definition set_nonempty (k : string) (wrap : list (string * json) -> json) (v l : list (string * json)) : list (string * json) :=
  match v with [] => l | _ => jset k (wrap v) l end.

Section Render.
Context {GL : GoLib}.

(** The JSON encoding of a getter's value; no getter gives a float32, a json.Number or another type. *)
Definition json_of (v : any) : json :=
  match v with
  | AString s => JStr s
  | AInt z | AInt64 z | AInt32 z | AUint32 z => JInt z
  | AFloat64 f | AFloat32 f => JNum (FormatFloat f (-1))
  | ABool x => JBool x
  | ANumber s => JNum s
  | AOther => JObj []
  end.

Definition renderValue (b : leafBinding) (cfg : EditableConfig) : json :=
  match Kind b, Get b cfg with
  | kindFloat64, AFloat64 f => JStr (FormatFloat f (-1))
  | _, value => json_of value
  end.

Definition setRenderedLeaves (dst : list (string * json)) (cfg : EditableConfig) (r : registry) (prefix : string) :
    list (string * json) :=
  let paths := sort_paths (List.filter (fun b => child_of prefix b && Include b cfg) r) in
  foldl (fun dst b => jset (renderedChildName prefix (Path b)) (renderValue b cfg) dst) dst paths.

Definition render_enb (r : registry) (ids : IDs) (cfg : EditableConfig) : list (string * json) :=
  let enb := setRenderedLeaves [("id", JStr (ENBFunctionID ids))] cfg r baseENBFunction in
  let cell := setRenderedLeaves [] cfg r baseEUtranCell in
  let enb := set_nonempty "EUtranCell" (fun c => JArr [JObj c]) cell enb in
  let scheduler := setRenderedLeaves [] cfg r baseScheduler in
  let enb := set_nonempty "srsran-vendor-ext:scheduler" JObj scheduler enb in
  let sib := setRenderedLeaves [] cfg r baseSIB in
  let timers := setRenderedLeaves [] cfg r baseTimers in
  let sib := set_nonempty "ue_timers_and_constants" JObj timers sib in
  let enb := set_nonempty "srsran-vendor-ext:sib" JObj sib enb in
  let enb := match renderQCIProfiles (QCIProfiles cfg) with
             | [] => enb
             | profiles => jset "srsran-vendor-ext:qci_profiles" (JArr profiles) enb
             end in
  let expert := setRenderedLeaves [] cfg r baseExpert in
  set_nonempty "srsran-vendor-ext:expert" JObj expert enb.

Definition render_artifact (r : registry) (ids : IDs) (cfg : EditableConfig) : json :=
  let managed := jset "id" (JStr (ManagedElement ids)) [("ENBFunction", JArr [JObj (render_enb r ids cfg)])] in
  let subnetwork := jset "id" (JStr (SubNetwork ids)) [("ManagedElement", JArr [JObj managed])] in
  JObj [("_3gpp-common-managed-element:SubNetwork", JArr [JObj subnetwork])].

End Render.

(** ** Writing an artifact *)

Definition WriteSnapshotFile (path : string) (data : bytes) (w : World) : World * result string unit :=
  if String.eqb path "" then (w, Ok tt)
  else
    match MkdirAll (filepath_Dir path) w with
    | (w, Err e) => (w, Err (strerror e))
    | (w, Ok _) =>
        let tmp := path +:+ ".tmp" in
        match WriteFile tmp data 420 w with
        | (w, Err e) => (w, Err (strerror e))
        | (w, Ok _) =>
            match Rename tmp path w with
            | (w, Err e) => (w, Err (strerror e))
            | (w, Ok _) => (w, Ok tt)
            end
        end
    end.

(** *** Publishing is atomic *)

(** Publishing a file: nothing but the file and its temporary sibling is touched, the file has its
    old contents or the new ones, and the new ones when the call succeeds. *)
Lemma WriteSnapshotFile_spec (path : string) (data : bytes) (w : World) :
  path <> "" ->
  let '(w', r) := WriteSnapshotFile path data w in
  (forall k, k <> path -> k <> path +:+ ".tmp" -> disk w' !! k = disk w !! k) /\
  match r with
  | Ok _ => exists i, disk w' !! path = Some i /\ contents i = data
  | Err _ => disk w' !! path = disk w !! path
  end.
Proof.
  intros Hp. unfold WriteSnapshotFile. rewrite (proj2 (String.eqb_neq _ _) Hp).
  assert (Hm : disk (fst (MkdirAll (filepath_Dir path) w)) = disk w).
  { unfold MkdirAll. match goal with |- context [syscall ?a w] => destruct (syscall_disk a w) as [?|(d & [] & [= <-] & ? & _)] end; done. }
  destruct (MkdirAll _ w) as [w1 [[]|e]]; cbn [fst] in Hm; [|rewrite Hm; done].
  pose proof (WriteFile_spec (path +:+ ".tmp") data 420 w1) as Hw. destruct (WriteFile _ data 420 w1) as [w2 [[]|e]].
  2:{ destruct Hw as [Hw _]. split; [intros k _ Hk; rewrite Hw, Hm by done; done|]. rewrite Hw, Hm; [done|]. intros He. by apply (tmp_name path). }
  destruct Hw as [Hw Hok]. destruct (Hok eq_refl) as (i & Hi & Hc). unfold Rename.
  match goal with |- context [syscall ?a w2] => pose proof (syscall_disk a w2) as Hs; set (act := a) in * end.
  assert (Hact : act (disk w2) = inr (<[path := i]> (delete (path +:+ ".tmp") (disk w2)), tt)) by (unfold act; by rewrite Hi).
  assert (Hd : forall w3 r, syscall act w2 = (w3, r) -> is_ok r = true -> disk w3 = <[path := i]> (delete (path +:+ ".tmp") (disk w2))).
  { intros w3 r E Hr. unfold syscall in E. pose proof (tick_disk w2) as Ht. destruct (tick w2) as [u [[e n]|]]; [by simplify_eq|].
    cbn in Ht. rewrite Ht, Hact in E. simplify_eq. by destruct u. }
  assert (Herr : forall w3 e, syscall act w2 = (w3, Err e) -> disk w3 = disk w2).
  { intros w3 e E. rewrite E in Hs. destruct Hs as [?|(d & a & _ & _ & Hx)]; [done|]. by cbn in Hx. }
  destruct (syscall act w2) as [w3 [[]|e]] eqn:E.
  - rewrite (Hd _ _ eq_refl eq_refl). split.
    + intros k H1 H2. rewrite lookup_insert_ne, lookup_delete_ne, Hw, Hm by done. done.
    + exists i. by rewrite lookup_insert_eq.
  - rewrite (Herr _ _ eq_refl). split; [intros k _ Hk; by rewrite Hw, Hm|]. rewrite Hw, Hm; [done|]. intros He. by apply (tmp_name path).
Qed.

(** ** Where RFC 7951 puts a leaf

    A member is named with its module unless its parent is of the same module; a list instance is an
    element of an array, of which an artifact has one per list. *)

Definition qualified (seg : bytes) : bytes * bytes :=
  match index_of seg (str ":") with
  | Some idx => (take idx seg, drop (S idx) seg)
  | None => ([], seg)
  end.

Fixpoint member_names_from (parent : bytes) (segs : list bytes) : list string :=
  match segs with
  | [] => []
  | seg :: r =>
      let '(md, name) := qualified seg in
      unstr (if bool_decide (md = parent) then name else seg) :: member_names_from md r
  end.

Definition member_names (path : string) : list string := member_names_from [] (tail (split_on "/" (str path))).

Definition member (k : string) (j : json) : option json :=
  match j with
  | JObj l | JArr (JObj l :: _) => jget k l
  | _ => None
  end.

Definition artifact_at (names : list string) (j : json) : option json :=
  foldl (fun o k => o ≫= member k) (Some j) names.

(** ** Lemmas *)

Lemma jget_set_nonempty (k k' : string) wrap (v l : list (string * json)) :
  jget k (set_nonempty k' wrap v l) =
  if String.eqb k' k then match v with [] => jget k l | _ => Some (wrap v) end else jget k l.
Proof. destruct v; cbn [set_nonempty]; [by destruct (String.eqb k' k)|]. by rewrite jget_jset. Qed.

Lemma insert_path_elem (b b' : leafBinding) (l : list leafBinding) : b' ∈ insert_path b l <-> b' = b \/ b' ∈ l.
Proof.
  induction l as [|a l IH]; cbn; [set_solver|]. destruct (String.leb (Path b) (Path a)); rewrite !elem_of_cons; [tauto|].
  rewrite IH. tauto.
Qed.

Lemma sort_paths_elem (b : leafBinding) (l : list leafBinding) : b ∈ sort_paths l <-> b ∈ l.
Proof. induction l as [|a l IH]; cbn; [done|]. by rewrite insert_path_elem, IH, elem_of_cons. Qed.

Section RenderLemmas.
Context {GL : GoLib}.

(** A fold of assignments: the entry of a name no assignment has, and of a name one assignment has. *)
Lemma jget_fold_other (f : leafBinding -> string) (g : leafBinding -> json) (k : string) (l : list leafBinding) (dst : list (string * json)) :
  (forall b, b ∈ l -> f b <> k) -> jget k (foldl (fun dst b => jset (f b) (g b) dst) dst l) = jget k dst.
Proof.
  revert dst. induction l as [|b l IH]; intros dst Hk; cbn; [done|].
  rewrite IH by (intros; apply Hk; by right). rewrite jget_jset, (proj2 (String.eqb_neq (f b) k)); [done|]. apply Hk. left.
Qed.

Lemma jget_fold_one (f : leafBinding -> string) (g : leafBinding -> json) (b : leafBinding) (l : list leafBinding) (dst : list (string * json)) :
  b ∈ l -> (forall b', b' ∈ l -> f b' = f b -> b' = b) ->
  jget (f b) (foldl (fun dst b => jset (f b) (g b) dst) dst l) = Some (g b).
Proof.
  revert dst. induction l as [|a l IH]; intros dst Hb Hu; [by apply not_elem_of_nil in Hb|]. cbn.
  destruct (decide (Exists (fun b' => f b' = f b) l)) as [He|Hn].
  - apply Exists_exists in He as (b' & Hb' & Hf). apply IH; [|intros; apply Hu; [by right|done]].
    rewrite <- (Hu b'); [done|by right|done].
  - assert (Ha : a = b).
    { apply elem_of_cons in Hb as [->|Hb]; [done|]. exfalso. apply Hn, Exists_exists. by exists b. }
    subst a. rewrite jget_fold_other; [by rewrite jget_jset, string_eqb_refl|].
    intros b' Hb' Hf. apply Hn, Exists_exists. by exists b'.
Qed.

(** The leaves of one node. *)
Lemma rendered_one (dst : list (string * json)) (cfg : EditableConfig) (r : registry) (prefix : string) (b : leafBinding) :
  b ∈ r -> child_of prefix b = true -> jget (renderedChildName prefix (Path b)) dst = None ->
  (forall b', b' ∈ r -> child_of prefix b' = true -> renderedChildName prefix (Path b') = renderedChildName prefix (Path b) -> b' = b) ->
  jget (renderedChildName prefix (Path b)) (setRenderedLeaves dst cfg r prefix) =
    if Include b cfg then Some (renderValue b cfg) else None.
Proof.
  intros Hb Hc Hd Hu. unfold setRenderedLeaves.
  assert (Hin : forall b', b' ∈ sort_paths (List.filter (fun b => child_of prefix b && Include b cfg) r) <->
                b' ∈ r /\ child_of prefix b' = true /\ Include b' cfg = true).
  { intros b'. by rewrite sort_paths_elem, list_elem_of_In, filter_In, andb_true_iff, <- list_elem_of_In. }
  destruct (Include b cfg) eqn:Ei.
  - apply (jget_fold_one (fun b => renderedChildName prefix (Path b)) (fun b => renderValue b cfg)); [by apply Hin|].
    intros b' Hb'. apply Hin in Hb' as (? & ? & _). auto.
  - rewrite (jget_fold_other (fun b => renderedChildName prefix (Path b)) (fun b => renderValue b cfg)); [done|].
    intros b' Hb' Hn. apply Hin in Hb' as (Hr & Hc' & Hi). rewrite (Hu b' Hr Hc' Hn) in Hi. congruence.
Qed.

Lemma rendered_other (dst : list (string * json)) (cfg : EditableConfig) (r : registry) (prefix k : string) :
  (forall b, b ∈ r -> child_of prefix b = true -> renderedChildName prefix (Path b) <> k) ->
  jget k (setRenderedLeaves dst cfg r prefix) = jget k dst.
Proof.
  intros Hk. unfold setRenderedLeaves. rewrite (jget_fold_other (fun b => renderedChildName prefix (Path b)) (fun b => renderValue b cfg)); [done|].
  intros b Hb. rewrite sort_paths_elem, list_elem_of_In, filter_In, andb_true_iff in Hb. destruct Hb as (Hb & Hc & _).
  apply Hk; [by apply list_elem_of_In|done].
Qed.

(** *** The registry's nodes *)

Definition nodes : list string := [baseENBFunction; baseEUtranCell; baseScheduler; baseSIB; baseTimers; baseExpert].

(** Every binding is a leaf of one of the six nodes, its JSON name is the last of its member names,
    and no other leaf of the node has the same name. *)
Lemma bindings_nodes :
  Forall (fun b => Exists (fun p => child_of p b = true /\ member_names (Path b) = member_names p ++ [renderedChildName p (Path b)]) nodes) bindings.
Proof.
  apply (bool_decide_unpack (Forall (fun b => Exists (fun p =>
    child_of p b = true /\ member_names (Path b) = member_names p ++ [renderedChildName p (Path b)]) nodes) bindings)).
  by vm_compute.
Qed.

Definition child_names (r : registry) (p : string) : list string :=
  (fun b => renderedChildName p (Path b)) <$> List.filter (child_of p) r.

Lemma child_names_nodup : Forall (fun p => NoDup (child_names bindings p)) nodes.
Proof. apply (bool_decide_unpack (Forall (fun p => NoDup (child_names bindings p)) nodes)). by vm_compute. Qed.

Lemma NoDup_fmap_inj {A B} (f : A -> B) (l : list A) (x y : A) : NoDup (f <$> l) -> x ∈ l -> y ∈ l -> f x = f y -> x = y.
Proof.
  intros Hn [i Hi]%list_elem_of_lookup [j Hj]%list_elem_of_lookup Hf.
  assert (i = j) by (apply (NoDup_lookup _ _ _ (f x) Hn); rewrite list_lookup_fmap; [by rewrite Hi|by rewrite Hj, Hf]).
  congruence.
Qed.

Lemma filter_elem {A} (f : A -> bool) (x : A) (l : list A) : x ∈ l -> f x = true -> x ∈ List.filter f l.
Proof. intros Hx Hf. by rewrite list_elem_of_In, filter_In, <- list_elem_of_In. Qed.

Lemma child_name_in (p : string) (r : registry) (b : leafBinding) :
  b ∈ r -> child_of p b = true ->
  renderedChildName p (Path b) ∈ child_names r p.
Proof. unfold child_names. intros Hb Hc. apply list_elem_of_fmap. exists b. split; [done|by apply filter_elem]. Qed.

Lemma child_unique_in (p : string) (r : registry) (b b' : leafBinding) :
  NoDup (child_names r p) ->
  b ∈ r -> child_of p b = true -> b' ∈ r -> child_of p b' = true ->
  renderedChildName p (Path b') = renderedChildName p (Path b) -> b' = b.
Proof. intros Hu Hb Hc Hb' Hc' Hn. apply (NoDup_fmap_inj _ _ _ _ Hu); [by apply filter_elem..|done]. Qed.

Lemma child_unique (p : string) (b b' : leafBinding) :
  p ∈ nodes -> b ∈ bindings -> child_of p b = true -> b' ∈ bindings -> child_of p b' = true ->
  renderedChildName p (Path b') = renderedChildName p (Path b) -> b' = b.
Proof.
  intros Hp. pose proof child_names_nodup as Hu. rewrite Forall_forall in Hu. exact (child_unique_in p bindings b b' (Hu p Hp)).
Qed.

(** The names a node's own objects use are no leaf names. *)
Definition container_names : list string :=
  ["EUtranCell"; "srsran-vendor-ext:scheduler"; "srsran-vendor-ext:sib"; "ue_timers_and_constants";
   "srsran-vendor-ext:qci_profiles"; "srsran-vendor-ext:expert"].

Lemma container_fresh : Forall (fun p => Forall (fun k => k ∉ child_names bindings p) container_names) nodes /\ "id" ∉ child_names bindings baseENBFunction.
Proof.
  apply (bool_decide_unpack (Forall (fun p => Forall (fun k => k ∉ child_names bindings p) container_names) nodes /\ "id" ∉ child_names bindings baseENBFunction)).
  by vm_compute.
Qed.

Lemma rendered_container (p k : string) (dst : list (string * json)) (cfg : EditableConfig) :
  p ∈ nodes -> k ∈ container_names -> jget k (setRenderedLeaves dst cfg newRegistry p) = jget k dst.
Proof.
  intros Hp Hk. apply rendered_other. intros b Hb Hc Hn. destruct container_fresh as [Hf _].
  rewrite Forall_forall in Hf. specialize (Hf p Hp). rewrite Forall_forall in Hf. apply (Hf k Hk). rewrite <- Hn.
  exact (child_name_in p bindings b Hb Hc).
Qed.

Lemma child_not_container (p k : string) (b : leafBinding) :
  p ∈ nodes -> k ∈ container_names -> b ∈ bindings -> child_of p b = true -> String.eqb k (renderedChildName p (Path b)) = false.
Proof.
  intros Hp Hk Hb Hc. apply String.eqb_neq. intros ->. destruct container_fresh as [Hf _].
  rewrite Forall_forall in Hf. specialize (Hf p Hp). rewrite Forall_forall in Hf. apply (Hf _ Hk).
  exact (child_name_in p bindings b Hb Hc).
Qed.

(** A leaf's entry among the leaves of its node. *)
Lemma leaf_in_node (p : string) (b : leafBinding) (dst : list (string * json)) (cfg : EditableConfig) :
  p ∈ nodes -> b ∈ bindings -> child_of p b = true -> jget (renderedChildName p (Path b)) dst = None ->
  jget (renderedChildName p (Path b)) (setRenderedLeaves dst cfg newRegistry p) =
    if Include b cfg then Some (renderValue b cfg) else None.
Proof. intros Hp Hb Hc Hd. apply rendered_one; [done|done|done|]. intros b'. by apply child_unique. Qed.

(** The entry of a leaf one level below an object. *)
Lemma below (k name : string) (wrap : list (string * json) -> json) (v l : list (string * json)) :
  (forall v, member name (wrap v) = jget name v) -> jget k l = None ->
  (match v with [] => jget k l | _ => Some (wrap v) end) ≫= member name = jget name v.
Proof. intros Hw Hl. destruct v; [by rewrite Hl|apply Hw]. Qed.

Lemma artifact_at_app (a b : list string) (j : json) :
  artifact_at (a ++ b) j = foldl (fun o k => o ≫= member k) (artifact_at a j) b.
Proof. unfold artifact_at. by rewrite foldl_app. Qed.

Lemma artifact_enb (ids : IDs) (cfg : EditableConfig) :
  artifact_at (member_names baseENBFunction) (render_artifact newRegistry ids cfg) =
  Some (JArr [JObj (render_enb newRegistry ids cfg)]).
Proof. unfold render_artifact. generalize (render_enb newRegistry ids cfg) as e. intros e. vm_compute. reflexivity. Qed.

(** *** The entries of the eNB object *)

Ltac node := repeat constructor.

Lemma enb_profiles (cfg : EditableConfig) (k : string) (l : list (string * json)) :
  k <> "srsran-vendor-ext:qci_profiles" ->
  jget k (match renderQCIProfiles (QCIProfiles cfg) with
          | [] => l
          | profiles => jset "srsran-vendor-ext:qci_profiles" (JArr profiles) l
          end) = jget k l.
Proof.
  intros Hk. destruct (renderQCIProfiles _); [done|]. rewrite jget_jset, (proj2 (String.eqb_neq _ _)); [done|congruence].
Qed.

Lemma enb_leaf (ids : IDs) (cfg : EditableConfig) (b : leafBinding) :
  b ∈ bindings -> child_of baseENBFunction b = true ->
  jget (renderedChildName baseENBFunction (Path b)) (render_enb newRegistry ids cfg) =
    if Include b cfg then Some (renderValue b cfg) else None.
Proof.
  intros Hb Hc. pose proof (fun k Hk => child_not_container baseENBFunction k b ltac:(node) Hk Hb Hc) as Hn.
  unfold render_enb. rewrite jget_set_nonempty, Hn by node. rewrite enb_profiles.
  2:{ intros He. specialize (Hn "srsran-vendor-ext:qci_profiles" ltac:(node)). rewrite He in Hn. by rewrite string_eqb_refl in Hn. }
  rewrite !jget_set_nonempty, !Hn by node. apply leaf_in_node; [node|done|done|]. cbn [jget].
  destruct (String.eqb "id" (renderedChildName baseENBFunction (Path b))) eqn:E; [|done]. b2p. exfalso.
  apply (proj2 container_fresh). rewrite E. exact (child_name_in baseENBFunction bindings b Hb Hc).
Qed.

Lemma enb_start (ids : IDs) (cfg : EditableConfig) (k : string) :
  k ∈ container_names -> jget k (setRenderedLeaves [("id", JStr (ENBFunctionID ids))] cfg newRegistry baseENBFunction) = None.
Proof.
  intros Hk. rewrite rendered_container by (done || node). cbn [jget]. rewrite (proj2 (String.eqb_neq _ _)); [done|].
  intros <-. unfold container_names in Hk. by repeat (apply elem_of_cons in Hk as [Hk|Hk]; [discriminate Hk|]); apply not_elem_of_nil in Hk.
Qed.

(** Looks a concrete name up through the assignments of the eNB object. *)
Ltac concrete_eqb :=
  match goal with
  | |- context [String.eqb ?a ?b] => let r := eval vm_compute in (String.eqb a b) in change (String.eqb a b) with r; cbv iota
  end.

Ltac look_up :=
  unfold render_enb; repeat (rewrite jget_set_nonempty; concrete_eqb);
  rewrite ?enb_profiles by done; repeat (rewrite jget_set_nonempty; concrete_eqb).

Lemma cell_leaf (ids : IDs) (cfg : EditableConfig) (name : string) :
  jget "EUtranCell" (render_enb newRegistry ids cfg) ≫= member name = jget name (setRenderedLeaves [] cfg newRegistry baseEUtranCell).
Proof. look_up. apply (below _ _ (fun c => JArr [JObj c])); [done|]. apply enb_start. node. Qed.

Lemma scheduler_leaf (ids : IDs) (cfg : EditableConfig) (name : string) :
  jget "srsran-vendor-ext:scheduler" (render_enb newRegistry ids cfg) ≫= member name =
  jget name (setRenderedLeaves [] cfg newRegistry baseScheduler).
Proof. look_up. apply (below _ _ JObj); [done|]. look_up. apply enb_start. node. Qed.

Definition sib_object (cfg : EditableConfig) : list (string * json) :=
  set_nonempty "ue_timers_and_constants" JObj (setRenderedLeaves [] cfg newRegistry baseTimers)
    (setRenderedLeaves [] cfg newRegistry baseSIB).

Lemma sib_leaf (ids : IDs) (cfg : EditableConfig) (name : string) :
  jget "srsran-vendor-ext:sib" (render_enb newRegistry ids cfg) ≫= member name = jget name (sib_object cfg).
Proof. look_up. unfold sib_object. apply (below _ _ JObj); [done|]. look_up. apply enb_start. node. Qed.

Lemma expert_leaf (ids : IDs) (cfg : EditableConfig) (name : string) :
  jget "srsran-vendor-ext:expert" (render_enb newRegistry ids cfg) ≫= member name =
  jget name (setRenderedLeaves [] cfg newRegistry baseExpert).
Proof. look_up. apply (below _ _ JObj); [done|]. look_up. apply enb_start. node. Qed.

Lemma timers_leaf (cfg : EditableConfig) (name : string) :
  jget "ue_timers_and_constants" (sib_object cfg) ≫= member name = jget name (setRenderedLeaves [] cfg newRegistry baseTimers).
Proof.
  unfold sib_object. rewrite jget_set_nonempty. concrete_eqb. apply (below _ _ JObj); [done|].
  rewrite rendered_container by node. done.
Qed.

Lemma sib_object_leaf (cfg : EditableConfig) (b : leafBinding) :
  b ∈ bindings -> child_of baseSIB b = true ->
  jget (renderedChildName baseSIB (Path b)) (sib_object cfg) = if Include b cfg then Some (renderValue b cfg) else None.
Proof.
  intros Hb Hc. unfold sib_object. rewrite jget_set_nonempty, (child_not_container baseSIB) by (done || node).
  apply leaf_in_node; [node|done|done|done].
Qed.

(** ** Theorem *)

(** C23: an artifact holds each editable leaf where RFC 7951 puts it. In the published document of a
    configuration, the member reached by the leaf's schema path (module names dropped where the
    parent is of the same module, one instance per list) is the value of the leaf when the binding
    includes it, decimal numbers as strings, and absent otherwise. *)
Theorem artifact_holds_leaves (b : leafBinding) (ids : IDs) (cfg : EditableConfig) :
  b ∈ newRegistry ->
  artifact_at (member_names (Path b)) (render_artifact newRegistry ids cfg) =
    if Include b cfg then Some (renderValue b cfg) else None.
Proof.
  intros Hb. pose proof bindings_nodes as Hn. rewrite Forall_forall in Hn. specialize (Hn b Hb).
  apply Exists_exists in Hn as (p & Hp & Hc & ->). unfold nodes in Hp.
  assert (Hin : p ∈ nodes) by done.
  repeat (apply elem_of_cons in Hp as [->|Hp]); [| | | | | |by apply not_elem_of_nil in Hp];
    match goal with |- context [member_names ?p ++ _] => rewrite (artifact_at_app (member_names p)) end.
  - rewrite artifact_enb. by apply enb_leaf.
  - change (member_names baseEUtranCell) with (member_names baseENBFunction ++ ["EUtranCell"]).
    rewrite artifact_at_app, artifact_enb. cbn [foldl mbind option_bind member]. rewrite cell_leaf. by apply leaf_in_node.
  - change (member_names baseScheduler) with (member_names baseENBFunction ++ ["srsran-vendor-ext:scheduler"]).
    rewrite artifact_at_app, artifact_enb. cbn [foldl mbind option_bind member]. rewrite scheduler_leaf. by apply leaf_in_node.
  - change (member_names baseSIB) with (member_names baseENBFunction ++ ["srsran-vendor-ext:sib"]).
    rewrite artifact_at_app, artifact_enb. cbn [foldl mbind option_bind member]. rewrite sib_leaf. by apply sib_object_leaf.
  - change (member_names baseTimers) with (member_names baseENBFunction ++ ["srsran-vendor-ext:sib"; "ue_timers_and_constants"]).
    rewrite artifact_at_app, artifact_enb. cbn [foldl mbind option_bind member]. rewrite sib_leaf, timers_leaf. by apply leaf_in_node.
  - change (member_names baseExpert) with (member_names baseENBFunction ++ ["srsran-vendor-ext:expert"]).
    rewrite artifact_at_app, artifact_enb. cbn [foldl mbind option_bind member]. rewrite expert_leaf. by apply leaf_in_node.
Qed.

End RenderLemmas.

Lemma artifact_holds_leaves_witness :
  artifact_at ["_3gpp-common-managed-element:SubNetwork"; "ManagedElement"; "ENBFunction"; "EUtranCell"; "pci"]
    (render_artifact (GL:=ascii_golib) newRegistry (mkIDs "1" "enb" "1") sample_cfg) = Some (JInt (PCI sample_cfg)).
Proof.
  exact (artifact_holds_leaves (GL:=ascii_golib) sample_binding (mkIDs "1" "enb" "1") sample_cfg ltac:(do 12 right; left)).
Defined.
