(* ===== verification/NetconfManager.v ===== *)
(** * The NETCONF configuration manager (internal/ems/netconfcm/manager.go)

    The manager ties the configuration store, the datastore locks, the YANG bindings and the
    published artifacts together. The YANG library, the resolver of a serial number to a deployment
    target and the restart of a target are parameters; [now] arguments are the successive readings
    of the clock. Every handler is one step: the code's mutexes make its calls on the store and on
    the locks atomic, not the whole handler. *)
From S2P Require Import Prelude GoNum GoStrings Json FileSystem Locks ConfigData ConfigEdit ConfigStore Scan ConfigFiles Persist Bindings Artifacts.

(** ** Requests *)

Record EditRequest := mkEdit {
  er_session : SessionMeta;
  er_Target : string;
  er_DefaultOperation : string;
  er_TestOption : string;
  er_ErrorOption : string;
  er_Payload : string
}.

Record ValidateRequest := mkValidate { vr_Source : string; vr_Payload : string }.
Record LockRequest := mkLockReq { lr_session : SessionMeta; lr_Target : string }.
Record ArtifactPaths := mkPaths { Running : string; Candidate : string }.
Record extractedLeaf := mkLeaf { el_Path : string; el_Value : string; el_IsKey : bool }.

(** An error a handler returns: an RPC error or any other. *)
Inductive merror :=
| ERPC (e : RPCError)
| EPlain (msg : string).

(** ** State *)

Record Manager := mkManager {
  yangDir : string;
  ids : IDs;
  artifacts : ArtifactPaths;
  store : Store;
  mlocks : lockManager;
  mregistry : registry;
  lastEditSession : Z
}.

(** Assignment to an entry of the map of changes. *)
Fixpoint change_set (k : string) (v : any) (l : list (string * any)) : list (string * any) :=
  match l with
  | [] => [(k, v)]
  | (k', v') :: r => if String.eqb k' k then (k, v) :: r else (k', v') :: change_set k v r
  end.

(** What the manager calls outside the repository's Go code: the YANG library behind bridge_cgo.go, the
    resolver of a serial number, and the lifecycle supervisor (None where the code has nil). *)
Class Platform := {
  validateYANGJSON : string -> bytes -> option string;
  extractLeaves : string -> bytes -> result string (list extractedLeaf);
  resolveTarget : option (string -> string * bool);
  TriggerRestart : option (string -> option string)
}.

Section Manager.
Context {GL : GoLib} {PF : Platform}.

Definition invalid (msg : string) : merror := ERPC (NewRPCError ErrorTagInvalidValue msg).

(** ** Artifacts *)

Definition writeArtifact (m : Manager) (path : string) (cfg : EditableConfig) (w : World) : World * option merror :=
  if String.eqb (TrimSpace path) "" then (w, None)
  else
    let raw := Marshal (render_artifact (mregistry m) (ids m) cfg) in
    match validateYANGJSON (yangDir m) raw with
    | Some e => (w, Some (EPlain ("artifact " +:+ path +:+ " failed YANG validation: " +:+ e)))
    | None => match WriteSnapshotFile path raw w with
              | (w, Err e) => (w, Some (EPlain e))
              | (w, Ok _) => (w, None)
              end
    end.

Definition RefreshArtifacts (m : Manager) (w : World) : World * option merror :=
  let run := running (store m) in
  let candidate := cand (store m) in
  match writeArtifact m (Running (artifacts m)) run w with
  | (w, Some e) => (w, Some e)
  | (w, None) => writeArtifact m (Candidate (artifacts m)) candidate w
  end.

Definition NewManager (dir : string) (i : IDs) (paths : ArtifactPaths) (st : option Store) (w : World) :
    World * result merror Manager :=
  match st with
  | None => (w, Err (EPlain "configuration store is not configured"))
  | Some st =>
      let m := mkManager (TrimSpace dir) i paths st newLockManager newRegistry 0%Z in
      match RefreshArtifacts m w with
      | (w, Some e) => (w, Err e)
      | (w, None) => (w, Ok m)
      end
  end.

(** ** The owner of the candidate's edits *)

Definition noteCandidateEdit (sessionID : Z) (m : Manager) : Manager :=
  if (sessionID =? 0)%Z then m else m <|lastEditSession := sessionID|>.

Definition clearCandidateEditOwner (m : Manager) : Manager := m <|lastEditSession := 0%Z|>.

Definition consumeCandidateEditOwner (sessionID : Z) (m : Manager) : Manager * bool :=
  if (sessionID =? 0)%Z then (m, false)
  else if negb (lastEditSession m =? sessionID)%Z then (m, false)
  else (m <|lastEditSession := 0%Z|>, true).

Definition expiredCandidateEditOwner (expired : gset Z) (m : Manager) : Manager * bool :=
  if negb (lastEditSession m =? 0)%Z && bool_decide (lastEditSession m ∈ expired)
  then (m <|lastEditSession := 0%Z|>, true)
  else (m, false).

(** ** Payloads *)

Fixpoint extract_loop (r : registry) (candidate : EditableConfig) (leaves : list extractedLeaf)
    (changes : list (string * any)) (editableLeaves : nat) : result merror (list (string * any) * nat) :=
  match leaves with
  | [] => Ok (changes, editableLeaves)
  | leaf :: rest =>
      match resolve r (el_Path leaf) (el_IsKey leaf) (el_Value leaf) with
      | Err e => Err (invalid e)
      | Ok None => extract_loop r candidate rest changes editableLeaves
      | Ok (Some (key, value)) =>
          if String.eqb key "" then extract_loop r candidate rest changes editableLeaves
          else
            let same := match currentValue r candidate key with Some current => valuesEqual current value | None => false end in
            extract_loop r candidate rest (if same then changes else change_set key value changes) (S editableLeaves)
      end
  end.

Definition extractChanges (payload : string) (m : Manager) : result merror (list (string * any) * nat) :=
  let payload := TrimSpace payload in
  if String.eqb payload "" then Err (invalid "payload is empty")
  else match validateYANGJSON (yangDir m) (str payload) with
       | Some e => Err (invalid e)
       | None => match extractLeaves (yangDir m) (str payload) with
                 | Err e => Err (invalid e)
                 | Ok leaves => extract_loop (mregistry m) (cand (store m)) leaves [] 0
                 end
       end.

Definition validateEditOptions (defaultOperation testOption errorOption : string) : option string :=
  let unknown s l := negb (existsb (String.eqb (TrimSpace s)) l) in
  if unknown defaultOperation [""; "merge"; "replace"; "none"] then Some ("unsupported default-operation " +:+ Quote defaultOperation)
  else if unknown testOption [""; "set"; "test-then-set"; "test-only"] then Some ("unsupported test-option " +:+ Quote testOption)
  else if unknown errorOption [""; "stop-on-error"; "rollback-on-error"] then Some ("unsupported error-option " +:+ Quote errorOption)
  else None.

(** ** Handlers *)

Definition with_locks (m : Manager) (r : lockManager * option RPCError) : Manager * option merror :=
  (m <|mlocks := fst r|>, ERPC <$> snd r).

Definition EditFlat (changes : list (string * any)) (m : Manager) (w : World) : Manager * World * result merror EditableConfig :=
  match Edit changes (store m) with
  | (st, Err e) => (m <|store := st|>, w, Err (EPlain e))
  | (st, Ok cfg) =>
      let m := m <|store := st|> in
      match RefreshArtifacts m w with
      | (w, Some e) => (m, w, Err e)
      | (w, None) => (m, w, Ok cfg)
      end
  end.

Definition EditConfig (req : EditRequest) (now1 now2 : time) (m : Manager) (w : World) :
    Manager * World * result merror EditableConfig :=
  match with_locks m (ensure "candidate" (er_session req) ErrorTagInUse now1 now2 (mlocks m)) with
  | (m, Some e) => (m, w, Err e)
  | (m, None) =>
      if negb (String.eqb (TrimSpace (er_Target req)) "candidate")
      then (m, w, Err (invalid "only target candidate is supported"))
      else match validateEditOptions (er_DefaultOperation req) (er_TestOption req) (er_ErrorOption req) with
      | Some e => (m, w, Err (invalid e))
      | None =>
      match extractChanges (er_Payload req) m with
      | Err e => (m, w, Err e)
      | Ok (changes, leafCount) =>
          if (leafCount =? 0)%nat
          then (m, w, Err (invalid "no editable config true leaves found in edit-config payload"))
          else match changes with
          | [] => (m, w, Ok (cand (store m)))
          | _ =>
              if String.eqb (TrimSpace (er_TestOption req)) "test-only"
              then match PreviewEdit changes (store m) with
                   | Err e => (m, w, Err (invalid e))
                   | Ok cfg => (m, w, Ok cfg)
                   end
              else match Edit changes (store m) with
                   | (st, Err e) => (m <|store := st|>, w, Err (invalid e))
                   | (st, Ok cfg) =>
                       let m := noteCandidateEdit (SessionID (er_session req)) (m <|store := st|>) in
                       match RefreshArtifacts m w with
                       | (w, Some e) => (m, w, Err e)
                       | (w, None) => (m, w, Ok cfg)
                       end
                   end
          end
      end
      end
  end.

Definition Validate (req : ValidateRequest) (m : Manager) : option merror :=
  if negb (String.eqb (vr_Payload req) "") then
    match extractChanges (vr_Payload req) m with
    | Err e => Some e
    | Ok (changes, leafCount) =>
        if (leafCount =? 0)%nat then Some (invalid "no editable config true leaves found in validate payload")
        else match changes with
             | [] => None
             | _ => match PreviewEdit changes (store m) with
                    | Err e => Some (invalid e)
                    | Ok _ => None
                    end
             end
    end
  else
    let source := TrimSpace (vr_Source req) in
    let source := if String.eqb source "" then "candidate" else source in
    if String.eqb source "candidate" then invalid <$> ValidateConfig (cand (store m))
    else if String.eqb source "running" then invalid <$> ValidateConfig (running (store m))
    else Some (invalid ("unsupported validate source " +:+ Quote source)).

Definition Lock (req : LockRequest) (now : time) (m : Manager) : Manager * option merror :=
  with_locks m (lock (lr_Target req) (lr_session req) now (mlocks m)).

(** Drop the candidate's edits. *)
Definition reset (m : Manager) : Manager := m <|store ::= ResetCandidate|>.

Definition Unlock (req : LockRequest) (now1 now2 : time) (m : Manager) (w : World) : Manager * World * option merror :=
  match with_locks m (unlock (lr_Target req) (lr_session req) now1 now2 (mlocks m)) with
  | (m, Some e) => (m, w, Some e)
  | (m, None) =>
      let m := clearCandidateEditOwner (reset m) in
      let '(w, e) := RefreshArtifacts m w in
      (m, w, e)
  end.

Definition DiscardChanges (req : SessionMeta) (now1 now2 : time) (m : Manager) (w : World) :
    Manager * World * result merror EditableConfig :=
  match with_locks m (ensure "candidate" req ErrorTagInUse now1 now2 (mlocks m)) with
  | (m, Some e) => (m, w, Err e)
  | (m, None) =>
      let m := clearCandidateEditOwner (reset m) in
      match RefreshArtifacts m w with
      | (w, Some e) => (m, w, Err e)
      | (w, None) => (m, w, Ok (cand (store m)))
      end
  end.

(** Undo a persisted candidate that cannot go live. *)
Definition abandon (backup : FileBackup) (m : Manager) (w : World) : Manager * World :=
  let w := fst (RollbackPersist (store m) backup w) in
  let m := clearCandidateEditOwner (reset m) in
  (m, fst (RefreshArtifacts m w)).

(** The restart a commit asks for: none, or its outcome. *)
Definition restart_outcome (needsRestart : bool) (next : EditableConfig) : option string :=
  let serial := TrimSpace (ENBSerial next) in
  let '(target, ok) := match resolveTarget with Some f => f serial | None => ("", false) end in
  match TriggerRestart with
  | Some restart => if needsRestart && ok && negb (String.eqb (TrimSpace target) "") then restart target else None
  | None => None
  end.

Definition Commit (req : SessionMeta) (now1 now2 now3 now4 : time) (m : Manager) (w : World) :
    Manager * World * result merror EditableConfig :=
  match with_locks m (ensure "candidate" req ErrorTagInUse now1 now2 (mlocks m)) with
  | (m, Some e) => (m, w, Err e)
  | (m, None) =>
  match with_locks m (ensure "running" req ErrorTagLockDenied now3 now4 (mlocks m)) with
  | (m, Some e) => (m, w, Err e)
  | (m, None) =>
  match ValidateConfig (cand (store m)) with
  | Some e => (m, w, Err (invalid e))
  | None =>
  match PersistCandidate (store m) w with
  | (w, Err e) => (m, w, Err (ERPC (NewRPCError ErrorTagOperationFailed e)))
  | (w, Ok (backup, next)) =>
  match restart_outcome (bDirty backup) next with
  | Some e => let '(m, w) := abandon backup m w in (m, w, Err (EPlain e))
  | None =>
  match FinalizeCommit (store m) with
  | (st, Some e) => let '(m, w) := abandon backup (m <|store := st|>) w in (m, w, Err (EPlain e))
  | (st, None) =>
      let m := clearCandidateEditOwner (reset (m <|store := st|>)) in
      match RefreshArtifacts m w with
      | (w, Some e) => (m, w, Err e)
      | (w, None) => (m, w, Ok (running (store m)))
      end
  end
  end
  end
  end
  end
  end.

Definition SessionClose (sessionID : Z) (m : Manager) (w : World) : Manager * World :=
  let '(lm, released) := releaseSession sessionID (mlocks m) in
  let m := m <|mlocks := lm|> in
  let '(m, owner) := if released then (m, true) else consumeCandidateEditOwner sessionID m in
  if owner then let m := reset m in (m, fst (RefreshArtifacts m w)) else (m, w).

Definition ResetSessions (m : Manager) (w : World) : Manager * World :=
  let m := reset (clearCandidateEditOwner (m <|mlocks ::= fun l => fst (resetAll l)|>)) in
  (m, fst (RefreshArtifacts m w)).

Definition KeepAlive (metas : list SessionMeta) (now clock : time) (m : Manager) : Manager :=
  m <|mlocks ::= keepAlive metas now clock|>.

Definition SweepExpiredSessions (now clock : time) (m : Manager) (w : World) : Manager * World * gset Z :=
  let '(lm, expired, candidateExpired) := sweep now clock (mlocks m) in
  let m := m <|mlocks := lm|> in
  let '(m, owner) := if candidateExpired then (m, true) else expiredCandidateEditOwner expired m in
  if owner then let m := reset m in (m, fst (RefreshArtifacts m w), expired) else (m, w, expired).

End Manager.

(** ** Lemmas *)

Lemma ensure_tag `{GoLib} (ds d tag : string) (meta : SessionMeta) (now1 now2 : time) (lm : lockManager) (e : RPCError) :
  normalizeDatastore ds = Some d -> snd (ensure ds meta tag now1 now2 lm) = Some e ->
  Tag e = if String.eqb tag ErrorTagInUse then ErrorTagInUse else ErrorTagLockDenied.
Proof.
  intros Hd. unfold ensure. rewrite Hd. destruct (expireLocked now1 lm) as [[m1 ?] ?].
  destruct (locks _ !! d) as [o|]; [|done]. destruct (negb _); [|done]. cbn. intros [= <-].
  by destruct (String.eqb tag ErrorTagInUse).
Qed.

Section ManagerLemmas.
Context {GL : GoLib} {PF : Platform}.

(** *** Locks *)

(** The check that opens a handler refuses a session while another one holds the datastore. *)
Lemma ensure_refuses (ds tag : string) (meta : SessionMeta) (now1 now2 : time) (lm : lockManager) (o : Z) :
  normalizeDatastore ds = Some ds -> holders now1 lm !! ds = Some o -> o <> SessionID meta ->
  exists e, snd (ensure ds meta tag now1 now2 lm) = Some e /\ OwnerSessionID e = o /\
    Tag e = (if String.eqb tag ErrorTagInUse then ErrorTagInUse else ErrorTagLockDenied).
Proof.
  intros Hd Hh Hne. pose proof (ensure_refines ds ds tag meta now1 now2 lm Hd) as Hr. unfold LockSpec.check in Hr. rewrite Hh in Hr.
  destruct (Z.eqb_spec o (SessionID meta)); [done|]. injection Hr as _ Hr.
  destruct (snd (ensure ds meta tag now1 now2 lm)) as [e|] eqn:Ee; [|done]. injection Hr as ->. exists e.
  split_and!; [done|done|by eapply ensure_tag].
Qed.

Lemma ensure_passes (ds tag : string) (meta : SessionMeta) (now1 now2 : time) (lm : lockManager) :
  normalizeDatastore ds = Some ds -> snd (ensure ds meta tag now1 now2 lm) = None ->
  holders now1 lm !! ds = None \/ holders now1 lm !! ds = Some (SessionID meta).
Proof.
  intros Hd Hn. pose proof (ensure_refines ds ds tag meta now1 now2 lm Hd) as Hr. rewrite Hn in Hr. unfold LockSpec.check in Hr.
  destruct (holders now1 lm !! ds) as [o|]; [|by left]. destruct (Z.eqb_spec o (SessionID meta)); [subst; by right|done].
Qed.

(** A refusal by the candidate's lock is the answer of edit-config, discard-changes and commit. *)
Lemma candidate_refusal (req : EditRequest) (now1 now2 now3 now4 : time) (m : Manager) (w : World) (e : RPCError) :
  let sess := er_session req in
  let m' := m <|mlocks := fst (ensure "candidate" sess ErrorTagInUse now1 now2 (mlocks m))|> in
  snd (ensure "candidate" sess ErrorTagInUse now1 now2 (mlocks m)) = Some e ->
  forall r, r ∈ [EditConfig req now1 now2 m w; DiscardChanges sess now1 now2 m w; Commit sess now1 now2 now3 now4 m w] -> r = (m', w, Err (ERPC e)).
Proof.
  intros sess m' He r Hr. repeat (apply elem_of_cons in Hr as [->|Hr]); [..|by apply not_elem_of_nil in Hr];
    [unfold EditConfig|unfold DiscardChanges|unfold Commit]; unfold with_locks; fold sess; by rewrite He.
Qed.

(** *** Artifacts *)

Definition artifact_files (m : Manager) : list string :=
  [Running (artifacts m); Running (artifacts m) +:+ ".tmp"; Candidate (artifacts m); Candidate (artifacts m) +:+ ".tmp"].

(** The two artifacts do not overwrite each other. *)
Definition paths_apart (m : Manager) : Prop :=
  Running (artifacts m) <> Candidate (artifacts m) /\ Running (artifacts m) <> Candidate (artifacts m) +:+ ".tmp".

Definition published (m : Manager) (path : string) (cfg : EditableConfig) (w : World) : Prop :=
  TrimSpace path <> "" ->
  exists i, disk w !! path = Some i /\ contents i = Marshal (render_artifact (mregistry m) (ids m) cfg).

Lemma writeArtifact_spec (m : Manager) (path : string) (cfg : EditableConfig) (w : World) :
  let '(w', r) := writeArtifact m path cfg w in
  (forall k, k <> path -> k <> path +:+ ".tmp" -> disk w' !! k = disk w !! k) /\
  (r = None -> published m path cfg w').
Proof.
  unfold writeArtifact. destruct (String.eqb (TrimSpace path) "") eqn:Eb; [split; [done|]; b2p; by intros _ ?|]. b2p.
  destruct (validateYANGJSON _ _) as [e|]; [done|].
  assert (Hp : path <> "") by (intros ->; by apply Eb).
  pose proof (WriteSnapshotFile_spec path (Marshal (render_artifact (mregistry m) (ids m) cfg)) w Hp) as Hw.
  destruct (WriteSnapshotFile path _ w) as [w1 [[]|e]]; destruct Hw as [Hf Hi]; split; try done. intros _ _. done.
Qed.

Lemma RefreshArtifacts_spec (m : Manager) (w : World) :
  let '(w', r) := RefreshArtifacts m w in
  (forall k, k ∉ artifact_files m -> disk w' !! k = disk w !! k) /\
  (r = None -> paths_apart m ->
   published m (Running (artifacts m)) (running (store m)) w' /\ published m (Candidate (artifacts m)) (cand (store m)) w').
Proof.
  unfold RefreshArtifacts. pose proof (writeArtifact_spec m (Running (artifacts m)) (running (store m)) w) as H1.
  destruct (writeArtifact m (Running (artifacts m)) _ w) as [w1 [e|]]; destruct H1 as [F1 P1].
  { split; [|done]. unfold artifact_files. intros k Hk. apply F1; set_solver. }
  pose proof (writeArtifact_spec m (Candidate (artifacts m)) (cand (store m)) w1) as H2.
  destruct (writeArtifact m (Candidate (artifacts m)) _ w1) as [w2 r]; destruct H2 as [F2 P2]. split.
  - unfold artifact_files. intros k Hk. rewrite F2, F1; set_solver.
  - intros Hr [A1 A2]. split; [|by apply P2]. intros Hb. destruct (P1 eq_refl Hb) as (i & Hi & Hc). exists i.
    by rewrite F2.
Qed.

(** *** Handlers as sequences of component operations *)

Inductive mgr_op :=
| MEditFlat (changes : list (string * any))
| MEditConfig (req : EditRequest) (now1 now2 : time)
| MLock (req : LockRequest) (now : time)
| MUnlock (req : LockRequest) (now1 now2 : time)
| MDiscard (req : SessionMeta) (now1 now2 : time)
| MCommit (req : SessionMeta) (now1 now2 now3 now4 : time)
| MSessionClose (sessionID : Z)
| MResetSessions
| MKeepAlive (metas : list SessionMeta) (now clock : time)
| MSweep (now clock : time).

Definition mgr_step (op : mgr_op) (mw : Manager * World) : Manager * World :=
  let '(m, w) := mw in
  match op with
  | MEditFlat changes => fst (EditFlat changes m w)
  | MEditConfig req now1 now2 => fst (EditConfig req now1 now2 m w)
  | MLock req now => (fst (Lock req now m), w)
  | MUnlock req now1 now2 => fst (Unlock req now1 now2 m w)
  | MDiscard req now1 now2 => fst (DiscardChanges req now1 now2 m w)
  | MCommit req now1 now2 now3 now4 => fst (Commit req now1 now2 now3 now4 m w)
  | MSessionClose sessionID => SessionClose sessionID m w
  | MResetSessions => ResetSessions m w
  | MKeepAlive metas now clock => (KeepAlive metas now clock m, w)
  | MSweep now clock => fst (SweepExpiredSessions now clock m w)
  end.

Definition mgr_run (ops : list mgr_op) (mw : Manager * World) : Manager * World := foldl (flip mgr_step) mw ops.

Definition mgr_op_wf (op : mgr_op) : Prop :=
  match op with
  | MEditFlat changes => Forall (fun kv => any_wf (snd kv)) changes
  | _ => True
  end.

(** What a handler may do to the parts of the state: operations of the store, operations of the locks,
    and nothing to the rest but the edit owner. *)
Record effects (m m' : Manager) : Prop := mkEffects {
  eff_store : exists ops, Forall op_wf ops /\ store m' = store_run ops (store m);
  eff_locks : exists ops, mlocks m' = run_ops ops (mlocks m);
  eff_static : yangDir m' = yangDir m /\ ids m' = ids m /\ artifacts m' = artifacts m /\ mregistry m' = mregistry m
}.

Lemma effects_refl (m : Manager) : effects m m.
Proof. split; [by exists []|by exists []|done]. Qed.

Lemma effects_trans (m1 m2 m3 : Manager) : effects m1 m2 -> effects m2 m3 -> effects m1 m3.
Proof.
  intros [(s1 & W1 & S1) (l1 & L1) (? & ? & ? & ?)] [(s2 & W2 & S2) (l2 & L2) (? & ? & ? & ?)]. split.
  - exists (s1 ++ s2). split; [by apply Forall_app|]. rewrite S2, S1. unfold store_run. by rewrite foldl_app.
  - exists (l1 ++ l2). rewrite L2, L1. unfold run_ops. by rewrite foldl_app.
  - split_and!; congruence.
Qed.

Lemma effects_store (op : store_op) (m : Manager) : op_wf op -> effects m (m <|store := store_step op (store m)|>).
Proof. intros Hw. split; [exists [op]; by split; [repeat constructor|destruct m]|exists []; by destruct m|by destruct m]. Qed.

Lemma effects_locks (op : lock_op) (m : Manager) : effects m (m <|mlocks := run_op op (mlocks m)|>).
Proof. split; [exists []; by destruct m|exists [op]; by destruct m|by destruct m]. Qed.

Lemma effects_owner (z : Z) (m : Manager) : effects m (m <|lastEditSession := z|>).
Proof. split; [exists []; by destruct m|exists []; by destruct m|by destruct m]. Qed.

Lemma effects_reset (m : Manager) : effects m (reset m).
Proof. pose proof (effects_store OpReset m I) as He. unfold reset. by destruct m. Qed.

Lemma effects_abandon (b : FileBackup) (m : Manager) (w : World) : effects m (fst (abandon b m w)).
Proof. unfold abandon. cbn. eapply effects_trans; [apply effects_reset|apply effects_owner]. Qed.

(** *** The changes of a payload *)

Lemma change_set_elem (k : string) (v : any) (l : list (string * any)) (kv : string * any) :
  kv ∈ change_set k v l -> kv = (k, v) \/ kv ∈ l.
Proof.
  induction l as [|[k' v'] l IH]; cbn; [set_solver|]. destruct (String.eqb k' k); rewrite !elem_of_cons; [tauto|].
  intros [->|Hin]; [tauto|]. apply IH in Hin. tauto.
Qed.

Lemma parseValue_wf (k : valueKind) (value : string) (x : any) : float_lib_wf -> parseValue k value = Ok x -> any_wf x.
Proof.
  intros Hf. destruct k; cbn.
  - by intros [= <-].
  - destruct (ParseInt 32 _) eqn:E; intros ?; simplify_eq. by apply parse_int_range in E.
  - destruct (ParseUint 32 _) eqn:E; intros ?; simplify_eq. by apply parse_uint_range in E.
  - destruct (ParseFloat _) eqn:E; intros ?; simplify_eq. by eapply Hf.
  - destruct (ParseBool _); intros ?; by simplify_eq.
Qed.

Lemma resolve_wf (r : registry) (path : string) (isKey : bool) (value key : string) (x : any) :
  float_lib_wf -> resolve r path isKey value = Ok (Some (key, x)) -> any_wf x.
Proof.
  intros Hf. unfold resolve. destruct (isStructuralKeyPath _ isKey); [done|]. destruct (match_qci_path (str path)) as [[k f]|].
  - destruct (String.eqb _ "qci"); [done|]. destruct (parseValue _ value) eqn:E; cbn; [|done]. intros [= _ <-]. by eapply parseValue_wf.
  - set (p1 := fun b => String.eqb (Path b) _). set (p2 := fun b => String.eqb (normalizePath _) _).
    destruct (match find_binding p1 r with Some b => Some b | None => find_binding p2 r end) as [b|]; [|done].
    destruct (parseValue (Kind b) value) eqn:E; [|done]. intros [= _ <-]. by eapply parseValue_wf.
Qed.

Lemma extract_loop_wf (r : registry) (c : EditableConfig) (ls : list extractedLeaf) (ch ch' : list (string * any)) (n n' : nat) :
  float_lib_wf -> Forall (fun kv => any_wf (snd kv)) ch -> extract_loop r c ls ch n = Ok (ch', n') ->
  Forall (fun kv => any_wf (snd kv)) ch'.
Proof.
  intros Hf. revert ch n. induction ls as [|l ls IH]; intros ch n Hch; cbn [extract_loop]; [by intros [= <- _]|].
  destruct (resolve r (el_Path l) (el_IsKey l) (el_Value l)) as [[[key x]|]|e] eqn:E; [|by apply IH|done].
  destruct (String.eqb key ""); [by apply IH|]. apply IH. cbv zeta. destruct (match currentValue r c key with Some _ => _ | None => _ end); [done|].
  rewrite Forall_forall in *. intros kv Hkv. apply change_set_elem in Hkv as [->|Hkv]; [by eapply resolve_wf|by apply Hch].
Qed.

Lemma extractChanges_wf (payload : string) (m : Manager) (ch : list (string * any)) (n : nat) :
  float_lib_wf -> extractChanges payload m = Ok (ch, n) -> Forall (fun kv => any_wf (snd kv)) ch.
Proof.
  intros Hf. unfold extractChanges. destruct (String.eqb (TrimSpace payload) ""); [done|].
  destruct (validateYANGJSON _ _); [done|]. destruct (extractLeaves _ _); [|done].
  intros He. by eapply extract_loop_wf; [..|exact He].
Qed.

(** *** Every handler has effects of the components' operations *)

(** Splits a handler along the outcome of publishing. *)
Ltac handler := repeat match goal with |- context [RefreshArtifacts ?m ?w] => destruct (RefreshArtifacts m w) as [? [?|]] end; cbn [fst snd].

Lemma edit_effects (changes : list (string * any)) (m : Manager) (st : Store) (r : result string EditableConfig) :
  Forall (fun kv => any_wf (snd kv)) changes -> Edit changes (store m) = (st, r) -> effects m (m <|store := st|>).
Proof. intros Hw He. pose proof (effects_store (ConfigStore.OpEdit changes) m Hw) as Hs. cbn in Hs. by rewrite He in Hs. Qed.

Lemma ensure_effects (ds tag : string) (meta : SessionMeta) (now1 now2 : time) (m m' : Manager) (r : option merror) :
  with_locks m (ensure ds meta tag now1 now2 (mlocks m)) = (m', r) -> effects m m'.
Proof. intros [= <- _]. exact (effects_locks (OpEnsure ds meta tag now1 now2) m). Qed.

Lemma EditConfig_effects (req : EditRequest) (now1 now2 : time) (m : Manager) (w : World) :
  float_lib_wf -> effects m (fst (fst (EditConfig req now1 now2 m w))).
Proof.
  intros Hf. unfold EditConfig. destruct (with_locks m _) as [m1 [e|]] eqn:El; apply ensure_effects in El; [done|].
  eapply effects_trans; [exact El|]. destruct (negb _); [apply effects_refl|].
  destruct (validateEditOptions _ _ _); [apply effects_refl|].
  destruct (extractChanges _ m1) as [[ch n]|e] eqn:Ee; [|apply effects_refl]. destruct (n =? 0); [apply effects_refl|].
  destruct ch as [|kv ch]; [apply effects_refl|]. pose proof (extractChanges_wf _ _ _ _ Hf Ee) as Hw.
  destruct (String.eqb _ "test-only"); [by destruct (PreviewEdit _ _); apply effects_refl|].
  destruct (Edit _ (store m1)) as [st [cfg|e]] eqn:Ed; [|by eapply edit_effects].
  assert (He : effects m1 (noteCandidateEdit (SessionID (er_session req)) (m1 <|store := st|>))).
  { eapply effects_trans; [by eapply edit_effects|]. unfold noteCandidateEdit. destruct (_ =? 0)%Z; [apply effects_refl|apply effects_owner]. }
  by handler.
Qed.

Lemma reset_clear_effects (m : Manager) : effects m (clearCandidateEditOwner (reset m)).
Proof. eapply effects_trans; [apply effects_reset|apply effects_owner]. Qed.

Lemma Commit_effects (req : SessionMeta) (now1 now2 now3 now4 : time) (m : Manager) (w : World) :
  effects m (fst (fst (Commit req now1 now2 now3 now4 m w))).
Proof.
  unfold Commit. destruct (with_locks m _) as [m1 [e|]] eqn:E1; apply ensure_effects in E1; [done|].
  eapply effects_trans; [exact E1|]. destruct (with_locks m1 _) as [m2 [e|]] eqn:E2; apply ensure_effects in E2; [done|].
  eapply effects_trans; [exact E2|]. destruct (ValidateConfig _); [apply effects_refl|].
  destruct (PersistCandidate _ w) as [w1 [[b next]|e]]; [|apply effects_refl].
  destruct (restart_outcome (bDirty b) next) as [e|].
  { pose proof (effects_abandon b m2 w1) as Ha. by destruct (abandon b m2 w1). }
  pose proof (effects_store ConfigStore.OpFinalize m2 I) as Hs. cbn in Hs.
  destruct (FinalizeCommit (store m2)) as [st [e|]]; cbn [fst] in Hs.
  - pose proof (effects_abandon b (m2 <|store := st|>) w1) as Ha. destruct (abandon b _ w1). by eapply effects_trans.
  - handler; (eapply effects_trans; [exact Hs|apply reset_clear_effects]).
Qed.

Lemma mgr_step_effects (op : mgr_op) (m : Manager) (w : World) :
  float_lib_wf -> mgr_op_wf op -> effects m (fst (mgr_step op (m, w))).
Proof.
  intros Hf Hw. destruct op as [ch|req n1 n2|req n|req n1 n2|req n1 n2|req n1 n2 n3 n4|sid| |metas n c|n c]; cbn [mgr_step].
  - unfold EditFlat. destruct (Edit ch (store m)) as [st [cfg|e]] eqn:Ed; [|by eapply edit_effects].
    handler; by eapply edit_effects.
  - by apply EditConfig_effects.
  - exact (effects_locks (OpLock (lr_Target req) (lr_session req) n) m).
  - unfold Unlock. pose proof (effects_locks (OpUnlock (lr_Target req) (lr_session req) n1 n2) m) as Hl.
    destruct (with_locks m _) as [m1 [e|]] eqn:E; injection E as <- _; [done|].
    handler; (eapply effects_trans; [exact Hl|apply reset_clear_effects]).
  - unfold DiscardChanges. destruct (with_locks m _) as [m1 [e|]] eqn:E; apply ensure_effects in E; [done|].
    handler; (eapply effects_trans; [exact E|apply reset_clear_effects]).
  - apply Commit_effects.
  - unfold SessionClose. pose proof (effects_locks (OpRelease sid) m) as Hl. cbn in Hl.
    destruct (releaseSession sid (mlocks m)) as [lm released]. cbn [fst] in Hl. destruct released.
    { eapply effects_trans; [exact Hl|apply effects_reset]. }
    unfold consumeCandidateEditOwner. destruct (sid =? 0)%Z; [done|]. destruct (negb _); [done|].
    eapply effects_trans; [exact Hl|]. eapply effects_trans; [apply effects_owner|apply effects_reset].
  - unfold ResetSessions. cbn [fst]. pose proof (effects_locks Locks.OpReset m) as Hl. cbn in Hl.
    eapply effects_trans; [|apply effects_reset]. eapply effects_trans; [|apply effects_owner]. by destruct m.
  - pose proof (effects_locks (OpKeepAlive metas n c) m) as Hl. unfold KeepAlive. by destruct m.
  - unfold SweepExpiredSessions. pose proof (effects_locks (OpSweep n c) m) as Hl. cbn in Hl.
    destruct (sweep n c (mlocks m)) as [[lm ex] ce]. cbn [fst] in Hl. destruct ce.
    { eapply effects_trans; [exact Hl|apply effects_reset]. }
    unfold expiredCandidateEditOwner. destruct (negb _ && _); [|done].
    eapply effects_trans; [exact Hl|]. eapply effects_trans; [apply effects_owner|apply effects_reset].
Qed.

Lemma mgr_run_effects (ops : list mgr_op) (m : Manager) (w : World) :
  float_lib_wf -> Forall mgr_op_wf ops -> effects m (fst (mgr_run ops (m, w))).
Proof.
  intros Hf. revert m w. induction ops as [|op ops IH]; intros m w Hops; [apply effects_refl|].
  apply Forall_cons in Hops as [Ho Hops].
  change (mgr_run (op :: ops) (m, w)) with (mgr_run ops (mgr_step op (m, w))). pose proof (mgr_step_effects op m w Hf Ho) as H1.
  destruct (mgr_step op (m, w)) as [m1 w1].
  eapply effects_trans; [exact H1|by apply IH].
Qed.

(** A run of the manager keeps the invariants of the store and of the lock table. *)
Lemma mgr_run_keeps (ops : list mgr_op) (m : Manager) (w : World) :
  float_lib_wf -> Forall mgr_op_wf ops -> store_inv (store m) -> lm_wf (mlocks m) ->
  store_inv (store (fst (mgr_run ops (m, w)))) /\ lm_wf (mlocks (fst (mgr_run ops (m, w)))).
Proof.
  intros Hf Hops Hs Hl. destruct (mgr_run_effects ops m w Hf Hops) as [(sops & Hw & ->) (lops & ->) _].
  split; [by apply store_inv_run|by apply run_ops_wf].
Qed.

(** *** The owner of pending edits *)

(** Requests of NETCONF sessions, which have an id. *)
Definition session_op (op : mgr_op) : Prop :=
  match op with
  | MEditFlat _ => False
  | MEditConfig req _ _ => SessionID (er_session req) <> 0%Z
  | _ => True
  end.

Definition owned (m : Manager) : Prop := cand (store m) <> running (store m) -> lastEditSession m <> 0%Z.

Lemma owned_reset (m : Manager) : owned (reset m).
Proof. intros Hn. destruct m as [? ? ? []]. by destruct Hn. Qed.

Lemma owned_settled (m : Manager) : cand (store m) = running (store m) -> owned m.
Proof. intros He Hn. done. Qed.

Lemma edit_refused_frame (changes : list (string * any)) (s s' : Store) (e : string) :
  Edit changes s = (s', Err e) -> cand s' = cand s /\ running s' = running s.
Proof.
  unfold Edit, editLocked. pose proof (apply_changes_prefix_targets changes (cand s) s) as Hp.
  pose proof (edit_loop_spec changes s (cand s)) as Hl.
  destruct (edit_loop changes s (cand s)) as [s1 [next|e1]]; [destruct (validate next); [|done]|]; intros [= <- _].
  - destruct Hl as [_ ->]. destruct (mark_keys_frame (TrimSpace ∘ fst <$> changes) s) as (? & ? & _). done.
  - destruct Hp as (pre & -> & _). destruct (mark_keys_frame pre s) as (? & ? & _). done.
Qed.

Lemma owned_frame (m m' : Manager) :
  cand (store m') = cand (store m) -> running (store m') = running (store m) -> lastEditSession m' = lastEditSession m ->
  owned m -> owned m'.
Proof. unfold owned. intros -> -> ->. done. Qed.

Lemma with_locks_frame (m m' : Manager) (r : lockManager * option RPCError) (e : option merror) :
  with_locks m r = (m', e) -> store m' = store m /\ lastEditSession m' = lastEditSession m /\ artifacts m' = artifacts m /\ mregistry m' = mregistry m /\ ids m' = ids m /\ yangDir m' = yangDir m.
Proof. intros [= <- _]. by destruct m. Qed.

Lemma EditConfig_owned (req : EditRequest) (now1 now2 : time) (m : Manager) (w : World) :
  SessionID (er_session req) <> 0%Z -> owned m -> owned (fst (fst (EditConfig req now1 now2 m w))).
Proof.
  intros Hs Ho. unfold EditConfig. destruct (with_locks m _) as [m1 [e|]] eqn:El; apply with_locks_frame in El as (Es & El & _);
    assert (Ho1 : owned m1) by (eapply owned_frame; [..|exact Ho]; congruence); [done|]. clear Ho Es El.
  destruct (negb _); [done|]. destruct (validateEditOptions _ _ _); [done|].
  destruct (extractChanges _ m1) as [[ch n]|e]; [|done]. destruct (n =? 0); [done|]. destruct ch as [|kv ch]; [done|].
  destruct (String.eqb _ "test-only"); [by destruct (PreviewEdit _ _)|].
  destruct (Edit _ (store m1)) as [st [cfg|e]] eqn:Ed.
  - assert (Hn : owned (noteCandidateEdit (SessionID (er_session req)) (m1 <|store := st|>))).
    { intros _. unfold noteCandidateEdit. rewrite (proj2 (Z.eqb_neq _ _) Hs). by destruct m1. }
    by handler.
  - apply edit_refused_frame in Ed as [? ?]. eapply owned_frame; [..|exact Ho1]; by destruct m1.
Qed.

Lemma Commit_owned (req : SessionMeta) (now1 now2 now3 now4 : time) (m : Manager) (w : World) :
  owned m -> owned (fst (fst (Commit req now1 now2 now3 now4 m w))).
Proof.
  intros Ho. unfold Commit. destruct (with_locks m _) as [m1 [e|]] eqn:E1; apply with_locks_frame in E1 as (Es & El & _);
    assert (Ho1 : owned m1) by (eapply owned_frame; [..|exact Ho]; congruence); [done|]. clear Ho Es El.
  destruct (with_locks m1 _) as [m2 [e|]] eqn:E2; apply with_locks_frame in E2 as (Es & El & _);
    assert (Ho2 : owned m2) by (eapply owned_frame; [..|exact Ho1]; congruence); [done|]. clear Ho1 Es El.
  destruct (ValidateConfig _); [done|]. destruct (PersistCandidate _ w) as [w1 [[b next]|e]]; [|done].
  assert (Hr : forall m', owned (clearCandidateEditOwner (reset m'))).
  { intros m'. apply owned_settled. by destruct m' as [? ? ? []]. }
  destruct (restart_outcome (bDirty b) next) as [e|]; [apply Hr|].
  destruct (FinalizeCommit (store m2)) as [st [e|]]; [apply Hr|]. handler; apply Hr.
Qed.

Lemma mgr_step_owned (op : mgr_op) (m : Manager) (w : World) : session_op op -> owned m -> owned (fst (mgr_step op (m, w))).
Proof.
  intros Hs Ho. assert (Hr : forall m', owned (clearCandidateEditOwner (reset m'))).
  { intros m'. apply owned_settled. by destruct m' as [? ? ? []]. }
  destruct op as [ch|req n1 n2|req n|req n1 n2|req n1 n2|req n1 n2 n3 n4|sid| |metas n c|n c]; cbn [mgr_step].
  - done.
  - by apply EditConfig_owned.
  - unfold Lock. eapply owned_frame; [..|exact Ho]; by destruct m.
  - unfold Unlock. destruct (with_locks m _) as [m1 [e|]] eqn:E; apply with_locks_frame in E as (Es & El & _).
    + eapply owned_frame; [..|exact Ho]; cbn; congruence.
    + handler; apply Hr.
  - unfold DiscardChanges. destruct (with_locks m _) as [m1 [e|]] eqn:E; apply with_locks_frame in E as (Es & El & _).
    + eapply owned_frame; [..|exact Ho]; cbn; congruence.
    + handler; apply Hr.
  - by apply Commit_owned.
  - unfold SessionClose. destruct (releaseSession sid (mlocks m)) as [lm []]; [apply owned_reset|].
    unfold consumeCandidateEditOwner. destruct (sid =? 0)%Z; [eapply owned_frame; [..|exact Ho]; by destruct m|].
    destruct (negb _); [eapply owned_frame; [..|exact Ho]; by destruct m|]. apply owned_reset.
  - apply owned_reset.
  - eapply owned_frame; [..|exact Ho]; by destruct m.
  - unfold SweepExpiredSessions. destruct (sweep n c (mlocks m)) as [[lm ex] []]; [apply owned_reset|].
    unfold expiredCandidateEditOwner. destruct (negb _ && _); [apply owned_reset|]. eapply owned_frame; [..|exact Ho]; by destruct m.
Qed.

Lemma mgr_run_owned (ops : list mgr_op) (m : Manager) (w : World) :
  Forall session_op ops -> owned m -> owned (fst (mgr_run ops (m, w))).
Proof.
  revert m w. induction ops as [|op ops IH]; intros m w Hops Ho; [done|]. apply Forall_cons in Hops as [Hop Hops].
  change (mgr_run (op :: ops) (m, w)) with (mgr_run ops (mgr_step op (m, w))).
  pose proof (mgr_step_owned op m w Hop Ho) as H1.
  destruct (mgr_step op (m, w)) as [m1 w1]. by apply IH.
Qed.

(** *** The outcome of a commit *)

Definition same_contents (k : string) (w w' : World) : Prop :=
  forall i, disk w !! k = Some i -> exists i', disk w' !! k = Some i' /\ contents i' = contents i.

Lemma refresh_frame (m : Manager) (w : World) (k : string) :
  k ∉ artifact_files m -> disk (fst (RefreshArtifacts m w)) !! k = disk w !! k.
Proof. intros Hk. pose proof (RefreshArtifacts_spec m w) as Hr. destruct (RefreshArtifacts m w) as [w1 r]. by apply Hr. Qed.

(** What a commit can end in: refused or failed with everything but the candidate as it was; abandoned
    with the files rolled back; or done, the artifacts possibly unpublished. *)
Inductive commit_end (m : Manager) (w : World) : Manager -> World -> result merror EditableConfig -> Prop :=
| end_refused m' e : store m' = store m -> commit_end m w m' w (Err e)
| end_persist_failed m' w' msg e :
    store m' = store m -> PersistCandidate (store m) w = (w', Err msg) -> commit_end m w m' w' (Err e)
| end_abandoned m' w1 w' b next e :
    PersistCandidate (store m) w = (w1, Ok (b, next)) -> store m' = ResetCandidate (store m) ->
    w' = fst (RefreshArtifacts m' (fst (RollbackPersist (store m) b w1))) -> artifacts m' = artifacts m ->
    commit_end m w m' w' (Err e)
| end_done m' w1 w' b next r :
    PersistCandidate (store m) w = (w1, Ok (b, next)) ->
    store m' = (store m) <|running := cand (store m)|> <|dirty := clean|> <|dirtyKeys := ∅|> ->
    lastEditSession m' = 0%Z -> artifacts m' = artifacts m -> mregistry m' = mregistry m -> ids m' = ids m ->
    RefreshArtifacts m' w1 = (w', match r with Ok _ => None | Err e => Some e end) ->
    (forall cfg, r = Ok cfg -> cfg = cand (store m)) ->
    commit_end m w m' w' r.

Lemma ResetCandidate_finalized (s : Store) :
  ResetCandidate (s <|running := cand s|> <|dirty := clean|> <|dirtyKeys := ∅|>) =
  s <|running := cand s|> <|dirty := clean|> <|dirtyKeys := ∅|>.
Proof. by destruct s. Qed.

Lemma Commit_end (req : SessionMeta) (now1 now2 now3 now4 : time) (m : Manager) (w : World) :
  let '(m', w', r) := Commit req now1 now2 now3 now4 m w in commit_end m w m' w' r.
Proof.
  unfold Commit. destruct (with_locks m _) as [m1 [e|]] eqn:E1; apply with_locks_frame in E1 as (S1 & _ & A1 & R1 & I1 & _);
    [by constructor|].
  destruct (with_locks m1 _) as [m2 [e|]] eqn:E2; apply with_locks_frame in E2 as (S2 & _ & A2 & R2 & I2 & _);
    [constructor; congruence|]. rewrite S1 in S2. rewrite A1 in A2. rewrite R1 in R2. rewrite I1 in I2. clear S1 A1 R1 I1.
  destruct (ValidateConfig _) as [e|] eqn:Ev; [by constructor|]. rewrite S2 in *. unfold ValidateConfig in Ev.
  destruct (PersistCandidate _ w) as [w1 [[b next]|e]] eqn:Ep; [|by eapply end_persist_failed].
  destruct (restart_outcome (bDirty b) next) as [e|].
  { unfold abandon. eapply end_abandoned; [exact Ep|..]; rewrite <- ?S2; by destruct m2. }
  unfold FinalizeCommit. rewrite Ev.
  set (m3 := clearCandidateEditOwner _). assert (S3 : store m3 = (store m) <|running := cand (store m)|> <|dirty := clean|> <|dirtyKeys := ∅|>).
  { etransitivity; [|apply ResetCandidate_finalized]. by destruct m2. }
  destruct (RefreshArtifacts m3 w1) as [w2 [e|]] eqn:Er; (eapply end_done; [exact Ep|exact S3|by destruct m2..|exact Er|]); [done|].
  intros cfg [= <-]. rewrite S3. by destruct (store m).
Qed.

(** ** Properties *)

(** C24: a datastore lock is honoured. While a live session holds the candidate, edit-config,
    discard-changes and commit of any other session are refused with in-use in the name of the
    holder, and a commit is refused with lock-denied while another session holds running; the
    configurations, their dirty bookkeeping, the owner of the edits and every file stay as they are. *)
Theorem foreign_session_refused (req : EditRequest) (now1 now2 now3 now4 : time) (m : Manager) (w : World) (o : Z) :
  let sess := er_session req in
  o <> SessionID sess ->
  (holders now1 (mlocks m) !! "candidate" = Some o ->
   forall r, r ∈ [EditConfig req now1 now2 m w; DiscardChanges sess now1 now2 m w; Commit sess now1 now2 now3 now4 m w] ->
   exists m' e, r = (m', w, Err (ERPC e)) /\ Tag e = ErrorTagInUse /\ OwnerSessionID e = o /\
                store m' = store m /\ lastEditSession m' = lastEditSession m) /\
  (holders now1 (mlocks m) !! "candidate" = None \/ holders now1 (mlocks m) !! "candidate" = Some (SessionID sess) ->
   holders now3 (fst (ensure "candidate" sess ErrorTagInUse now1 now2 (mlocks m))) !! "running" = Some o ->
   exists m' e, Commit sess now1 now2 now3 now4 m w = (m', w, Err (ERPC e)) /\ Tag e = ErrorTagLockDenied /\ OwnerSessionID e = o /\
                store m' = store m /\ lastEditSession m' = lastEditSession m).
Proof.
  intros sess Hne. split.
  - intros Hh r Hr. destruct (ensure_refuses "candidate" ErrorTagInUse sess now1 now2 (mlocks m) o eq_refl Hh Hne) as (e & He & Ho & Ht).
    pose proof (candidate_refusal req now1 now2 now3 now4 m w e He r Hr) as Hr'.
    eexists _, e. split; [exact Hr'|]. split_and!; [exact Ht|exact Ho|by destruct m..].
  - intros Hc Hr. unfold Commit, with_locks.
    assert (Hn : snd (ensure "candidate" sess ErrorTagInUse now1 now2 (mlocks m)) = None).
    { pose proof (ensure_refines "candidate" "candidate" ErrorTagInUse sess now1 now2 (mlocks m) eq_refl) as He.
      unfold LockSpec.check in He. destruct Hc as [Hc|Hc]; rewrite Hc in He; rewrite ?Z.eqb_refl in He;
        injection He as _ He; by destruct (snd _). }
    rewrite Hn. cbn [fmap option_fmap option_map].
    assert (Hm : forall l, mlocks (m <|mlocks := l|>) = l) by by destruct m. rewrite Hm.
    destruct (ensure_refuses "running" ErrorTagLockDenied sess now3 now4 _ o eq_refl Hr Hne) as (e & He & Ho & Ht).
    eexists _, e. split; [by rewrite He|]. split_and!; [exact Ht|exact Ho|by destruct m..].
Qed.

(** C25: the outcome of a commit. A commit that answers with a configuration answers with the former
    candidate, which is now both running and candidate with nothing pending and no edit owner, and
    every dirty file apart from the artifacts holds its rendered contents. A commit that answers with
    an error leaves running as it was, and the candidate as it was or reset to running; the one
    exception is an error of publishing the artifacts, which comes after the switch. *)
Theorem commit_outcome (req : SessionMeta) (now1 now2 now3 now4 : time) (m : Manager) (w : World) :
  let '(m', w', r) := Commit req now1 now2 now3 now4 m w in
  let switched := running (store m') = cand (store m) /\ cand (store m') = cand (store m) /\
                  HasPendingChanges (store m') = false /\ lastEditSession m' = 0%Z in
  match r with
  | Ok cfg =>
      cfg = cand (store m) /\ switched /\
      (forall f, is_dirty f (dirty (store m)) = true -> path_of f (store m) ∉ artifact_files m ->
         exists g i i', is_dirty g (dirty (store m)) = true /\ path_of g (store m) = path_of f (store m) /\
           disk w !! path_of f (store m) = Some i /\ disk w' !! path_of f (store m) = Some i' /\
           render g (contents i) (cand (store m)) (dirtyKeys (store m)) = Ok (contents i'))
  | Err e =>
      (running (store m') = running (store m) /\
       (store m' = store m \/ cand (store m') = running (store m) /\ HasPendingChanges (store m') = false)) \/
      (switched /\ exists w1, RefreshArtifacts m' w1 = (w', Some e))
  end.
Proof.
  pose proof (Commit_end req now1 now2 now3 now4 m w) as He. destruct (Commit req now1 now2 now3 now4 m w) as [[m' w'] r].
  destruct He as [m' e Hs|m' w' msg e Hs Hp|m' w1 w' b next e Hp Hs Hw Ha|m' w1 w' b next r Hp Hs Hl Ha _ _ Hr Hok].
  - left. rewrite Hs. auto.
  - left. rewrite Hs. auto.
  - left. rewrite Hs. destruct (store m); cbn. auto.
  - assert (Hsw : running (store m') = cand (store m) /\ cand (store m') = cand (store m) /\
              HasPendingChanges (store m') = false /\ lastEditSession m' = 0%Z)
      by (rewrite Hs, Hl; by destruct (store m)).
    destruct r as [cfg|e]; [|right; eauto]. rewrite (Hok cfg eq_refl). split_and!; [done|apply Hsw..|].
    intros f Hf Hn. destruct (persist_ok_exact _ _ _ _ _ Hp) as (_ & _ & Hd & _).
    destruct (Hd f Hf) as (g & i & i' & Hg & Hpg & Hi & Hi' & Hren). exists g, i, i'. split_and!; [done|done|done| |done].
    pose proof (refresh_frame m' w1 (path_of f (store m))) as Hfr. rewrite Hr in Hfr. cbn [fst] in Hfr. rewrite Hfr; [done|].
    unfold artifact_files in *. by rewrite Ha.
Qed.

(** C26: a commit that does not go live leaves no trace in the files. When no I/O error occurs, and
    whatever the restart of the node does, a commit that ends in an error either has switched to the
    new configuration (publishing failed), or every file that existed, the artifacts apart, has the
    contents it had before. *)
Theorem failed_commit_keeps_files (req : SessionMeta) (now1 now2 now3 now4 : time) (m m' : Manager) (w w' : World) (e : merror) (k : string) :
  quiet w -> Commit req now1 now2 now3 now4 m w = (m', w', Err e) -> k ∉ artifact_files m ->
  running (store m') = cand (store m) /\ cand (store m') = cand (store m) \/ same_contents k w w'.
Proof.
  intros Hq Hc Hk. pose proof (Commit_end req now1 now2 now3 now4 m w) as He. rewrite Hc in He.
  inversion He as [m0 e0 Hs|m0 w0 msg e0 Hs Hp|m0 w1 w0 b next e0 Hp Hs Hw Ha|m0 w1 w0 b next r Hp Hs Hl Ha _ _ Hr Hok]; subst.
  - right. intros i Hi. eauto.
  - right. intros i Hi. eapply persist_err_restores; [|exact Hp|exact Hi]. by apply quiet_at_most_one.
  - right. intros i Hi. rewrite refresh_frame by (unfold artifact_files in *; by rewrite Ha).
    eapply rollback_restores; [exact Hp| |exact Hi]. exact (persist_ok_tail _ quiet_tail _ _ _ _ Hp Hq).
  - left. rewrite Hs. by destruct (store m).
Qed.


(** C28: the manager is a client of its components. Whatever sequence of requests it serves, the store
    and the lock table have gone through operations of their own and nothing else, so that both keep
    their invariants; and when all edits come from NETCONF sessions, a candidate that differs from
    running always has an owner, whose end will discard the edits. *)
Theorem manager_refines_components (ops : list mgr_op) (dir : string) (i : IDs) (paths : ArtifactPaths)
    (st : Store) (m : Manager) (w0 w : World) :
  float_lib_wf -> Forall mgr_op_wf ops -> NewManager dir i paths (Some st) w0 = (w, Ok m) -> store_inv st ->
  let m' := fst (mgr_run ops (m, w)) in
  (exists sops, store m' = store_run sops st) /\ (exists lops, mlocks m' = run_ops lops newLockManager) /\
  store_inv (store m') /\ lm_wf (mlocks m') /\
  (Forall session_op ops -> cand st = running st -> owned m').
Proof.
  intros Hf Hops Hn Hs m'. unfold NewManager in Hn.
  destruct (RefreshArtifacts (mkManager _ _ _ _ _ _ _) w0) as [w1 [e|]]; [done|]. injection Hn as -> <-.
  pose proof (mgr_run_effects ops (mkManager (TrimSpace dir) i paths st newLockManager newRegistry 0%Z) w Hf Hops) as He.
  fold m' in He. destruct He as [(sops & Hw & Es) (lops & El) _]. cbn [store mlocks] in Es, El.
  split_and!; [by eauto|by eauto|apply mgr_run_keeps; try done; apply newLockManager_wf..|].
  - intros Hso Hc. apply mgr_run_owned; [done|]. by apply owned_settled.
Qed.

(** The published artifacts are those of the manager's configurations. *)
Definition synced (m : Manager) (w : World) : Prop :=
  published m (Running (artifacts m)) (running (store m)) w /\ published m (Candidate (artifacts m)) (cand (store m)) w.

Lemma synced_frame (m m' : Manager) (w : World) :
  artifacts m' = artifacts m -> mregistry m' = mregistry m -> ids m' = ids m ->
  running (store m') = running (store m) -> cand (store m') = cand (store m) -> synced m w -> synced m' w.
Proof. unfold synced, published. intros -> -> -> -> ->. done. Qed.

Lemma synced_refresh (m : Manager) (w w' : World) : RefreshArtifacts m w = (w', None) -> paths_apart m -> synced m w'.
Proof. intros Hr Ha. pose proof (RefreshArtifacts_spec m w) as Hs. rewrite Hr in Hs. by apply Hs. Qed.

Lemma paths_apart_frame (m m' : Manager) : artifacts m' = artifacts m -> paths_apart m -> paths_apart m'.
Proof. unfold paths_apart. by intros ->. Qed.

(** The shape of an accepted edit-config. *)
Lemma EditConfig_ok (req : EditRequest) (now1 now2 : time) (m m' : Manager) (w w' : World) (cfg : EditableConfig) :
  EditConfig req now1 now2 m w = (m', w', Ok cfg) ->
  artifacts m' = artifacts m /\ mregistry m' = mregistry m /\ ids m' = ids m /\
  exists changes n m1, extractChanges (er_Payload req) m1 = Ok (changes, S n) /\
    store m1 = store m /\ mregistry m1 = mregistry m /\ yangDir m1 = yangDir m /\
    ((changes = [] /\ store m' = store m /\ w' = w /\ cfg = cand (store m)) \/
     (TrimSpace (er_TestOption req) = "test-only" /\ store m' = store m /\ w' = w /\ PreviewEdit changes (store m) = Ok cfg) \/
     (TrimSpace (er_TestOption req) <> "test-only" /\ Edit changes (store m) = (store m', Ok cfg) /\ RefreshArtifacts m' w = (w', None))).
Proof.
  unfold EditConfig. destruct (with_locks m _) as [m1 [e|]] eqn:El; apply with_locks_frame in El as (S1 & _ & A1 & R1 & I1 & Y1); [done|].
  destruct (negb _); [done|]. destruct (validateEditOptions _ _ _); [done|].
  destruct (extractChanges _ m1) as [[ch n]|e] eqn:Ee; [|done]. destruct n as [|n]; [done|]. cbn [Nat.eqb].
  destruct ch as [|kv ch].
  { intros [= <- <- <-]. split_and!; [done..|]. exists [], n, m1. rewrite <- S1. split_and!; auto. }
  destruct (String.eqb (TrimSpace (er_TestOption req)) "test-only") eqn:Et; b2p.
  - destruct (PreviewEdit _ _) as [c|e] eqn:Ep; [|done]. intros [= <- <- <-]. split_and!; [done..|].
    exists (kv :: ch), n, m1. rewrite S1 in *. split_and!; [exact Ee|done|done|done|]. right. left. done.
  - destruct (Edit _ (store m1)) as [st [c|e]] eqn:Ed; [|done]. set (m2 := noteCandidateEdit _ _).
    assert (H2 : artifacts m2 = artifacts m1 /\ mregistry m2 = mregistry m1 /\ ids m2 = ids m1 /\ store m2 = st).
    { unfold m2, noteCandidateEdit. destruct (_ =? 0)%Z; by destruct m1. }
    destruct H2 as (A2 & R2 & I2 & S2). destruct (RefreshArtifacts m2 w) as [w2 [e|]] eqn:Er; [done|]. intros [= <- <- <-].
    split_and!; [congruence..|]. exists (kv :: ch), n, m1. rewrite S1 in *. split_and!; [done..|]. right. right. rewrite S2. done.
Qed.

(** C29: the artifacts follow the datastores. With artifact paths that do not collide, a manager that
    has come up has published both datastores; and once they are published, every edit, edit-config,
    discard, commit and unlock that succeeds leaves the documents of the new running and candidate
    configurations on disk. *)
Theorem artifacts_follow_store (m m' : Manager) (w w' : World) (cfg : EditableConfig) (req : EditRequest) (lreq : LockRequest)
    (changes : list (string * any)) (now1 now2 now3 now4 : time) :
  paths_apart m -> synced m w ->
  (m', w', Ok cfg) ∈ [EditFlat changes m w; EditConfig req now1 now2 m w; DiscardChanges (er_session req) now1 now2 m w;
                      Commit (er_session req) now1 now2 now3 now4 m w] \/
  (m', w', None) = Unlock lreq now1 now2 m w ->
  synced m' w'.
Proof.
  intros Ha Hs [Hr|Hr].
  - repeat (apply elem_of_cons in Hr as [Hr|Hr]); [..|by apply not_elem_of_nil in Hr].
    + unfold EditFlat in Hr. destruct (Edit changes (store m)) as [st [c|e]]; [|done].
      destruct (RefreshArtifacts _ w) as [w1 [e|]] eqn:Er; [done|]. injection Hr as -> -> _.
      eapply synced_refresh; [exact Er|]. eapply paths_apart_frame; [|exact Ha]. by destruct m.
    + symmetry in Hr. apply EditConfig_ok in Hr as (A & R & I & ch & n & m1 & _ & _ & _ & _ & [(_ & S & -> & _)|[(_ & S & -> & _)|(_ & _ & Er)]]).
      * eapply synced_frame; [..|exact Hs]; congruence.
      * eapply synced_frame; [..|exact Hs]; congruence.
      * eapply synced_refresh; [exact Er|]. by eapply paths_apart_frame.
    + unfold DiscardChanges in Hr. destruct (with_locks m _) as [m1 [e|]] eqn:El; [done|].
      apply with_locks_frame in El as (_ & _ & A & _). destruct (RefreshArtifacts _ w) as [w1 [e|]] eqn:Er; [done|]. injection Hr as -> -> _.
      eapply synced_refresh; [exact Er|]. eapply paths_apart_frame; [|exact Ha]. by destruct m1.
    + pose proof (Commit_end (er_session req) now1 now2 now3 now4 m w) as He. rewrite <- Hr in He.
      inversion He as [| | |m0 w1 w0 b next r Hp Hst Hl Hart _ _ Hre Hok]; subst.
      eapply synced_refresh; [exact Hre|]. by eapply paths_apart_frame.
  - unfold Unlock in Hr. destruct (with_locks m _) as [m1 [e|]] eqn:El; [done|]. apply with_locks_frame in El as (_ & _ & A & _).
    destruct (RefreshArtifacts _ w) as [w1 [e|]] eqn:Er; [done|]. injection Hr as -> ->.
    eapply synced_refresh; [exact Er|]. eapply paths_apart_frame; [|exact Ha]. by destruct m1.
Qed.

(** *** What an accepted edit-config stores *)

(** The key and value of a leaf of the payload. *)
Definition leaf_change (r : registry) (l : extractedLeaf) : option (string * any) :=
  match resolve r (el_Path l) (el_IsKey l) (el_Value l) with Ok (Some kv) => Some kv | _ => None end.

Lemma change_set_keys (k k' : string) (v : any) (l : list (string * any)) :
  k' ∈ (change_set k v l).*1 -> k' = k \/ k' ∈ l.*1.
Proof. intros ([a b] & -> & Hin)%list_elem_of_fmap. apply change_set_elem in Hin as [[= -> ->]|Hin]; [by left|]. right. by apply (list_elem_of_fmap_2 fst) in Hin. Qed.

Lemma change_set_fresh (k : string) (v : any) (l : list (string * any)) : k ∉ l.*1 -> change_set k v l = l ++ [(k, v)].
Proof.
  induction l as [|[a b] l IH]; cbn; [done|]. intros [Hne Hk]%not_elem_of_cons.
  rewrite (proj2 (String.eqb_neq a k)) by congruence. by rewrite IH.
Qed.

(** With distinct keys, a change is listed for exactly the leaves whose value is not the current one. *)
Lemma extract_loop_spec (r : registry) (c : EditableConfig) (ls : list extractedLeaf) (ch ch' : list (string * any)) (n n' : nat) :
  extract_loop r c ls ch n = Ok (ch', n') -> NoDup (ch.*1 ++ (omap (leaf_change r) ls).*1) ->
  exists ext, ch' = ch ++ ext /\ NoDup ch'.*1 /\ ext.*1 ⊆ (omap (leaf_change r) ls).*1 /\
    forall key x, (key, x) ∈ omap (leaf_change r) ls -> key <> "" ->
      (key, x) ∈ ext \/ (key ∉ ch'.*1) /\ exists cur, currentValue r c key = Some cur /\ valuesEqual cur x = true.
Proof.
  revert ch n. induction ls as [|l ls IH]; intros ch n; cbn [extract_loop omap list_omap].
  { intros [= <- <-] Hnd. cbn in Hnd. rewrite app_nil_r in Hnd. exists []. rewrite app_nil_r. split_and!; [done|done|done|].
    intros key x Hin. by apply not_elem_of_nil in Hin. }
  assert (Hl : leaf_change r l = match resolve r (el_Path l) (el_IsKey l) (el_Value l) with Ok (Some kv) => Some kv | _ => None end) by done.
  destruct (resolve r (el_Path l) (el_IsKey l) (el_Value l)) as [[[key x]|]|e]; rewrite Hl; [|by apply IH|done].
  cbn [fmap list_fmap fst]. intros Hex Hnd.
  assert (Hk : (key ∉ ch.*1) /\ (key ∉ (omap (leaf_change r) ls).*1) /\ NoDup (ch.*1 ++ (omap (leaf_change r) ls).*1)).
  { apply NoDup_app in Hnd as (N1 & N2 & N3). apply NoDup_cons in N3 as [N3 N4]. split_and!; [intros Hin; apply (N2 _ Hin); left|done|].
    apply NoDup_app. split_and!; [done| |done]. intros y Hy Hy2. apply (N2 y Hy). by right. }
  destruct Hk as (Hk1 & Hk2 & Hnd').
  destruct (String.eqb key "") eqn:Ee; b2p.
  { destruct (IH _ _ Hex Hnd') as (ext & -> & Hn & Hsub & Hin). exists ext. split_and!; [done|done|set_solver|].
    intros k y [[= -> ->]|Hky]%elem_of_cons Hne; [done|by apply Hin]. }
  destruct (match currentValue r c key with Some current => valuesEqual current x | None => false end) eqn:Ev.
  - destruct (IH _ _ Hex Hnd') as (ext & -> & Hn & Hsub & Hin). exists ext. split_and!; [done|done|set_solver|].
    intros k y [[= -> ->]|Hky]%elem_of_cons Hne; [|by apply Hin]. right. split.
    + rewrite fmap_app, elem_of_app. intros [?|?]; [done|]. by apply Hk2, Hsub.
    + destruct (currentValue r c key) as [cur|]; [eauto|done].
  - rewrite change_set_fresh in Hex by done. destruct (IH _ _ Hex) as (ext & -> & Hn & Hsub & Hin).
    { rewrite fmap_app, <- app_assoc. cbn [fmap list_fmap app fst]. exact Hnd. }
    exists ((key, x) :: ext). rewrite <- app_assoc in *. split_and!; [done|done|cbn; set_solver|].
    intros k y [[= -> ->]|Hky]%elem_of_cons Hne; [left; left|]. destruct (Hin k y Hky Hne) as [?|?]; [left; by right|by right].
Qed.

(** Profile keys do not collide with plain keys. *)
Lemma plain_keys_solid :
  Forall (fun b => TrimSpace (Key b) = Key b /\ has_prefix (str qci_prefix) (str (Key b)) = false) bindings.
Proof.
  apply (bool_decide_unpack (Forall (fun b => TrimSpace (Key b) = Key b /\ has_prefix (str qci_prefix) (str (Key b)) = false) bindings)).
  by vm_compute.
Qed.

Lemma prefixes_comparable (p q a b : bytes) : p ++ q = a ++ b -> has_prefix p a = true \/ has_prefix a p = true.
Proof.
  revert a. induction p as [|c p IH]; intros a He; [right; apply has_prefix_nil|].
  destruct a as [|c' a]; [left; apply has_prefix_nil|]. cbn in He. injection He as <- He.
  destruct (IH a He) as [H1|H1]; [left|right]; cbn; by rewrite Ascii.eqb_refl, H1.
Qed.

Lemma trimmed_profile_key (t : string) (b : leafBinding) : b ∈ bindings -> TrimSpace (qci_prefix +:+ t) <> Key b.
Proof.
  intros Hb He. pose proof plain_keys_solid as Hk. rewrite Forall_forall in Hk. destruct (Hk b Hb) as [_ H1].
  pose proof bindings_no_qci as Hq. rewrite Forall_forall in Hq. specialize (Hq b Hb). cbv beta in Hq. unfold HasPrefix in Hq.
  rewrite <- He in H1, Hq. unfold TrimSpace in H1, Hq. rewrite str_unstr in H1, Hq.
  assert (Hl : trim_left (str (qci_prefix +:+ t)) = str (qci_prefix +:+ t)).
  { apply strip_lead. rewrite str_app. by apply solid_lead. }
  unfold trim_space in H1, Hq. rewrite Hl in H1, Hq. destruct (trim_right_prefix (str (qci_prefix +:+ t))) as [q Eq].
  rewrite str_app in Eq at 1. symmetry in Eq. destruct (prefixes_comparable _ _ _ _ Eq) as [H2|H2]; congruence.
Qed.

(** A resolved key is a plain registry key or a profile key. *)
Lemma resolve_key (path : string) (isKey : bool) (value key : string) (x : any) :
  resolve newRegistry path isKey value = Ok (Some (key, x)) ->
  (exists b, b ∈ bindings /\ Key b = key) \/ (exists t, key = qci_prefix +:+ t).
Proof.
  intros Hr. destruct (HasPrefix key qci_prefix) eqn:Hp.
  - unfold resolve in Hr. destruct (isStructuralKeyPath _ isKey); [done|]. destruct (match_qci_path (str path)) as [[k f]|].
    + destruct (String.eqb _ "qci"); [done|]. destruct (parseValue _ value); cbn [result_bind] in Hr; [|done].
      injection Hr as <- _. right. eexists. reflexivity.
    + left. set (p1 := fun b => String.eqb (Path b) _) in Hr. set (p2 := fun b => String.eqb (normalizePath _) _) in Hr.
      assert (Hb : forall b, (match find_binding p1 newRegistry with Some b => Some b | None => find_binding p2 newRegistry end) = Some b -> b ∈ bindings).
      { intros b. destruct (find_binding p1 newRegistry) as [b'|] eqn:E1; [intros [= ->]; by eapply find_binding_in|intros E2; by eapply find_binding_in]. }
      destruct (match find_binding p1 newRegistry with Some b => Some b | None => find_binding p2 newRegistry end) as [b|]; [|done].
      destruct (parseValue (Kind b) value); [|done]. injection Hr as <- _. exists b. split; [by apply Hb|done].
  - left. destruct (resolve_binding _ _ _ _ _ _ Hr Hp) as (b & Hb & Hk & _). by exists b.
Qed.

(** A change among others of different keys ends up in its leaf. *)
Lemma apply_changes_stores (l : list (string * any)) (key : string) (x : any) (s : setter) (c c' : EditableConfig) :
  apply_changes l c = Ok c' -> (key, x) ∈ l -> NoDup l.*1 -> (forall k v, (k, v) ∈ l -> TrimSpace k = key -> k = key) -> TrimSpace key = key ->
  find_leaf key leaves = Some s -> setter_value s x = Some (reload_leaf x) -> json_get key c' = Some (reload_leaf x) \/ json_get key c = None.
Proof.
  intros Hok Hin Hnd Hcol Ht Hs Hx. revert c Hok Hnd. induction l as [|[k v] l IH]; intros c Hok Hnd; [by apply not_elem_of_nil in Hin|].
  cbn [apply_changes] in Hok. destruct (applyChange c (TrimSpace k) v) as [c1|e] eqn:E1; cbn [result_bind] in Hok; [|done].
  apply NoDup_cons in Hnd as [Hn0 Hnd]. apply elem_of_cons in Hin as [[= <- <-]|Hin].
  - assert (Hn : key ∉ TrimSpace ∘ fst <$> l).
    { intros ([k' v'] & He & Hin)%list_elem_of_fmap. cbn in He. rewrite (Hcol k' v') in Hin by (done || by right).
      apply (list_elem_of_fmap_2 fst) in Hin. by apply Hn0. }
    rewrite Ht in *. destruct (applyChange_ok _ _ _ _ E1) as (t & y & Hee & _ & Heff). unfold edit_effect in Hee. rewrite Hs, Hx in Hee.
    cbn in Hee. injection Hee as <- <-. destruct Heff as (V & _ & _). unfold json_get in *.
    pose proof (off_leaf _ _ _ (apply_changes_agree_off _ _ _ Hok) key Hn) as Hl. unfold json_get in Hl. rewrite Hl, V, view_get_set, string_eqb_refl.
    destruct (view_get key (json_view c)); [by left|by right].
  - destruct (IH Hin ltac:(intros; eapply Hcol; [by right|done]) c1 Hok Hnd) as [?|Hnone]; [by left|]. right.
    assert (Hne : key ∉ [TrimSpace k]).
    { rewrite list_elem_of_singleton. intros He. apply (list_elem_of_fmap_2 fst) in Hin. apply Hn0. cbn [fst]. by rewrite (Hcol k v) by (done || by left). }
    by rewrite <- (off_leaf _ _ _ (applyChange_agree_off _ _ _ _ E1) key Hne).
Qed.

(** No change of a payload is taken for a change of another plain key. *)
Lemma leaf_keys_apart (ls : list extractedLeaf) (k : string) (b : leafBinding) :
  b ∈ bindings -> k ∈ (omap (leaf_change newRegistry) ls).*1 -> TrimSpace k = Key b -> k = Key b.
Proof.
  intros Hb ([k' v'] & -> & Hk)%list_elem_of_fmap Htk. apply list_elem_of_omap in Hk as (l' & _ & Hl'). unfold leaf_change in Hl'.
  destruct (resolve newRegistry (el_Path l') (el_IsKey l') (el_Value l')) as [[kv|]|] eqn:Er; simplify_eq.
  pose proof plain_keys_solid as Hsol. rewrite Forall_forall in Hsol.
  destruct (resolve_key _ _ _ _ _ Er) as [(b' & Hb' & Hk')|(t & Hk')]; cbn [fst] in *.
  - rewrite <- Hk' in Htk |- *. by rewrite (proj1 (Hsol b' Hb')) in Htk.
  - exfalso. rewrite Hk' in Htk. by apply (trimmed_profile_key t b Hb).
Qed.

(** Edit-config does what it says. When an edit-config with distinct leaves is accepted, running is
    untouched; a test-only request changes nothing and otherwise the answered configuration is the
    candidate; and in the answered configuration every plain leaf of the payload whose value is
    neither NaN nor infinite has the value of the payload, surrounding space trimmed (or an equal
    value it already had). *)
Theorem edit_config_stores_payload (req : EditRequest) (now1 now2 : time) (m m' : Manager) (w w' : World)
    (cfg : EditableConfig) (ls : list extractedLeaf) (key : string) (x : any) :
  mregistry m = newRegistry ->
  EditConfig req now1 now2 m w = (m', w', Ok cfg) ->
  extractLeaves (yangDir m) (str (TrimSpace (er_Payload req))) = Ok ls ->
  NoDup (omap (leaf_change newRegistry) ls).*1 ->
  (key, x) ∈ omap (leaf_change newRegistry) ls -> HasPrefix key qci_prefix = false ->
  (forall f, x = AFloat64 f -> f_is_nan f || f_is_inf f = false) ->
  running (store m') = running (store m) /\
  (if String.eqb (TrimSpace (er_TestOption req)) "test-only" then store m' = store m else cand (store m') = cfg) /\
  (json_get key cfg = Some (reload_leaf x) \/ exists y, json_get key cfg = Some y /\ valuesEqual y x = true).
Proof.
  intros Hreg Hok Hls Hnd Hin Hp Hfl. destruct (EditConfig_ok _ _ _ _ _ _ _ _ Hok) as (_ & _ & _ & ch & n & m1 & Hex & S1 & R1 & Y1 & Hcase).
  assert (Hext : extract_loop newRegistry (cand (store m)) ls [] 0 = Ok (ch, S n)).
  { unfold extractChanges in Hex. destruct (String.eqb (TrimSpace (er_Payload req)) ""); [done|].
    destruct (validateYANGJSON _ _); [done|]. rewrite Y1, Hls, R1, Hreg, S1 in Hex. done. }
  destruct (extract_loop_spec _ _ _ _ _ _ _ Hext Hnd) as (ext & -> & Hn & Hsub & Hspec). cbn [app] in *.
  apply list_elem_of_omap in Hin as Hleaf. destruct Hleaf as (l & Hl & Hlc).
  assert (Hres : resolve newRegistry (el_Path l) (el_IsKey l) (el_Value l) = Ok (Some (key, x))).
  { unfold leaf_change in Hlc. destruct (resolve _ _ _ _) as [[kv|]|]; by simplify_eq. }
  destruct (resolve_binding _ _ _ _ _ _ Hres Hp) as (b & Hb & Hkey & _). destruct (resolved_setter _ _ _ _ _ Hres Hp) as (s & Hs & Hv).
  pose proof (parseValue_setter s _ x Hv Hfl) as Hsv. pose proof plain_keys_solid as Hsol. rewrite Forall_forall in Hsol.
  pose proof bindings_getters as Hget. rewrite Forall_forall in Hget.
  assert (Hex0 : forall c, json_get key c = Some (Get b c)) by (intros c; rewrite <- Hkey; by apply Hget).
  assert (Hne : key <> "") by (intros ->; pose proof (Hex0 cfg) as Hg; by vm_compute in Hg).
  assert (Hfinal : forall c', apply_changes ext (cand (store m)) = Ok c' ->
            json_get key c' = Some (reload_leaf x) \/ exists y, json_get key c' = Some y /\ valuesEqual y x = true).
  { intros c' Ha. destruct (Hspec key x Hin Hne) as [He|[He (cur & Hcur & Heq)]].
    - destruct (apply_changes_stores ext key x s _ c' Ha He Hn) as [?|Hnone]; [|rewrite <- Hkey; by apply Hsol|done|done|by left|by rewrite Hex0 in Hnone].
      intros k v Hkv Htk. rewrite <- Hkey in *. apply (leaf_keys_apart ls); [done| |done]. apply Hsub. by apply (list_elem_of_fmap_2 fst) in Hkv.
    - right. exists cur. split; [|done]. rewrite (off_leaf _ _ _ (apply_changes_agree_off _ _ _ Ha)); [by apply currentValue_json|].
      intros ([k v] & Hkk & Hkv)%list_elem_of_fmap. apply (list_elem_of_fmap_2 fst) in Hkv. cbn in Hkk, Hkv. apply He.
      rewrite <- Hkey in *. by rewrite <- (leaf_keys_apart ls k b Hb (Hsub k Hkv) (eq_sym Hkk)). }
  destruct Hcase as [(-> & Hst & _ & ->)|[(Ht & Hst & _ & Hpv)|(Ht & Hed & _)]].
  - rewrite Hst. split_and!; [done|by destruct (String.eqb _ _)|]. by apply Hfinal.
  - rewrite Ht, Hst. split_and!; [done|done|]. apply Hfinal. unfold PreviewEdit in Hpv.
    destruct (apply_changes ext _) as [c1|]; cbn in Hpv; [|done]. destruct (validate c1); by simplify_eq.
  - rewrite (proj2 (String.eqb_neq _ _) Ht). unfold Edit, editLocked in Hed.
    pose proof (edit_loop_spec ext (store m) (cand (store m))) as Hsp. destruct (edit_loop ext (store m) _) as [st [c1|]]; [|done].
    destruct Hsp as [Ha Hst]. destruct (validate c1); [done|]. injection Hed as Hst' <-.
    destruct (mark_keys_frame (TrimSpace ∘ fst <$> ext) (store m)) as (Er & _ & _). rewrite <- Hst', Hst.
    split_and!; [rewrite <- Er; by destruct (mark_keys _ _)|by destruct (mark_keys _ _)|by apply Hfinal].
Qed.

End ManagerLemmas.

(** ** Witnesses *)

(** A platform whose YANG library accepts every document and finds one leaf in it, and whose node can
    be restarted or not. *)
Definition sample_platform (restart : option string) : Platform := {|
  validateYANGJSON := fun _ _ => None;
  extractLeaves := fun _ _ => Ok [mkLeaf sample_path " 7 " false];
  resolveTarget := Some (fun serial => ("node", true));
  TriggerRestart := Some (fun _ => restart)
|}.

Definition sample_paths : ArtifactPaths := mkPaths "/run/running.json" "/run/candidate.json".
Definition sample_manager (st : Store) (lm : lockManager) (last : Z) : Manager :=
  mkManager "/yang" (mkIDs "1" "enb" "1") sample_paths st lm newRegistry last.

Definition bob_edit : EditRequest := mkEdit bob "candidate" "" "" "" "{}".

Lemma foreign_session_refused_witness :
  exists m' e, EditConfig (GL:=ascii_golib) (PF:=sample_platform None) bob_edit (secs 110) (secs 110)
                 (sample_manager sample_store alice_locked 0) (mkWorld sample_disk []) =
               (m', mkWorld sample_disk [], Err (ERPC e)) /\ OwnerSessionID e = 7%Z.
Proof.
  destruct (proj1 (foreign_session_refused (GL:=ascii_golib) (PF:=sample_platform None) bob_edit (secs 110) (secs 110) (secs 110) (secs 110)
              (sample_manager sample_store alice_locked 0) (mkWorld sample_disk []) 7 ltac:(done)) ltac:(by vm_compute) _ ltac:(left))
    as (m' & e & He & _ & Ho & _).
  exists m', e. split; [exact He|exact Ho].
Defined.

(** A commit whose restart fails: rr.conf is what it was. *)
Lemma failed_commit_keeps_files_witness :
  exists m' w' i', disk w' !! "/etc/rr.conf" = Some i' /\ contents i' = rr_text /\ running (store m') = sample_cfg.
Proof.
  pose (m := sample_manager edited_store newLockManager 0). pose (w := mkWorld sample_disk []).
  pose (r := Commit (GL:=ascii_golib) (PF:=sample_platform (Some "no such container")) bob (secs 1) (secs 1) (secs 1) (secs 1) m w).
  assert (Hk : is_ok (snd r) = false) by (vm_compute; reflexivity).
  assert (Hrun : running (store (fst (fst r))) = sample_cfg) by (vm_compute; reflexivity).
  assert (Hpci : PCI (running (store (fst (fst r)))) <> PCI (cand edited_store)) by (vm_compute; discriminate).
  destruct r as [[m' w'] [c|e]] eqn:Ec; cbn [fst snd] in Hk, Hrun, Hpci; [discriminate Hk|].
  unfold r in Ec. clear r. assert (Hn : "/etc/rr.conf" ∉ artifact_files m) by (apply (bool_decide_unpack _); vm_compute; reflexivity).
  pose proof (failed_commit_keeps_files (GL:=ascii_golib) (PF:=sample_platform (Some "no such container")) bob (secs 1) (secs 1) (secs 1) (secs 1)
                m m' w w' e "/etc/rr.conf" (Forall_nil_2 _) Ec Hn) as Hf.
  destruct Hf as [[Hr _]|Hs].
  - exfalso. apply Hpci. rewrite Hr. reflexivity.
  - destruct (Hs (mkInode rr_text 384 (10, 20)%Z) ltac:(by vm_compute)) as (i' & Hi' & Hc). exists m', w', i'. split_and!; [exact Hi'|exact Hc|].
    exact Hrun.
Defined.


(** The library of the other examples without a decimal parser. *)
Definition plain_golib : GoLib := {|
  uni_to_lower := id; uni_equal_fold := fun a b => bool_decide (a = b); uni_quote := id; uni_unquote := Some;
  ParseFloat := fun _ => None; ParseFloatErr := fun _ => f_zero; FormatFloat := fun _ _ => "0.000"; ParseIP := dotted_quad
|}.

Lemma plain_golib_wf : float_lib_wf (GL:=plain_golib).
Proof. intros s x Hx. discriminate Hx. Qed.

Lemma plain_sample_inv : store_inv (GL:=plain_golib) sample_store.
Proof.
  apply (newStore_inv (GL:=plain_golib) "/etc/enb.conf" "/etc/rr.conf" "/etc/sib.conf" "/etc/rb.conf" sample_cfg); [apply sample_cfg_wf|].
  vm_compute. reflexivity.
Qed.

Definition sample_world : World := mkWorld sample_disk [].

Lemma manager_refines_components_witness :
  exists w m, NewManager (GL:=plain_golib) (PF:=sample_platform None) "/yang" (mkIDs "1" "enb" "1") sample_paths (Some sample_store) sample_world = (w, Ok m) /\
    let m' := fst (mgr_run (GL:=plain_golib) (PF:=sample_platform None) [MEditConfig bob_edit (secs 1) (secs 1)] (m, w)) in
    store_inv (GL:=plain_golib) (store m') /\ owned m'.
Proof.
  pose (r := NewManager (GL:=plain_golib) (PF:=sample_platform None) "/yang" (mkIDs "1" "enb" "1") sample_paths (Some sample_store) sample_world).
  assert (Hk : is_ok (snd r) = true) by (vm_compute; reflexivity). destruct r as [w [m|e]] eqn:Er; [|discriminate Hk].
  unfold r in Er. clear r Hk. exists w, m. split; [exact Er|].
  pose proof (manager_refines_components (GL:=plain_golib) (PF:=sample_platform None) [MEditConfig bob_edit (secs 1) (secs 1)] "/yang"
                (mkIDs "1" "enb" "1") sample_paths sample_store m sample_world w plain_golib_wf ltac:(repeat constructor) Er plain_sample_inv) as H.
  destruct H as (_ & _ & Hs & _ & Ho). split; [exact Hs|]. apply Ho; [|reflexivity]. apply Forall_singleton. cbn. discriminate.
Defined.

Lemma artifacts_follow_store_witness :
  exists m' w' cfg, EditFlat (GL:=ascii_golib) (PF:=sample_platform None) [("pci", AInt 7)] (sample_manager sample_store newLockManager 0)
      (fst (RefreshArtifacts (GL:=ascii_golib) (PF:=sample_platform None) (sample_manager sample_store newLockManager 0) sample_world)) = (m', w', Ok cfg) /\
    synced (GL:=ascii_golib) m' w'.
Proof.
  pose (m := sample_manager sample_store newLockManager 0). change (sample_manager sample_store newLockManager 0) with m.
  assert (Hn : snd (RefreshArtifacts (GL:=ascii_golib) (PF:=sample_platform None) m sample_world) = None) by (vm_compute; reflexivity).
  assert (Ha : paths_apart m) by (split; discriminate).
  assert (Hk : is_ok (snd (EditFlat (GL:=ascii_golib) (PF:=sample_platform None) [("pci", AInt 7)] m
                 (fst (RefreshArtifacts (GL:=ascii_golib) (PF:=sample_platform None) m sample_world)))) = true) by (vm_compute; reflexivity).
  destruct (RefreshArtifacts (GL:=ascii_golib) (PF:=sample_platform None) m sample_world) as [w1 e1] eqn:Er. cbn [fst snd] in *. subst e1.
  pose proof (synced_refresh _ _ _ Er Ha) as Hs. clearbody m.
  destruct (EditFlat [("pci", AInt 7)] m w1) as [[m' w'] [cfg|e]] eqn:Ed; [|discriminate Hk]. exists m', w', cfg. split; [reflexivity|].
  apply (artifacts_follow_store (GL:=ascii_golib) (PF:=sample_platform None) m m' w1 w' cfg bob_edit (mkLockReq bob "candidate")
           [("pci", AInt 7)] 0%Z 0%Z 0%Z 0%Z Ha Hs). left. rewrite Ed. left.
Defined.

Lemma edit_config_stores_payload_witness :
  exists m' w' cfg, EditConfig (GL:=ascii_golib) (PF:=sample_platform None) bob_edit (secs 1) (secs 1)
      (sample_manager sample_store newLockManager 0) sample_world = (m', w', Ok cfg) /\
    cand (store m') = cfg /\ running (store m') = sample_cfg.
Proof.
  pose (m := sample_manager sample_store newLockManager 0).
  assert (Hk : is_ok (snd (EditConfig (GL:=ascii_golib) (PF:=sample_platform None) bob_edit (secs 1) (secs 1) m sample_world)) = true)
    by (vm_compute; reflexivity).
  assert (Hl : omap (leaf_change (GL:=ascii_golib) newRegistry) [mkLeaf sample_path " 7 " false] = [("pci", AUint32 7)]) by (vm_compute; reflexivity).
  destruct (EditConfig (GL:=ascii_golib) (PF:=sample_platform None) bob_edit (secs 1) (secs 1) m sample_world) as [[m' w'] [cfg|e]] eqn:Ec;
    [|discriminate Hk].
  exists m', w', cfg. split; [exact Ec|].
  pose proof (edit_config_stores_payload (GL:=ascii_golib) (PF:=sample_platform None) bob_edit (secs 1) (secs 1) m m' sample_world w' cfg
                [mkLeaf sample_path " 7 " false] "pci" (AUint32 7) eq_refl Ec eq_refl) as H.
  rewrite Hl in H. destruct H as (Hr & Hc & _); [apply NoDup_singleton|left|by vm_compute|done|]. split; [exact Hc|exact Hr].
Defined.

(** ** Behaviours worth knowing, evaluated *)

(** An unlock of running by a session that holds nothing discards the edits of the session that holds
    the candidate. *)
Lemma unlock_running_discards_foreign_edits :
  let m := sample_manager edited_store alice_locked 7 in
  let r := Unlock (GL:=ascii_golib) (PF:=sample_platform None) (mkLockReq bob "running") (secs 110) (secs 110) m sample_world in
  (PCI (cand (store m)), snd r, PCI (cand (store (fst (fst r))))) = (7%Z, None, PCI sample_cfg).
Proof. vm_compute. reflexivity. Qed.

(** The edits of a session whose expiry is noticed by another session's lock request stay in the
    candidate: the later sweep does not report the session any more. *)
Lemma expired_edits_survive_a_lock_request :
  let edit := mgr_step (GL:=ascii_golib) (PF:=sample_platform None) (MEditConfig bob_edit (secs 1) (secs 1)) (sample_manager sample_store newLockManager 0, sample_world) in
  let locked := mgr_step (GL:=ascii_golib) (PF:=sample_platform None) (MLock (mkLockReq alice "candidate") (secs 100)) edit in
  let swept := SweepExpiredSessions (GL:=ascii_golib) (PF:=sample_platform None) (secs 101) (secs 101) (fst locked) (snd locked) in
  (elements (snd swept), PCI (cand (store (fst (fst swept)))), PCI (running (store (fst (fst swept))))) = ([], 7%Z, PCI sample_cfg).
Proof. vm_compute. reflexivity. Qed.

(** A commit can answer with an error after it has switched to the new configuration. *)
Lemma commit_error_after_switch :
  let m := sample_manager edited_store newLockManager 0 in
  let r := Commit (GL:=ascii_golib) (PF:=sample_platform None) bob (secs 1) (secs 1) (secs 1) (secs 1) m
             (mkWorld sample_disk (replicate 13 None ++ [Some (EIO, 0)])) in
  (is_ok (snd r), PCI (running (store (fst (fst r))))) = (false, 7%Z).
Proof. vm_compute. reflexivity. Qed.
