(* ===== verification/CMemory.v ===== *)
(** * C memory: the part of C the cgo bridge is written in

    A heap of blocks (strings and library objects) with allocation, [free], [strdup] and [strtok],
    whose static save pointer belongs to the heap, as every thread of the program shares it. A
    computation that reads a freed block, frees twice or leaves its block has undefined behaviour and
    is [None]. [wp] states that a computation is defined and what its result satisfies. Memory does not run out. *)
From S2P Require Import Prelude GoNum GoStrings.

(** ** Strings *)

Definition NUL : ascii := Ascii.zero.

(** The text a char pointer denotes: the bytes before the first NUL. *)
Definition c_str (l : bytes) : bytes := take_while (fun c => negb (Ascii.eqb c NUL)) l.

Definition is_colon (c : ascii) : bool := Ascii.eqb c ":".
Definition not_colon (c : ascii) : bool := negb (is_colon c).

(** A path list split at its colons, without the empty parts. *)
Definition path_parts (l : bytes) : list bytes := List.filter (fun t => negb (bool_decide (t = []))) (split_on ":" l).

(** Runs [step] on the elements in turn, until one of them fails. *)
Fixpoint fold_until {S A : Type} (step : S -> A -> S * bool) (s : S) (l : list A) : S * bool :=
  match l with
  | [] => (s, false)
  | a :: l => match step s a with
              | (s', true) => (s', true)
              | (s', false) => fold_until step s' l
              end
  end.

(** ** Heaps and computations *)

(** A pointer; None is NULL. *)
Abbreviation ptr := (option N).

Inductive block {O : Type} :=
| BStr (s : bytes)
| BObj (o : O).
Arguments block O : clear implicits.

Record heap {O : Type} := mkHeap {
  h_next : N;
  h_cells : gmap N (block O);
  strtok_save : option (N * nat)
}.
Arguments heap O : clear implicits.
Arguments mkHeap {O}.
Arguments h_next {O}.
Arguments h_cells {O}.
Arguments strtok_save {O}.

Definition CM (O A : Type) : Type := heap O -> option (A * heap O).

Section Memory.
Context {O : Type}.
Implicit Types h : heap O.

Definition c_ret {A : Type} (a : A) : CM O A := fun h => Some (a, h).
Definition c_bind {A B : Type} (c : CM O A) (k : A -> CM O B) : CM O B :=
  fun h => match c h with Some (a, h') => k a h' | None => None end.
Definition c_undef {A : Type} : CM O A := fun _ => None.

Definition c_alloc (b : block O) : CM O N :=
  fun h => Some (h_next h, mkHeap (N.succ (h_next h)) (<[h_next h := b]> (h_cells h)) (strtok_save h)).
Definition c_load (p : N) : CM O (block O) :=
  fun h => match h_cells h !! p with Some b => Some (b, h) | None => None end.
Definition c_store (p : N) (b : block O) : CM O unit :=
  fun h => match h_cells h !! p with Some _ => Some (tt, mkHeap (h_next h) (<[p := b]> (h_cells h)) (strtok_save h)) | None => None end.

(** free: nothing to do for NULL, undefined for a block that is not allocated. *)
Definition c_free (p : ptr) : CM O unit :=
  match p with
  | None => c_ret tt
  | Some q => fun h => match h_cells h !! q with
                       | Some _ => Some (tt, mkHeap (h_next h) (delete q (h_cells h)) (strtok_save h))
                       | None => None
                       end
  end.

End Memory.

Notation "'let!' x := c 'in' k" := (c_bind c (fun x => k))
  (at level 10, x pattern, c at level 100, k at level 200) : ems_scope.

Section Strings.
Context {O : Type}.
Implicit Types h : heap O.

(** The text behind a char pointer. *)
Definition c_read (p : ptr) : CM O bytes :=
  match p with
  | None => c_undef
  | Some q => let! b := c_load q in match b with BStr s => c_ret (c_str s) | BObj _ => c_undef end
  end.

Definition load_obj (p : ptr) : CM O O :=
  match p with
  | None => c_undef
  | Some q => let! b := c_load q in match b with BObj o => c_ret o | BStr _ => c_undef end
  end.

Definition new_obj (o : O) : CM O ptr := let! q := c_alloc (BObj o) in c_ret (Some q).

(** strdup of a text, and C.CString, which copies every byte of a Go string. *)
Definition strdup (s : bytes) : CM O ptr := let! q := c_alloc (BStr (c_str s)) in c_ret (Some q).
Definition CString (s : bytes) : CM O ptr := let! q := c_alloc (BStr s) in c_ret (Some q).

(** C.GoString *)
Definition GoString (p : ptr) : CM O bytes :=
  match p with None => c_ret [] | Some _ => c_read p end.

(** strtok with the one delimiter colon: starts at [s], or where the last call stopped when [s] is NULL;
    the delimiter behind the token is overwritten with a NUL. *)
Definition strtok (s : ptr) : CM O (option bytes) :=
  fun h =>
    match (match s with Some p => Some (p, 0%nat) | None => strtok_save h end) with
    | None => None
    | Some (p, off) =>
        match h_cells h !! p with
        | Some (BStr t) =>
            let rest := c_str (drop off t) in
            let skip := length (take_while is_colon rest) in
            let tok := take_while not_colon (drop skip rest) in
            let stop := (off + skip + length tok)%nat in
            match tok with
            | [] => Some (None, mkHeap (h_next h) (h_cells h) (Some (p, stop)))
            | _ => if bool_decide (skip + length tok < length rest)
                   then Some (Some tok, mkHeap (h_next h) (<[p := BStr (<[stop := NUL]> t)]> (h_cells h)) (Some (p, S stop)))
                   else Some (Some tok, mkHeap (h_next h) (h_cells h) (Some (p, stop)))
            end
        | _ => None
        end
    end.

(** for (tok = strtok(copy, ":"); tok; tok = strtok(NULL, ":")), left early when the body fails. *)
Fixpoint tok_loop (fuel : nat) (body : bytes -> CM O bool) (tok : option bytes) : CM O bool :=
  match fuel with
  | 0 => c_undef
  | S fuel =>
      match tok with
      | None => c_ret false
      | Some t => let! failed := body t in
                  if failed then c_ret true
                  else let! t' := strtok None in tok_loop fuel body t'
      end
  end.

(** The loop over a path list: the list is copied, cut up and freed on every way out. *)
Definition for_each_path (pathlist : bytes) (body : bytes -> CM O bool) : CM O bool :=
  let! copy := strdup pathlist in
  let! first := strtok copy in
  let! failed := tok_loop (S (S (length pathlist))) body first in
  let! _ := c_free copy in
  c_ret failed.

(** ** Total correctness *)

Definition wp {A : Type} (c : CM O A) (Q : A -> heap O -> Prop) (h : heap O) : Prop :=
  match c h with Some (a, h') => Q a h' | None => False end.

(** Every allocated block is below the next address. *)
Definition heap_ok (h : heap O) : Prop := forall p b, h_cells h !! p = Some b -> (p < h_next h)%N.

Definition empty_heap : heap O := mkHeap 1 ∅ None.

End Strings.

Section Rules.
Context {O : Type}.
Implicit Types h : heap O.

Lemma wp_ret {A} (a : A) (Q : A -> heap O -> Prop) h : Q a h -> wp (c_ret a) Q h.
Proof. done. Qed.

Lemma wp_bind {A B} (c : CM O A) (k : A -> CM O B) (Q : B -> heap O -> Prop) h :
  wp c (fun a h' => wp (k a) Q h') h -> wp (c_bind c k) Q h.
Proof. unfold wp, c_bind. destruct (c h) as [[a h']|]; done. Qed.

Lemma wp_mono {A} (c : CM O A) (P Q : A -> heap O -> Prop) h :
  wp c P h -> (forall a h', P a h' -> Q a h') -> wp c Q h.
Proof. unfold wp. destruct (c h) as [[a h']|]; eauto. Qed.

Lemma wp_alloc (b : block O) (Q : N -> heap O -> Prop) h :
  Q (h_next h) (mkHeap (N.succ (h_next h)) (<[h_next h := b]> (h_cells h)) (strtok_save h)) -> wp (c_alloc b) Q h.
Proof. done. Qed.

Lemma wp_load (p : N) (b : block O) (Q : block O -> heap O -> Prop) h :
  h_cells h !! p = Some b -> Q b h -> wp (c_load p) Q h.
Proof. unfold wp, c_load. by intros ->. Qed.

Lemma wp_c_read (q : N) (s : bytes) (Q : bytes -> heap O -> Prop) h :
  h_cells h !! q = Some (BStr s) -> Q (c_str s) h -> wp (c_read (Some q)) Q h.
Proof. intros H HQ. apply wp_bind. by apply (wp_load _ _ _ _ H). Qed.

Lemma wp_load_obj (q : N) (o : O) (Q : O -> heap O -> Prop) h :
  h_cells h !! q = Some (BObj o) -> Q o h -> wp (load_obj (Some q)) Q h.
Proof. intros H HQ. apply wp_bind. by apply (wp_load _ _ _ _ H). Qed.

Lemma wp_free (q : N) (b : block O) (Q : unit -> heap O -> Prop) h :
  h_cells h !! q = Some b -> Q tt (mkHeap (h_next h) (delete q (h_cells h)) (strtok_save h)) -> wp (c_free (Some q)) Q h.
Proof. unfold wp, c_free. by intros ->. Qed.

Lemma wp_store (q : N) (b b' : block O) (Q : unit -> heap O -> Prop) h :
  h_cells h !! q = Some b -> Q tt (mkHeap (h_next h) (<[q := b']> (h_cells h)) (strtok_save h)) -> wp (c_store q b') Q h.
Proof. unfold wp, c_store. by intros ->. Qed.

Lemma heap_fresh h : heap_ok h -> h_cells h !! h_next h = None.
Proof. intros H. destruct (h_cells h !! h_next h) as [b|] eqn:E; [|done]. specialize (H _ _ E). lia. Qed.

End Rules.

(** ** Text *)

Lemma take_while_split (p : ascii -> bool) (l : bytes) :
  l = take_while p l ++ drop (length (take_while p l)) l.
Proof. induction l as [|c l IH]; cbn; [done|]. destruct (p c); cbn; [by f_equal|done]. Qed.

Lemma take_while_holds (p : ascii -> bool) (l : bytes) : Forall (fun c => p c = true) (take_while p l).
Proof. induction l as [|c l IH]; cbn; [constructor|]. destruct (p c) eqn:E; by constructor. Qed.

Lemma take_while_whole (p : ascii -> bool) (l : bytes) : take_while p l = l <-> Forall (fun c => p c = true) l.
Proof.
  split; [intros H; rewrite <- H; apply take_while_holds|].
  induction 1 as [|c l Hc _ IH]; cbn; [done|]. by rewrite Hc, IH.
Qed.

(** What follows the longest prefix of [p] starts with a byte that is not in [p]. *)
Lemma take_while_next (p : ascii -> bool) (l r : bytes) (c : ascii) :
  drop (length (take_while p l)) l = c :: r -> p c = false.
Proof. induction l as [|x l IH]; cbn; [done|]. destruct (p x) eqn:E; cbn; [done|]. by intros [= -> ->]. Qed.

Lemma c_str_idem (l : bytes) : c_str (c_str l) = c_str l.
Proof. apply take_while_whole, take_while_holds. Qed.

Lemma c_str_drop (l : bytes) (n : nat) : c_str l = l -> c_str (drop n l) = drop n l.
Proof. unfold c_str. rewrite !take_while_whole. apply Forall_drop. Qed.

Lemma c_str_length (l : bytes) : length (c_str l) <= length l.
Proof. unfold c_str. induction l as [|c l IH]; cbn; [lia|]. destruct (negb _); cbn; lia. Qed.

(** ** Path lists *)

Lemma split_on_token (t l : bytes) : Forall (fun c => not_colon c = true) t ->
  split_on ":" (t ++ l) = match split_on ":" l with h :: r => (t ++ h) :: r | [] => [t] end.
Proof.
  induction 1 as [|c t Hc _ IH]; cbn; [by destruct l as [|x l]; cbn; [|destruct (Ascii.eqb x ":"); [|destruct (split_on _ _)]]|].
  unfold not_colon, is_colon in Hc. apply negb_true_iff in Hc. rewrite Hc, IH.
  by destruct (split_on ":" l).
Qed.

Lemma path_parts_colon (c : ascii) (l : bytes) : is_colon c = true -> path_parts (c :: l) = path_parts l.
Proof. unfold path_parts, is_colon. cbn. by intros ->. Qed.

Lemma path_parts_colons (s l : bytes) : Forall (fun c => is_colon c = true) s -> path_parts (s ++ l) = path_parts l.
Proof. induction 1 as [|c s Hc _ IH]; [done|]. cbn [app]. by rewrite path_parts_colon. Qed.

Lemma path_parts_token (t l : bytes) (c : ascii) : Forall (fun x => not_colon x = true) t -> t <> [] -> is_colon c = true ->
  path_parts (t ++ c :: l) = t :: path_parts l /\ path_parts t = [t].
Proof.
  intros Ht Hne Hc. unfold path_parts. split.
  - rewrite (split_on_token t _ Ht). unfold is_colon in Hc. cbn [split_on]. rewrite Hc, app_nil_r. cbn [List.filter].
    by rewrite bool_decide_eq_false_2.
  - pose proof (split_on_token t [] Ht) as E. rewrite !app_nil_r in E. rewrite E. cbn. rewrite app_nil_r. by rewrite bool_decide_eq_false_2.
Qed.

(** The parts in the order in which strtok cuts them off. *)
Lemma path_parts_cut (l : bytes) (r tok : bytes) :
  r = drop (length (take_while is_colon l)) l -> tok = take_while not_colon r ->
  path_parts l = match tok with [] => [] | _ => tok :: path_parts (drop (S (length tok)) r) end.
Proof.
  intros -> ->. rewrite (take_while_split is_colon l) at 1. rewrite path_parts_colons by apply take_while_holds.
  pose proof (fun c x => take_while_next is_colon l x c) as Hn. set (r := drop _ l) in *. clearbody r. clear l.
  pose proof (take_while_holds not_colon r) as Ht. pose proof (take_while_split not_colon r) as Hr.
  pose proof (fun c x => take_while_next not_colon r x c) as Hn'. set (tok := take_while not_colon r) in *. clearbody tok.
  destruct tok as [|t0 tok'] eqn:Etok.
  { destruct r as [|c r]; [done|]. specialize (Hn _ _ eq_refl). specialize (Hn' _ _ eq_refl). unfold not_colon in Hn'. by rewrite Hn in Hn'. }
  rewrite <- Etok in *. assert (Hne : tok <> []) by (by subst). clear Etok t0 tok'.
  destruct (drop (length tok) r) as [|c r'] eqn:Ed.
  - rewrite app_nil_r in Hr. subst r. rewrite drop_ge by lia. by destruct (path_parts_token tok [] ":"%char Ht Hne eq_refl) as [_ ->].
  - specialize (Hn' _ _ eq_refl). unfold not_colon in Hn'. apply negb_false_iff in Hn'.
    rewrite Hr at 1. destruct (path_parts_token tok r' c Ht Hne Hn') as [-> _]. f_equal. f_equal.
    rewrite Hr at 1. rewrite drop_app_ge by lia. replace (S (length tok) - length tok)%nat with 1%nat by lia. done.
Qed.

Lemma path_parts_length (l : bytes) : length (path_parts l) <= length l.
Proof.
  enough (H : forall n l, length l <= n -> length (path_parts l) <= length l) by by eapply H.
  induction n as [|n IH]; intros l' Hl; rewrite (path_parts_cut l' _ _ eq_refl eq_refl); destruct (take_while not_colon _) eqn:E; cbn [length]; try lia.
  - destruct l'; [done|cbn in Hl; lia].
  - pose proof (f_equal length (take_while_split not_colon (drop (length (take_while is_colon l')) l'))) as Hd.
    rewrite length_app, E in Hd. cbn [length] in Hd. rewrite !length_drop in Hd.
    etransitivity; [apply le_n_S, IH; rewrite !length_drop; lia|]. rewrite !length_drop. lia.
Qed.

(** ** strtok *)

Section Tok.
Context {O : Type}.
Implicit Types h : heap O.

(** A call that starts at offset [off] of the block [q]. *)
Definition starts_at (s : ptr) (q : N) (off : nat) (h : heap O) : Prop :=
  (s = Some q /\ off = 0%nat) \/ (s = None /\ strtok_save h = Some (q, off)).

(** [q] holds the rest of a path list whose parts are [parts], from offset [off] on. *)
Definition tok_rest (q : N) (off : nat) (parts : list bytes) (h : heap O) : Prop :=
  exists t, h_cells h !! q = Some (BStr t) /\ c_str (drop off t) = drop off t /\ path_parts (drop off t) = parts.

Lemma strtok_spec (s : ptr) (q : N) (off : nat) (parts : list bytes) h :
  starts_at s q off h -> tok_rest q off parts h ->
  wp (strtok s) (fun r h' => h_next h' = h_next h /\ delete q (h_cells h') = delete q (h_cells h) /\ is_Some (h_cells h' !! q) /\
        match parts with
        | [] => r = None
        | t :: ps => r = Some t /\ exists off', strtok_save h' = Some (q, off') /\ tok_rest q off' ps h'
        end) h.
Proof.
  intros Hs (t & Ht & Hc & Hp). unfold wp, strtok.
  assert (Hst : match s with Some p => Some (p, 0%nat) | None => strtok_save h end = Some (q, off))
    by (by destruct Hs as [[-> ->]|[-> ->]]).
  rewrite Hst, Ht, Hc. clear Hst Hs. set (rest := drop off t) in *. pose proof (path_parts_cut rest _ _ eq_refl eq_refl) as Hcut.
  pose proof (f_equal length (take_while_split is_colon rest)) as L1. set (skip := length (take_while is_colon rest)) in *.
  pose proof (f_equal length (take_while_split not_colon (drop skip rest))) as L2.
  destruct (take_while not_colon (drop skip rest)) as [|x xs] eqn:Etok.
  { rewrite <- Hp, Hcut. cbn. rewrite Ht. eauto. }
  rewrite <- Etok in *. set (tok := take_while not_colon (drop skip rest)) in *. clearbody tok skip. subst parts. rewrite Hcut.
  rewrite length_app, !length_drop in L1, L2. assert (Hlr : length rest = (length t - off)%nat) by apply length_drop.
  case_bool_decide as Hlt; cbn [h_next h_cells strtok_save].
  - rewrite delete_insert_eq, lookup_insert_eq. do 3 (split; [by eauto|]).
    destruct tok as [|y ys]; [done|]. split; [done|]. exists (S (off + skip + length (y :: ys))). split; [done|].
    eexists. split; [apply lookup_insert_eq|]. rewrite drop_insert_lt by lia.
    replace (S (off + skip + length (y :: ys))) with (off + (skip + S (length (y :: ys))))%nat by lia.
    rewrite <- (drop_drop t _ off). fold rest. split; [by apply c_str_drop|]. by rewrite drop_drop.
  - do 3 (split; [by eauto|]). destruct tok as [|y ys]; [done|]. split; [done|]. eexists. split; [done|]. exists t.
    assert (skip + length (y :: ys) = length rest)%nat as Hl by (cbn [length] in *; lia).
    split; [done|]. rewrite drop_ge by lia. split; [done|]. rewrite drop_ge; [done|]. rewrite length_drop. lia.
Qed.

(** The body works on the object [q], which stays [good], and leaves the rest of the heap as it was. *)
Definition on_object (q : N) (good : O -> Prop) (body : bytes -> CM O bool) (step : O -> bytes -> O * bool) : Prop :=
  forall t o h, good o -> heap_ok h -> h_cells h !! q = Some (BObj o) ->
    wp (body t) (fun failed h' => heap_ok h' /\ h_cells h' = <[q := BObj (step o t).1]> (h_cells h) /\
                                  strtok_save h' = strtok_save h /\ failed = (step o t).2 /\ good (step o t).1) h.

Lemma tok_loop_spec (good : O -> Prop) (body : bytes -> CM O bool) (step : O -> bytes -> O * bool) (q p : N) (parts : list bytes) :
  p <> q -> on_object q good body step ->
  forall fuel tok (off : nat) o h, good o -> (length parts < fuel)%nat -> heap_ok h -> h_cells h !! q = Some (BObj o) ->
  tok = head parts -> (parts = [] \/ strtok_save h = Some (p, off) /\ tok_rest p off (tail parts) h) -> is_Some (h_cells h !! p) ->
  wp (tok_loop fuel body tok) (fun failed h' => heap_ok h' /\ is_Some (h_cells h' !! p) /\
        delete p (h_cells h') = <[q := BObj (fold_until step o parts).1]> (delete p (h_cells h)) /\
        failed = (fold_until step o parts).2) h.
Proof.
  intros Hpq Hbody. induction parts as [|t ps IH]; intros fuel tok off o h Hg Hf Hok Ho -> Hrest Hp; (destruct fuel as [|fuel]; [cbn in Hf; lia|]); cbn [tok_loop head].
  { apply wp_ret. split_and!; [done|done| |done]. cbn. rewrite insert_id; [done|]. by rewrite lookup_delete_ne. }
  destruct Hrest as [?|[Hsave (tx & Htx & Hcx & Hpx)]]; [done|]. apply wp_bind. eapply wp_mono; [by apply (Hbody t o)|].
  intros failed h1 (Hok1 & Hc1 & Hs1 & -> & Hg1). cbn [fold_until]. destruct (step o t) as [o1 fl] eqn:Est. cbn [fst snd] in *.
  destruct fl.
  { apply wp_ret. rewrite Hc1. split_and!; [done|by rewrite lookup_insert_ne| |done]. cbn. by rewrite delete_insert_ne. }
  apply wp_bind. cbn [tail] in *. eapply wp_mono.
  { apply (strtok_spec None p off ps h1); [by right; rewrite Hs1|]. exists tx. by rewrite Hc1, lookup_insert_ne. }
  intros r h2 (Hn2 & Hd2 & Hi2 & Hr2).
  assert (Hq2 : h_cells h2 !! q = Some (BObj o1)).
  { rewrite <- (lookup_delete_ne (h_cells h2) p q) by done. rewrite Hd2, lookup_delete_ne, Hc1 by done. apply lookup_insert_eq. }
  assert (Hok2 : heap_ok h2).
  { intros x b Hx. rewrite Hn2. destruct (decide (x = p)) as [->|Hxp].
    - apply (Hok1 p (BStr tx)). by rewrite Hc1, lookup_insert_ne.
    - apply (Hok1 x b). rewrite <- (lookup_delete_ne (h_cells h1) p x), <- Hd2, lookup_delete_ne by done. done. }
  assert (Hgoal : exists off', (ps = [] \/ strtok_save h2 = Some (p, off') /\ tok_rest p off' (tail ps) h2) /\ r = head ps).
  { destruct ps as [|t1 ps]; [exists 0%nat; split; [by left|done]|]. destruct Hr2 as (-> & off' & Hs2 & Ht2). exists off'. eauto. }
  destruct Hgoal as (off' & Hg' & Hr). eapply wp_mono.
  { apply (IH fuel r off' o1 h2); try done. cbn in Hf. lia. }
  intros f h3 (Hok3 & Hp3 & Hd3 & ->). split_and!; [done|done| |done]. rewrite Hd3, Hd2, Hc1, delete_insert_ne by done. by rewrite insert_insert_eq.
Qed.

(** The loop over a path list is a fold over its parts, and leaves nothing of its own behind. *)
Lemma for_each_path_spec (good : O -> Prop) (pathlist : bytes) (body : bytes -> CM O bool) (step : O -> bytes -> O * bool) (q : N) (o : O) h :
  on_object q good body step -> good o -> heap_ok h -> h_cells h !! q = Some (BObj o) -> c_str pathlist = pathlist ->
  wp (for_each_path pathlist body) (fun failed h' => heap_ok h' /\
        h_cells h' = <[q := BObj (fold_until step o (path_parts pathlist)).1]> (h_cells h) /\
        failed = (fold_until step o (path_parts pathlist)).2) h.
Proof.
  intros Hbody Hgood Hok Ho Hnul. pose proof (heap_fresh h Hok) as Hfresh. pose proof (Hok _ _ Ho) as Hlt.
  assert (Hpq : h_next h <> q) by lia. unfold for_each_path, strdup. rewrite Hnul.
  do 2 apply wp_bind. apply wp_alloc, wp_ret, wp_bind. set (h0 := mkHeap _ _ _). set (p := h_next h) in *.
  assert (Hok0 : heap_ok h0).
  { intros x b. subst h0. cbn. rewrite lookup_insert. case_decide; [intros _; subst; lia|]. intros Hx. specialize (Hok _ _ Hx). lia. }
  eapply wp_mono.
  { apply (strtok_spec (Some p) p 0 (path_parts pathlist) h0); [by left|]. exists pathlist. subst h0. cbn. rewrite lookup_insert_eq. by rewrite drop_0. }
  intros r h1 (Hn1 & Hd1 & Hp1 & Hr1). subst h0. cbn [h_next h_cells strtok_save] in *.
  rewrite delete_insert_id in Hd1 by done.
  assert (Hq1 : h_cells h1 !! q = Some (BObj o)) by (rewrite <- (lookup_delete_ne (h_cells h1) p q) by done; by rewrite Hd1).
  assert (Hok1 : heap_ok h1).
  { intros x b Hx. rewrite Hn1. destruct (decide (x = p)) as [->|Hxp]; [lia|].
    rewrite <- (lookup_delete_ne (h_cells h1) p x), Hd1 in Hx by done. specialize (Hok _ _ Hx). lia. }
  assert (Hg : exists off', (path_parts pathlist = [] \/ strtok_save h1 = Some (p, off') /\ tok_rest p off' (tail (path_parts pathlist)) h1) /\
                 r = head (path_parts pathlist)).
  { destruct (path_parts pathlist) as [|t1 ps]; [exists 0%nat; split; [by left|done]|]. destruct Hr1 as (-> & off' & ? & ?). exists off'. eauto. }
  destruct Hg as (off' & Hg & Hr). apply wp_bind. eapply wp_mono.
  { apply (tok_loop_spec good body step q p (path_parts pathlist) Hpq Hbody _ r off' o h1); try done. pose proof (path_parts_length pathlist). lia. }
  intros failed h2 (Hok2 & [b Hb] & Hd2 & ->). apply wp_bind, (wp_free _ b _ _ Hb), wp_ret. cbn [h_cells]. split_and!; [|by rewrite Hd2, Hd1|done].
  intros x b' Hx. apply (Hok2 x b'). cbn in Hx. apply lookup_delete_Some in Hx. tauto.
Qed.

End Tok.

(** ** Ownership

    [owned l base h]: the heap consists of the blocks of [base], as they were, and of the blocks [l], in
    any order. *)

Section Owned.
Context {O : Type}.
Implicit Types (h : heap O) (l : list (N * block O)) (base : gmap N (block O)).

Definition owned l base h : Prop :=
  heap_ok h /\ NoDup l.*1 /\ (forall k, k ∈ l.*1 -> base !! k = None) /\ h_cells h = list_to_map l ∪ base.

#[global] Instance owned_proper base h : Proper ((≡ₚ) ==> iff) (fun l => owned l base h).
Proof.
  assert (H : forall l1 l2, l1 ≡ₚ l2 -> owned l1 base h -> owned l2 base h).
  { intros l1 l2 Hp (Hok & Hnd & Hb & Hc). assert (Hk : l1.*1 ≡ₚ l2.*1) by (by rewrite Hp). split; [done|]. split; [by rewrite <- Hk|].
    split; [intros k; rewrite <- Hk; apply Hb|]. rewrite Hc. f_equal. by apply list_to_map_proper. }
  intros l1 l2 Hp. split; by apply H.
Qed.

Lemma owned_perm l l' base h : l ≡ₚ l' -> owned l base h -> owned l' base h.
Proof. intros Hp. by rewrite (owned_proper base h l l' Hp). Qed.

Lemma owned_start h : heap_ok h -> owned [] (h_cells h) h.
Proof. intros H. split_and!; [done|constructor|by intros k ?%elem_of_nil|]. cbn. by rewrite map_empty_union. Qed.

Lemma owned_end base h : owned [] base h -> heap_ok h /\ h_cells h = base.
Proof. intros (? & _ & _ & ->). cbn. by rewrite map_empty_union. Qed.

Lemma owned_lookup l base h (p : N) (b : block O) : owned l base h -> (p, b) ∈ l -> h_cells h !! p = Some b.
Proof.
  intros (_ & Hnd & _ & ->) Hin. apply lookup_union_Some_l. by apply elem_of_list_to_map_1.
Qed.

Lemma owned_head (p : N) (b : block O) l base h : owned ((p, b) :: l) base h -> h_cells h !! p = Some b.
Proof. intros H. apply (owned_lookup _ _ _ _ _ H). left. Qed.

Lemma wp_own_alloc (b : block O) l base (Q : N -> heap O -> Prop) h :
  owned l base h -> (forall p h', owned ((p, b) :: l) base h' -> Q p h') -> wp (c_alloc b) Q h.
Proof.
  intros (Hok & Hnd & Hb & Hc) HQ. apply wp_alloc, HQ. pose proof (heap_fresh h Hok) as Hf. rewrite Hc in Hf.
  apply lookup_union_None in Hf as [Hf1 Hf2]. split_and!; cbn.
  - intros p b' Hp. cbn in Hp. rewrite lookup_insert in Hp. case_decide; [subst; cbn; lia|]. specialize (Hok _ _ Hp). cbn. lia.
  - constructor; [|done]. by apply not_elem_of_list_to_map.
  - intros k [->|Hk]%elem_of_cons; [done|auto].
  - by rewrite Hc, insert_union_l.
Qed.

Lemma wp_own_free (p : N) (b : block O) l l' base (Q : unit -> heap O -> Prop) h :
  owned l base h -> l ≡ₚ (p, b) :: l' -> (forall h', owned l' base h' -> Q tt h') -> wp (c_free (Some p)) Q h.
Proof.
  intros Ho Hp HQ. apply (owned_perm _ _ _ _ Hp) in Ho. apply (wp_free _ b); [by apply owned_head in Ho|]. apply HQ.
  destruct Ho as (Hok & Hnd & Hb & Hc). cbn in Hnd, Hb, Hc. apply NoDup_cons in Hnd as [Hn Hnd]. split_and!; cbn.
  - intros x b' Hx. apply (Hok x b'). cbn in Hx. apply lookup_delete_Some in Hx. tauto.
  - done.
  - intros k Hk. apply Hb. by right.
  - rewrite Hc, <- insert_union_l, delete_insert_id; [done|]. apply lookup_union_None. split; [by apply not_elem_of_list_to_map|].
    apply Hb. left.
Qed.

Lemma owned_update (p : N) (b b' : block O) l base h h' :
  owned ((p, b) :: l) base h -> heap_ok h' -> h_cells h' = <[p := b']> (h_cells h) -> owned ((p, b') :: l) base h'.
Proof.
  intros (Hok & Hnd & Hb & Hc) Hok' Hc'. split_and!; [done|done|done|]. rewrite Hc', Hc. cbn. rewrite insert_union_l. by rewrite insert_insert_eq.
Qed.

Lemma wp_own_store (p : N) (b b' : block O) l l' base (Q : unit -> heap O -> Prop) h :
  owned l base h -> l ≡ₚ (p, b) :: l' -> (forall h', owned ((p, b') :: l') base h' -> Q tt h') -> wp (c_store p b') Q h.
Proof.
  intros Ho Hp HQ. apply (owned_perm _ _ _ _ Hp) in Ho. pose proof (owned_head _ _ _ _ _ Ho) as Hl. apply (wp_store _ b); [done|].
  apply HQ. apply (owned_update _ b _ _ _ _ _ Ho); [|done]. intros x y Hx. cbn in Hx |- *. rewrite lookup_insert in Hx.
  destruct Ho as (Hok & _). case_decide; [subst; by apply (Hok _ b)|by apply (Hok _ y)].
Qed.

Lemma wp_own_read (p : N) (s : bytes) l base (Q : bytes -> heap O -> Prop) h :
  owned l base h -> (p, BStr s) ∈ l -> Q (c_str s) h -> wp (c_read (Some p)) Q h.
Proof. intros Ho Hin. apply wp_c_read. by apply (owned_lookup _ _ _ _ _ Ho). Qed.

Lemma wp_own_obj (p : N) (o : O) l base (Q : O -> heap O -> Prop) h :
  owned l base h -> (p, BObj o) ∈ l -> Q o h -> wp (load_obj (Some p)) Q h.
Proof. intros Ho Hin. apply wp_load_obj. by apply (owned_lookup _ _ _ _ _ Ho). Qed.

Lemma wp_own_strdup (s : bytes) l base (Q : ptr -> heap O -> Prop) h :
  owned l base h -> (forall p h', owned ((p, BStr (c_str s)) :: l) base h' -> Q (Some p) h') -> wp (strdup s) Q h.
Proof. intros Ho HQ. apply wp_bind, (wp_own_alloc _ l base); [done|]. intros p h' H. apply wp_ret, HQ, H. Qed.

Lemma wp_own_new (o : O) l base (Q : ptr -> heap O -> Prop) h :
  owned l base h -> (forall p h', owned ((p, BObj o) :: l) base h' -> Q (Some p) h') -> wp (new_obj o) Q h.
Proof. intros Ho HQ. apply wp_bind, (wp_own_alloc _ l base); [done|]. intros p h' H. apply wp_ret, HQ, H. Qed.

End Owned.
