(* ===== verification/Bridge.v ===== *)
(** * The bridge to libyang (internal/ems/netconfcm/bridge_cgo.go, bridge_stub.go)

    The C functions of the cgo preamble over the heap of CMemory, and the two Go functions that call
    them. libyang and the directories are the class [Libyang]; its objects (contexts, data trees) and
    the open directories are blocks of the heap, so that a leak, a double free or a use after free of one of them shows. *)
From S2P Require Import Prelude GoNum GoStrings Json FileSystem Locks ConfigData ConfigEdit ConfigStore ConfigFiles Bindings Artifacts NetconfManager CMemory.

(** ** fmt.Errorf with a format and no operands *)

(** The digits of a width, a precision or an index: whether there is a number, and what follows it;
    one beyond a million is no number and swallows the rest of the format. *)
Fixpoint parsenum (num : Z) (isnum : bool) (l : bytes) : bool * bytes :=
  match l with
  | c :: r => if is_digit c
              then if (1000000 <? num)%Z then (false, [])
                   else parsenum (num * 10 + (Z.of_N (code c) - 48))%Z true r
              else (isnum, l)
  | [] => (isnum, [])
  end.

(** An explicit argument index: there are no operands, so every index is a bad one. *)
Definition argNumber (good : bool) (l : bytes) : bool * bytes * bool :=
  match l with
  | "["%char :: r =>
      let body := take_while (fun c => negb (Ascii.eqb c "]")) r in
      if (length l <? 3)%nat then (false, r, false)
      else match drop (length body) r with
           | [] => (false, r, false)
           | _ :: after => match parsenum 0 false body with
                           | (true, []) => (false, after, true)
                           | _ => (false, after, false)
                           end
           end
  | _ => (good, l, false)
  end.

Definition is_flag (c : ascii) : bool :=
  Ascii.eqb c "#" || Ascii.eqb c "0" || Ascii.eqb c "+" || Ascii.eqb c "-" || Ascii.eqb c " ".
Definition not_percent (c : ascii) : bool := negb (Ascii.eqb c "%").

(** The verb at the head of the text, as it is printed, and what follows it. *)
Definition verb (c : ascii) (l : bytes) : bytes * bytes :=
  if is_ascii_byte c then ([c], drop 1 l)
  else match rune_width l with
       | Some w => (take w l, drop w l)
       | None => ([ascii_of_N 239; ascii_of_N 191; ascii_of_N 189], drop 1 l)
       end.

Fixpoint doPrintf (fuel : nat) (l : bytes) : bytes :=
  match fuel with
  | 0 => []
  | S fuel =>
      let plain := take_while not_percent l in
      plain ++
      match drop (length plain) l with
      | [] => []
      | _ :: l1 =>
          let l2 := drop (length (take_while is_flag l1)) l1 in
          let '(good, l3, indexed) := argNumber true l2 in
          let '(out1, good, l4, indexed) :=
            match l3 with
            | "*"%char :: r => (str "%!(BADWIDTH)", good, r, false)
            | _ => match parsenum 0 false l3 with
                   | (isnum, r) => ([], good && negb (indexed && isnum), r, indexed)
                   end
            end in
          let '(out2, good, l5, indexed) :=
            match l4 with
            | "."%char :: r =>
                match argNumber (good && negb indexed) r with
                | (good, "*"%char :: r, _) => (str "%!(BADPREC)", good, r, false)
                | (good, r, indexed) => ([], good, (parsenum 0 false r).2, indexed)
                end
            | _ => ([], good, l4, indexed)
            end in
          let '(good, l6, _) := if indexed then (good, l5, true) else argNumber good l5 in
          out1 ++ out2 ++
          match l6 with
          | [] => str "%!(NOVERB)"
          | c :: _ =>
              let '(v, rest) := verb c l6 in
              (if Ascii.eqb c "%" then str "%"
               else str "%!" ++ v ++ (if good then str "(MISSING)" else str "(BADINDEX)")) ++ doPrintf fuel rest
          end
      end
  end.

Definition Errorf (format : bytes) : string := unstr (doPrintf (S (length format)) format).

Lemma Errorf_plain (l : bytes) : Forall (fun c => not_percent c = true) l -> Errorf l = unstr l.
Proof.
  intros H. unfold Errorf. cbn. rewrite (proj2 (take_while_whole _ _) H), drop_ge by done. by rewrite app_nil_r.
Qed.

(** ** libyang *)

(** The kinds of schema nodes the bridge distinguishes. *)
Inductive lys_nodetype := LYS_LEAF | LYS_LEAFLIST | LYS_OTHER.

(** A compiled schema node: its kind and the two flags the bridge tests. *)
Record lysc_node := mkSchema { nodetype : lys_nodetype; LYS_CONFIG_W : bool; LYS_KEY : bool }.

(** A node of a data tree: its schema (NULL for an opaque node), what lyd_path and lyd_get_value answer for
    it, and its children. The siblings behind a node pointer are a list. *)
Inductive lyd_node := mkNode {
  schema : option lysc_node;
  lyd_path : option bytes;
  lyd_get_value : option bytes;
  lyd_child : list lyd_node
}.

Class Libyang := {
  ly_ctx : Type;
  ly_ctx_new : option ly_ctx;
  (** true: the call failed *)
  ly_ctx_set_searchdir : ly_ctx -> bytes -> ly_ctx * bool;
  lys_parse_path : ly_ctx -> bytes -> ly_ctx * bool;
  (** the tree of a document, None on an error *)
  lyd_parse_data : ly_ctx -> bytes -> ly_ctx * option (list lyd_node);
  (** validation adds implicit nodes to the tree; true: it failed *)
  lyd_validate : ly_ctx -> list lyd_node -> ly_ctx * list lyd_node * bool;
  ly_errmsg : ly_ctx -> option bytes;
  (** the entries of a directory, None when it cannot be opened *)
  read_dir : bytes -> option (list bytes)
}.

Definition PATH_MAX : nat := 4096.

Section Bridge.
Context {LY : Libyang}.

(** ** The structs of the preamble *)

Record cm_leaf := mkCLeaf { cl_path : ptr; cl_value : ptr; cl_is_key : Z }.
Record cm_result := mkCResult { cr_items : ptr; cr_count : nat; cr_cap : nat; cr_errmsg : ptr }.

(** What a block holds besides text: a context, a data tree, an open directory, an array of leaves whose
    entries are None while they are not written. *)
Inductive obj :=
| OCtx (c : ly_ctx)
| OTree (t : list lyd_node)
| ODir
| OLeafs (a : list (option cm_leaf)).

Abbreviation M := (CM obj).
Definition zero_result : cm_result := mkCResult None 0 0 None.

(** ** Errors *)

Definition cm_set_error (res : cm_result) (msg : option bytes) : M cm_result :=
  match cr_errmsg res with
  | Some _ => c_ret res
  | None => let! p := strdup (default (str "unknown error") msg) in c_ret (res <| cr_errmsg := p |>)
  end.

(** ** Loading the modules *)

Definition load_ctx (ctx : ptr) : M ly_ctx :=
  let! o := load_obj ctx in match o with OCtx c => c_ret c | _ => c_undef end.
Definition store_ctx (ctx : ptr) (c : ly_ctx) : M unit :=
  match ctx with Some q => c_store q (BObj (OCtx c)) | None => c_undef end.

(** A library call on a context. *)
Definition on_ctx (ctx : ptr) (f : ly_ctx -> ly_ctx * bool) : M bool :=
  let! c := load_ctx ctx in
  let! _ := store_ctx ctx (f c).1 in
  c_ret (f c).2.

(** true stands for -1. *)
Definition cm_add_searchdirs (ctx : ptr) (pathlist : bytes) : M bool :=
  match pathlist with
  | [] => c_ret false
  | _ => for_each_path pathlist (fun tok =>
           match tok with
           | [] => c_ret false
           | _ => on_ctx ctx (fun c => ly_ctx_set_searchdir c tok)
           end)
  end.

Definition is_yang_file (name : bytes) : bool :=
  negb ((length name <? 5)%nat || negb (bool_decide (drop (length name - 5) name = str ".yang"))).

Fixpoint readdir_loop (ctx dh : ptr) (dir : bytes) (names : list bytes) : M bool :=
  match names with
  | [] => let! _ := c_free dh in c_ret false
  | name :: names =>
      if is_yang_file name
      then let path := dir ++ "/"%char :: name in
           if (PATH_MAX <=? length path)%nat then let! _ := c_free dh in c_ret true
           else let! failed := on_ctx ctx (fun c => lys_parse_path c path) in
                if failed then let! _ := c_free dh in c_ret true
                else readdir_loop ctx dh dir names
      else readdir_loop ctx dh dir names
  end.

Definition cm_parse_all_yang (ctx : ptr) (pathlist : bytes) : M bool :=
  match pathlist with
  | [] => c_ret true
  | _ => for_each_path pathlist (fun dir =>
           match read_dir dir with
           | None => c_ret false
           | Some names => let! dh := new_obj ODir in readdir_loop ctx dh dir names
           end)
  end.

(** ** Collecting the leaves *)

Definition load_leafs (p : ptr) : M (list (option cm_leaf)) :=
  let! o := load_obj p in match o with OLeafs a => c_ret a | _ => c_undef end.

(** realloc of the array of leaves: a new block with the old entries. *)
Definition realloc_leafs (p : ptr) (n : nat) : M ptr :=
  match p with
  | None => new_obj (OLeafs (replicate n None))
  | Some _ => let! a := load_leafs p in
              let! _ := c_free p in
              new_obj (OLeafs (a ++ replicate (n - length a) None))
  end.

Definition cm_append_leaf (res : cm_result) (path : ptr) (value : option bytes) (is_key : Z) : M (cm_result * bool) :=
  match path, value with
  | Some _, Some value =>
      let! res :=
        if (cr_count res =? cr_cap res)%nat
        then let next_cap := if (cr_cap res =? 0)%nat then 16%nat else (cr_cap res * 2)%nat in
             let! next := realloc_leafs (cr_items res) next_cap in
             c_ret (res <| cr_items := next |> <| cr_cap := next_cap |>)
        else c_ret res in
      let! a := load_leafs (cr_items res) in
      let i := cr_count res in
      let! s := c_read path in
      let! p := strdup s in
      let! v := strdup value in
      match cr_items res with
      | Some q => if (i <? length a)%nat
                  then let! _ := c_store q (BObj (OLeafs (<[i := Some (mkCLeaf p v is_key)]> a))) in
                       c_ret (res <| cr_count := S i |>, false)
                  else c_undef
      | None => c_undef
      end
  | _, _ => c_ret (res, true)
  end.

(** lyd_path allocates the text it returns. *)
Definition new_path (n : lyd_node) : M ptr :=
  match lyd_path n with Some s => strdup s | None => c_ret None end.

Definition is_leaf (s : lysc_node) : bool :=
  match nodetype s with LYS_LEAF | LYS_LEAFLIST => true | LYS_OTHER => false end.

(** snprintf(msg, 1024, "path %s is not config true", path) *)
Definition not_config_msg (path : bytes) : bytes := take 1023 (str "path " ++ path ++ str " is not config true").

(** What the walk does at a node before it descends. *)
Definition walk_leaf (it : lyd_node) (s : lysc_node) (res : cm_result) : M (cm_result * bool) :=
  if is_leaf s
  then if negb (LYS_CONFIG_W s)
       then let! path := new_path it in
            match path with
            | Some _ => let! p := c_read path in
                        let! res := cm_set_error res (Some (not_config_msg p)) in
                        let! _ := c_free path in c_ret (res, true)
            | None => let! res := cm_set_error res (Some (str "encountered non-config leaf in edit payload")) in c_ret (res, true)
            end
       else let! path := new_path it in
            let! r := match path, lyd_get_value it with
                      | Some _, Some _ => cm_append_leaf res path (lyd_get_value it) (if LYS_KEY s then 1 else 0)%Z
                      | _, _ => c_ret (res, true)
                      end in
            let! _ := c_free path in
            if r.2 then let! res := cm_set_error r.1 (Some (str "failed to collect parsed leaf")) in c_ret (res, true)
            else c_ret (r.1, false)
  else c_ret (res, false).

Fixpoint walk_node (it : lyd_node) (res : cm_result) {struct it} : M (cm_result * bool) :=
  match it with
  | mkNode sch _ _ child =>
      match sch with
      | None => let! res := cm_set_error res (Some (str "encountered node without schema")) in c_ret (res, true)
      | Some s =>
          let! r := walk_leaf it s res in
          if r.2 then c_ret (r.1, true)
          else (fix walk (l : list lyd_node) (res : cm_result) : M (cm_result * bool) :=
                  match l with
                  | [] => c_ret (res, false)
                  | n :: l => let! r := walk_node n res in
                              if r.2 then c_ret (r.1, true) else walk l r.1
                  end) child r.1
      end
  end.

Fixpoint cm_walk_tree (node : list lyd_node) (res : cm_result) : M (cm_result * bool) :=
  match node with
  | [] => c_ret (res, false)
  | it :: l => let! r := walk_node it res in
               if r.2 then c_ret (r.1, true) else cm_walk_tree l r.1
  end.

(** ** Contexts and trees *)

(** The message of a failed call, copied before its context is destroyed. *)
Definition dup_errmsg (ctx : ptr) (fallback : bytes) : M ptr :=
  let! c := load_ctx ctx in strdup (default fallback (ly_errmsg c)).

(** A call answers the pointer it leaves in *ctx, or the one it leaves in *errmsg. *)
Definition cm_prepare_ctx (yang_dir : ptr) : M (result ptr ptr) :=
  match ly_ctx_new with
  | None => let! e := strdup (str "failed to create libyang context") in c_ret (Err e)
  | Some c =>
      let! ctx := new_obj (OCtx c) in
      let! dirs := c_read yang_dir in
      let! failed := cm_add_searchdirs ctx dirs in
      let! failed := if failed then c_ret true else cm_parse_all_yang ctx dirs in
      if failed
      then let! e := dup_errmsg ctx (str "failed to load YANG modules") in
           let! _ := c_free ctx in c_ret (Err e)
      else c_ret (Ok ctx)
  end.

(** An empty tree is NULL. *)
Definition new_tree (t : list lyd_node) : M ptr :=
  match t with [] => c_ret None | _ => new_obj (OTree t) end.
Definition load_tree (p : ptr) : M (list lyd_node) :=
  match p with
  | None => c_ret []
  | Some _ => let! o := load_obj p in match o with OTree t => c_ret t | _ => c_undef end
  end.

Definition lyd_parse_data_mem (ctx : ptr) (json : bytes) : M (option ptr) :=
  let! c := load_ctx ctx in
  let! _ := store_ctx ctx (lyd_parse_data c json).1 in
  match (lyd_parse_data c json).2 with
  | Some t => let! p := new_tree t in c_ret (Some p)
  | None => c_ret None
  end.

(** The tree is replaced by the one that validation leaves. *)
Definition lyd_validate_all (tree ctx : ptr) : M (ptr * bool) :=
  let! c := load_ctx ctx in
  let! t := load_tree tree in
  let '(c', t', failed) := lyd_validate c t in
  let! _ := store_ctx ctx c' in
  let! _ := c_free tree in
  let! tree := new_tree t' in
  c_ret (tree, failed).

Definition cm_parse_tree (yang_dir json : ptr) : M (result ptr (ptr * ptr)) :=
  let! r := cm_prepare_ctx yang_dir in
  match r with
  | Err e => c_ret (Err e)
  | Ok ctx =>
      let! text := c_read json in
      let! parsed := lyd_parse_data_mem ctx text in
      match parsed with
      | None => let! e := dup_errmsg ctx (str "failed to parse YANG-JSON") in
                let! _ := c_free ctx in c_ret (Err e)
      | Some tree =>
          let! v := lyd_validate_all tree ctx in
          if v.2
          then let! e := dup_errmsg ctx (str "YANG validation failed") in
               let! _ := c_free v.1 in
               let! _ := c_free ctx in c_ret (Err e)
          else c_ret (Ok (ctx, v.1))
      end
  end.

Definition cm_extract_leafs (yang_dir json : ptr) : M (cm_result * bool) :=
  let! r := cm_parse_tree yang_dir json in
  match r with
  | Err e => c_ret (zero_result <| cr_errmsg := e |>, true)
  | Ok (ctx, tree) =>
      let! t := load_tree tree in
      let! w := cm_walk_tree t zero_result in
      let! _ := c_free tree in
      let! _ := c_free ctx in
      if w.2
      then match cr_errmsg w.1 with
           | Some _ => c_ret (w.1, true)
           | None => let! e := strdup (str "failed to walk parsed tree") in c_ret (w.1 <| cr_errmsg := e |>, true)
           end
      else c_ret (w.1, false)
  end.

Definition cm_validate_json (yang_dir json : ptr) : M (ptr * bool) :=
  let! r := cm_parse_tree yang_dir json in
  match r with
  | Err e => c_ret (e, true)
  | Ok (ctx, tree) => let! _ := c_free tree in let! _ := c_free ctx in c_ret (None, false)
  end.

(** The loop frees the texts of the first [count] entries. *)
Fixpoint free_leafs (n : nat) (a : list (option cm_leaf)) : M unit :=
  match n, a with
  | 0, _ => c_ret tt
  | S n, Some l :: a => let! _ := c_free (cl_path l) in let! _ := c_free (cl_value l) in free_leafs n a
  | S _, _ => c_undef
  end.

Definition cm_result_free (res : cm_result) : M cm_result :=
  let! _ := match cr_items res with
            | None => free_leafs (cr_count res) []
            | Some _ => let! a := load_leafs (cr_items res) in free_leafs (cr_count res) a
            end in
  let! _ := c_free (cr_items res) in
  let! _ := c_free (cr_errmsg res) in
  c_ret zero_result.

(** ** The Go functions *)

Fixpoint go_leaves (n : nat) (a : list (option cm_leaf)) : M (list extractedLeaf) :=
  match n, a with
  | 0, _ => c_ret []
  | S n, Some l :: a =>
      let! p := GoString (cl_path l) in
      let! v := GoString (cl_value l) in
      let! out := go_leaves n a in
      c_ret (mkLeaf (unstr p) (unstr v) (negb (cl_is_key l =? 0)%Z) :: out)
  | S _, _ => c_undef
  end.

Definition extractLeaves_c (yangDir : string) (payload : bytes) : M (result string (list extractedLeaf)) :=
  let! cYangDir := CString (str yangDir) in
  let! cPayload := CString payload in
  let! r := cm_extract_leafs cYangDir cPayload in
  let res := r.1 in
  let! out :=
    if r.2
    then match cr_errmsg res with
         | Some _ => let! msg := GoString (cr_errmsg res) in c_ret (Err (Errorf msg))
         | None => c_ret (Err "failed to extract YANG leaves")
         end
    else if (cr_count res =? 0)%nat then c_ret (Ok [])
    else let! a := load_leafs (cr_items res) in
         let! out := go_leaves (cr_count res) a in c_ret (Ok out) in
  let! _ := cm_result_free res in
  let! _ := c_free cPayload in
  let! _ := c_free cYangDir in
  c_ret out.

Definition validateYANGJSON_c (yangDir : string) (payload : bytes) : M (option string) :=
  let! cYangDir := CString (str yangDir) in
  let! cPayload := CString payload in
  let! r := cm_validate_json cYangDir cPayload in
  let! out :=
    if r.2
    then match r.1 with
         | Some _ => let! msg := GoString r.1 in c_ret (Some (Errorf msg))
         | None => c_ret (Some "YANG validation failed")
         end
    else c_ret None in
  let! _ := if r.2 then c_free r.1 else c_ret tt in
  let! _ := c_free cPayload in
  let! _ := c_free cYangDir in
  c_ret out.

End Bridge.

(** ** The build without cgo (bridge_stub.go) *)

Definition stub_error : string := "NETCONF CM mediation requires netconf+cgo build".
Definition extractLeaves_stub (_ : string) (_ : bytes) : result string (list extractedLeaf) := Err stub_error.
Definition validateYANGJSON_stub (_ : string) (_ : bytes) : option string := Some stub_error.

(** ** What the bridge computes, without memory *)

Section Reference.
Context {LY : Libyang}.

Definition searchdirs (c : ly_ctx) (dirs : bytes) : ly_ctx * bool := fold_until ly_ctx_set_searchdir c (path_parts dirs).

(** The YANG files of a directory, in the order of its entries. *)
Definition yang_files (dir : bytes) : list bytes :=
  match read_dir dir with
  | Some names => (fun n => dir ++ "/"%char :: n) <$> List.filter is_yang_file names
  | None => []
  end.
Definition parse_file (c : ly_ctx) (path : bytes) : ly_ctx * bool :=
  if (PATH_MAX <=? length path)%nat then (c, true) else lys_parse_path c path.
Definition modules (c : ly_ctx) (dirs : bytes) : ly_ctx * bool :=
  match dirs with [] => (c, true) | _ => fold_until parse_file c (flat_map yang_files (path_parts dirs)) end.

(** The context with every module of the directories, or the text of the first error. *)
Definition loaded (dirs : bytes) : result bytes ly_ctx :=
  match ly_ctx_new with
  | None => Err (str "failed to create libyang context")
  | Some c =>
      let r := searchdirs c dirs in
      let r := if r.2 then r else modules r.1 dirs in
      if r.2 then Err (default (str "failed to load YANG modules") (ly_errmsg r.1)) else Ok r.1
  end.

(** The validated tree of a document. *)
Definition parsed (dirs json : bytes) : result bytes (list lyd_node) :=
  let? c := loaded dirs in
  match lyd_parse_data c json with
  | (c1, None) => Err (default (str "failed to parse YANG-JSON") (ly_errmsg c1))
  | (c1, Some t) => let '(c2, t2, failed) := lyd_validate c1 t in
                    if failed then Err (default (str "YANG validation failed") (ly_errmsg c2)) else Ok t2
  end.

(** The nodes of a tree in document order. *)
Fixpoint doc_order (n : lyd_node) : list lyd_node :=
  match n with mkNode _ _ _ child => n :: flat_map doc_order child end.

(** Why a node cannot be edited. *)
Definition node_error (n : lyd_node) : option bytes :=
  match schema n with
  | None => Some (str "encountered node without schema")
  | Some s =>
      if is_leaf s
      then if LYS_CONFIG_W s
           then match lyd_path n, lyd_get_value n with
                | Some _, Some _ => None
                | _, _ => Some (str "failed to collect parsed leaf")
                end
           else Some (match lyd_path n with
                      | Some p => not_config_msg (c_str p)
                      | None => str "encountered non-config leaf in edit payload"
                      end)
      else None
  end.

Definition node_leaf (n : lyd_node) : option extractedLeaf :=
  match schema n with
  | Some s => if is_leaf s
              then Some (mkLeaf (unstr (c_str (default [] (lyd_path n)))) (unstr (c_str (default [] (lyd_get_value n)))) (LYS_KEY s))
              else None
  | None => None
  end.

(** The leaves of a tree in document order, or the error of the first node that has one. *)
Definition tree_leaves (t : list lyd_node) : result bytes (list extractedLeaf) :=
  match omap node_error (flat_map doc_order t) with
  | e :: _ => Err e
  | [] => Ok (omap node_leaf (flat_map doc_order t))
  end.

Definition extracted (dirs json : bytes) : result bytes (list extractedLeaf) := let? t := parsed dirs json in tree_leaves t.

(** The text of an error as the Go functions return it. *)
Definition go_error {A : Type} (r : result bytes A) : result string A :=
  match r with Ok a => Ok a | Err e => Err (Errorf (c_str e)) end.

End Reference.

Lemma fold_until_flat {S A B : Type} (step : S -> B -> S * bool) (f : A -> list B) (l : list A) (s : S) :
  fold_until step s (flat_map f l) = fold_until (fun s a => fold_until step s (f a)) s l.
Proof.
  assert (Happ : forall l1 l2 s, fold_until step s (l1 ++ l2) = match fold_until step s l1 with
                                                                | (s', true) => (s', true) | (s', false) => fold_until step s' l2 end).
  { induction l1 as [|b l1 IH]; intros l2 s'; cbn; [done|]. destruct (step s' b) as [s2 []]; [done|]. apply IH. }
  revert s. induction l as [|a l IH]; intros s; cbn; [done|]. rewrite Happ. destruct (fold_until step s (f a)) as [s' []]; [done|]. apply IH.
Qed.

Lemma lyd_node_ind' (P : lyd_node -> Prop) :
  (forall s p v ch, Forall P ch -> P (mkNode s p v ch)) -> forall n, P n.
Proof.
  intros H. fix IH 1. intros [s p v ch]. apply H. induction ch as [|c ch IHc]; constructor; [apply IH|exact IHc].
Qed.

(** ** Loading *)

Section Loading.
Context {LY : Libyang}.

Abbreviation ctx_block q c := ((q, BObj (OCtx c)) : N * block obj).

Lemma on_ctx_spec (q : N) (c : ly_ctx) (f : ly_ctx -> ly_ctx * bool) (h : heap obj) :
  heap_ok h -> h_cells h !! q = Some (BObj (OCtx c)) ->
  wp (on_ctx (Some q) f) (fun failed h' => heap_ok h' /\ h_cells h' = <[q := BObj (OCtx (f c).1)]> (h_cells h) /\
                                           strtok_save h' = strtok_save h /\ failed = (f c).2) h.
Proof.
  intros Hok Hq. do 2 apply wp_bind. apply (wp_load_obj _ _ _ _ Hq), wp_ret, wp_bind, (wp_store _ _ _ _ _ Hq), wp_ret.
  split_and!; try done. intros x b Hx. cbn in Hx |- *. rewrite lookup_insert in Hx. case_decide; [subst; by apply (Hok _ _ Hq)|by apply (Hok _ _ Hx)].
Qed.

(** A step on a context as a step on the objects of the heap. *)
Definition ctx_step (f : ly_ctx -> bytes -> ly_ctx * bool) (o : obj) (t : bytes) : obj * bool :=
  match o with OCtx c => let r := f c t in (OCtx r.1, r.2) | _ => (o, false) end.

Lemma fold_ctx_step (f : ly_ctx -> bytes -> ly_ctx * bool) (l : list bytes) (c : ly_ctx) :
  fold_until (ctx_step f) (OCtx c) l = (OCtx (fold_until f c l).1, (fold_until f c l).2).
Proof. revert c. induction l as [|t l IH]; intros c; cbn; [done|]. destruct (f c t) as [c' []]; cbn; [done|]. apply IH. Qed.

Lemma readdir_loop_spec (q d : N) (dir : bytes) (names : list bytes) :
  d <> q -> forall (c : ly_ctx) (h : heap obj), heap_ok h -> h_cells h !! q = Some (BObj (OCtx c)) -> is_Some (h_cells h !! d) ->
  wp (readdir_loop (Some q) (Some d) dir names) (fun failed h' => heap_ok h' /\
       let r := fold_until parse_file c ((fun n => dir ++ "/"%char :: n) <$> List.filter is_yang_file names) in
       h_cells h' = delete d (<[q := BObj (OCtx r.1)]> (h_cells h)) /\ strtok_save h' = strtok_save h /\ failed = r.2) h.
Proof.
  intros Hdq. assert (Hdel : forall h, heap_ok h -> heap_ok (mkHeap (h_next h) (delete d (h_cells h)) (strtok_save h)) (O:=obj)).
  { intros h Hok x b Hx. cbn in *. apply (Hok x b). apply lookup_delete_Some in Hx. tauto. }
  induction names as [|n names IH]; intros c h Hok Hq Hd; cbn [readdir_loop].
  { destruct Hd as [b Hb]. apply wp_bind, (wp_free _ b _ _ Hb), wp_ret. split; [by apply Hdel|]. cbn. by rewrite insert_id. }
  cbn [List.filter]. destruct (is_yang_file n); [|by apply IH]. rewrite fmap_cons. cbv zeta. cbn [fold_until]. set (path := dir ++ _ :: n).
  assert (Ep : parse_file c path = if (PATH_MAX <=? length path)%nat then (c, true) else lys_parse_path c path) by done.
  rewrite Ep. clear Ep. destruct (PATH_MAX <=? _)%nat.
  { destruct Hd as [b Hb]. apply wp_bind, (wp_free _ b _ _ Hb), wp_ret. split; [by apply Hdel|]. cbn. by rewrite insert_id. }
  apply wp_bind. eapply wp_mono; [by apply (on_ctx_spec q c)|]. cbn beta. intros failed h1 (Hok1 & Hc1 & Hs1 & ->).
  destruct (lys_parse_path c _) as [c1 []]; cbn [fst snd] in *.
  - destruct Hd as [b Hb]. apply wp_bind. apply (wp_free _ b); [by rewrite Hc1, lookup_insert_ne|]. apply wp_ret.
    split; [by apply Hdel|]. cbn. by rewrite Hc1.
  - eapply wp_mono.
    { apply (IH c1 h1 Hok1); rewrite Hc1; [apply lookup_insert_eq|]. by rewrite lookup_insert_ne. }
    cbn beta zeta. intros f h2 (Hok2 & Hc2 & Hs2 & ->). rewrite Hc2, Hs2, Hs1, Hc1, insert_insert_eq. done.
Qed.

Definition is_ctx (o : obj) : Prop := match o with OCtx _ => True | _ => False end.

Lemma fold_until_ext {S A : Type} (f g : S -> A -> S * bool) (l : list A) (s : S) :
  (forall s a, a ∈ l -> f s a = g s a) -> fold_until f s l = fold_until g s l.
Proof.
  revert s. induction l as [|a l IH]; intros s H; cbn; [done|]. rewrite (H s a) by left. destruct (g s a) as [s' []]; [done|].
  apply IH. intros s2 b Hb. apply H. by right.
Qed.

(** A loop over the directories whose body works on the context. *)
Lemma ctx_loop_spec (q : N) (c : ly_ctx) (dirs : bytes) (body : bytes -> CM obj bool) (f : ly_ctx -> bytes -> ly_ctx * bool)
    (l : list (N * block obj)) (base : gmap N (block obj)) (h : heap obj) :
  owned (ctx_block q c :: l) base h -> c_str dirs = dirs ->
  (forall t c h, heap_ok h -> h_cells h !! q = Some (BObj (OCtx c)) ->
    wp (body t) (fun failed h' => heap_ok h' /\ h_cells h' = <[q := BObj (OCtx (f c t).1)]> (h_cells h) /\
                                  strtok_save h' = strtok_save h /\ failed = (f c t).2) h) ->
  wp (for_each_path dirs body) (fun failed h' =>
    owned (ctx_block q (fold_until f c (path_parts dirs)).1 :: l) base h' /\ failed = (fold_until f c (path_parts dirs)).2) h.
Proof.
  intros Ho Hd Hbody. pose proof (owned_head _ _ _ _ _ Ho) as Hq. eapply wp_mono.
  - apply (for_each_path_spec is_ctx dirs body (ctx_step f) q (OCtx c)); [|done|apply Ho|done|done].
    intros t o h0 Hg Hok0 Hq0. destruct o as [c0| | |]; try done. eapply wp_mono; [by apply (Hbody t c0)|]. cbn. tauto.
  - cbn beta. intros failed h' (Hok' & Hc' & ->). rewrite fold_ctx_step in *. split; [|done]. by apply (owned_update _ _ _ _ _ _ _ Ho).
Qed.

Lemma add_searchdirs_spec (q : N) (c : ly_ctx) (dirs : bytes) (l : list (N * block obj)) (base : gmap N (block obj)) (h : heap obj) :
  owned (ctx_block q c :: l) base h -> c_str dirs = dirs ->
  wp (cm_add_searchdirs (Some q) dirs) (fun failed h' =>
    owned (ctx_block q (searchdirs c dirs).1 :: l) base h' /\ failed = (searchdirs c dirs).2) h.
Proof.
  intros Ho Hd. unfold cm_add_searchdirs. destruct dirs as [|x xs] eqn:E; [by apply wp_ret|]. rewrite <- E in *. clear x xs E.
  assert (Hs : searchdirs c dirs = fold_until (fun c t => match t with [] => (c, false) | _ => ly_ctx_set_searchdir c t end) c (path_parts dirs)).
  { apply fold_until_ext. intros s [|x xs]; [|done]. unfold path_parts. rewrite list_elem_of_In, filter_In. by intros [_ ?]. }
  rewrite Hs. apply ctx_loop_spec; [done|done|]. intros [|x t] c0 h0 Hok0 Hq0.
  - apply wp_ret. cbn. by rewrite insert_id.
  - by apply (on_ctx_spec q c0 (fun c => ly_ctx_set_searchdir c (x :: t))).
Qed.

Lemma parse_all_yang_spec (q : N) (c : ly_ctx) (dirs : bytes) (l : list (N * block obj)) (base : gmap N (block obj)) (h : heap obj) :
  owned (ctx_block q c :: l) base h -> c_str dirs = dirs ->
  wp (cm_parse_all_yang (Some q) dirs) (fun failed h' =>
    owned (ctx_block q (modules c dirs).1 :: l) base h' /\ failed = (modules c dirs).2) h.
Proof.
  intros Ho Hd. unfold cm_parse_all_yang, modules. destruct dirs as [|x xs] eqn:E; [by apply wp_ret|]. rewrite <- E in *. clear x xs E.
  rewrite fold_until_flat. apply ctx_loop_spec; [done|done|]. intros t c0 h0 Hok0 Hq0. unfold yang_files. destruct (read_dir t) as [names|].
  - do 2 apply wp_bind. apply wp_alloc, wp_ret. pose proof (heap_fresh h0 Hok0) as Hf. pose proof (Hok0 _ _ Hq0) as Hlt.
    assert (Hne : h_next h0 <> q) by lia. eapply wp_mono.
    + apply (readdir_loop_spec q (h_next h0) t names Hne c0); cbn [h_cells].
      * intros x b. cbn. rewrite lookup_insert. case_decide; [intros _; lia|]. intros Hx. specialize (Hok0 _ _ Hx). lia.
      * by rewrite lookup_insert_ne.
      * rewrite lookup_insert_eq. eauto.
    + cbn beta zeta. intros failed h' (Hok' & Hc' & Hs' & ->). cbn [h_cells strtok_save] in *. split_and!; [done| |done|done].
      rewrite Hc'. rewrite insert_insert_ne by done. by rewrite delete_insert_id; [|rewrite lookup_insert_ne].
  - apply wp_ret. cbn. by rewrite insert_id.
Qed.

End Loading.

(** ** Contexts and trees *)

Section Trees.
Context {LY : Libyang}.
Implicit Types (l : list (N * block obj)) (base : gmap N (block obj)) (h : heap obj).

Abbreviation ctx_block q c := ((q, BObj (OCtx c)) : N * block obj).

Lemma wp_load_ctx (q : N) (c : ly_ctx) l base (Q : ly_ctx -> heap obj -> Prop) h :
  owned l base h -> ctx_block q c ∈ l -> Q c h -> wp (load_ctx (Some q)) Q h.
Proof. intros Ho Hin HQ. apply wp_bind, (wp_own_obj _ _ _ _ _ _ Ho Hin), wp_ret, HQ. Qed.

Lemma dup_errmsg_spec (q : N) (c : ly_ctx) (msg : bytes) l base (Q : ptr -> heap obj -> Prop) h :
  owned l base h -> ctx_block q c ∈ l ->
  (forall p h', owned ((p, BStr (c_str (default msg (ly_errmsg c)))) :: l) base h' -> Q (Some p) h') ->
  wp (dup_errmsg (Some q) msg) Q h.
Proof. intros Ho Hin HQ. apply wp_bind, (wp_load_ctx _ _ _ _ _ _ Ho Hin). by apply (wp_own_strdup _ l base). Qed.

(** The outcome of a call that answers an object or a fresh error text. *)
Definition err_post (e : bytes) (p : ptr) l base h : Prop :=
  exists q, p = Some q /\ owned ((q, BStr (c_str e)) :: l) base h.

Lemma prepare_ctx_spec (y : N) (s : bytes) l base h :
  owned l base h -> (y, BStr s) ∈ l ->
  wp (cm_prepare_ctx (Some y)) (fun r h' =>
    match loaded (c_str s), r with
    | Ok c, Ok p => exists q, p = Some q /\ owned (ctx_block q c :: l) base h'
    | Err e, Err p => err_post e p l base h'
    | _, _ => False
    end) h.
Proof.
  intros Ho Hin. unfold cm_prepare_ctx, loaded. destruct ly_ctx_new as [c|].
  2:{ apply wp_bind, (wp_own_strdup _ l base); [done|]. intros p h' Ho'. apply wp_ret. exists p. eauto. }
  apply wp_bind, (wp_own_new _ l base); [done|]. intros q h1 Ho1. apply wp_bind, (wp_own_read _ s _ _ _ _ Ho1); [by right|].
  apply wp_bind. eapply wp_mono; [by apply (add_searchdirs_spec q c), c_str_idem|]. cbv beta zeta. intros f1 h2 [Ho2 ->].
  set (r := searchdirs c (c_str s)) in *. clearbody r. apply wp_bind.
  eapply (wp_mono _ (fun f h' => owned (ctx_block q (if r.2 then r else modules r.1 (c_str s)).1 :: l) base h' /\
                                 f = (if r.2 then r else modules r.1 (c_str s)).2)).
  { destruct (r.2) eqn:E; [by apply wp_ret; rewrite E|]. by apply parse_all_yang_spec, c_str_idem. }
  intros f2 h3 [Ho3 ->]. set (r' := if r.2 then _ else _) in *. clearbody r'. destruct (r'.2).
  - apply wp_bind, (dup_errmsg_spec q (r'.1) _ _ _ _ _ Ho3); [left|]. intros p h4 Ho4.
    apply wp_bind, (wp_own_free _ _ _ _ _ _ _ Ho4 (Permutation_swap _ _ _)). intros h5 Ho5. apply wp_ret. exists p. eauto.
  - apply wp_ret. eauto.
Qed.

(** The block of a data tree; an empty tree has none. *)
Definition tree_blocks (p : ptr) (t : list lyd_node) : list (N * block obj) :=
  match p with None => [] | Some q => [(q, BObj (OTree t))] end.
Definition tree_ok (p : ptr) (t : list lyd_node) : Prop := p = None -> t = [].

Lemma new_tree_spec (t : list lyd_node) l base (Q : ptr -> heap obj -> Prop) h :
  owned l base h -> (forall p h', tree_ok p t -> owned (tree_blocks p t ++ l) base h' -> Q p h') -> wp (new_tree t) Q h.
Proof.
  intros Ho HQ. destruct t as [|n t]; [by apply wp_ret, HQ|]. apply (wp_own_new _ l base); [done|]. intros p h' Ho'. by apply HQ.
Qed.

Lemma load_tree_spec (p : ptr) (t : list lyd_node) l base (Q : list lyd_node -> heap obj -> Prop) h :
  owned l base h -> tree_ok p t -> tree_blocks p t ⊆ l -> Q t h -> wp (load_tree p) Q h.
Proof.
  intros Ho Ht Hin HQ. destruct p as [q|]; cbn in *; [|by apply wp_ret; rewrite Ht in HQ].
  apply wp_bind, (wp_own_obj _ (OTree t) _ _ _ _ Ho); [apply Hin; left|]. by apply wp_ret.
Qed.

Lemma free_tree_spec (p : ptr) (t : list lyd_node) l l' base (Q : unit -> heap obj -> Prop) h :
  owned l base h -> l ≡ₚ tree_blocks p t ++ l' -> (forall h', owned l' base h' -> Q tt h') -> wp (c_free p) Q h.
Proof.
  intros Ho Hp HQ. destruct p as [q|]; cbn in *; [by apply (wp_own_free _ _ _ _ _ _ _ Ho Hp)|].
  apply wp_ret, HQ. by apply (owned_perm _ _ _ _ Hp).
Qed.

Lemma store_ctx_spec (q : N) (c c' : ly_ctx) l l' base (Q : unit -> heap obj -> Prop) h :
  owned l base h -> l ≡ₚ ctx_block q c :: l' -> (forall h', owned (ctx_block q c' :: l') base h' -> Q tt h') -> wp (store_ctx (Some q) c') Q h.
Proof. intros Ho Hp HQ. by apply (wp_own_store _ _ _ _ _ _ _ _ Ho Hp). Qed.

Lemma parse_tree_spec (y j : N) (dirs json : bytes) l base h :
  owned l base h -> (y, BStr dirs) ∈ l -> (j, BStr json) ∈ l ->
  wp (cm_parse_tree (Some y) (Some j)) (fun r h' =>
    match parsed (c_str dirs) (c_str json), r with
    | Ok t, Ok (ctx, tree) => exists q c, ctx = Some q /\ tree_ok tree t /\ owned (tree_blocks tree t ++ ctx_block q c :: l) base h'
    | Err e, Err p => err_post e p l base h'
    | _, _ => False
    end) h.
Proof.
  intros Ho Hy Hj. unfold cm_parse_tree, parsed. apply wp_bind. eapply wp_mono; [by apply (prepare_ctx_spec y dirs l base)|]. cbv beta.
  intros r h1 Hr. destruct (loaded (c_str dirs)) as [c|e], r as [p|p]; try done. destruct Hr as (q & -> & Ho1).
  cbn [result_bind]. apply wp_bind, (wp_own_read _ json _ _ _ _ Ho1); [by right|].
  unfold lyd_parse_data_mem. do 2 apply wp_bind. apply (wp_load_ctx q c _ _ _ _ Ho1); [left|].
  apply wp_bind, (store_ctx_spec _ _ _ _ _ _ _ _ Ho1 (reflexivity _)). intros h2 Ho2.
  destruct (lyd_parse_data c (c_str json)) as [c1 [t|]]; cbn [fst snd] in *.
  - apply wp_bind, (new_tree_spec _ _ _ _ _ Ho2). intros tree h3 Ht Ho3. apply wp_ret. unfold lyd_validate_all. do 2 apply wp_bind.
    apply (wp_load_ctx _ c1 _ _ _ _ Ho3); [apply elem_of_app; right; left|]. apply wp_bind, (load_tree_spec _ _ _ _ _ _ Ho3 Ht).
    { intros x Hx. apply elem_of_app. by left. }
    destruct (lyd_validate c1 t) as [[c2 t2] failed]. apply wp_bind.
    apply (store_ctx_spec _ _ c2 _ _ _ _ _ Ho3 (symmetry (Permutation_middle _ _ _))). intros h4 Ho4.
    apply wp_bind, (free_tree_spec tree t _ (ctx_block q c2 :: l) _ _ _ Ho4 (Permutation_middle _ _ _)). intros h5 Ho5.
    apply wp_bind, (new_tree_spec _ _ _ _ _ Ho5). intros tree2 h6 Ht2 Ho6. apply wp_ret. cbn [fst snd]. destruct failed.
    + apply wp_bind, (dup_errmsg_spec q c2 _ _ _ _ _ Ho6); [apply elem_of_app; right; left|]. intros p h7 Ho7.
      apply wp_bind, (free_tree_spec tree2 t2 _ ((p, BStr (c_str (default (str "YANG validation failed") (ly_errmsg c2)))) :: ctx_block q c2 :: l)
                        _ _ _ Ho7 (Permutation_middle _ _ _)). intros h8 Ho8.
      apply wp_bind, (wp_own_free _ _ _ _ _ _ _ Ho8 (Permutation_swap _ _ _)). intros h9 Ho9. apply wp_ret. exists p. eauto.
    + apply wp_ret. eauto 6.
  - apply wp_ret, wp_bind, (dup_errmsg_spec q c1 _ _ _ _ _ Ho2); [left|]. intros p h3 Ho3.
    apply wp_bind, (wp_own_free _ _ _ _ _ _ _ Ho3 (Permutation_swap _ _ _)). intros h4 Ho4. apply wp_ret. exists p. eauto.
Qed.

End Trees.

(** ** The array of leaves *)

Section Leaves.
Context {LY : Libyang}.
Implicit Types (l : list (N * block obj)) (base : gmap N (block obj)) (h : heap obj) (res : cm_result).

(** A collected leaf: the block and the text of its path and of its value, and whether it is a key. *)
Definition kept : Type := (N * bytes) * (N * bytes) * bool.

Definition c_leaf (x : kept) : cm_leaf := mkCLeaf (Some x.1.1.1) (Some x.1.2.1) (if x.2 then 1 else 0)%Z.
Definition go_leaf (x : kept) : extractedLeaf := mkLeaf (unstr (c_str x.1.1.2)) (unstr (c_str x.1.2.2)) x.2.
Definition text_blocks (x : kept) : list (N * block obj) := [(x.1.1.1, BStr x.1.1.2); (x.1.2.1, BStr x.1.2.2)].

Definition leaf_array (xs : list kept) (cap : nat) : list (option cm_leaf) := (Some ∘ c_leaf <$> xs) ++ replicate (cap - length xs) None.
Definition array_blocks res (xs : list kept) : list (N * block obj) :=
  match cr_items res with None => [] | Some q => [(q, BObj (OLeafs (leaf_array xs (cr_cap res))))] end.
Definition err_blocks res (e : bytes) : list (N * block obj) :=
  match cr_errmsg res with None => [] | Some p => [(p, BStr e)] end.
Definition result_blocks res (xs : list kept) : list (N * block obj) := array_blocks res xs ++ flat_map text_blocks xs.

(** The struct describes [xs]: the count is theirs and the array has room for them. *)
Definition result_ok res (xs : list kept) : Prop :=
  cr_count res = length xs /\ length xs <= cr_cap res /\ (cr_items res = None -> cr_cap res = 0%nat).

(** The result has collected [xs] and no error. *)
Definition collected res (xs : list kept) l base h : Prop :=
  result_ok res xs /\ cr_errmsg res = None /\ owned (result_blocks res xs ++ l) base h.

Definition stopped res (e : bytes) l base h : Prop :=
  exists xs, result_ok res xs /\ is_Some (cr_errmsg res) /\ owned (err_blocks res (c_str e) ++ result_blocks res xs ++ l) base h.

(** The walk of the nodes [ns]. *)
Definition walk_post (ns : list lyd_node) (xs : list kept) l base (r : cm_result * bool) h : Prop :=
  match omap node_error ns with
  | e :: _ => r.2 = true /\ stopped r.1 e l base h
  | [] => r.2 = false /\ exists ys, collected r.1 (xs ++ ys) l base h /\ go_leaf <$> ys = omap node_leaf ns
  end.

Lemma leaf_array_length (xs : list kept) (cap : nat) : length xs <= cap -> length (leaf_array xs cap) = cap.
Proof. intros H. unfold leaf_array. rewrite length_app, length_fmap, length_replicate. lia. Qed.

Lemma leaf_array_grow (xs : list kept) (cap cap' : nat) :
  length xs <= cap -> cap <= cap' -> leaf_array xs cap ++ replicate (cap' - length (leaf_array xs cap)) None = leaf_array xs cap'.
Proof.
  intros H1 H2. rewrite leaf_array_length by done. unfold leaf_array. rewrite <- app_assoc. f_equal. rewrite <- replicate_add. f_equal. lia.
Qed.

Lemma leaf_array_snoc (xs : list kept) (cap : nat) (x : kept) :
  length xs < cap -> <[length xs := Some (c_leaf x)]> (leaf_array xs cap) = leaf_array (xs ++ [x]) cap.
Proof.
  intros H. unfold leaf_array. rewrite fmap_app, length_app, <- app_assoc. cbn [length].
  replace (length xs) with (length (Some ∘ c_leaf <$> xs) + 0)%nat at 1 by (rewrite length_fmap; lia). rewrite insert_app_r. f_equal.
  replace (cap - length xs)%nat with (S (cap - (length xs + 1))) by lia. done.
Qed.

Lemma wp_load_leafs (q : N) (a : list (option cm_leaf)) l base (Q : list (option cm_leaf) -> heap obj -> Prop) h :
  owned l base h -> (q, BObj (OLeafs a)) ∈ l -> Q a h -> wp (load_leafs (Some q)) Q h.
Proof. intros Ho Hin HQ. apply wp_bind, (wp_own_obj _ (OLeafs a) _ _ _ _ Ho Hin), wp_ret, HQ. Qed.

(** Room for one more leaf. *)
Lemma grow_spec res (xs : list kept) l base h :
  collected res xs l base h ->
  wp (if (cr_count res =? cr_cap res)%nat
      then let next_cap := if (cr_cap res =? 0)%nat then 16%nat else (cr_cap res * 2)%nat in
           let! next := realloc_leafs (cr_items res) next_cap in
           c_ret (res <| cr_items := next |> <| cr_cap := next_cap |>)
      else c_ret res)
     (fun res' h' => collected res' xs l base h' /\ length xs < cr_cap res') h.
Proof.
  destruct res as [it ct cp em]. intros ((Hc & Hle & Hn) & He & Ho). cbn [cr_items cr_count cr_cap cr_errmsg] in *. unfold collected, result_ok. destruct (Nat.eqb_spec ct cp) as [E|E].
  2:{ apply wp_ret. cbn [cr_items cr_count cr_cap cr_errmsg]. split_and!; try done; lia. }
  cbv zeta. set (n := if (cp =? 0)%nat then _ else _).
  assert (Hn' : cp < n) by (subst n; destruct (Nat.eqb_spec cp 0); lia). clearbody n.
  unfold realloc_leafs, result_blocks, array_blocks in *. apply wp_bind. cbn [cr_items cr_cap] in *. destruct it as [q|]; cbn [app] in *.
  - apply wp_bind, (wp_load_leafs q (leaf_array xs cp) _ _ _ _ Ho); [left|].
    apply wp_bind, (wp_own_free _ _ _ _ _ _ _ Ho (reflexivity _)). intros h1 Ho1.
    apply (wp_own_new _ _ _ _ _ Ho1). intros p h2 Ho2. apply wp_ret. cbn. rewrite leaf_array_grow in Ho2 by lia. split_and!; try done; lia.
  - apply (wp_own_new _ _ _ _ _ Ho). intros p h2 Ho2. apply wp_ret. cbn. specialize (Hn eq_refl).
    destruct xs; [|cbn in *; lia]. cbn in *. unfold leaf_array. cbn. rewrite Nat.sub_0_r. split_and!; try done; lia.
Qed.

Lemma append_leaf_spec res (xs : list kept) (path : N) (s v : bytes) (key : bool) l base h :
  collected res xs l base h -> (path, BStr s) ∈ l ->
  wp (cm_append_leaf res (Some path) (Some v) (if key then 1 else 0)%Z)
     (fun r h' => r.2 = false /\ exists p q, collected r.1 (xs ++ [((p, c_str s), (q, c_str v), key)]) l base h') h.
Proof.
  intros Hcol Hin. unfold cm_append_leaf. apply wp_bind. eapply wp_mono; [by apply grow_spec|]. cbv beta. clear res Hcol h.
  intros [it ct cp em] h [((Hc & Hle & Hn) & He & Ho) Hlt]. unfold result_blocks, array_blocks in Ho. cbn [cr_items cr_count cr_cap cr_errmsg] in *.
  destruct it as [q|]; [|specialize (Hn eq_refl); lia]. cbn [app] in Ho.
  apply wp_bind, (wp_load_leafs q (leaf_array xs cp) _ _ _ _ Ho); [left|].
  apply wp_bind, (wp_own_read _ s _ _ _ _ Ho); [right; apply elem_of_app; by right|].
  apply wp_bind, (wp_own_strdup _ _ _ _ _ Ho). intros p h1 Ho1. rewrite c_str_idem in Ho1.
  apply wp_bind, (wp_own_strdup _ _ _ _ _ Ho1). intros w h2 Ho2.
  rewrite leaf_array_length by lia. rewrite (proj2 (Nat.ltb_lt _ _)) by lia. apply wp_bind.
  eapply (wp_own_store q); [apply Ho2|symmetry; exact (Permutation_middle [_; _] _ _)|]. cbn [app]. intros h3 Ho3. apply wp_ret. cbn [fst snd]. split; [done|].
  exists p, w. unfold collected, result_ok, result_blocks, array_blocks. cbn. rewrite Hc. rewrite flat_map_app, length_app. cbn [length flat_map app text_blocks fst snd].
  split_and!; try done; try lia.
  rewrite Hc in Ho3. change (mkCLeaf (Some p) (Some w) (if key then 1 else 0)%Z) with (c_leaf (((p, c_str s), (w, c_str v), key) : kept)) in Ho3.
  rewrite leaf_array_snoc in Ho3 by lia. eapply owned_perm, Ho3. apply perm_skip. rewrite <- app_assoc. cbn [app].
  rewrite <- !Permutation_middle. apply Permutation_swap.
Qed.

Lemma set_error_spec res (xs : list kept) (e : bytes) l base (Q : cm_result -> heap obj -> Prop) h :
  collected res xs l base h -> (forall res' h', stopped res' e l base h' -> Q res' h') -> wp (cm_set_error res (Some e)) Q h.
Proof.
  intros (Hr & He & Ho) HQ. unfold cm_set_error. rewrite He. apply wp_bind, (wp_own_strdup _ _ _ _ _ Ho). intros p h' Ho'. apply wp_ret, HQ.
  exists xs. by destruct res.
Qed.

(** ** The walk *)

Lemma new_path_some (n : lyd_node) (p : bytes) l base (Q : ptr -> heap obj -> Prop) h :
  lyd_path n = Some p -> owned l base h ->
  (forall q h', owned ((q, BStr (c_str p)) :: l) base h' -> Q (Some q) h') -> wp (new_path n) Q h.
Proof. intros E. unfold new_path. rewrite E. apply wp_own_strdup. Qed.

(** A fresh text of the caller joins the frame of the result. *)
Lemma collected_frame res (xs : list kept) (x : N * block obj) l base h :
  owned (x :: result_blocks res xs ++ l) base h <-> owned (result_blocks res xs ++ x :: l) base h.
Proof. apply (owned_proper base h). apply Permutation_middle. Qed.

Lemma stopped_free res (e : bytes) (q : N) (b : block obj) l base (Q : unit -> heap obj -> Prop) h :
  stopped res e ((q, b) :: l) base h -> (forall h', stopped res e l base h' -> Q tt h') -> wp (c_free (Some q)) Q h.
Proof.
  intros (xs & Hr & He & Ho) HQ. eapply (wp_own_free q b); [exact Ho| |].
  - symmetry. rewrite app_assoc. apply Permutation_middle.
  - intros h' Ho'. apply HQ. exists xs. rewrite <- app_assoc in Ho'. done.
Qed.

Lemma collected_free res (xs : list kept) (q : N) (b : block obj) l base (Q : unit -> heap obj -> Prop) h :
  collected res xs ((q, b) :: l) base h -> (forall h', collected res xs l base h' -> Q tt h') -> wp (c_free (Some q)) Q h.
Proof.
  intros (Hr & He & Ho) HQ. eapply (wp_own_free q b); [exact Ho|symmetry; apply Permutation_middle|]. intros h' Ho'. by apply HQ.
Qed.

Lemma walk_leaf_spec (it : lyd_node) (s : lysc_node) res (xs : list kept) l base h :
  schema it = Some s -> collected res xs l base h -> wp (walk_leaf it s res) (walk_post [it] xs l base) h.
Proof.
  intros Hs Hcol. pose proof Hcol as (Hr & He & Ho). unfold walk_leaf, walk_post, node_error, node_leaf. cbn [omap list_omap]. rewrite Hs.
  destruct (is_leaf s); [|by apply wp_ret; split; [done|]; exists []; rewrite app_nil_r].
  destruct (LYS_CONFIG_W s); cbn [negb].
  - destruct (lyd_path it) as [p|] eqn:Ep.
    2:{ apply wp_bind. unfold new_path. rewrite Ep. apply wp_ret, wp_bind, wp_ret, wp_bind, wp_ret. cbn [snd fst].
        apply wp_bind, (set_error_spec _ _ _ _ _ _ _ Hcol). intros res' h' Hst. by apply wp_ret. }
    apply wp_bind, (new_path_some it p _ _ _ _ Ep Ho). intros q h1 Ho1. apply collected_frame in Ho1. destruct (lyd_get_value it) as [v|].
    + apply wp_bind. eapply wp_mono.
      { apply (append_leaf_spec res xs q (c_str p) v (LYS_KEY s) ((q, BStr (c_str p)) :: l) base); [done|left]. }
      cbv beta. intros [res1 b] h2 (Hb & p' & v' & Hcol2). cbn [fst snd] in *. subst b. apply wp_bind, (collected_free _ _ _ _ _ _ _ _ Hcol2).
      intros h3 Hcol3. apply wp_ret. cbn [fst snd]. split; [done|]. eexists [_]. split; [exact Hcol3|]. cbn. unfold go_leaf. cbn. by rewrite !c_str_idem.
    + apply wp_bind, wp_ret, wp_bind. cbn [fst snd]. eapply (collected_free res xs); [split; [done|split; [done|exact Ho1]]|]. intros h2 Hcol2.
      apply wp_bind, (set_error_spec _ _ _ _ _ _ _ Hcol2). intros res' h' Hst. by apply wp_ret.
  - destruct (lyd_path it) as [p|] eqn:Ep.
    + apply wp_bind, (new_path_some it p _ _ _ _ Ep Ho). intros q h1 Ho1. apply collected_frame in Ho1.
      apply wp_bind, (wp_own_read _ (c_str p) _ _ _ _ Ho1); [apply elem_of_app; right; left|]. rewrite c_str_idem.
      apply wp_bind, (set_error_spec res xs _ ((q, BStr (c_str p)) :: l) base); [done|]. intros res2 h2 Hst.
      apply wp_bind, (stopped_free _ _ _ _ _ _ _ _ Hst). intros h3 Hst3. by apply wp_ret.
    + apply wp_bind. unfold new_path. rewrite Ep. apply wp_ret, wp_bind, (set_error_spec _ _ _ _ _ _ _ Hcol). intros res' h' Hst. by apply wp_ret.
Qed.

(** Two walks in a row, the second only when the first found no error. *)
Lemma walk_app (ns1 ns2 : list lyd_node) (k : cm_result -> CM obj (cm_result * bool)) (r : cm_result * bool) (xs : list kept) l base h :
  walk_post ns1 xs l base r h ->
  (forall res ys, collected res ys l base h -> wp (k res) (walk_post ns2 ys l base) h) ->
  wp (if r.2 then c_ret (r.1, true) else k r.1) (walk_post (ns1 ++ ns2) xs l base) h.
Proof.
  unfold walk_post at 1. intros H1 Hk. assert (Hom : omap node_error (ns1 ++ ns2) = omap node_error ns1 ++ omap node_error ns2) by apply omap_app.
  destruct (omap node_error ns1) as [|e es] eqn:E1.
  - destruct H1 as (-> & ys & Hcol & Hys). eapply wp_mono; [by apply Hk|]. cbv beta. intros r' h' H2. unfold walk_post in *. rewrite Hom. cbn [app].
    destruct (omap node_error ns2); [|done]. destruct H2 as (Hf & zs & Hcol2 & Hzs). split; [done|]. exists (ys ++ zs).
    rewrite app_assoc, fmap_app, Hys, Hzs, omap_app. done.
  - destruct H1 as (-> & Hst). apply wp_ret. unfold walk_post. rewrite Hom. done.
Qed.

Lemma walk_tree_list (t : list lyd_node) l base :
  Forall (fun n => forall res xs h, collected res xs l base h -> wp (walk_node n res) (walk_post (doc_order n) xs l base) h) t ->
  forall res xs h, collected res xs l base h -> wp (cm_walk_tree t res) (walk_post (flat_map doc_order t) xs l base) h.
Proof.
  induction 1 as [|n t Hn _ IH]; intros res xs h Hcol; cbn [cm_walk_tree flat_map].
  - apply wp_ret. split; [done|]. exists []. by rewrite app_nil_r.
  - apply wp_bind. eapply wp_mono; [by apply Hn|]. cbv beta. intros r h' H1. apply (walk_app (doc_order n)); [done|]. intros res' ys. apply IH.
Qed.

Lemma walk_node_spec (n : lyd_node) l base :
  forall res xs h, collected res xs l base h -> wp (walk_node n res) (walk_post (doc_order n) xs l base) h.
Proof.
  induction n as [s p v ch IH] using lyd_node_ind'. intros res xs h Hcol. destruct s as [s|].
  - change (walk_node (mkNode (Some s) p v ch) res) with
      (let! r := walk_leaf (mkNode (Some s) p v ch) s res in if r.2 then c_ret (r.1, true) else cm_walk_tree ch r.1).
    cbn [doc_order]. apply wp_bind. eapply wp_mono; [by apply walk_leaf_spec|]. cbv beta. intros r h' H1.
    apply (walk_app [_]); [done|]. intros res' ys. by apply walk_tree_list.
  - cbn [walk_node doc_order]. apply wp_bind, (set_error_spec _ _ _ _ _ _ _ Hcol). intros res' h' Hst. by apply wp_ret.
Qed.

Lemma walk_tree_spec (t : list lyd_node) res (xs : list kept) l base h :
  collected res xs l base h -> wp (cm_walk_tree t res) (walk_post (flat_map doc_order t) xs l base) h.
Proof. apply walk_tree_list, Forall_true. intros n. apply walk_node_spec. Qed.

End Leaves.

(** ** The exported functions *)

Section Exported.
Context {LY : Libyang}.
Implicit Types (l : list (N * block obj)) (base : gmap N (block obj)) (h : heap obj) (res : cm_result).

Lemma extract_leafs_spec (y j : N) (dirs json : bytes) l base h :
  owned l base h -> (y, BStr dirs) ∈ l -> (j, BStr json) ∈ l ->
  wp (cm_extract_leafs (Some y) (Some j)) (fun r h' =>
    match extracted (c_str dirs) (c_str json) with
    | Ok ls => r.2 = false /\ exists xs, collected r.1 xs l base h' /\ go_leaf <$> xs = ls
    | Err e => r.2 = true /\ stopped r.1 e l base h'
    end) h.
Proof.
  intros Ho Hy Hj. unfold cm_extract_leafs, extracted. apply wp_bind. eapply wp_mono; [by apply (parse_tree_spec y j dirs json l base)|]. cbv beta.
  intros r h1 Hr. destruct (parsed (c_str dirs) (c_str json)) as [t|e], r as [[ctx tree]|p]; try done; cbn [result_bind].
  2:{ destruct Hr as (q & -> & Ho1). apply wp_ret. split; [done|]. exists []. split_and!; try done; eauto. }
  destruct Hr as (q & c & -> & Ht & Ho1). apply wp_bind, (load_tree_spec _ _ _ _ _ _ Ho1 Ht); [intros x Hx; apply elem_of_app; by left|].
  apply wp_bind. eapply wp_mono; [apply (walk_tree_spec t zero_result [] (tree_blocks tree t ++ (q, BObj (OCtx c)) :: l) base); done|].
  cbv beta. intros [res failed] h2. unfold walk_post, tree_leaves. cbn [fst snd]. destruct (omap node_error _) as [|e es].
  - intros (-> & ys & Hcol & Hys). cbn [app] in Hcol. apply wp_bind.
    eapply (wp_mono _ (fun _ h' => collected res ys ((q, BObj (OCtx c)) :: l) base h')).
    { destruct tree as [tq|]; [|by apply wp_ret]. by apply (collected_free _ _ _ _ _ _ _ _ Hcol). }
    intros _ h3 Hcol3. apply wp_bind, (collected_free _ _ _ _ _ _ _ _ Hcol3). intros h4 Hcol4. apply wp_ret. eauto.
  - intros (-> & Hst). apply wp_bind.
    eapply (wp_mono _ (fun _ h' => stopped res e ((q, BObj (OCtx c)) :: l) base h')).
    { destruct tree as [tq|]; [|by apply wp_ret]. by apply (stopped_free _ _ _ _ _ _ _ _ Hst). }
    intros _ h3 Hst3. apply wp_bind, (stopped_free _ _ _ _ _ _ _ _ Hst3). intros h4 Hst4. pose proof Hst4 as (xs & _ & [p Hp] & _).
    rewrite Hp. apply wp_ret. by split.
Qed.

Lemma validate_json_spec (y j : N) (dirs json : bytes) l base h :
  owned l base h -> (y, BStr dirs) ∈ l -> (j, BStr json) ∈ l ->
  wp (cm_validate_json (Some y) (Some j)) (fun r h' =>
    match parsed (c_str dirs) (c_str json) with
    | Ok _ => r = (None, false) /\ owned l base h'
    | Err e => r.2 = true /\ err_post e r.1 l base h'
    end) h.
Proof.
  intros Ho Hy Hj. unfold cm_validate_json. apply wp_bind. eapply wp_mono; [by apply (parse_tree_spec y j dirs json l base)|]. cbv beta.
  intros r h1 Hr. destruct (parsed (c_str dirs) (c_str json)) as [t|e], r as [[ctx tree]|p]; try done.
  destruct Hr as (q & c & -> & Ht & Ho1). apply wp_bind, (free_tree_spec _ _ _ _ _ _ _ Ho1 (reflexivity _)). intros h2 Ho2.
  apply wp_bind, (wp_own_free _ _ _ _ _ _ _ Ho2 (reflexivity _)). intros h3 Ho3. by apply wp_ret.
Qed.

Lemma free_leafs_spec (xs : list kept) (rest : list (option cm_leaf)) l base (Q : unit -> heap obj -> Prop) :
  (forall h, owned l base h -> Q tt h) ->
  forall h, owned (flat_map text_blocks xs ++ l) base h -> wp (free_leafs (length xs) ((Some ∘ c_leaf <$> xs) ++ rest)) Q h.
Proof.
  intros HQ. induction xs as [|[[[p s] [v t]] k] xs IH]; intros h Ho; [by apply wp_ret, HQ|]. cbn.
  apply wp_bind, (wp_own_free _ _ _ _ _ _ _ Ho (reflexivity _)). intros h1 Ho1.
  apply wp_bind, (wp_own_free _ _ _ _ _ _ _ Ho1 (reflexivity _)). intros h2 Ho2. by apply IH.
Qed.

(** Freeing a result frees what it owns, once. *)
Lemma result_free_spec res (xs : list kept) (e : bytes) l base (Q : cm_result -> heap obj -> Prop) h :
  result_ok res xs -> owned (err_blocks res e ++ result_blocks res xs ++ l) base h ->
  (forall h', owned l base h' -> Q zero_result h') -> wp (cm_result_free res) Q h.
Proof.
  destruct res as [it ct cp em]. intros (Hc & Hle & Hn) Ho HQ. unfold cm_result_free, result_blocks, err_blocks, array_blocks in *.
  cbn [cr_items cr_count cr_cap cr_errmsg] in *. subst ct.
  assert (Herr : forall h, owned (err_blocks (mkCResult None 0 0 em) e ++ l) base h -> wp (let! _ := c_free em in c_ret zero_result) Q h).
  { intros h0 Ho0. apply wp_bind. destruct em as [p|]; [|by apply wp_ret, wp_ret, HQ].
    apply (wp_own_free _ _ _ _ _ _ _ Ho0 (reflexivity _)). intros h1 Ho1. by apply wp_ret, HQ. }
  unfold err_blocks in Herr. cbn [cr_errmsg] in Herr. set (eb := match em with None => [] | Some _ => _ end) in *. apply wp_bind. destruct it as [q|].
  - apply wp_bind, (wp_load_leafs q (leaf_array xs cp) _ _ _ _ Ho); [apply elem_of_app; right; apply elem_of_app; left; left|].
    apply (free_leafs_spec xs _ ((q, BObj (OLeafs (leaf_array xs cp))) :: eb ++ l) base).
    + intros h1 Ho1. apply wp_bind, (wp_own_free _ _ _ _ _ _ _ Ho1 (reflexivity _)). intros h2 Ho2. by apply Herr.
    + eapply owned_perm, Ho. cbn [app]. rewrite <- !Permutation_middle. apply perm_skip. rewrite !app_assoc.
      apply Permutation_app_tail, Permutation_app_comm.
  - assert (xs = []) as -> by (specialize (Hn eq_refl); destruct xs; [done|cbn in Hle; lia]). apply wp_ret. by apply Herr.
Qed.

Lemma go_leaves_spec (xs : list kept) (rest : list (option cm_leaf)) l base h :
  owned l base h -> flat_map text_blocks xs ⊆ l ->
  wp (go_leaves (length xs) ((Some ∘ c_leaf <$> xs) ++ rest)) (fun out h' => out = go_leaf <$> xs /\ h' = h) h.
Proof.
  intros Ho. induction xs as [|[[[p s] [v t]] k] xs IH]; intros Hin; [by apply wp_ret|]. cbn.
  apply wp_bind, (wp_own_read _ s _ _ _ _ Ho); [apply Hin; left|]. apply wp_bind, (wp_own_read _ t _ _ _ _ Ho); [apply Hin; right; left|].
  apply wp_bind. eapply wp_mono; [apply IH; intros x Hx; apply Hin; by right; right|]. cbv beta. intros out h' [-> ->]. apply wp_ret.
  split; [|done]. unfold go_leaf. cbn. by destruct k.
Qed.

End Exported.

Section Safe.
Context {LY : Libyang} (yangDir : string) (payload : bytes).
Implicit Types (base : gmap N (block obj)) (h : heap obj).

(** The two arguments as C strings. *)
Abbreviation args y j := ([(j, BStr payload); (y, BStr (str yangDir))] : list (N * block obj)).

Lemma with_args {A : Type} (k : ptr -> ptr -> CM obj A) (Q : A -> heap obj -> Prop) base h :
  owned [] base h -> (forall y j h, owned (args y j) base h -> wp (k (Some y) (Some j)) Q h) ->
  wp (let! y := CString (str yangDir) in let! j := CString payload in k y j) Q h.
Proof.
  intros Ho Hk. do 2 apply wp_bind. apply (wp_own_alloc _ _ _ _ _ Ho). intros y h1 Ho1. apply wp_ret. do 2 apply wp_bind.
  apply (wp_own_alloc _ _ _ _ _ Ho1). intros j h2 Ho2. by apply wp_ret, Hk.
Qed.

(** A run that answers [a] and leaves the blocks that were there. *)
Definition clean {A : Type} (a : A) base (r : A) h : Prop := r = a /\ heap_ok h /\ h_cells h = base.

Lemma free_args {A : Type} (a : A) (y j : N) base h :
  owned (args y j) base h -> wp (let! _ := c_free (Some j) in let! _ := c_free (Some y) in c_ret a) (clean a base) h.
Proof.
  intros Ho. apply wp_bind, (wp_own_free _ _ _ _ _ _ _ Ho (reflexivity _)). intros h1 Ho1.
  apply wp_bind, (wp_own_free _ _ _ _ _ _ _ Ho1 (reflexivity _)). intros h2 Ho2. apply wp_ret. split; [done|]. by apply owned_end.
Qed.

Lemma extractLeaves_c_spec base h :
  owned [] base h -> wp (extractLeaves_c yangDir payload) (clean (go_error (extracted (c_str (str yangDir)) (c_str payload))) base) h.
Proof.
  intros Ho. apply (with_args _ _ base _ Ho). intros y j h1 Ho1. apply wp_bind. eapply wp_mono.
  { apply (extract_leafs_spec y j (str yangDir) payload _ _ _ Ho1); [right; left|left]. }
  cbv beta. intros [res failed] h2. cbn [fst snd]. destruct (extracted _ _) as [ls|e]; cbn [go_error].
  - intros (-> & xs & (Hr & He & Ho2) & Hls). apply wp_bind. eapply (wp_mono _ (fun out h' => out = Ok ls /\ h' = h2)).
    { destruct Hr as (Hc & Hle & Hn). destruct (Nat.eqb_spec (cr_count res) 0) as [Hz|Hz]; [apply wp_ret; by destruct xs; [cbn in Hls; subst ls|cbn in Hc; lia]|].
      unfold result_blocks, array_blocks in Ho2. destruct (cr_items res) as [q|] eqn:Ei; [|specialize (Hn eq_refl); lia].
      apply wp_bind, (wp_load_leafs q (leaf_array xs (cr_cap res)) _ _ _ _ Ho2); [left|]. apply wp_bind. rewrite Hc. eapply wp_mono.
      - apply (go_leaves_spec xs _ _ _ _ Ho2). intros x Hx. right. apply elem_of_app. by left.
      - cbv beta. intros out h' [-> ->]. apply wp_ret. by rewrite Hls. }
    intros out h3 [-> ->]. apply wp_bind. apply (result_free_spec res xs [] (args y j) base); [done| |intros h4; apply free_args].
    unfold err_blocks. by rewrite He.
  - intros (-> & xs & Hr & [p Hp] & Ho2). rewrite Hp. do 2 apply wp_bind. pose proof Ho2 as Ho2'. unfold err_blocks in Ho2'. rewrite Hp in Ho2'.
    apply (wp_own_read _ (c_str e) _ _ _ _ Ho2'); [left|]. apply wp_ret. rewrite c_str_idem.
    apply wp_bind, (result_free_spec res xs _ _ _ _ _ Hr Ho2). intros h3. apply free_args.
Qed.

Lemma validateYANGJSON_c_spec base h :
  owned [] base h ->
  wp (validateYANGJSON_c yangDir payload)
     (clean (match parsed (c_str (str yangDir)) (c_str payload) with Ok _ => None | Err e => Some (Errorf (c_str e)) end) base) h.
Proof.
  intros Ho. apply (with_args _ _ base _ Ho). intros y j h1 Ho1. apply wp_bind. eapply wp_mono.
  { apply (validate_json_spec y j (str yangDir) payload _ _ _ Ho1); [right; left|left]. }
  cbv beta. intros [p failed] h2. cbn [fst snd]. destruct (parsed _ _) as [t|e].
  - intros ([= -> ->] & Ho2). apply wp_bind, wp_ret, wp_bind, wp_ret. by apply free_args.
  - intros (-> & q & -> & Ho2). do 2 apply wp_bind. apply (wp_own_read _ (c_str e) _ _ _ _ Ho2); [left|]. apply wp_ret. rewrite c_str_idem.
    apply wp_bind, (wp_own_free _ _ _ _ _ _ _ Ho2 (reflexivity _)). intros h3. apply free_args.
Qed.

(** C2: the bridge implements its reference and is safe. From every well-formed heap both functions of the
    bridge run to their end without undefined behaviour (no read of a freed block, no second free, no
    write outside the array of leaves) and leave exactly the blocks that were there: contexts, trees, open
    directories and texts are released on every path. Extraction answers the leaves of the validated
    document in document order, or the message of the first node that cannot be edited; validation answers
    the error of loading, parsing or validating. Both see their arguments up to the first NUL. *)
Theorem bridge_safe h :
  heap_ok h ->
  (exists h', extractLeaves_c yangDir payload h = Some (go_error (extracted (c_str (str yangDir)) (c_str payload)), h') /\
              heap_ok h' /\ h_cells h' = h_cells h) /\
  (exists h', validateYANGJSON_c yangDir payload h =
                Some (match parsed (c_str (str yangDir)) (c_str payload) with Ok _ => None | Err e => Some (Errorf (c_str e)) end, h') /\
              heap_ok h' /\ h_cells h' = h_cells h).
Proof.
  intros Hok. assert (Hwp : forall A (c : CM obj A) a, wp c (clean a (h_cells h)) h -> exists h', c h = Some (a, h') /\ heap_ok h' /\ h_cells h' = h_cells h).
  { intros A c a. unfold wp, clean. destruct (c h) as [[r h']|]; [|done]. intros (-> & ? & ?). eauto. }
  split; apply Hwp; [apply extractLeaves_c_spec|apply validateYANGJSON_c_spec]; by apply owned_start.
Qed.

End Safe.

(** ** The manager over the bridge *)

Definition run_bridge {LY : Libyang} {A : Type} (c : CM obj A) (undefined : A) : A :=
  match c empty_heap with Some (a, _) => a | None => undefined end.

(** The platform of the manager in a build with cgo. *)
Definition bridge_platform {LY : Libyang} (resolve : option (string -> string * bool)) (restart : option (string -> option string)) : Platform := {|
  validateYANGJSON := fun dir payload => run_bridge (validateYANGJSON_c dir payload) None;
  extractLeaves := fun dir payload => run_bridge (extractLeaves_c dir payload) (Err "");
  resolveTarget := resolve;
  TriggerRestart := restart
|}.

Definition stub_platform (resolve : option (string -> string * bool)) (restart : option (string -> option string)) : Platform := {|
  validateYANGJSON := validateYANGJSON_stub;
  extractLeaves := extractLeaves_stub;
  resolveTarget := resolve;
  TriggerRestart := restart
|}.

Lemma empty_heap_ok {O : Type} : heap_ok (empty_heap (O:=O)).
Proof. intros p b H. cbn in H. by rewrite lookup_empty in H. Qed.

Section Manager.
Context {GL : GoLib} {LY : Libyang} (resolve : option (string -> string * bool)) (restart : option (string -> option string)).

Lemma run_bridge_ok {A : Type} (c : CM obj A) (a u : A) (base : gmap N (block obj)) : wp c (clean a base) empty_heap -> run_bridge c u = a.
Proof. unfold wp, run_bridge. destruct (c empty_heap) as [[r h']|]; [|done]. by intros [-> _]. Qed.

Lemma bridge_platform_functions (dir : string) (payload : bytes) :
  extractLeaves (Platform:=bridge_platform resolve restart) dir payload = go_error (extracted (c_str (str dir)) (c_str payload)) /\
  validateYANGJSON (Platform:=bridge_platform resolve restart) dir payload =
    match parsed (c_str (str dir)) (c_str payload) with Ok _ => None | Err e => Some (Errorf (c_str e)) end.
Proof.
  split; cbn; eapply run_bridge_ok; [apply extractLeaves_c_spec|apply validateYANGJSON_c_spec]; apply owned_start, empty_heap_ok.
Qed.

Lemma omap_none {A B : Type} (f : A -> option B) (l : list A) : omap f l = [] -> forall x, x ∈ l -> f x = None.
Proof.
  intros H x Hx. destruct (f x) as [y|] eqn:E; [|done]. assert (Hy : y ∈ omap f l) by (apply list_elem_of_omap; eauto).
  rewrite H in Hy. by apply elem_of_nil in Hy.
Qed.


(** Without cgo no edit is ever accepted and no artifact is published. *)
Lemma stub_refuses (req : EditRequest) (now1 now2 : time) (m : Manager) (w : World) (path : string) (cfg : EditableConfig) :
  is_ok (EditConfig (PF:=stub_platform resolve restart) req now1 now2 m w).2 = false /\
  (TrimSpace path <> "" -> exists e, writeArtifact (PF:=stub_platform resolve restart) m path cfg w = (w, Some e)).
Proof.
  split.
  - destruct (EditConfig _ _ _ _ _) as [[m' w'] [c|e]] eqn:E; [|done].
    destruct (EditConfig_ok _ _ _ _ _ _ _ _ E) as (_ & _ & _ & ch & n & m1 & Hex & _). unfold extractChanges in Hex. by destruct (String.eqb _ _).
  - intros Hp. unfold writeArtifact. rewrite (proj2 (String.eqb_neq _ _) Hp). eauto.
Qed.

End Manager.

(** ** Witnesses *)

Definition yang_leaf (path value : string) (config key : bool) : lyd_node :=
  mkNode (Some (mkSchema LYS_LEAF config key)) (Some (str path)) (Some (str value)) [].

(** A library that loads the modules of one directory and reads every text as the given tree, but for
    the texts it refuses with a message. *)
Definition sample_libyang (t : list lyd_node) (refused : string) : Libyang := {|
  ly_ctx := list bytes;
  ly_ctx_new := Some [];
  ly_ctx_set_searchdir := fun c d => (d :: c, false);
  lys_parse_path := fun c f => (f :: c, false);
  lyd_parse_data := fun c json => if bool_decide (json = str refused) then (str "value 50% is out of range" :: c, None) else (c, Some t);
  lyd_validate := fun c t => (c, t, false);
  ly_errmsg := head;
  read_dir := fun d => if bool_decide (d = str "/yang") then Some [str "."; str ".."; str "a.yang"; str "README"; str "b.yang"] else None
|}.

Definition sample_tree : list lyd_node :=
  [mkNode (Some (mkSchema LYS_OTHER true false)) (Some (str "/m:node")) None
     [yang_leaf "/m:node/id" "1" true true; yang_leaf sample_path " 7 " true false]].

Lemma bridge_safe_witness :
  exists h', extractLeaves_c (LY:=sample_libyang sample_tree "x") "/none::/yang" (str "{}") empty_heap =
    Some (Ok [mkLeaf "/m:node/id" "1" true; mkLeaf sample_path " 7 " false], h') /\ h_cells h' = ∅.
Proof.
  destruct (bridge_safe (LY:=sample_libyang sample_tree "x") "/none::/yang" (str "{}") empty_heap empty_heap_ok) as [(h' & He & _ & Hc) _].
  exists h'. split; [|exact Hc]. rewrite He. vm_compute. reflexivity.
Defined.


(** ** Behaviours worth knowing, evaluated *)

(** The message of the library becomes a format: a percent sign in it is not printed as it was. *)
Lemma message_is_a_format :
  fst <$> validateYANGJSON_c (LY:=sample_libyang sample_tree "x") "/yang" (str "x") empty_heap =
  Some (Some "value 50%!i(MISSING)s out of range").
Proof. vm_compute. reflexivity. Qed.

(** A document is read up to its first NUL; what follows it is not validated. *)
Lemma nul_hides_the_rest :
  fst <$> validateYANGJSON_c (LY:=sample_libyang sample_tree "x") "/yang" (str "{}" ++ NUL :: str "not json") empty_heap = Some None.
Proof. vm_compute. reflexivity. Qed.

(** A read-only leaf of the document refuses the edit, whatever comes after it. *)
Lemma readonly_leaf_refused :
  fst <$> extractLeaves_c (LY:=sample_libyang [yang_leaf "/m:a" "1" true false; yang_leaf "/m:b" "2" false false; yang_leaf "/m:c" "3" true false] "x")
            "/yang" (str "{}") empty_heap =
  Some (Err "path /m:b is not config true").
Proof. vm_compute. reflexivity. Qed.

(** strtok keeps its place in memory that all threads share. Two requests that cut up the same list at
    the same time: the second thread never sees the second directory. *)
Lemma strtok_race_skips :
  fst <$> (let! a := strdup (O:=unit) (str "x:y") in
           let! b := strdup (str "x:y") in
           let! a1 := strtok a in
           let! b1 := strtok b in
           let! a2 := strtok None in
           let! b2 := strtok None in
           c_ret [a1; a2; b1; b2]) empty_heap =
  Some [Some (str "x"); Some (str "y"); Some (str "x"); None].
Proof. vm_compute. reflexivity. Qed.

(** Even with one directory, the thread that goes on after the other has freed its copy reads freed
    memory. *)
Lemma strtok_race_reads_freed :
  (let! a := strdup (O:=unit) (str "yang") in
   let! b := strdup (str "yang") in
   let! _ := strtok a in
   let! _ := strtok b in
   let! _ := strtok None in
   let! _ := c_free b in
   strtok None) empty_heap = None.
Proof. vm_compute. reflexivity. Qed.
