(* ===== verification/Alarms.v ===== *)
(** * Alarms (internal/ems/fcaps/alarms: types.go, dictionary.go, events.go, store.go, manager.go)

    The store keeps one record per component and alarm code, active or cleared; the manager
    normalizes what is raised, deduplicates it through the store and reports an event when a record
    changed. A persistent store writes all its records after each change. The functions that encode
    and decode the record list are parameters ([RecordCodec]). *)
From S2P Require Import Prelude GoNum GoStrings Json FileSystem.

(** ** Types *)

Definition Status : Type := string.
Definition StatusActive : Status := "active".
Definition StatusCleared : Status := "cleared".

Definition EventTypeCommunicationsAlarm : string := "CommunicationsAlarm".
Definition EventTypeProcessingErrorAlarm : string := "ProcessingErrorAlarm".
Definition EventTypeQualityOfServiceAlarm : string := "QualityOfServiceAlarm".
Definition EventTypeEquipmentAlarm : string := "EquipmentAlarm".
Definition SeverityCritical : string := "CRITICAL".
Definition SeverityMajor : string := "MAJOR".
Definition SeverityMinor : string := "MINOR".
Definition SeverityWarning : string := "WARNING".
Definition SeverityCleared : string := "CLEARED".
Definition ProbableCauseLANError : string := "LAN_ERROR".
Definition ProbableCauseSoftwareError : string := "SOFTWARE_ERROR".
Definition ProbableCauseThresholdCrossed : string := "THRESHOLD_CROSSED".
Definition ProbableCauseEquipmentMalfunc : string := "EQUIPMENT_MALFUNCTION".
Definition ProbableCauseCommunicationsFail : string := "COMMUNICATIONS_FAILURE".

(** domain.Alarm *)
Record Alarm := mkAlarm {
  Code : string;
  Message : string;
  Severity : string;
  AlarmID : string;
  ManagedObjectInstance : string;
  EventType : string;
  ProbableCause : string;
  PerceivedSeverity : string;
  SpecificProblem : string
}.

Record Key := mkKey { k_Component : string; k_Code : string }.

#[export] Instance Key_eq_dec : EqDecision Key.
Proof. solve_decision. Defined.

#[export] Instance Key_countable : Countable Key.
Proof. by refine (inj_countable' (fun k => (k_Component k, k_Code k)) (fun p => mkKey p.1 p.2) _); intros []. Defined.

(** An alarm instance. *)
Record AlarmRecord := mkRecord {
  r_Key : Key;
  r_AlarmID : string;
  r_ManagedObjectInstance : string;
  r_EventType : string;
  r_ProbableCause : string;
  r_PerceivedSeverity : string;
  r_SpecificProblem : string;
  r_Message : string;
  r_Severity : string;
  r_Status : Status;
  r_FirstSeen : time;
  r_LastSeen : time;
  r_Count : Z
}.

#[export] Instance AlarmRecord_eq_dec : EqDecision AlarmRecord.
Proof. solve_decision. Defined.

Record Event := mkEvent {
  ev_At : time;
  ev_Component : string;
  ev_Health : string;
  ev_Alarm : Alarm;
  ev_Status : Status;
  ev_Count : Z
}.

(** ** The dictionary *)

Definition AlarmS1Down : string := "Alarm_S1_Down".
Definition AlarmS1InterfaceDown : string := "Alarm_S1_Interface_Down".
Definition AlarmNASSignalingLoss : string := "Alarm_NAS_Signaling_Loss".
Definition AlarmNASSecurityMismatch : string := "Alarm_NAS_Security_Mismatch".
Definition AlarmNASParsingFailure : string := "Alarm_NAS_Parsing_Failure".
Definition AlarmRRCProtocolError : string := "Alarm_RRC_Protocol_Error".
Definition AlarmRRCConnectionRejection : string := "Alarm_RRC_Connection_Rejection".
Definition AlarmCoreServiceReject : string := "Alarm_Core_Service_Reject".
Definition AlarmPagingCapacityExceeded : string := "Alarm_Paging_Capacity_Exceeded".
Definition AlarmRLCMaxRetransmissions : string := "Alarm_RLC_Max_Retransmissions".
Definition AlarmLowThroughput : string := "Alarm_Low_Throughput".
Definition AlarmLowThroughputActiveUsers : string := "Alarm_Low_Throughput_Active_Users".
Definition AlarmLowSINR : string := "Alarm_Low_SINR".
Definition AlarmBadSignalCondition : string := "Alarm_Bad_Signal_Condition".
Definition AlarmHighBLER : string := "Alarm_High_BLER".
Definition AlarmRadioLinkFailureStorm : string := "Alarm_Radio_Link_Failure_Storm".
Definition AlarmRFInterferenceDetected : string := "Alarm_RF_Interference_Detected".
Definition AlarmUEInactivityCleanup : string := "Alarm_UE_Inactivity_Cleanup".
Definition AlarmBearerCongestion : string := "Alarm_Bearer_Congestion".
Definition AlarmPowerHeadroomCritical : string := "Alarm_Power_Headroom_Critical".
Definition AlarmUDSDisconnected : string := "Alarm_UDS_Disconnected".
Definition AlarmSrsENBProcessDown : string := "Alarm_SrsENB_ProcessDown".
Definition AlarmNetconfDown : string := "Alarm_Netconf_Down".
Definition AlarmGenericEMS : string := "Alarm_EMS_Generic".

Record Definition_ := mkDef {
  d_AlarmID : string;
  d_EventType : string;
  d_ProbableCause : string;
  d_PerceivedSeverity : string;
  d_SpecificProblem : string
}.

(** The entries under their alarm ids. *)
Definition Dictionary : list Definition_ :=
  [ mkDef AlarmS1Down EventTypeCommunicationsAlarm ProbableCauseCommunicationsFail SeverityCritical "S1AP connectivity is down";
    mkDef AlarmS1InterfaceDown EventTypeCommunicationsAlarm ProbableCauseCommunicationsFail SeverityCritical "S1 interface to MME is down";
    mkDef AlarmNASSignalingLoss EventTypeCommunicationsAlarm ProbableCauseCommunicationsFail SeverityMajor "NAS signalling messages are dropped or failed";
    mkDef AlarmNASSecurityMismatch EventTypeProcessingErrorAlarm ProbableCauseSoftwareError SeverityMajor "Unknown NAS security header was observed";
    mkDef AlarmNASParsingFailure EventTypeProcessingErrorAlarm ProbableCauseSoftwareError SeverityCritical "NAS message parsing failed";
    mkDef AlarmRRCProtocolError EventTypeProcessingErrorAlarm ProbableCauseSoftwareError SeverityMajor "RRC protocol failure was reported";
    mkDef AlarmRRCConnectionRejection EventTypeCommunicationsAlarm ProbableCauseThresholdCrossed SeverityMinor "RRC connection requests are being rejected";
    mkDef AlarmCoreServiceReject EventTypeCommunicationsAlarm ProbableCauseCommunicationsFail SeverityMajor "Core network rejected UE service request";
    mkDef AlarmPagingCapacityExceeded EventTypeCommunicationsAlarm ProbableCauseThresholdCrossed SeverityMajor "Paging queue capacity was exceeded";
    mkDef AlarmRLCMaxRetransmissions EventTypeQualityOfServiceAlarm ProbableCauseThresholdCrossed SeverityMajor "RLC maximum retransmission threshold reached";
    mkDef AlarmUDSDisconnected EventTypeCommunicationsAlarm ProbableCauseLANError SeverityCritical "srsRAN metrics UDS is disconnected";
    mkDef AlarmSrsENBProcessDown EventTypeProcessingErrorAlarm ProbableCauseSoftwareError SeverityCritical "srsENB process is not running";
    mkDef AlarmLowSINR EventTypeQualityOfServiceAlarm ProbableCauseThresholdCrossed SeverityMajor "UL SINR threshold crossed";
    mkDef AlarmBadSignalCondition EventTypeQualityOfServiceAlarm ProbableCauseThresholdCrossed SeverityWarning "Radio signal quality is below acceptable threshold";
    mkDef AlarmHighBLER EventTypeQualityOfServiceAlarm ProbableCauseThresholdCrossed SeverityMajor "BLER threshold crossed";
    mkDef AlarmLowThroughput EventTypeQualityOfServiceAlarm ProbableCauseThresholdCrossed SeverityMajor "Throughput threshold crossed";
    mkDef AlarmLowThroughputActiveUsers EventTypeQualityOfServiceAlarm ProbableCauseThresholdCrossed SeverityMajor "Low throughput while RRC users are connected";
    mkDef AlarmRadioLinkFailureStorm EventTypeQualityOfServiceAlarm ProbableCauseThresholdCrossed SeverityCritical "Radio link failures are increasing rapidly";
    mkDef AlarmRFInterferenceDetected EventTypeQualityOfServiceAlarm ProbableCauseThresholdCrossed SeverityMajor "RF interference is detected on uplink control channel";
    mkDef AlarmUEInactivityCleanup EventTypeQualityOfServiceAlarm ProbableCauseThresholdCrossed SeverityWarning "UE inactivity releases are growing abnormally";
    mkDef AlarmBearerCongestion EventTypeQualityOfServiceAlarm ProbableCauseThresholdCrossed SeverityMinor "Bearer queue is congested";
    mkDef AlarmPowerHeadroomCritical EventTypeQualityOfServiceAlarm ProbableCauseThresholdCrossed SeverityWarning "UE power headroom is critical";
    mkDef AlarmNetconfDown EventTypeCommunicationsAlarm ProbableCauseLANError SeverityMajor "NETCONF server is down";
    mkDef AlarmGenericEMS EventTypeProcessingErrorAlarm ProbableCauseSoftwareError SeverityMajor "EMS internal fault" ].

Definition dictionary_lookup (code : string) : option Definition_ :=
  list_find (fun d => d_AlarmID d = code) Dictionary ≫= fun p => Some p.2.

(** Dictionary[AlarmGenericEMS] *)
Definition generic_definition : Definition_ :=
  mkDef AlarmGenericEMS EventTypeProcessingErrorAlarm ProbableCauseSoftwareError SeverityMajor "EMS internal fault".

Fixpoint firstNonEmpty (values : list string) : string :=
  match values with
  | [] => ""
  | v :: r => if negb (String.eqb (TrimSpace v) "") then TrimSpace v else firstNonEmpty r
  end.

Section Normalize.
Context {GL : GoLib}.

Definition normalizeSeverity (sev : string) : string :=
  let s := ToLower (TrimSpace sev) in
  if String.eqb s "critical" then SeverityCritical
  else if String.eqb s "major" then SeverityMajor
  else if String.eqb s "minor" then SeverityMinor
  else if String.eqb s "warning" || String.eqb s "warn" then SeverityWarning
  else if String.eqb s "cleared" || String.eqb s "clear" then SeverityCleared
  else "".

Definition canonicalCode (component code : string) : string :=
  let c := ToLower (TrimSpace component) in
  if String.eqb c "uds" then AlarmUDSDisconnected
  else if String.eqb c "netconf" then AlarmNetconfDown
  else if Contains code "PROCESS" then AlarmSrsENBProcessDown
  else if Contains code "NETWORK" then AlarmS1Down
  else code.

Definition Normalize (component managedObject : string) (alarm : Alarm) : Alarm :=
  let code := TrimSpace (Code alarm) in
  let code := if String.eqb code "" then AlarmGenericEMS else code in
  let code := canonicalCode component code in
  let def := match dictionary_lookup code with
             | Some d => d
             | None => generic_definition <|d_AlarmID := code|>
             end in
  let out := alarm <|Code := code|> in
  let out := out <|AlarmID := firstNonEmpty [AlarmID out; d_AlarmID def; code]|> in
  let out := out <|ManagedObjectInstance := firstNonEmpty [ManagedObjectInstance out; managedObject; component]|> in
  let out := out <|EventType := firstNonEmpty [EventType out; d_EventType def]|> in
  let out := out <|ProbableCause := firstNonEmpty [ProbableCause out; d_ProbableCause def]|> in
  let out := out <|PerceivedSeverity := firstNonEmpty [PerceivedSeverity out; d_PerceivedSeverity def; normalizeSeverity (Severity out)]|> in
  let out := out <|SpecificProblem := firstNonEmpty [SpecificProblem out; Message out; d_SpecificProblem def]|> in
  let out := out <|Message := firstNonEmpty [Message out; SpecificProblem out]|> in
  out <|Severity := firstNonEmpty [Severity out; ToLower (PerceivedSeverity out)]|>.

Definition NewThresholdAlarmWithSeverity (code moi problem severity : string) : Alarm :=
  let def := match dictionary_lookup code with Some d => d | None => generic_definition end in
  let msg := if String.eqb problem "" then d_SpecificProblem def else problem in
  let normalized := normalizeSeverity severity in
  let perceived := if negb (String.eqb normalized "") then normalized else d_PerceivedSeverity def in
  mkAlarm code msg (ToLower perceived) code moi (d_EventType def) (d_ProbableCause def) perceived msg.

Definition NewThresholdAlarm (code moi problem : string) : Alarm := NewThresholdAlarmWithSeverity code moi problem "".

End Normalize.

(** ** The store *)

(** The texts of a record are well-formed, so that encoding/json keeps them byte by byte. *)
Definition record_text_ok (r : AlarmRecord) : bool :=
  forallb utf8 [k_Component (r_Key r); k_Code (r_Key r); r_AlarmID r; r_ManagedObjectInstance r; r_EventType r;
                r_ProbableCause r; r_PerceivedSeverity r; r_SpecificProblem r; r_Message r; r_Severity r; r_Status r].

(** json.MarshalIndent and json.Unmarshal on the list of records: what is written is read back. *)
Class RecordCodec := {
  encode_records : list AlarmRecord -> result string bytes;
  decode_records : bytes -> result string (list AlarmRecord);
  decode_encode_records : forall l data, Forall (fun r => record_text_ok r = true) l -> encode_records l = Ok data -> decode_records data = Ok l
}.

Record AlarmStore := mkAlarmStore {
  records : gmap Key AlarmRecord;
  persistence : string;
  lastPersistErr : option string
}.

Definition NewStore : AlarmStore := mkAlarmStore ∅ "" None.

Definition atomicWriteFile (path : string) (data : bytes) (w : World) : World * result string unit :=
  match MkdirAll (filepath_Dir path) w with
  | (w, Err e) => (w, Err (strerror e))
  | (w, Ok _) =>
  match CreateTemp (filepath_Dir path) ".aal-" w with
  | (w, Err e) => (w, Err (strerror e))
  | (w, Ok name) =>
  match Write name data w with
  | (w, Err e) => (fst (Remove name (fst (Close name w))), Err (strerror e))
  | (w, Ok _) =>
  match Close name w with
  | (w, Err e) => (fst (Remove name w), Err (strerror e))
  | (w, Ok _) =>
  match Rename name path w with
  | (w, Err e) => (fst (Remove name w), Err (strerror e))
  | (w, Ok _) => (sync_dir w, Ok tt)
  end
  end
  end
  end
  end.

Section Store.
Context {RC : RecordCodec}.

Definition persistLocked (s : AlarmStore) (w : World) : AlarmStore * World :=
  if String.eqb (persistence s) "" then (s, w)
  else
    let '(w, r) := match encode_records (map_to_list (records s)).*2 with
                   | Err e => (w, Err e)
                   | Ok data => atomicWriteFile (persistence s) data w
                   end in
    match r with
    | Err e => (s <|lastPersistErr := Some e|>, w)
    | Ok _ => (s <|lastPersistErr := None|>, w)
    end.

Definition load_record (m : gmap Key AlarmRecord) (rec : AlarmRecord) : gmap Key AlarmRecord :=
  if String.eqb (k_Component (r_Key rec)) "" || String.eqb (k_Code (r_Key rec)) "" then m
  else <[r_Key rec := rec]> m.

Definition load (s : AlarmStore) (w : World) : World * result string AlarmStore :=
  match ReadFile (persistence s) w with
  | (w, Err e) => if bool_decide (e = ENOENT) then (w, Ok s) else (w, Err (strerror e))
  | (w, Ok data) => match decode_records data with
                    | Err e => (w, Err e)
                    | Ok recs => (w, Ok (s <|records := foldl load_record (records s) recs|>))
                    end
  end.

Definition NewPersistentStore (path : string) (w : World) : World * result string AlarmStore :=
  if String.eqb path "" then (w, Ok NewStore) else load (NewStore <|persistence := path|>) w.

(** The loop over the updated fields: a field is replaced when the new text is there and differs. *)
Definition update_text (src : string) (dst : string * bool) : string * bool :=
  if negb (String.eqb src "") && negb (String.eqb dst.1 src) then (src, true) else dst.

Definition update_record (alarm : Alarm) (rec : AlarmRecord) (changed : bool) : AlarmRecord * bool :=
  let '(id, c) := update_text (AlarmID alarm) (r_AlarmID rec, changed) in
  let '(moi, c) := update_text (ManagedObjectInstance alarm) (r_ManagedObjectInstance rec, c) in
  let '(et, c) := update_text (EventType alarm) (r_EventType rec, c) in
  let '(pc, c) := update_text (ProbableCause alarm) (r_ProbableCause rec, c) in
  let '(ps, c) := update_text (PerceivedSeverity alarm) (r_PerceivedSeverity rec, c) in
  let '(sp, c) := update_text (SpecificProblem alarm) (r_SpecificProblem rec, c) in
  let '(msg, c) := update_text (Message alarm) (r_Message rec, c) in
  let '(sev, c) := update_text (Severity alarm) (r_Severity rec, c) in
  (mkRecord (r_Key rec) id moi et pc ps sp msg sev (r_Status rec) (r_FirstSeen rec) (r_LastSeen rec) (r_Count rec), c).

Definition new_record (at_ : time) (k : Key) (alarm : Alarm) : AlarmRecord :=
  mkRecord k (AlarmID alarm) (ManagedObjectInstance alarm) (EventType alarm) (ProbableCause alarm)
    (PerceivedSeverity alarm) (SpecificProblem alarm) (Message alarm) (Severity alarm) StatusActive at_ at_ 1.

(** The record after an alarm is seen, and whether that is news. *)
Definition upsert_record (at_ : time) (k : Key) (alarm : Alarm) (old : option AlarmRecord) : AlarmRecord * bool :=
  match old with
  | None => (new_record at_ k alarm, true)
  | Some rec =>
      let '(rec, changed) := if negb (String.eqb (r_Status rec) StatusActive)
                             then (rec <|r_Status := StatusActive|> <|r_FirstSeen := at_|>, true) else (rec, false) in
      let '(rec, changed) := update_record alarm rec changed in
      (rec <|r_LastSeen := at_|> <|r_Count ::= fun c => uint64_add c 1|>, changed)
  end.

Definition Upsert (at_ : time) (component : string) (alarm : Alarm) (s : AlarmStore) (w : World) :
    AlarmStore * World * (AlarmRecord * bool) :=
  let k := mkKey component (Code alarm) in
  let '(rec, changed) := upsert_record at_ k alarm (records s !! k) in
  let '(s, w) := persistLocked (s <|records ::= <[k := rec]>|>) w in
  (s, w, (rec, changed)).

Definition Touch (at_ : time) (component code : string) (s : AlarmStore) (w : World) : AlarmStore * World :=
  let k := mkKey component code in
  match records s !! k with
  | Some rec =>
      if negb (String.eqb (r_Status rec) StatusActive) then (s, w)
      else persistLocked (s <|records ::= <[k := rec <|r_LastSeen := at_|> <|r_Count ::= fun c => uint64_add c 1|>]>|>) w
  | None => (s, w)
  end.

Definition clear_record (at_ : time) (rec : AlarmRecord) : AlarmRecord :=
  rec <|r_Status := StatusCleared|> <|r_PerceivedSeverity := SeverityCleared|> <|r_LastSeen := at_|>.

(** The keys ClearComponent clears. *)
Definition clears (component : string) (kr : Key * AlarmRecord) : Prop :=
  k_Component kr.1 = component /\ r_Status kr.2 <> StatusCleared.

#[global] Instance clears_dec (component : string) (kr : Key * AlarmRecord) : Decision (clears component kr).
Proof. unfold clears. apply _. Defined.

Definition ClearComponent (at_ : time) (component : string) (s : AlarmStore) (w : World) :
    AlarmStore * World * list AlarmRecord :=
  let cleared := clear_record at_ <$> filter (clears component) (records s) in
  let out := (map_to_list cleared).*2 in
  let s := s <|records := cleared ∪ records s|> in
  match out with
  | [] => (s, w, [])
  | _ => let '(s, w) := persistLocked s w in (s, w, out)
  end.

Definition Clear (at_ : time) (component code : string) (s : AlarmStore) (w : World) :
    AlarmStore * World * option AlarmRecord :=
  let k := mkKey component code in
  match records s !! k with
  | None => (s, w, None)
  | Some rec =>
      if String.eqb (r_Status rec) StatusCleared then (s, w, None)
      else
        let rec := clear_record at_ rec <|r_Severity := "cleared"|> in
        let '(s, w) := persistLocked (s <|records ::= <[k := rec]>|>) w in
        (s, w, Some rec)
  end.

Definition Snapshot (s : AlarmStore) : list AlarmRecord := (map_to_list (records s)).*2.
Definition Active (s : AlarmStore) : list AlarmRecord :=
  List.filter (fun r => String.eqb (r_Status r) StatusActive) (map_to_list (records s)).*2.

End Store.

(** ** The manager

    OnEvent is called with each event of an operation; the events are what an operation returns here. *)
Section Manager.
Context {GL : GoLib} {RC : RecordCodec}.

Definition recordAlarm (rec : AlarmRecord) : Alarm :=
  mkAlarm (k_Code (r_Key rec)) (r_Message rec) (r_Severity rec) (r_AlarmID rec) (r_ManagedObjectInstance rec)
    (r_EventType rec) (r_ProbableCause rec) (r_PerceivedSeverity rec) (r_SpecificProblem rec).

Definition record_event (at_ : time) (component health : string) (rec : AlarmRecord) : Event :=
  mkEvent at_ component health (recordAlarm rec) (r_Status rec) (r_Count rec).

(** The event, and whether it is news (only then OnEvent sees it). *)
Definition Raise (at_ : time) (component health : string) (alarm : Alarm) (s : AlarmStore) (w : World) :
    AlarmStore * World * (Event * bool) :=
  let alarm := Normalize component (ManagedObjectInstance alarm) alarm in
  let '(s, w, (rec, changed)) := Upsert at_ component alarm s w in
  (s, w, (record_event at_ component health rec, changed)).

Definition ManagerTouch (at_ : time) (component code : string) (s : AlarmStore) (w : World) : AlarmStore * World :=
  Touch at_ component code s w.

Definition ManagerClearComponent (at_ : time) (component health : string) (s : AlarmStore) (w : World) :
    AlarmStore * World * list Event :=
  let '(s, w, cleared) := ClearComponent at_ component s w in
  (s, w, record_event at_ component health <$> cleared).

Definition ManagerClear (at_ : time) (component code health : string) (s : AlarmStore) (w : World) :
    AlarmStore * World * option Event :=
  let '(s, w, rec) := Clear at_ component code s w in
  (s, w, record_event at_ component health <$> rec).

End Manager.

(** ** Specification: which alarms are active *)

Module AlarmSpec.
Definition raise (k : Key) (h : gmap Key bool) : gmap Key bool * bool :=
  (<[k := true]> h, negb (bool_decide (h !! k = Some true))).
Definition clear (k : Key) (h : gmap Key bool) : gmap Key bool * bool :=
  if bool_decide (h !! k = Some true) then (<[k := false]> h, true) else (h, false).
Definition clear_component (c : string) (h : gmap Key bool) : gmap Key bool :=
  map_imap (fun k a => Some (a && negb (String.eqb (k_Component k) c))) h.
End AlarmSpec.

Definition is_active (r : AlarmRecord) : bool := String.eqb (r_Status r) StatusActive.
Definition activity (s : AlarmStore) : gmap Key bool := is_active <$> records s.

(** A record is filed under its own key and is active or cleared. *)
Definition known_status (st : Status) : Prop := st = StatusActive \/ st = StatusCleared.
Definition filed (P : Status -> Prop) (m : gmap Key AlarmRecord) : Prop :=
  forall k r, m !! k = Some r -> r_Key r = k /\ P (r_Status r).
Definition records_wf : gmap Key AlarmRecord -> Prop := filed known_status.

(** ** Lemmas *)

Lemma generic_in_dictionary : dictionary_lookup AlarmGenericEMS = Some generic_definition.
Proof. vm_compute. reflexivity. Qed.

Section StoreLemmas.
Context {GL : GoLib} {RC : RecordCodec}.

Lemma persistLocked_frame (s : AlarmStore) (w : World) :
  records (fst (persistLocked s w)) = records s /\ persistence (fst (persistLocked s w)) = persistence s.
Proof.
  unfold persistLocked. destruct (String.eqb (persistence s) ""); [done|].
  destruct (match encode_records _ with Err e => _ | Ok data => _ end) as [w1 [[]|e]]; by destruct s.
Qed.

Lemma Upsert_records (at_ : time) (component : string) (alarm : Alarm) (s : AlarmStore) (w : World) :
  let k := mkKey component (Code alarm) in
  let '(s', w', (rec, changed)) := Upsert at_ component alarm s w in
  upsert_record at_ k alarm (records s !! k) = (rec, changed) /\ records s' = <[k := rec]> (records s) /\ persistence s' = persistence s.
Proof.
  unfold Upsert. destruct (upsert_record _ _ _ _) as [rec changed]. set (s1 := s <|records ::= _|>).
  pose proof (persistLocked_frame s1 w) as [Hr Hp]. destruct (persistLocked s1 w) as [s2 w2]. cbn [fst] in *. split_and!; [done|..];
    [rewrite Hr|rewrite Hp]; by destruct s.
Qed.

Lemma update_record_frame (alarm : Alarm) (rec : AlarmRecord) (c : bool) :
  let r := fst (update_record alarm rec c) in
  r_Key r = r_Key rec /\ r_Status r = r_Status rec /\ r_FirstSeen r = r_FirstSeen rec /\ r_LastSeen r = r_LastSeen rec /\ r_Count r = r_Count rec.
Proof. unfold update_record. by repeat destruct (update_text _ _) as [? ?]. Qed.

Lemma upsert_record_key (at_ : time) (k : Key) (alarm : Alarm) (old : option AlarmRecord) :
  (forall r, old = Some r -> r_Key r = k) ->
  let r := fst (upsert_record at_ k alarm old) in r_Key r = k /\ r_Status r = StatusActive.
Proof.
  intros Hk. destruct old as [rec|]; [|done]. specialize (Hk rec eq_refl). unfold upsert_record.
  destruct (String.eqb (r_Status rec) StatusActive) eqn:Ea; cbn [negb].
  - pose proof (update_record_frame alarm rec false) as Hf. destruct (update_record alarm rec false) as [r c].
    destruct Hf as (H1 & H2 & _). b2p. destruct r; cbn in *. split; congruence.
  - set (rec1 := rec <|r_Status := StatusActive|> <|r_FirstSeen := at_|>).
    pose proof (update_record_frame alarm rec1 true) as Hf. destruct (update_record alarm rec1 true) as [r c].
    destruct Hf as (H1 & H2 & _). destruct r, rec; cbn in *. split; congruence.
Qed.

(** The texts of an alarm beside those of a record. *)
Definition texts (alarm : Alarm) (rec : AlarmRecord) : list (string * string) :=
  [(AlarmID alarm, r_AlarmID rec); (ManagedObjectInstance alarm, r_ManagedObjectInstance rec); (EventType alarm, r_EventType rec);
   (ProbableCause alarm, r_ProbableCause rec); (PerceivedSeverity alarm, r_PerceivedSeverity rec);
   (SpecificProblem alarm, r_SpecificProblem rec); (Message alarm, r_Message rec); (Severity alarm, r_Severity rec)].

(** Whether they bring news: one of them is there and differs. *)
Definition content_news (alarm : Alarm) (rec : AlarmRecord) : bool :=
  existsb (fun p => negb (String.eqb p.1 "") && negb (String.eqb p.2 p.1)) (texts alarm rec).

Lemma update_text_spec (src d : string) (c : bool) :
  update_text src (d, c) = (if String.eqb src "" then d else src, c || (negb (String.eqb src "") && negb (String.eqb d src))).
Proof.
  unfold update_text. cbn. destruct (String.eqb_spec src ""); cbn; [by rewrite orb_false_r|].
  destruct (String.eqb_spec d src); cbn; [subst; by rewrite orb_false_r|by rewrite orb_true_r].
Qed.

Lemma update_record_spec (alarm : Alarm) (rec : AlarmRecord) (c : bool) :
  snd (update_record alarm rec c) = c || content_news alarm rec /\
  texts alarm (fst (update_record alarm rec c)) = (fun p => (p.1, if String.eqb p.1 "" then p.2 else p.1)) <$> texts alarm rec.
Proof.
  unfold update_record, content_news, texts. rewrite !update_text_spec. cbn. split; [|done]. by rewrite orb_false_r, !orb_assoc.
Qed.

(** An updated record has nothing left to learn from the same alarm. *)
Lemma update_record_settled (alarm : Alarm) (rec : AlarmRecord) (c : bool) :
  content_news alarm (fst (update_record alarm rec c)) = false /\
  fst (update_record alarm (fst (update_record alarm rec c)) false) = fst (update_record alarm rec c).
Proof.
  destruct (update_record_spec alarm rec c) as [_ Ht]. split.
  - unfold content_news. rewrite Ht. apply not_true_iff_false. rewrite existsb_exists. intros ([x y] & Hin & Hc).
    apply list_elem_of_In, list_elem_of_fmap in Hin as ([p q] & [= -> ->] & _). cbn in Hc.
    destruct (String.eqb_spec p ""); cbn in Hc; [done|]. by rewrite string_eqb_refl in Hc.
  - unfold update_record. rewrite !update_text_spec. cbn. f_equal;
      match goal with |- (if String.eqb ?x "" then _ else _) = _ => by destruct (String.eqb x "") end.
Qed.

Lemma upsert_settled (at_ : time) (k : Key) (alarm : Alarm) (old : option AlarmRecord) :
  let r := fst (upsert_record at_ k alarm old) in content_news alarm r = false /\ fst (update_record alarm r false) = r.
Proof.
  cbv zeta. destruct old as [rec|].
  - unfold upsert_record. set (p := if negb _ then _ else _). destruct p as [rec1 c1]. pose proof (update_record_settled alarm rec1 c1) as [H1 H2].
    destruct (update_record alarm rec1 c1) as [r c]. cbn [fst] in *. split; [by destruct r|].
    unfold update_record in *. destruct r. cbn in *. rewrite !update_text_spec in *. cbn in *. injection H2. by intros -> -> -> -> -> -> -> ->.
  - cbn [upsert_record fst]. unfold content_news, update_record, new_record. rewrite !update_text_spec. cbn. rewrite !string_eqb_refl. cbn.
    rewrite !andb_false_r. split; [done|]. f_equal; by destruct (String.eqb _ "").
Qed.

(** *** What each operation does to the records *)

Lemma Touch_records (at_ : time) (component code : string) (s : AlarmStore) (w : World) :
  let k := mkKey component code in
  records (fst (Touch at_ component code s w)) =
    match records s !! k with
    | Some r => if is_active r then <[k := r <|r_LastSeen := at_|> <|r_Count ::= fun c => uint64_add c 1|>]> (records s) else records s
    | None => records s
    end /\ persistence (fst (Touch at_ component code s w)) = persistence s.
Proof.
  unfold Touch, is_active. cbv zeta. destruct (records s !! _) as [r|]; [|done]. destruct (String.eqb (r_Status r) StatusActive); cbn [negb]; [|done].
  set (s1 := s <|records ::= _|>). pose proof (persistLocked_frame s1 w) as [Hr Hp]. rewrite Hr, Hp. by destruct s.
Qed.

Lemma Clear_records (at_ : time) (component code : string) (s : AlarmStore) (w : World) :
  let k := mkKey component code in
  let '(s', w', out) := Clear at_ component code s w in
  persistence s' = persistence s /\
  match records s !! k with
  | Some r => if String.eqb (r_Status r) StatusCleared then out = None /\ records s' = records s
              else let r' := clear_record at_ r <|r_Severity := "cleared"|> in out = Some r' /\ records s' = <[k := r']> (records s)
  | None => out = None /\ records s' = records s
  end.
Proof.
  unfold Clear. cbv zeta. destruct (records s !! _) as [r|]; [|done]. destruct (String.eqb (r_Status r) StatusCleared); [done|].
  set (s1 := s <|records ::= _|>). pose proof (persistLocked_frame s1 w) as [Hr Hp]. destruct (persistLocked s1 w) as [s2 w2]. cbn [fst] in *.
  rewrite Hr, Hp. by destruct s.
Qed.

Lemma ClearComponent_records (at_ : time) (component : string) (s : AlarmStore) (w : World) :
  let cleared := clear_record at_ <$> filter (clears component) (records s) in
  let '(s', w', out) := ClearComponent at_ component s w in
  persistence s' = persistence s /\ records s' = cleared ∪ records s /\ out = (map_to_list cleared).*2.
Proof.
  unfold ClearComponent. cbv zeta. set (cl := clear_record at_ <$> _). destruct ((map_to_list cl).*2) as [|r l] eqn:El; [by destruct s|].
  set (s1 := s <|records := _|>). pose proof (persistLocked_frame s1 w) as [Hr Hp]. destruct (persistLocked s1 w) as [s2 w2]. cbn [fst] in *.
  rewrite Hr, Hp. by destruct s.
Qed.

(** *** Operations *)

Inductive alarm_op :=
| ARaise (at_ : time) (component health : string) (alarm : Alarm)
| ATouch (at_ : time) (component code : string)
| AClear (at_ : time) (component code health : string)
| AClearComponent (at_ : time) (component health : string).

Definition alarm_step (op : alarm_op) (sw : AlarmStore * World) : AlarmStore * World :=
  let '(s, w) := sw in
  match op with
  | ARaise at_ component health alarm => fst (Raise at_ component health alarm s w)
  | ATouch at_ component code => ManagerTouch at_ component code s w
  | AClear at_ component code health => fst (ManagerClear at_ component code health s w)
  | AClearComponent at_ component health => fst (ManagerClearComponent at_ component health s w)
  end.

Definition alarm_run (ops : list alarm_op) (sw : AlarmStore * World) : AlarmStore * World := foldl (flip alarm_step) sw ops.

Lemma filed_insert (P : Status -> Prop) (m : gmap Key AlarmRecord) (k : Key) (r : AlarmRecord) :
  filed P m -> r_Key r = k -> P (r_Status r) -> filed P (<[k := r]> m).
Proof.
  intros Hm Hk Hs k' r' Hl. destruct (decide (k = k')) as [<-|Hne].
  - rewrite lookup_insert_eq in Hl. by simplify_eq.
  - rewrite lookup_insert_ne in Hl by done. by apply Hm.
Qed.

Lemma cleared_union (at_ : time) (component : string) (m : gmap Key AlarmRecord) (k : Key) :
  ((clear_record at_ <$> filter (clears component) m) ∪ m) !! k =
  (fun r => if decide (clears component (k, r)) then clear_record at_ r else r) <$> m !! k.
Proof.
  rewrite lookup_union, lookup_fmap, map_lookup_filter. destruct (m !! k) as [r|]; [|done]. cbn.
  destruct (decide (clears component (k, r))) as [Hc|Hn].
  - rewrite option_guard_True by done. done.
  - rewrite option_guard_False by done. done.
Qed.

Lemma step_filed (P : Status -> Prop) (op : alarm_op) (s : AlarmStore) (w : World) :
  P StatusActive -> P StatusCleared -> filed P (records s) -> filed P (records (fst (alarm_step op (s, w)))) /\
  persistence (fst (alarm_step op (s, w))) = persistence s.
Proof.
  intros HA HC Hw. destruct op as [t c h a|t c code|t c code h|t c h]; cbn [alarm_step].
  - unfold Raise. set (a' := Normalize _ _ _). pose proof (Upsert_records t c a' s w) as Hu. cbv zeta in Hu.
    destruct (Upsert t c a' s w) as [[s1 w1] [rec ch]]. destruct Hu as (Hr & Hs1 & Hp). cbn [fst]. rewrite Hs1, Hp. split; [|done].
    pose proof (upsert_record_key t (mkKey c (Code a')) a' (records s !! mkKey c (Code a'))) as Hk. rewrite Hr in Hk.
    destruct Hk as [Hk Hs]; [intros r Hr0; by apply Hw in Hr0 as [? _]|]. apply filed_insert; [done|done|]. cbn [fst] in Hs. by rewrite Hs.
  - unfold ManagerTouch. destruct (Touch_records t c code s w) as [-> ->]. split; [|done].
    destruct (records s !! _) as [r|] eqn:Er; [|done]. destruct (is_active r); [|done]. apply Hw in Er as [Hk Hs].
    apply filed_insert; [done|by destruct r|by destruct r].
  - unfold ManagerClear. pose proof (Clear_records t c code s w) as Hc. cbv zeta in Hc.
    destruct (Clear t c code s w) as [[s1 w1] out]. destruct Hc as [Hp Hc]. cbn [fst]. rewrite Hp. split; [|done].
    destruct (records s !! _) as [r|] eqn:Er; [|by destruct Hc as [_ ->]]. destruct (String.eqb _ _); destruct Hc as [_ ->]; [done|].
    apply Hw in Er as [Hk Hs]. apply filed_insert; [done|by destruct r|by destruct r].
  - unfold ManagerClearComponent. pose proof (ClearComponent_records t c s w) as Hc. cbv zeta in Hc.
    destruct (ClearComponent t c s w) as [[s1 w1] out]. destruct Hc as (Hp & Hs1 & _). cbn [fst]. rewrite Hp, Hs1. split; [|done]. intros k r Hl.
    rewrite cleared_union in Hl. apply fmap_Some in Hl as (r0 & Hr0 & ->). apply Hw in Hr0 as [Hk Hs].
    destruct (decide _); [|done]. split; [by destruct r0|by destruct r0].
Qed.

Lemma run_filed (P : Status -> Prop) (ops : list alarm_op) (s : AlarmStore) (w : World) :
  P StatusActive -> P StatusCleared -> filed P (records s) -> filed P (records (fst (alarm_run ops (s, w)))) /\
  persistence (fst (alarm_run ops (s, w))) = persistence s.
Proof.
  revert s w. induction ops as [|op ops IH]; intros s w HA HC Hw; [done|].
  change (alarm_run (op :: ops) (s, w)) with (alarm_run ops (alarm_step op (s, w))).
  destruct (step_filed P op s w HA HC Hw) as [H1 H2]. destruct (alarm_step op (s, w)) as [s1 w1]. cbn [fst] in *.
  destruct (IH s1 w1 HA HC H1) as [H3 H4]. split; [done|congruence].
Qed.

(** *** Persistence *)

Lemma atomicWriteFile_ok (path : string) (data : bytes) (w w' : World) :
  atomicWriteFile path data w = (w', Ok tt) -> exists i, disk w' !! path = Some i /\ contents i = data.
Proof.
  unfold atomicWriteFile. destruct (MkdirAll _ w) as [w1 [[]|e]]; [|done].
  unfold CreateTemp. match goal with |- context [syscall ?a w1] => pose proof (syscall_spec a w1) as H1 end.
  destruct (syscall _ w1) as [w2 [name|e]]; [|done]. injection H1 as Hd2 Hname.
  pose proof (Write_only (disk w1) name data w2 (mkInode [] 384 (0, 0)%Z)) as Hw. rewrite <- Hname in Hw at 1. specialize (Hw (eq_sym Hd2)).
  destruct (Write name data w2) as [w3 [[]|e]]; [|done].
  pose proof (on_file_only (disk w1) name id w3 _ Hw) as Hc. unfold Close. destruct (on_file name id w3) as [w4 [[]|e]]; [|done].
  unfold Rename. match goal with |- context [syscall ?a w4] => pose proof (syscall_spec a w4) as H5 end.
  destruct (syscall _ w4) as [w5 [[]|e]]; [|done]. rewrite Hc, lookup_insert_eq in H5. injection H5 as Hd5. intros [= <-].
  exists (mkInode data 384 (0, 0)%Z). split; [|reflexivity]. assert (Hs : disk (sync_dir w5) = disk w5).
  { unfold sync_dir. pose proof (tick_disk w5) as Ht. destruct (tick w5) as [w6 [f|]]; cbn in *; [done|]. by rewrite !tick_disk. }
  rewrite Hs, <- Hd5. by rewrite lookup_insert_eq.
Qed.

(** What is on disk gives the records back. *)
Definition recoverable (s : AlarmStore) (w : World) : Prop :=
  match disk w !! persistence s with
  | None => records s = ∅
  | Some i => (exists recs, decode_records (contents i) = Ok recs /\ foldl load_record ∅ recs = records s) \/
              encode_records (map_to_list (records s)).*2 = Ok (contents i)
  end.

Definition persisted (s : AlarmStore) (w : World) : Prop :=
  persistence s <> "" -> lastPersistErr s = None -> recoverable s w.

Lemma persistLocked_persisted (s : AlarmStore) (w : World) : let '(s', w') := persistLocked s w in persisted s' w'.
Proof.
  unfold persistLocked. destruct (String.eqb (persistence s) "") eqn:Ep; [by intros Hn; b2p|].
  destruct (encode_records _) as [data|e] eqn:Ee; [|intros _ Hl; by destruct s].
  destruct (atomicWriteFile (persistence s) data w) as [w1 [[]|e]] eqn:Ea; [|intros _ Hl; by destruct s].
  apply atomicWriteFile_ok in Ea as (i & Hi & <-). intros _ _. unfold recoverable.
  assert (Hp : persistence (s <|lastPersistErr := None|>) = persistence s) by by destruct s.
  assert (Hr : records (s <|lastPersistErr := None|>) = records s) by by destruct s. rewrite Hp, Hi, Hr. by right.
Qed.

(** A store that has not changed is as recoverable as before; every change is written. *)
Lemma step_persisted (op : alarm_op) (s : AlarmStore) (w : World) :
  persisted s w -> let '(s', w') := alarm_step op (s, w) in persisted s' w'.
Proof.
  intros Hp. destruct op as [t c h a|t c code|t c code h|t c h]; cbn [alarm_step].
  - unfold Raise, Upsert. destruct (upsert_record _ _ _ _) as [rec ch]. set (s1 := s <|records ::= _|>).
    pose proof (persistLocked_persisted s1 w) as H1. by destruct (persistLocked s1 w).
  - unfold ManagerTouch, Touch. cbv zeta. destruct (records s !! _) as [r|]; [|done]. destruct (negb _); [done|].
    set (s1 := s <|records ::= _|>). pose proof (persistLocked_persisted s1 w) as H1. by destruct (persistLocked s1 w).
  - unfold ManagerClear, Clear. cbv zeta. destruct (records s !! _) as [r|]; [|done]. destruct (String.eqb _ _); [done|].
    set (s1 := s <|records ::= _|>). pose proof (persistLocked_persisted s1 w) as H1. by destruct (persistLocked s1 w).
  - unfold ManagerClearComponent, ClearComponent. cbv zeta. set (cl := clear_record t <$> _).
    destruct ((map_to_list cl).*2) as [|r l] eqn:El.
    + assert (Hcl : cl = ∅) by (apply map_to_list_empty_iff; by destruct (map_to_list cl)).
      rewrite Hcl. cbn [fst]. assert (Hs : s <|records := ∅ ∪ records s|> = s) by (rewrite (left_id_L ∅ (∪)); by destruct s). by rewrite Hs.
    + set (s1 := s <|records := _|>). pose proof (persistLocked_persisted s1 w) as H1. by destruct (persistLocked s1 w).
Qed.

(** *** Keys that survive a restart *)

Definition keys_ok (m : gmap Key AlarmRecord) : Prop := forall k r, m !! k = Some r -> k_Component k <> "" /\ k_Code k <> "".

Lemma canonicalCode_nonempty (component code : string) : code <> "" -> canonicalCode component code <> "".
Proof. unfold canonicalCode. intros Hc. by repeat destruct (String.eqb _ _ : bool); repeat destruct (Contains _ _). Qed.

Lemma Normalize_code (component mo : string) (a : Alarm) : Code (Normalize component mo a) <> "".
Proof.
  unfold Normalize. cbv zeta. set (code := if String.eqb (TrimSpace (Code a)) "" then _ else _).
  assert (Hc : code <> "") by (unfold code; destruct (String.eqb _ _) eqn:E; by b2p).
  pose proof (canonicalCode_nonempty component code Hc) as Hn. by destruct a.
Qed.

Definition op_named (op : alarm_op) : Prop :=
  match op with ARaise _ component _ _ => component <> "" | _ => True end.

Lemma keys_ok_dom (m m' : gmap Key AlarmRecord) : dom m' ⊆ dom m -> keys_ok m -> keys_ok m'.
Proof.
  intros Hd Hk k r Hl. assert (Hin : k ∈ dom m) by (apply Hd, elem_of_dom; eauto). apply elem_of_dom in Hin as [r' Hr']. eauto.
Qed.

Lemma step_keys_ok (op : alarm_op) (s : AlarmStore) (w : World) :
  op_named op -> keys_ok (records s) -> keys_ok (records (fst (alarm_step op (s, w)))).
Proof.
  intros Hn Hk. destruct op as [t c h a|t c code|t c code h|t c h]; cbn [alarm_step].
  - unfold Raise. set (a' := Normalize _ _ _). pose proof (Upsert_records t c a' s w) as Hu. cbv zeta in Hu.
    destruct (Upsert t c a' s w) as [[s1 w1] [rec ch]]. destruct Hu as (_ & Hs1 & _). cbn [fst]. rewrite Hs1. intros k r Hl.
    destruct (decide (mkKey c (Code a') = k)) as [<-|Hne]; [split; [done|apply Normalize_code]|].
    rewrite lookup_insert_ne in Hl by done. eauto.
  - unfold ManagerTouch. destruct (Touch_records t c code s w) as [-> _].
    destruct (records s !! _) as [r|] eqn:Er; [|done]. destruct (is_active r); [|done].
    eapply keys_ok_dom; [|exact Hk]. rewrite dom_insert_lookup_L by eauto. done.
  - unfold ManagerClear. pose proof (Clear_records t c code s w) as Hc. cbv zeta in Hc.
    destruct (Clear t c code s w) as [[s1 w1] out]. destruct Hc as [_ Hc]. cbn [fst].
    destruct (records s !! _) as [r|] eqn:Er; [|by destruct Hc as [_ ->]]. destruct (String.eqb _ _); destruct Hc as [_ ->]; [done|].
    eapply keys_ok_dom; [|exact Hk]. rewrite dom_insert_lookup_L by eauto. done.
  - unfold ManagerClearComponent. pose proof (ClearComponent_records t c s w) as Hc. cbv zeta in Hc.
    destruct (ClearComponent t c s w) as [[s1 w1] out]. destruct Hc as (_ & Hs1 & _). cbn [fst]. rewrite Hs1. intros k r Hl.
    rewrite cleared_union in Hl. apply fmap_Some in Hl as (r0 & Hr0 & _). eauto.
Qed.

(** *** Loading *)

Lemma load_fold_other (l : list AlarmRecord) (acc : gmap Key AlarmRecord) (k : Key) :
  k ∉ r_Key <$> l -> foldl load_record acc l !! k = acc !! k.
Proof.
  revert acc. induction l as [|r l IH]; intros acc Hk; [done|]. apply not_elem_of_cons in Hk as [Hne Hk]. cbn. rewrite IH by done.
  unfold load_record. destruct (_ || _); [done|]. by rewrite lookup_insert_ne.
Qed.

Lemma load_fold_in (l : list AlarmRecord) (acc : gmap Key AlarmRecord) (r : AlarmRecord) :
  r ∈ l -> NoDup (r_Key <$> l) -> k_Component (r_Key r) <> "" -> k_Code (r_Key r) <> "" -> foldl load_record acc l !! r_Key r = Some r.
Proof.
  revert acc. induction l as [|r' l IH]; intros acc Hin Hnd H1 H2; [by apply not_elem_of_nil in Hin|]. apply NoDup_cons in Hnd as [Hn Hnd].
  apply elem_of_cons in Hin as [<-|Hin]; cbn; [|by apply IH]. rewrite load_fold_other by done. unfold load_record.
  rewrite (proj2 (String.eqb_neq _ _) H1), (proj2 (String.eqb_neq _ _) H2). apply lookup_insert_eq.
Qed.

Lemma load_records_back (m : gmap Key AlarmRecord) :
  filed (fun _ => True) m -> keys_ok m -> foldl load_record ∅ (map_to_list m).*2 = m.
Proof.
  intros Hw Hk. assert (Hkeys : r_Key <$> (map_to_list m).*2 = (map_to_list m).*1).
  { rewrite <- list_fmap_compose. apply list_fmap_ext. intros i [k r] Hi. cbn. apply list_elem_of_lookup_2, elem_of_map_to_list in Hi. by apply Hw in Hi as [-> _]. }
  apply map_eq. intros k. destruct (m !! k) as [r|] eqn:Er.
  - pose proof (Hw k r Er) as [Hkr _]. rewrite <- Hkr in *. apply load_fold_in; [|by rewrite Hkeys; apply NoDup_fst_map_to_list|by eapply Hk..].
    apply list_elem_of_fmap. exists (r_Key r, r). split; [done|by apply elem_of_map_to_list].
  - rewrite load_fold_other; [done|]. rewrite Hkeys. intros ([k' r'] & -> & Hin)%list_elem_of_fmap.
    apply elem_of_map_to_list in Hin. cbn in Er. by rewrite Er in Hin.
Qed.

Lemma loaded_ok (l : list AlarmRecord) (acc : gmap Key AlarmRecord) : keys_ok acc -> keys_ok (foldl load_record acc l).
Proof.
  revert acc. induction l as [|r l IH]; intros acc Ha; [done|]. cbn. apply IH. unfold load_record.
  destruct (String.eqb (k_Component (r_Key r)) "") eqn:E1; [done|]. destruct (String.eqb (k_Code (r_Key r)) "") eqn:E2; [done|]. b2p.
  intros k r' Hl. destruct (decide (r_Key r = k)) as [<-|Hne]; [done|]. cbn in Hl. rewrite lookup_insert_ne in Hl by done. eauto.
Qed.

Lemma load_filed (P : Status -> Prop) (l : list AlarmRecord) (acc : gmap Key AlarmRecord) :
  Forall (fun r => P (r_Status r)) l -> filed P acc -> filed P (foldl load_record acc l).
Proof.
  intros Hl. revert acc. induction Hl as [|r l Hr _ IH]; intros acc Ha; [done|]. cbn. apply IH. unfold load_record.
  destruct (_ || _); [done|]. by apply filed_insert.
Qed.

(** *** Activity *)

Lemma activity_lookup (s : AlarmStore) (k : Key) : activity s !! k = is_active <$> records s !! k.
Proof. apply lookup_fmap. Qed.

Lemma wf_status (r : AlarmRecord) :
  known_status (r_Status r) -> String.eqb (r_Status r) StatusCleared = negb (is_active r).
Proof. unfold is_active. by intros [-> | ->]. Qed.

Lemma some_true (b : bool) : bool_decide (Some b = Some true) = b.
Proof. by destruct b. Qed.

Lemma Raise_activity (at_ : time) (component health : string) (alarm : Alarm) (s : AlarmStore) (w : World) :
  records_wf (records s) ->
  let a := Normalize component (ManagedObjectInstance alarm) alarm in
  let k := mkKey component (Code a) in
  let '(s', w', (ev, changed)) := Raise at_ component health alarm s w in
  activity s' = fst (AlarmSpec.raise k (activity s)) /\
  changed = snd (AlarmSpec.raise k (activity s)) || match records s !! k with Some r => content_news a r | None => false end /\
  ev_Status ev = StatusActive.
Proof.
  intros Hw. cbv zeta. unfold Raise. cbv zeta. set (a := Normalize _ _ _). pose proof (Upsert_records at_ component a s w) as Hu. cbv zeta in Hu.
  destruct (Upsert at_ component a s w) as [[s1 w1] [rec ch]]. destruct Hu as (Hr & Hs & _).
  pose proof (upsert_record_key at_ (mkKey component (Code a)) a (records s !! mkKey component (Code a))) as Hk. rewrite Hr in Hk.
  destruct Hk as [Hk Ha]; [intros r Hl; by apply Hw in Hl as [? _]|]. cbn [fst] in Ha. unfold AlarmSpec.raise. cbn [fst snd].
  rewrite activity_lookup. split_and!; [|clear Hs|done].
  - unfold activity. rewrite Hs, fmap_insert. do 2 f_equal. unfold is_active. by rewrite Ha.
  - destruct (records s !! _) as [r|] eqn:El; [|by injection Hr as _ <-]. cbn [fmap option_fmap option_map]. unfold upsert_record in Hr. rewrite some_true.
    unfold is_active.
    destruct (String.eqb (r_Status r) StatusActive); cbn [negb] in Hr.
    + pose proof (update_record_spec a r false) as [Hc _]. destruct (update_record a r false) as [r' c]. injection Hr as _ <-.
      by cbn [snd] in Hc; rewrite Hc.
    + set (r1 := r <|r_Status := _|> <|r_FirstSeen := _|>) in Hr. pose proof (update_record_spec a r1 true) as [Hc _].
      destruct (update_record a r1 true) as [r' c]. injection Hr as _ <-. by cbn [snd] in Hc; rewrite Hc.
Qed.

Lemma Touch_activity (at_ : time) (component code : string) (s : AlarmStore) (w : World) :
  activity (fst (ManagerTouch at_ component code s w)) = activity s.
Proof.
  unfold ManagerTouch, activity. destruct (Touch_records at_ component code s w) as [-> _].
  destruct (records s !! _) as [r|] eqn:El; [|done]. destruct (is_active r) eqn:Ea; [|done]. rewrite fmap_insert. apply insert_id.
  rewrite lookup_fmap, El. cbn. f_equal. by destruct r.
Qed.

Lemma Clear_activity (at_ : time) (component code health : string) (s : AlarmStore) (w : World) :
  records_wf (records s) ->
  let k := mkKey component code in
  let '(s', w', ev) := ManagerClear at_ component code health s w in
  activity s' = fst (AlarmSpec.clear k (activity s)) /\ (is_Some ev <-> snd (AlarmSpec.clear k (activity s)) = true) /\
  forall e, ev = Some e -> ev_Status e = StatusCleared /\ PerceivedSeverity (ev_Alarm e) = SeverityCleared.
Proof.
  intros Hw. cbv zeta. unfold ManagerClear. pose proof (Clear_records at_ component code s w) as Hc. cbv zeta in Hc.
  destruct (Clear at_ component code s w) as [[s1 w1] out]. destruct Hc as [_ Hc]. unfold AlarmSpec.clear, activity at 1. rewrite activity_lookup.
  destruct (records s !! _) as [r|] eqn:El.
  - pose proof (wf_status r ltac:(by eapply Hw)) as Hst. rewrite Hst in Hc. cbn [fmap option_fmap option_map]. rewrite some_true.
    destruct (is_active r) eqn:Ea; cbn [negb] in Hc; destruct Hc as [-> ->].
    + cbn [fst snd]. split_and!; [by rewrite fmap_insert; unfold activity; destruct r|by eauto|].
      intros e [= <-]. by destruct r.
    + cbn [fst snd]. split_and!; [done|split; [by intros [? ?]|done]|done].
  - destruct Hc as [-> ->]. rewrite bool_decide_false by done. split_and!; [done|split; [by intros [? ?]|done]|done].
Qed.

Lemma ClearComponent_activity (at_ : time) (component health : string) (s : AlarmStore) (w : World) :
  records_wf (records s) ->
  let '(s', w', evs) := ManagerClearComponent at_ component health s w in
  activity s' = AlarmSpec.clear_component component (activity s) /\
  (forall code, activity s !! mkKey component code = Some true <-> code ∈ (fun e => Code (ev_Alarm e)) <$> evs) /\
  NoDup ((fun e => Code (ev_Alarm e)) <$> evs).
Proof.
  intros Hw. unfold ManagerClearComponent. pose proof (ClearComponent_records at_ component s w) as Hc. cbv zeta in Hc.
  destruct (ClearComponent at_ component s w) as [[s1 w1] out]. destruct Hc as (_ & Hs & ->).
  assert (Hcl : forall k r, records s !! k = Some r -> clears component (k, r) <-> k_Component k = component /\ is_active r = true).
  { intros k r Hl. apply Hw in Hl as [_ Hst]. pose proof (wf_status r Hst) as Hb. unfold clears. cbn. apply and_iff_compat_l.
    destruct (String.eqb_spec (r_Status r) StatusCleared), (is_active r); naive_solver. }
  set (cl := clear_record at_ <$> filter (clears component) (records s)) in *.
  assert (Hlk : forall k r, cl !! k = Some r -> r_Key r = k /\ k_Component k = component).
  { intros k r Hl. unfold cl in Hl. rewrite lookup_fmap in Hl. apply fmap_Some in Hl as (r0 & Hl & ->). apply map_lookup_filter_Some in Hl as [Hl Hc].
    pose proof (Hw k r0 Hl) as [Hk _]. split; [by destruct r0|]. by destruct Hc. }
  assert (Hcodes : (fun e => Code (ev_Alarm e)) <$> (record_event at_ component health <$> (map_to_list cl).*2) = k_Code <$> (map_to_list cl).*1).
  { rewrite <- !list_fmap_compose. apply list_fmap_ext. intros i [k r] Hi. cbn. apply list_elem_of_lookup_2, elem_of_map_to_list, Hlk in Hi as [-> _]. done. }
  rewrite Hcodes. split_and!.
  - apply map_eq. intros k. unfold AlarmSpec.clear_component. rewrite map_lookup_imap, !activity_lookup, Hs. unfold cl. rewrite cleared_union.
    destruct (records s !! k) as [r|] eqn:El; [|done]. cbn. specialize (Hcl k r El). f_equal. destruct (decide _) as [Hd|Hd].
    + apply Hcl in Hd as [-> ->]. rewrite string_eqb_refl. by destruct r.
    + destruct (is_active r) eqn:Ea; [|done]. destruct (String.eqb_spec (k_Component k) component) as [He|]; [|done]. destruct Hd. by apply Hcl.
  - intros code. rewrite activity_lookup. split.
    + destruct (records s !! _) as [r|] eqn:El; [|done]. intros [= Ha]. apply list_elem_of_fmap. exists (mkKey component code). split; [done|].
      apply list_elem_of_fmap. exists (mkKey component code, clear_record at_ r). split; [done|]. apply elem_of_map_to_list. unfold cl.
      rewrite lookup_fmap. apply fmap_Some. exists r. split; [|done]. apply map_lookup_filter_Some. split; [done|]. by apply (Hcl _ _ El).
    + intros (k & -> & ([k' r] & -> & Hin)%list_elem_of_fmap)%list_elem_of_fmap. apply elem_of_map_to_list in Hin. cbn.
      pose proof (Hlk _ _ Hin) as [_ Hc]. unfold cl in Hin. rewrite lookup_fmap in Hin. apply fmap_Some in Hin as (r0 & Hin & _).
      apply map_lookup_filter_Some in Hin as [Hl Hf]. apply (Hcl _ _ Hl) in Hf as [_ Ha]. destruct k' as [c' code']. cbn in *. subst c'.
      rewrite Hl. cbn. by rewrite Ha.
  - apply NoDup_fmap_2_strong; [|apply NoDup_fst_map_to_list].
    intros k1 k2 ([k1' r1] & -> & H1%elem_of_map_to_list)%list_elem_of_fmap ([k2' r2] & -> & H2%elem_of_map_to_list)%list_elem_of_fmap He.
    apply Hlk in H1 as [_ H1], H2 as [_ H2]. destruct k1', k2'. cbn in *. congruence.
Qed.

Lemma Active_activity (s : AlarmStore) (r : AlarmRecord) :
  records_wf (records s) -> r ∈ Active s <-> records s !! r_Key r = Some r /\ activity s !! r_Key r = Some true.
Proof.
  intros Hw. unfold Active. rewrite list_elem_of_In, filter_In, <- list_elem_of_In. rewrite activity_lookup. split.
  - intros [([k r'] & -> & Hin%elem_of_map_to_list)%list_elem_of_fmap Ha]. cbn in *. pose proof (Hw _ _ Hin) as [<- _]. rewrite Hin. split; [done|].
    cbn. by f_equal.
  - intros [Hl Ha]. rewrite Hl in Ha. injection Ha as Ha. split; [|done]. apply list_elem_of_fmap. exists (r_Key r, r). split; [done|]. by apply elem_of_map_to_list.
Qed.

End StoreLemmas.

(** ** Restart *)

Section Restart.
Context {GL : GoLib} {RC : RecordCodec}.

Lemma NewPersistentStore_spec (path : string) (w : World) :
  path <> "" -> snd (tick w) = None ->
  disk (fst (NewPersistentStore path w)) = disk w /\
  snd (NewPersistentStore path w) =
    match disk w !! path with
    | None => Ok (mkAlarmStore ∅ path None)
    | Some i => match decode_records (contents i) with
                | Ok recs => Ok (mkAlarmStore (foldl load_record ∅ recs) path None)
                | Err e => Err e
                end
    end.
Proof.
  intros Hp Ht. unfold NewPersistentStore. rewrite (proj2 (String.eqb_neq _ _) Hp). unfold load, ReadFile, syscall.
  assert (Hp' : persistence (NewStore <|persistence := path|>) = path) by done. rewrite Hp'. clear Hp'.
  pose proof (tick_disk w) as Hd. destruct (tick w) as [w1 f]. cbn in Ht, Hd. subst f. rewrite Hd.
  destruct (disk w !! path) as [i|]; [|done]. destruct (decode_records (contents i)); by destruct w1.
Qed.

(** Loading gives a store with its records under their keys, which the file gives back. *)
Lemma load_persisted (path : string) (w w' : World) (s : AlarmStore) :
  path <> "" -> snd (tick w) = None -> NewPersistentStore path w = (w', Ok s) ->
  persisted s w' /\ filed (fun _ => True) (records s) /\ keys_ok (records s) /\ persistence s = path /\ lastPersistErr s = None.
Proof.
  intros Hp Ht Hn. destruct (NewPersistentStore_spec path w Hp Ht) as [Hd Hs]. rewrite Hn in Hd, Hs. cbn [fst snd] in *.
  unfold persisted, recoverable. rewrite Hd. destruct (disk w !! path) as [i|] eqn:Ei.
  - destruct (decode_records (contents i)) as [recs|e] eqn:Ed; [|done]. injection Hs as ->. cbn. rewrite Ei.
    split_and!; [by eauto|apply load_filed; [by apply Forall_forall|done]|by apply loaded_ok|done..].
  - injection Hs as ->. cbn. by rewrite Ei.
Qed.

Lemma run_persisted (ops : list alarm_op) (s : AlarmStore) (w : World) :
  Forall op_named ops -> persisted s w -> keys_ok (records s) ->
  let '(s', w') := alarm_run ops (s, w) in persisted s' w' /\ keys_ok (records s').
Proof.
  intros Hn. revert s w. induction Hn as [|op ops Ho _ IH]; intros s w Hp Hk; [done|].
  change (alarm_run (op :: ops) (s, w)) with (alarm_run ops (alarm_step op (s, w))).
  pose proof (step_persisted op s w Hp) as H1. pose proof (step_keys_ok op s w Ho Hk) as H2. destruct (alarm_step op (s, w)). by apply IH.
Qed.

Lemma recoverable_load (s : AlarmStore) (w : World) :
  persistence s <> "" -> lastPersistErr s = None -> snd (tick w) = None -> recoverable s w ->
  filed (fun _ => True) (records s) -> keys_ok (records s) -> Forall (fun r => record_text_ok r = true) (Snapshot s) ->
  snd (NewPersistentStore (persistence s) w) = Ok s.
Proof.
  intros Hp He Ht Hr Hf Hk Hx. destruct (NewPersistentStore_spec (persistence s) w Hp Ht) as [_ ->]. unfold recoverable in Hr.
  destruct s as [m path err]. cbn in *. subst err. destruct (disk w !! path) as [i|]; [|by subst m].
  destruct Hr as [(recs & -> & Hl)|Henc]; [by rewrite Hl|]. rewrite (decode_encode_records _ _ Hx Henc). do 2 f_equal.
  by apply load_records_back.
Qed.

End Restart.

(** ** Theorems *)

Section Theorems.
Context {GL : GoLib} {RC : RecordCodec}.

(** C31: the alarm store implements the abstract map of active alarms. On a store whose records are
    filed under their keys and are active or cleared: raising makes the alarm's normalized code
    active, and is news exactly when it was not active or one of its texts differs from the record;
    touching changes no activity; clearing an alarm reports an event exactly when it was active, and
    makes it cleared; clearing a component clears all its alarms and no other, with one event for each
    code that was active; and the active list holds exactly the records that are active. *)
Theorem alarm_store_refines_spec (at_ : time) (component code health : string) (alarm : Alarm) (s : AlarmStore) (w : World) :
  records_wf (records s) ->
  (let a := Normalize component (ManagedObjectInstance alarm) alarm in
   let k := mkKey component (Code a) in
   let '(s', w', (ev, changed)) := Raise at_ component health alarm s w in
   activity s' = fst (AlarmSpec.raise k (activity s)) /\
   changed = snd (AlarmSpec.raise k (activity s)) || match records s !! k with Some r => content_news a r | None => false end /\
   ev_Status ev = StatusActive) /\
  activity (fst (ManagerTouch at_ component code s w)) = activity s /\
  (let '(s', w', ev) := ManagerClear at_ component code health s w in
   activity s' = fst (AlarmSpec.clear (mkKey component code) (activity s)) /\
   (is_Some ev <-> snd (AlarmSpec.clear (mkKey component code) (activity s)) = true) /\
   forall e, ev = Some e -> ev_Status e = StatusCleared /\ PerceivedSeverity (ev_Alarm e) = SeverityCleared) /\
  (let '(s', w', evs) := ManagerClearComponent at_ component health s w in
   activity s' = AlarmSpec.clear_component component (activity s) /\
   (forall code, activity s !! mkKey component code = Some true <-> code ∈ (fun e => Code (ev_Alarm e)) <$> evs) /\
   NoDup ((fun e => Code (ev_Alarm e)) <$> evs)) /\
  forall r, r ∈ Active s <-> records s !! r_Key r = Some r /\ activity s !! r_Key r = Some true.
Proof.
  intros Hw. split_and!; [by apply Raise_activity|apply Touch_activity|by apply Clear_activity|by apply ClearComponent_activity|].
  intros r. by apply Active_activity.
Qed.

(** Raising the same alarm again is silent. Whatever the store held, an alarm that was raised and
    is raised a second time is no news: its record keeps all its texts, its status and its first
    sighting, only its last sighting and its count (modulo 2^64) move, and no other record changes. *)
Theorem repeated_raise_is_silent (at1 at2 : time) (component h1 h2 : string) (alarm : Alarm) (s : AlarmStore) (w : World) :
  records_wf (records s) ->
  let k := mkKey component (Code (Normalize component (ManagedObjectInstance alarm) alarm)) in
  let '(s1, w1, _) := Raise at1 component h1 alarm s w in
  let '(s2, w2, (_, changed)) := Raise at2 component h2 alarm s1 w1 in
  changed = false /\
  exists r, records s1 !! k = Some r /\
            records s2 = <[k := r <|r_LastSeen := at2|> <|r_Count ::= fun c => uint64_add c 1|>]> (records s1).
Proof.
  intros Hw. cbv zeta. unfold Raise. cbv zeta. set (a := Normalize _ _ _). set (k := mkKey component (Code a)).
  pose proof (Upsert_records at1 component a s w) as H1. cbv zeta in H1. destruct (Upsert at1 component a s w) as [[s1 w1] [r1 c1]].
  destruct H1 as (Hr1 & Hs1 & _). fold k in Hr1, Hs1.
  pose proof (Upsert_records at2 component a s1 w1) as H2. cbv zeta in H2. destruct (Upsert at2 component a s1 w1) as [[s2 w2] [r2 c2]].
  destruct H2 as (Hr2 & Hs2 & _). fold k in Hr2, Hs2.
  assert (Hl : records s1 !! k = Some r1) by (rewrite Hs1; apply lookup_insert_eq). rewrite Hl in Hr2.
  assert (Hst : r_Status r1 = StatusActive).
  { pose proof (upsert_record_key at1 k a (records s !! k)) as Hk. rewrite Hr1 in Hk. destruct Hk as [_ Hk]; [|done].
    intros r Hr. by apply Hw in Hr as [? _]. }
  assert (Hnews : content_news a r1 = false /\ fst (update_record a r1 false) = r1).
  { pose proof (upsert_settled at1 k a (records s !! k)) as Hset. by rewrite Hr1 in Hset. }
  destruct Hnews as [Hn Hu]. destruct (update_record_spec a r1 false) as [Hc _]. rewrite Hn in Hc. unfold upsert_record in Hr2. rewrite Hst in Hr2.
  cbn [negb] in Hr2. change (String.eqb StatusActive StatusActive) with true in Hr2. cbn [negb] in Hr2.
  destruct (update_record a r1 false) as [r c]. cbn in Hc, Hu. subst r c. injection Hr2 as <- <-. split; [done|]. by exists r1.
Qed.

(** C33: alarms survive a restart. Start from a store opened on a file, apply any sequence of raises,
    touches and clears under any schedule of I/O faults: if the last write was reported good, no texts
    hold ill-formed UTF-8 and the file can be read, opening it again gives the same store. Alarms with
    an empty component name are left out, since loading drops them. *)
Theorem alarm_store_survives_restart (path : string) (w0 w1 : World) (s0 : AlarmStore) (ops : list alarm_op) :
  path <> "" -> snd (tick w0) = None -> NewPersistentStore path w0 = (w1, Ok s0) -> Forall op_named ops ->
  let '(s, w) := alarm_run ops (s0, w1) in
  lastPersistErr s = None -> Forall (fun r => record_text_ok r = true) (Snapshot s) -> snd (tick w) = None ->
  snd (NewPersistentStore path w) = Ok s.
Proof.
  intros Hp Ht Hn Ho. destruct (load_persisted path w0 w1 s0 Hp Ht Hn) as (H1 & Hf & Hk & Hpath & He).
  pose proof (run_persisted ops s0 w1 Ho H1 Hk) as Hr. destruct (run_filed (fun _ => True) ops s0 w1 I I Hf) as [Hf' Hp'].
  destruct (alarm_run ops (s0, w1)) as [s w]. destruct Hr as [Hr Hk']. cbn [fst] in *. rewrite Hpath in Hp'. intros He' Hx Ht'. rewrite <- Hp' in *.
  apply recoverable_load; auto.
Qed.

End Theorems.

(** ** Witnesses *)

(** A codec for the witnesses: the records as one number, in binary. *)
Module BitCodec.

Fixpoint to_bits (p : positive) : bytes :=
  match p with xI p => "1"%char :: to_bits p | xO p => "0"%char :: to_bits p | xH => [] end.
Fixpoint of_bits (l : bytes) : positive :=
  match l with c :: r => if Ascii.eqb c "1" then xI (of_bits r) else xO (of_bits r) | [] => xH end.

Lemma of_to_bits (p : positive) : of_bits (to_bits p) = p.
Proof.
  induction p as [p IH|p IH|]; [| |done]; cbn [to_bits of_bits].
  - change (Ascii.eqb "1" "1") with true. congruence.
  - change (Ascii.eqb "0" "1") with false. congruence.
Qed.

Definition to_lists (r : AlarmRecord) : list string * list Z :=
  ([k_Component (r_Key r); k_Code (r_Key r); r_AlarmID r; r_ManagedObjectInstance r; r_EventType r; r_ProbableCause r;
    r_PerceivedSeverity r; r_SpecificProblem r; r_Message r; r_Severity r; r_Status r], [r_FirstSeen r; r_LastSeen r; r_Count r]).

Definition of_lists (p : list string * list Z) : option AlarmRecord :=
  match p with
  | ([c; code; id; moi; et; pc; ps; sp; msg; sev; st], [first; last; n]) =>
      Some (mkRecord (mkKey c code) id moi et pc ps sp msg sev st first last n)
  | _ => None
  end.

Lemma of_to_lists (l : list AlarmRecord) : mapM of_lists (to_lists <$> l) = Some l.
Proof. induction l as [|[[] ] l IH]; [done|]. cbn in *. by rewrite IH. Qed.

Definition decode_bits (d : bytes) : result string (list AlarmRecord) :=
  match decode (of_bits d) ≫= mapM of_lists with Some l => Ok l | None => Err "corrupt" end.

Lemma decode_encode_bits (l : list AlarmRecord) : decode_bits (to_bits (encode (to_lists <$> l))) = Ok l.
Proof. unfold decode_bits. rewrite of_to_bits, decode_encode. cbn. by rewrite of_to_lists. Qed.

Definition bit_codec : RecordCodec.
Proof.
  refine {| encode_records := fun l => Ok (to_bits (encode (to_lists <$> l))); decode_records := decode_bits |}.
  intros l data _ [= <-]. apply decode_encode_bits.
Defined.

End BitCodec.

Definition sample_alarm : Alarm := mkAlarm "NETWORK" "link lost" "critical" "" "enb1" "" "" "" "".
Definition sample_alarm_store : AlarmStore :=
  NewStore <|records := {[mkKey "enb" AlarmS1Down := mkRecord (mkKey "enb" AlarmS1Down) AlarmS1Down "enb1"
    EventTypeCommunicationsAlarm ProbableCauseCommunicationsFail SeverityCritical "x" "x" "critical" StatusCleared 1%Z 2%Z 3%Z]}|>.

Lemma sample_alarm_store_wf : records_wf (records sample_alarm_store).
Proof. intros k r Hl. cbn in Hl. apply lookup_singleton_Some in Hl as [<- <-]. split; [done|by right]. Qed.

Lemma alarm_store_refines_spec_witness :
  let '(s', _, (_, changed)) := Raise (GL := ascii_golib) (RC := BitCodec.bit_codec) 5%Z "enb" "h" sample_alarm sample_alarm_store (mkWorld ∅ []) in
  activity s' !! mkKey "enb" AlarmS1Down = Some true /\ changed = true.
Proof.
  pose proof (alarm_store_refines_spec (GL := ascii_golib) (RC := BitCodec.bit_codec) 5%Z "enb" AlarmS1Down "h" sample_alarm sample_alarm_store
                (mkWorld ∅ []) sample_alarm_store_wf) as [H _].
  cbv zeta in H. destruct (Raise _ _ _ _ _ _) as [[s' w'] [ev ch]]. destruct H as (-> & -> & _). split; vm_compute; reflexivity.
Defined.

Lemma repeated_raise_is_silent_witness :
  let '(s1, w1, _) := Raise (GL := ascii_golib) (RC := BitCodec.bit_codec) 5%Z "enb" "h" sample_alarm sample_alarm_store (mkWorld ∅ []) in
  let '(s2, _, (_, changed)) := Raise (GL := ascii_golib) (RC := BitCodec.bit_codec) 6%Z "enb" "h" sample_alarm s1 w1 in
  changed = false.
Proof.
  pose proof (repeated_raise_is_silent (GL := ascii_golib) (RC := BitCodec.bit_codec) 5%Z 6%Z "enb" "h" "h" sample_alarm sample_alarm_store
                (mkWorld ∅ []) sample_alarm_store_wf) as H.
  cbv zeta in H. destruct (Raise 5%Z _ _ _ _ _) as [[s1 w1] [ev1 c1]]. destruct (Raise 6%Z _ _ _ _ _) as [[s2 w2] [ev2 c2]]. by destruct H.
Defined.

Definition sample_ops : list alarm_op := [ARaise 5%Z "enb" "h" sample_alarm; ATouch 6%Z "enb" AlarmS1Down; AClear 7%Z "enb" AlarmS1Down "h"].

(** The first write fails, the later ones succeed. *)
Lemma alarm_store_survives_restart_witness :
  let w0 := mkWorld ∅ [None; None; Some (EIO, 0)] in
  let w1 := mkWorld ∅ [None; Some (EIO, 0)] in
  let s0 := mkAlarmStore ∅ "/var/aal" None in
  let '(s, w) := alarm_run (GL := ascii_golib) (RC := BitCodec.bit_codec) sample_ops (s0, w1) in
  snd (NewPersistentStore (RC := BitCodec.bit_codec) "/var/aal" w) = Ok s.
Proof.
  pose proof (alarm_store_survives_restart (GL := ascii_golib) (RC := BitCodec.bit_codec) "/var/aal" (mkWorld ∅ [None; None; Some (EIO, 0)])
    (mkWorld ∅ [None; Some (EIO, 0)]) (mkAlarmStore ∅ "/var/aal" None) sample_ops) as H.
  cbv zeta. specialize (H ltac:(done) ltac:(reflexivity) ltac:(vm_compute; reflexivity) ltac:(repeat constructor; discriminate)).
  assert (He : lastPersistErr (fst (alarm_run (GL := ascii_golib) (RC := BitCodec.bit_codec) sample_ops
            (mkAlarmStore ∅ "/var/aal" None, mkWorld ∅ [None; Some (EIO, 0)]))) = None) by (vm_compute; reflexivity).
  assert (Hx : forallb record_text_ok (Snapshot (fst (alarm_run (GL := ascii_golib) (RC := BitCodec.bit_codec) sample_ops
            (mkAlarmStore ∅ "/var/aal" None, mkWorld ∅ [None; Some (EIO, 0)])))) = true) by (vm_compute; reflexivity).
  assert (Ht : snd (tick (snd (alarm_run (GL := ascii_golib) (RC := BitCodec.bit_codec) sample_ops
            (mkAlarmStore ∅ "/var/aal" None, mkWorld ∅ [None; Some (EIO, 0)])))) = None) by (vm_compute; reflexivity).
  destruct (alarm_run _ _) as [s w]. apply H; [exact He| |exact Ht]. apply Forall_forall. intros r Hr.
  by apply (proj1 (forallb_forall _ _) Hx), list_elem_of_In.
Defined.

(** ** Finding *)

(** Clearing a component leaves the legacy severity of its alarms as it was; clearing one alarm sets it
    to cleared. *)
Lemma clear_component_keeps_severity :
  let k := mkKey "srsenb" "S1_DOWN" in
  let s := mkAlarmStore {[k := mkRecord k "" "" "" "" "" "" "" "major" StatusActive 1%Z 1%Z 1]} "" None in
  let clear_all := ClearComponent (RC := BitCodec.bit_codec) 5%Z "srsenb" s (mkWorld ∅ []) in
  let clear_one := Clear (RC := BitCodec.bit_codec) 5%Z "srsenb" "S1_DOWN" s (mkWorld ∅ []) in
  map r_Severity (snd clear_all) = ["major"] /\ r_Severity <$> snd clear_one = Some "cleared".
Proof. vm_compute. split; reflexivity. Qed.
