(* ===== verification/Notifications.v ===== *)
(** * The notification queue (internal/ems/fcaps/alarms/notifications.go)

    Alarm events become JSON notifications in a bounded queue that the NETCONF server drains; an
    append to a full queue drops the oldest. The clock is an argument: [now] is what time.Now() gives
    where the code calls it. *)
From stdpp Require Import sorting.
From S2P Require Import Prelude GoNum GoStrings Json FileSystem Alarms.

Definition DefaultNotificationQueueCapacity : Z := 1024.

Record Notification := mkNotification { n_ID : Z; n_EventTime : time; n_Payload : string }.

Record NotificationQueue := mkQueue { nextID : Z; cap : Z; messages : list Notification }.

Definition NewNotificationQueue (capacity : Z) : NotificationQueue :=
  mkQueue 0 (if (capacity <=? 0)%Z then DefaultNotificationQueueCapacity else capacity) [].

Definition Append (now : time) (msg : Notification) (q : NotificationQueue) : NotificationQueue :=
  if String.eqb (n_Payload msg) "" then q
  else
    let msg := if time_is_zero (n_EventTime msg) then msg <|n_EventTime := now|> else msg in
    let id := uint64_add (nextID q) 1 in
    let all := messages q ++ [msg <|n_ID := id|>] in
    let all := if (cap q <? Z.of_nat (length all))%Z then drop (length all - Z.to_nat (cap q)) all else all in
    mkQueue id (cap q) all.

(** The members of a Go map in the order json.Marshal writes them. *)
Definition notification_payload (at_ : time) (status : string) (evt : Event) : json :=
  JObj [("ems-fault-management:alarm-notification",
    JObj [("alarm_id", JStr (AlarmID (ev_Alarm evt)));
          ("alarm_status", JStr status);
          ("component", JStr (ev_Component evt));
          ("event_time", JStr (FormatRFC3339 at_));
          ("event_type", JStr (EventType (ev_Alarm evt)));
          ("managed_object_instance", JStr (ManagedObjectInstance (ev_Alarm evt)));
          ("occurrence_count", JStr (unstr (format_int (ev_Count evt))));
          ("perceived_severity", JStr (PerceivedSeverity (ev_Alarm evt)));
          ("probable_cause", JStr (ProbableCause (ev_Alarm evt)));
          ("specific_problem", JStr (SpecificProblem (ev_Alarm evt)))])].

(** json.Marshal of strings cannot fail, so neither can this. *)
Definition AppendAlarmEvent (now : time) (evt : Event) (q : NotificationQueue) : NotificationQueue :=
  let at_ := if time_is_zero (ev_At evt) then now else ev_At evt in
  let status := if String.eqb (ev_Status evt) "" then StatusActive else ev_Status evt in
  Append now (mkNotification 0 at_ (unstr (Marshal (notification_payload at_ status evt)))) q.

Definition Drain (max : Z) (q : NotificationQueue) : NotificationQueue * list Notification :=
  let max := if (max <=? 0)%Z then 100%Z else max in
  match messages q with
  | [] => (q, [])
  | all => let n := Z.to_nat (Z.min max (Z.of_nat (length all))) in
           (q <|messages := drop n all|>, take n all)
  end.

Definition Len (q : NotificationQueue) : Z := Z.of_nat (length (messages q)).

(** ** Runs *)

Inductive queue_op :=
| QAppend (now at_ : time) (payload : string)
| QEvent (now : time) (evt : Event)
| QDrain (max : Z).

(** What an operation enqueues. *)
Definition enqueued (op : queue_op) : list (time * string) :=
  match op with
  | QAppend now at_ payload =>
      if String.eqb payload "" then [] else [(if time_is_zero at_ then now else at_, payload)]
  | QEvent now evt =>
      let at_ := if time_is_zero (ev_At evt) then now else ev_At evt in
      let status := if String.eqb (ev_Status evt) "" then StatusActive else ev_Status evt in
      [(if time_is_zero at_ then now else at_, unstr (Marshal (notification_payload at_ status evt)))]
  | QDrain _ => []
  end.

(** The queue, with everything drained from it so far. *)
Definition queue_step (op : queue_op) (qo : NotificationQueue * list Notification) : NotificationQueue * list Notification :=
  let '(q, out) := qo in
  match op with
  | QAppend now at_ payload => (Append now (mkNotification 0 at_ payload) q, out)
  | QEvent now evt => (AppendAlarmEvent now evt q, out)
  | QDrain max => let '(q, l) := Drain max q in (q, out ++ l)
  end.

Definition queue_run (ops : list queue_op) (qo : NotificationQueue * list Notification) : NotificationQueue * list Notification :=
  foldl (flip queue_step) qo ops.

(** ** Lemmas *)

(** What was enqueued so far is [h]: the message with id i is its i-th entry, the pending ones are the
    last of [h], and the delivered ones came before them. *)
Record queue_inv (h : list (time * string)) (q : NotificationQueue) (out : list Notification) : Prop := {
  inv_cap : (0 < cap q)%Z;
  inv_len : (Z.of_nat (length (messages q)) <= cap q)%Z;
  inv_next : nextID q = Z.of_nat (length h);
  inv_pending : (fun m => (n_EventTime m, n_Payload m)) <$> messages q = drop (length h - length (messages q)) h;
  inv_fits : length (messages q) <= length h;
  inv_ids : n_ID <$> messages q = (fun i => Z.of_nat i + 1)%Z <$> seq (length h - length (messages q)) (length (messages q));
  inv_out_sorted : StronglySorted Z.lt (n_ID <$> out);
  inv_out : Forall (fun m => (0 < n_ID m <= Z.of_nat (length h - length (messages q)))%Z /\
                             h !! Z.to_nat (n_ID m - 1) = Some (n_EventTime m, n_Payload m)) out
}.

Lemma marshal_object (l : list (string * json)) : unstr (Marshal (JObj l)) <> "".
Proof. done. Qed.

Lemma drop_seq (k n m : nat) : drop k (seq n m) = seq (n + k) (m - k).
Proof.
  revert n m. induction k as [|k IH]; intros n m; [by rewrite Nat.add_0_r, Nat.sub_0_r|].
  destruct m as [|m]; [done|]. cbn. rewrite IH. f_equal; lia.
Qed.

Lemma take_seq (k n m : nat) : take k (seq n m) = seq n (k `min` m).
Proof.
  revert n m. induction k as [|k IH]; intros n m; [done|]. destruct m as [|m]; [done|]. cbn. by rewrite IH.
Qed.

Lemma ids_sorted (n m : nat) : StronglySorted Z.lt ((fun i => Z.of_nat i + 1)%Z <$> seq n m).
Proof.
  revert n. induction m as [|m IH]; intros n; cbn; [constructor|]. constructor; [apply IH|].
  apply Forall_fmap, Forall_seq. intros j Hj. cbn. lia.
Qed.

Lemma Append_inv (h : list (time * string)) (q : NotificationQueue) (out : list Notification) (now : time) (id : Z) (at_ : time) (payload : string) :
  payload <> "" -> (Z.of_nat (length h) + 1 < 2 ^ 64)%Z -> queue_inv h q out ->
  queue_inv (h ++ [(if time_is_zero at_ then now else at_, payload)]) (Append now (mkNotification id at_ payload) q) out.
Proof.
  intros Hp Hb [Hc Hl Hn Hpend Hfit Hids Hs Ho]. unfold Append. cbn [n_Payload]. rewrite (proj2 (String.eqb_neq _ _) Hp). cbv zeta.
  set (m := _ <|n_ID := _|>). destruct q as [nid cp msgs]. cbn [nextID cap messages] in *.
  assert (Hid : uint64_add nid 1 = (Z.of_nat (length h) + 1)%Z) by (unfold uint64_add, wrap_unsigned; rewrite Hn, Z.mod_small; lia).
  assert (Hm : (n_EventTime m, n_Payload m) = (if time_is_zero at_ then now else at_, payload) /\ n_ID m = (Z.of_nat (length h) + 1)%Z).
  { unfold m. rewrite Hid. destruct (time_is_zero at_) eqn:E; cbn; by rewrite E. }
  destruct Hm as [Hm Hmid]. set (h' := h ++ _). assert (Hh : length h' = length h + 1) by (unfold h'; by rewrite length_app).
  set (k := if (cp <? Z.of_nat (length (msgs ++ [m])))%Z then length (msgs ++ [m]) - Z.to_nat cp else 0).
  assert (Hall : (if (cp <? Z.of_nat (length (msgs ++ [m])))%Z then drop (length (msgs ++ [m]) - Z.to_nat cp) (msgs ++ [m]) else msgs ++ [m])
                 = drop k (msgs ++ [m])) by (unfold k; by destruct (_ <? _)%Z). rewrite Hall.
  assert (Hk : k <= length msgs /\ (Z.of_nat (length msgs + 1 - k) <= cp)%Z).
  { unfold k. rewrite length_app. cbn [length]. destruct (Z.ltb_spec cp (Z.of_nat (length msgs + 1))); lia. }
  destruct Hk as [Hk Hk']. constructor; cbn [cap nextID messages]; rewrite ?length_drop, ?length_app, ?Hh; cbn [length]; try lia.
  - rewrite fmap_drop, fmap_app, Hpend. cbn. rewrite Hm. unfold h'. rewrite drop_app_le by (rewrite length_drop; lia).
    rewrite drop_drop. rewrite (drop_app_le h) by lia. do 2 f_equal. lia.
  - rewrite fmap_drop, fmap_app, Hids. cbn. rewrite Hmid.
    replace [(Z.of_nat (length h) + 1)%Z] with ((fun i => Z.of_nat i + 1)%Z <$> seq (length h - length msgs + length msgs) 1)
      by (cbn; repeat f_equal; lia).
    rewrite <- fmap_app, <- seq_app, <- fmap_drop, drop_seq. do 2 f_equal; lia.
  - done.
  - eapply Forall_impl; [exact Ho|]. intros x [[H1 H2] H3]. split; [lia|]. unfold h'. by apply lookup_app_l_Some.
Qed.

Lemma Drain_inv (h : list (time * string)) (q : NotificationQueue) (out : list Notification) (max : Z) :
  queue_inv h q out -> queue_inv h (fst (Drain max q)) (out ++ snd (Drain max q)).
Proof.
  intros [Hc Hl Hn Hpend Hfit Hids Hs Ho]. unfold Drain. cbv zeta. destruct q as [nid cp msgs]. cbn [nextID cap messages] in *.
  assert (Hgen : forall n, n <= length msgs -> queue_inv h (mkQueue nid cp (drop n msgs)) (out ++ take n msgs)).
  { intros n Hle. assert (Hlk : forall i m, take n msgs !! i = Some m -> n_ID m = (Z.of_nat (length h - length msgs + i) + 1)%Z /\
                     i < n /\ h !! (length h - length msgs + i) = Some (n_EventTime m, n_Payload m)).
    { intros i m Hi. apply lookup_take_Some in Hi as [Hi Hin]. pose proof (f_equal (fun l => l !! i) Hids) as H1.
      pose proof (f_equal (fun l => l !! i) Hpend) as H2. cbn in H1, H2. rewrite !list_lookup_fmap, Hi in H1. rewrite list_lookup_fmap, Hi, lookup_drop in H2.
      pose proof (lookup_lt_Some _ _ _ Hi) as Hlt. rewrite lookup_seq_lt in H1 by done. cbn in H1, H2. injection H1 as H1. split_and!; [lia|lia|done]. }
    constructor; cbn [cap nextID messages]; rewrite ?length_drop; try done; try lia.
    - rewrite fmap_drop, Hpend, drop_drop. f_equal. lia.
    - rewrite fmap_drop, Hids, <- fmap_drop, drop_seq. do 2 f_equal; lia.
    - rewrite fmap_app. apply StronglySorted_app_2; [|done|by rewrite fmap_take, Hids, <- fmap_take, take_seq; apply ids_sorted].
      intros x1 x2 (m1 & -> & H1)%list_elem_of_fmap (m2 & -> & [i Hi]%list_elem_of_lookup_1)%list_elem_of_fmap.
      rewrite Forall_forall in Ho. destruct (Ho m1 H1) as [[_ Hle1] _]. destruct (Hlk i m2 Hi) as [-> _]. lia.
    - apply Forall_app. split.
      + eapply Forall_impl; [exact Ho|]. intros x [[H1 H2] H3]. split; [lia|done].
      + apply Forall_lookup. intros i m Hi. destruct (Hlk i m Hi) as (Hm & Hlt & Hh). rewrite Hm. split; [lia|].
        rewrite <- Hh. f_equal. lia. }
  destruct msgs as [|m msgs]; [by apply (Hgen 0); cbn; lia|]. apply Hgen. lia.
Qed.

Lemma step_queue_inv (op : queue_op) (h : list (time * string)) (q : NotificationQueue) (out : list Notification) :
  (Z.of_nat (length h) + 1 < 2 ^ 64)%Z -> queue_inv h q out ->
  queue_inv (h ++ enqueued op) (fst (queue_step op (q, out))) (snd (queue_step op (q, out))).
Proof.
  intros Hb Hi. destruct op as [now at_ payload|now evt|max]; cbn [queue_step enqueued].
  - cbn [fst snd]. destruct (String.eqb_spec payload "") as [->|Hne]; [by rewrite app_nil_r|]. by apply Append_inv.
  - cbv zeta. cbn [fst snd]. unfold AppendAlarmEvent. by apply Append_inv.
  - rewrite app_nil_r. pose proof (Drain_inv h q out max Hi) as Hd. by destruct (Drain max q).
Qed.

Lemma length_enqueued (op : queue_op) : length (enqueued op) <= 1.
Proof. destruct op as [now at_ payload|now evt|max]; cbn; [destruct (String.eqb _ _)|..]; cbn; lia. Qed.

Lemma run_queue_inv (ops : list queue_op) (h : list (time * string)) (q : NotificationQueue) (out : list Notification) :
  (Z.of_nat (length h + length ops) < 2 ^ 64)%Z -> queue_inv h q out ->
  let '(q', out') := queue_run ops (q, out) in queue_inv (h ++ (ops ≫= enqueued)) q' out'.
Proof.
  revert h q out. induction ops as [|op ops IH]; intros h q out Hb Hi; [by rewrite app_nil_r|].
  change (queue_run (op :: ops) (q, out)) with (queue_run ops (queue_step op (q, out))). rewrite bind_cons, app_assoc. cbn [length] in Hb.
  pose proof (step_queue_inv op h q out ltac:(lia) Hi) as Hs. pose proof (length_enqueued op) as Hl. destruct (queue_step op (q, out)) as [q1 o1].
  apply IH; [rewrite length_app; lia|done].
Qed.

Lemma new_queue_inv (capacity : Z) : queue_inv [] (NewNotificationQueue capacity) [].
Proof.
  assert (0 < if (capacity <=? 0)%Z then DefaultNotificationQueueCapacity else capacity)%Z.
  { destruct (capacity <=? 0)%Z eqn:E; b2p; [reflexivity|lia]. }
  constructor; cbn; try done; try lia; constructor.
Qed.

(** ** Theorems *)


