(* ===== verification/Errors.v ===== *)
(** * Typed errors (internal/errors)

    A Go error is here one of three shapes: a plain one with a text, one that fmt.Errorf wraps around
    another, or the package's own [Error]. Call stacks are left out: nothing but StackString reads them. *)
From S2P Require Import Prelude GoNum GoStrings Json FileSystem Alarms.

Definition ErrCode : Type := string.
Definition ErrCodeInternal : ErrCode := "INTERNAL".
Definition ErrCodeNetwork : ErrCode := "NETWORK".
Definition ErrCodeDataCorrupt : ErrCode := "DATA_CORRUPT".
Definition ErrCodeConfig : ErrCode := "CONFIG".
Definition ErrCodeIO : ErrCode := "IO".
Definition ErrCodeProcess : ErrCode := "PROCESS".

Definition ErrSeverity : Type := string.
Definition SeverityUnknown : ErrSeverity := "unknown".
Definition SeverityInfo : ErrSeverity := "info".
Definition ErrSeverityWarning : ErrSeverity := "warning".
Definition ErrSeverityMinor : ErrSeverity := "minor".
Definition ErrSeverityMajor : ErrSeverity := "major".
Definition ErrSeverityCritical : ErrSeverity := "critical".

Definition severityRank (s : ErrSeverity) : Z :=
  if String.eqb s SeverityInfo then 1
  else if String.eqb s ErrSeverityWarning then 2
  else if String.eqb s ErrSeverityMinor then 3
  else if String.eqb s ErrSeverityMajor then 4
  else if String.eqb s ErrSeverityCritical then 5
  else 0.

Definition AtLeast (s min : ErrSeverity) : bool := (severityRank min <=? severityRank s)%Z.

Inductive error :=
| Plain (text : string)
| Wrapped (text : string) (err : error)
| Typed (code : ErrCode) (sev : ErrSeverity) (op msg : string) (time_ : time) (err : option error).

(** The fields of the package's Error. *)
Record Error := mkError {
  e_Code : ErrCode;
  e_Severity : ErrSeverity;
  e_Op : string;
  e_Msg : string;
  e_Err : option error;
  e_Time : time
}.

Fixpoint Error_ (e : error) : string :=
  match e with
  | Plain text => text
  | Wrapped text _ => text
  | Typed code _ op msg _ err =>
      (if String.eqb op "" then "" else op +:+ ": ") +:+
      (if String.eqb code "" then "" else code +:+ ": ") +:+
      msg +:+
      match err with
      | None => ""
      | Some err => (if String.eqb msg "" then "" else ": ") +:+ Error_ err
      end
  end.

Definition Unwrap (e : error) : option error :=
  match e with
  | Plain _ => None
  | Wrapped _ err => Some err
  | Typed _ _ _ _ _ err => err
  end.

(** Options of New and Wrap. *)
Inductive Option_ := WithOp (op : string) | WithSeverity (s : ErrSeverity) | WithTime (t : time).

Definition apply_option (e : Error) (o : Option_) : Error :=
  match o with
  | WithOp op => e <|e_Op := op|>
  | WithSeverity s => e <|e_Severity := s|>
  | WithTime t => e <|e_Time := t|>
  end.

Definition of_Error (e : Error) : error := Typed (e_Code e) (e_Severity e) (e_Op e) (e_Msg e) (e_Time e) (e_Err e).

Definition New (now : time) (code : ErrCode) (msg : string) (opts : list Option_) : error :=
  of_Error (foldl apply_option (mkError code SeverityUnknown "" msg None now) opts).

Definition Wrap (now : time) (err : option error) (code : ErrCode) (msg : string) (opts : list Option_) : option error :=
  match err with
  | None => None
  | Some e => Some (of_Error (foldl apply_option (mkError code SeverityUnknown "" msg (Some e) now) opts))
  end.

(** The first Error of the chain. *)
Fixpoint As (e : error) : option Error :=
  match e with
  | Plain _ => None
  | Wrapped _ err => As err
  | Typed code sev op msg t err => Some (mkError code sev op msg err t)
  end.

Definition CodeOf (err : option error) : ErrCode :=
  match err ≫= As with Some e => e_Code e | None => "" end.

Definition SeverityOf (err : option error) : ErrSeverity :=
  match err ≫= As with
  | Some e => if negb (String.eqb (e_Severity e) "") then e_Severity e else SeverityUnknown
  | None => SeverityUnknown
  end.

(** Alarm of an error: a code, a message and a severity; the other texts are left empty. *)
Definition bare_alarm (code msg sev : string) : Alarms.Alarm := mkAlarm code msg sev "" "" "" "" "" "".

Definition ErrorAlarm (err : option error) : Alarms.Alarm :=
  match err with
  | None => bare_alarm "OK" "no error" SeverityInfo
  | Some err =>
      match As err with
      | Some e =>
          let msg := if String.eqb (e_Msg e) "" then "error" else e_Msg e in
          let msg := match e_Err e with Some inner => msg +:+ ": " +:+ Error_ inner | None => msg end in
          let sev := if String.eqb (e_Severity e) "" then SeverityUnknown else e_Severity e in
          bare_alarm ("EMS_" +:+ e_Code e) msg sev
      | None => bare_alarm "EMS_UNKNOWN" (Error_ err) SeverityUnknown
      end
  end.

(** ** Lemmas *)

Lemma severityRank_known (s : ErrSeverity) : (0 <= severityRank s <= 5)%Z.
Proof. unfold severityRank. split_cases; lia. Qed.

Lemma AtLeast_refl (s : ErrSeverity) : AtLeast s s = true.
Proof. apply Z.leb_refl. Qed.

Lemma AtLeast_trans (a b c : ErrSeverity) : AtLeast a b = true -> AtLeast b c = true -> AtLeast a c = true.
Proof. unfold AtLeast. intros. b2p. apply Z.leb_le. lia. Qed.

(** Wrapping puts its own code and severity in front of those of the cause. *)
Lemma Wrap_code (now : time) (err : error) (code : ErrCode) (msg : string) (opts : list Option_) :
  CodeOf (Wrap now (Some err) code msg opts) = code.
Proof.
  unfold CodeOf, Wrap. cbn. set (e := mkError _ _ _ _ _ _). assert (He : e_Code e = code) by done. clearbody e.
  revert e He. induction opts as [|o opts IH]; intros e He; cbn; [done|]. apply IH. by destruct o, e.
Qed.

(** An unclassified error never reaches the threshold of an alarm. *)
Lemma unknown_below_major (text : string) : AtLeast (SeverityOf (Some (Plain text))) ErrSeverityMajor = false.
Proof. reflexivity. Qed.
