(* ===== verification/Nrm.v ===== *)
(** * The network resource model (internal/ems/domain/nrm, internal/ems/domain/canonical)

    Distinguished names and the registry that gives each telemetry sample the managed object it
    belongs to. *)
From stdpp Require Import sorting.
From S2P Require Import Prelude GoNum GoStrings Json FileSystem Alarms Errors.

(** ** Canonical telemetry (canonical.go) *)

Definition MetricType : Type := string.
Definition Counter : MetricType := "COUNTER".
Definition Gauge : MetricType := "GAUGE".

Record Metric := mkMetric { m_Name : string; m_Type : MetricType; m_Value : float64; m_Unit : string }.

Record Sample := mkSample {
  s_Timestamp : Z;
  s_SourceID : string;
  s_Scope : string;
  s_Metrics : gmap string Metric;
  s_Attrs : gmap string string
}.

(** ** Distinguished names (dn.go) *)

Definition DN : Type := string.
Record RDN := mkRDN { rdn_Key : string; rdn_Value : string }.

Definition rdn_text (p : RDN) : bytes := str (rdn_Key p) ++ "="%char :: str (rdn_Value p).

(** The text of a DN: segments with a comma between. *)
Fixpoint dn_text (parts : list RDN) : bytes :=
  match parts with
  | [] => []
  | [p] => rdn_text p
  | p :: r => rdn_text p ++ ","%char :: dn_text r
  end.

Definition Build (parts : list RDN) : DN := unstr (dn_text parts).

Definition AppendDN (base : DN) (parts : list RDN) : DN :=
  if String.eqb base "" then Build parts
  else unstr (foldl (fun b p => b ++ ","%char :: rdn_text p) (str base) parts).

(** strings.Cut at the first byte c. *)
Fixpoint cut (c : ascii) (l : bytes) : option (bytes * bytes) :=
  match l with
  | [] => None
  | x :: r => if Ascii.eqb x c then Some ([], r) else (fun p => (x :: p.1, p.2)) <$> cut c r
  end.

Definition add_segment (out : gmap string string) (seg : bytes) : gmap string string :=
  match cut "=" seg with
  | None => out
  | Some (k, v) => <[unstr k := unstr v]> out
  end.

Definition KeyValues (dn : DN) : gmap string string :=
  if String.eqb dn "" then ∅ else foldl add_segment ∅ (split_on "," (str dn)).

(** Go's order on strings. *)
Definition string_le (a b : string) : Prop := String.leb a b = true.

#[export] Instance string_le_dec : RelDecision string_le.
Proof. intros a b. unfold string_le. apply _. Defined.

(** sort.Strings, and sort.Slice by DN. *)
Definition sorted_keys (m : gmap string string) : list string := merge_sort string_le (map_to_list m).*1.

Definition Canonicalize (dn : DN) : DN :=
  let m := KeyValues dn in
  Build ((fun k => mkRDN k (default "" (m !! k))) <$> sorted_keys m).

(** ** The registry (registry.go) *)

Definition MOType : Type := string.
Definition MOTypeSubNetwork : MOType := "SubNetwork".
Definition MOTypeManagedElement : MOType := "ManagedElement".
Definition MOTypeENBFunction : MOType := "ENBFunction".
Definition MOTypeGNBFunction : MOType := "GNBCUCPFunction".
Definition MOTypeEUtranCell : MOType := "EUtranCell".
Definition MOTypeNRCellDU : MOType := "NRCellDU".

Record Object := mkObject { o_Type : MOType; o_Name : string; o_DN : DN }.

Record Registry := mkRegistry {
  subNetwork : string;
  element : string;
  enbFnID : string;
  gnbFnID : string;
  elementType : string;
  objectsByDN : gmap DN Object;
  cellsByKey : gmap string Object
}.

Record NrmConfig := mkNrmConfig {
  SubNetwork : string;
  ManagedElement : string;
  ENBFunctionID : string;
  GNBFunctionID : string;
  ElementType : string
}.

(** The element is a gNB. *)
Definition is_gnb (r : Registry) : bool :=
  negb (String.eqb (gnbFnID r) "") || String.eqb (elementType r) "gnb" || String.eqb (elementType r) "oai-gnb".

Definition initStatic (r : Registry) : Registry :=
  let '(fnType, fnID) := if is_gnb r then (MOTypeGNBFunction, gnbFnID r) else (MOTypeENBFunction, enbFnID r) in
  let base := Build [mkRDN MOTypeSubNetwork (subNetwork r); mkRDN MOTypeManagedElement (element r); mkRDN fnType fnID] in
  r <|objectsByDN ::= <[base := mkObject fnType fnID base]>|>.

Definition NewRegistry (now : time) (cfg : NrmConfig) : result error Registry :=
  let missingFunctionID :=
    if String.eqb (ElementType cfg) "gnb" || String.eqb (ElementType cfg) "oai-gnb"
    then String.eqb (GNBFunctionID cfg) "" else String.eqb (ENBFunctionID cfg) "" in
  if String.eqb (SubNetwork cfg) "" || String.eqb (ManagedElement cfg) "" || missingFunctionID
  then Err (New now ErrCodeConfig "nrm config is incomplete" [WithOp "nrm"; WithSeverity ErrSeverityCritical])
  else Ok (initStatic (mkRegistry (SubNetwork cfg) (ManagedElement cfg) (ENBFunctionID cfg) (GNBFunctionID cfg) (ElementType cfg) ∅ ∅)).

Definition ENBDN (r : Registry) : DN :=
  Build [mkRDN MOTypeSubNetwork (subNetwork r); mkRDN MOTypeManagedElement (element r); mkRDN MOTypeENBFunction (enbFnID r)].

Definition NodeDN (r : Registry) : DN :=
  if is_gnb r
  then Build [mkRDN MOTypeSubNetwork (subNetwork r); mkRDN MOTypeManagedElement (element r); mkRDN MOTypeGNBFunction (gnbFnID r)]
  else ENBDN r.

(** The registry's own substring search. *)
Definition index (s sub : bytes) : option nat := index_of s sub.

Definition cellKeyFromSample (s : Sample) : string :=
  if String.eqb (s_Scope s) "" then ""
  else
    let scope := str (s_Scope s) in
    let scope := match index scope (str "/ue:") with Some i => take i scope | None => scope end in
    if has_prefix scope (str "cell:") then unstr scope else "".

Definition sanitize_byte (ch : ascii) : ascii :=
  if is_lower ch then ch
  else if is_upper ch then ascii_of_N (code ch + 32)
  else if is_digit ch then ch
  else if Ascii.eqb ch "-" || Ascii.eqb ch "_" || Ascii.eqb ch "." then ch
  else "-".

Definition sanitizeCellID (scopeKey : string) : string :=
  let id := trim_prefix (str scopeKey) (str "cell:") in
  match id with
  | [] => "1"
  | _ => unstr (sanitize_byte <$> id)
  end.

Definition ensureCell (key : string) (r : Registry) : Registry * DN :=
  match cellsByKey r !! key with
  | Some obj => (r, o_DN obj)
  | None =>
      let cellName := sanitizeCellID key in
      let cellType := if is_gnb r then MOTypeNRCellDU else MOTypeEUtranCell in
      let cellDN := AppendDN (NodeDN r) [mkRDN cellType cellName] in
      let obj := mkObject cellType cellName cellDN in
      (r <|cellsByKey ::= <[key := obj]>|> <|objectsByDN ::= <[cellDN := obj]>|>, cellDN)
  end.

Definition Resolve (now : time) (s : Sample) (r : Registry) : Registry * result error DN :=
  if String.eqb (s_Scope s) "node" then (r, Ok (NodeDN r))
  else if String.eqb (s_Scope s) ""
  then (r, Err (New now ErrCodeDataCorrupt "canonical sample scope is empty" [WithOp "nrm"; WithSeverity ErrSeverityMajor]))
  else
    let cellKey := cellKeyFromSample s in
    if String.eqb cellKey "" then (r, Ok (NodeDN r))
    else let '(r, dn) := ensureCell cellKey r in (r, Ok dn).

Definition Get (dn : DN) (r : Registry) : option Object := objectsByDN r !! dn.

Definition dn_le (a b : Object) : Prop := string_le (o_DN a) (o_DN b).

#[export] Instance dn_le_dec : RelDecision dn_le.
Proof. intros a b. unfold dn_le. apply _. Defined.

Definition EUtranCells (r : Registry) : list Object := merge_sort dn_le (map_to_list (cellsByKey r)).*2.

(** ** Lemmas: distinguished names *)

(** A key or value that does not look like DN syntax. *)
Definition dn_key_ok (s : string) : bool := forallb (fun c => negb (Ascii.eqb c ",") && negb (Ascii.eqb c "=")) (str s).
Definition dn_value_ok (s : string) : bool := forallb (fun c => negb (Ascii.eqb c ",")) (str s).
Definition rdn_ok (p : RDN) : bool := dn_key_ok (rdn_Key p) && dn_value_ok (rdn_Value p).

Lemma split_on_plain (c : ascii) (l : bytes) : forallb (fun x => negb (Ascii.eqb x c)) l = true -> split_on c l = [l].
Proof. induction l as [|x l IH]; cbn; [done|]. intros [Hx Hl]%andb_true_iff. apply negb_true_iff in Hx. by rewrite Hx, IH. Qed.

Lemma split_on_app (c : ascii) (a b : bytes) :
  forallb (fun x => negb (Ascii.eqb x c)) a = true -> split_on c (a ++ c :: b) = a :: split_on c b.
Proof.
  induction a as [|x a IH]; cbn; [by rewrite Ascii.eqb_refl|]. intros [Hx Ha]%andb_true_iff. apply negb_true_iff in Hx. by rewrite Hx, IH.
Qed.

Lemma cut_app (c : ascii) (a b : bytes) : forallb (fun x => negb (Ascii.eqb x c)) a = true -> cut c (a ++ c :: b) = Some (a, b).
Proof.
  induction a as [|x a IH]; cbn; [by rewrite Ascii.eqb_refl|]. intros [Hx Ha]%andb_true_iff. apply negb_true_iff in Hx. by rewrite Hx, IH.
Qed.

Lemma forallb_weaken {A} (p q : A -> bool) (l : list A) :
  (forall x, p x = true -> q x = true) -> forallb p l = true -> forallb q l = true.
Proof. intros Hpq. rewrite !forallb_forall. auto. Qed.

Lemma rdn_no_comma (p : RDN) : rdn_ok p = true -> forallb (fun x => negb (Ascii.eqb x ",")) (rdn_text p) = true.
Proof.
  unfold rdn_ok, dn_key_ok, dn_value_ok, rdn_text. intros [Hk Hv]%andb_true_iff. rewrite forallb_app. apply andb_true_iff. split; [|done].
  eapply forallb_weaken; [|exact Hk]. by intros x [? ?]%andb_true_iff.
Qed.

Lemma rdn_cut (p : RDN) : rdn_ok p = true -> cut "=" (rdn_text p) = Some (str (rdn_Key p), str (rdn_Value p)).
Proof.
  unfold rdn_ok, dn_key_ok, rdn_text. intros [Hk _]%andb_true_iff. apply cut_app.
  eapply forallb_weaken; [|exact Hk]. by intros x [? ?]%andb_true_iff.
Qed.

Definition add_rdn (m : gmap string string) (p : RDN) : gmap string string := <[rdn_Key p := rdn_Value p]> m.

Lemma add_segment_rdn (m : gmap string string) (p : RDN) : rdn_ok p = true -> add_segment m (rdn_text p) = add_rdn m p.
Proof. intros Hp. unfold add_segment. rewrite rdn_cut by done. by autorewrite with ems. Qed.

Lemma segments_of_text (parts : list RDN) (m : gmap string string) :
  parts <> [] -> Forall (fun p => rdn_ok p = true) parts ->
  foldl add_segment m (split_on "," (dn_text parts)) = foldl add_rdn m parts.
Proof.
  intros Hne Hok. revert m Hne. induction Hok as [|p parts Hp Hok IH]; intros m Hne; [done|].
  destruct parts as [|q parts]; cbn [dn_text].
  - rewrite split_on_plain by (by apply rdn_no_comma). cbn. by rewrite add_segment_rdn.
  - rewrite split_on_app by (by apply rdn_no_comma). cbn [foldl]. rewrite add_segment_rdn by done. by apply IH.
Qed.

(** Reading back a name that was built. *)
Lemma KeyValues_Build (parts : list RDN) :
  Forall (fun p => rdn_ok p = true) parts -> KeyValues (Build parts) = foldl add_rdn ∅ parts.
Proof.
  intros Hok. destruct parts as [|p parts]; [done|]. unfold KeyValues, Build.
  assert (Hne : unstr (dn_text (p :: parts)) <> "").
  { intros He. apply (f_equal str) in He. rewrite str_unstr in He. destruct parts; cbn [dn_text] in He; unfold rdn_text in He;
      by destruct (str (rdn_Key p)). }
  rewrite (proj2 (String.eqb_neq _ _) Hne). autorewrite with ems. by apply segments_of_text.
Qed.

Lemma dn_text_snoc (parts : list RDN) (p : RDN) : parts <> [] -> dn_text (parts ++ [p]) = dn_text parts ++ ","%char :: rdn_text p.
Proof.
  induction parts as [|q parts IH]; intros Hne; [done|]. destruct parts as [|q' parts]; [done|].
  specialize (IH ltac:(done)). cbn [app] in *. cbn [dn_text] in *. rewrite IH. by rewrite <- app_assoc.
Qed.

Lemma AppendDN_Build (parts : list RDN) (p : RDN) : AppendDN (Build parts) [p] = Build (parts ++ [p]).
Proof.
  unfold AppendDN. destruct parts as [|q parts]; [done|].
  assert (Hne : Build (q :: parts) <> "").
  { unfold Build. intros He. apply (f_equal str) in He. rewrite str_unstr in He. destruct parts; cbn [dn_text] in He; unfold rdn_text in He;
      by destruct (str (rdn_Key q)). }
  rewrite (proj2 (String.eqb_neq _ _) Hne). unfold Build. cbn [foldl]. rewrite str_unstr. by rewrite dn_text_snoc.
Qed.

(** What KeyValues reads is fit to be written. *)
Lemma cut_key (c : ascii) (l k v : bytes) : cut c l = Some (k, v) -> forallb (fun x => negb (Ascii.eqb x c)) k = true /\ l = k ++ c :: v.
Proof.
  revert k. induction l as [|x l IH]; intros k; cbn; [done|]. destruct (Ascii.eqb_spec x c) as [->|Hn]; [by intros [= <- <-]|].
  intros ([k' v'] & Hc & [= -> ->])%fmap_Some. destruct (IH k' Hc) as [Hk ->]. cbn. split; [|done].
  rewrite Hk, andb_true_r. by apply negb_true_iff, Ascii.eqb_neq.
Qed.

Lemma split_on_clean (c : ascii) (l : bytes) : Forall (fun seg => forallb (fun x => negb (Ascii.eqb x c)) seg = true) (split_on c l).
Proof.
  induction l as [|x l IH]; cbn; [by repeat constructor|]. destruct (Ascii.eqb x c) eqn:Ex; [by constructor|].
  destruct (split_on c l) as [|h t]; [by repeat constructor; cbn; rewrite Ex|]. apply Forall_cons in IH as [Hh Ht].
  constructor; [|done]. cbn. by rewrite Ex, Hh.
Qed.

Definition pairs_ok (m : gmap string string) : Prop := forall k v, m !! k = Some v -> rdn_ok (mkRDN k v) = true.

Lemma add_segment_ok (m : gmap string string) (seg : bytes) :
  forallb (fun x => negb (Ascii.eqb x ",")) seg = true -> pairs_ok m -> pairs_ok (add_segment m seg).
Proof.
  intros Hs Hm k v. unfold add_segment. destruct (cut "=" seg) as [[a b]|] eqn:Ec; [|apply Hm].
  apply cut_key in Ec as [Ha ->]. rewrite forallb_app in Hs. apply andb_true_iff in Hs as [Hsa Hsb].
  destruct (decide (unstr a = k)) as [<-|Hne]; [|rewrite lookup_insert_ne by done; apply Hm].
  rewrite lookup_insert_eq. intros [= <-]. unfold rdn_ok, dn_key_ok, dn_value_ok. cbn [rdn_Key rdn_Value]. rewrite !str_unstr.
  apply andb_true_iff. split.
  - rewrite forallb_forall in *. intros x Hx. by rewrite (Hsa x Hx), (Ha x Hx).
  - cbn in Hsb. by apply andb_true_iff in Hsb as [_ ?].
Qed.

Lemma KeyValues_ok (dn : DN) : pairs_ok (KeyValues dn).
Proof.
  unfold KeyValues. destruct (String.eqb dn ""); [done|]. pose proof (split_on_clean "," (str dn)) as Hc.
  assert (Hgen : forall l m, Forall (fun seg => forallb (fun x => negb (Ascii.eqb x ",")) seg = true) l -> pairs_ok m -> pairs_ok (foldl add_segment m l)).
  { induction l as [|seg l IH]; intros m Hl Hm; [done|]. apply Forall_cons in Hl as [H1 H2]. cbn. apply IH; [done|]. by apply add_segment_ok. }
  by apply Hgen.
Qed.

Lemma foldl_add_rdn (m : gmap string string) (l : list string) (acc : gmap string string) (k : string) :
  foldl add_rdn acc ((fun k => mkRDN k (default "" (m !! k))) <$> l) !! k =
  if decide (k ∈ l) then Some (default "" (m !! k)) else acc !! k.
Proof.
  revert acc. induction l as [|x l IH]; intros acc; [done|]. rewrite fmap_cons. cbn [foldl]. rewrite IH. unfold add_rdn. cbn [rdn_Key rdn_Value].
  destruct (decide (k ∈ l)) as [Hin|Hn]; [by rewrite decide_True by (by right)|]. destruct (decide (x = k)) as [->|Hne].
  - rewrite lookup_insert_eq, decide_True by (by left). done.
  - rewrite lookup_insert_ne, decide_False; [done| |done]. by intros [->|?]%elem_of_cons.
Qed.

Lemma sorted_keys_elem (m : gmap string string) (k : string) : k ∈ sorted_keys m <-> is_Some (m !! k).
Proof.
  unfold sorted_keys. rewrite merge_sort_Permutation. split.
  - intros ([k' v] & -> & Hin%elem_of_map_to_list)%list_elem_of_fmap. by eexists.
  - intros [v Hv]. apply list_elem_of_fmap. exists (k, v). split; [done|]. by apply elem_of_map_to_list.
Qed.

(** Canonical names: the same attributes, and one name for each set of them. *)
Lemma KeyValues_Canonicalize (dn : DN) : KeyValues (Canonicalize dn) = KeyValues dn.
Proof.
  unfold Canonicalize. set (m := KeyValues dn). rewrite KeyValues_Build.
  - apply map_eq. intros k. rewrite foldl_add_rdn. pose proof (sorted_keys_elem m k) as He. destruct (decide _) as [Hd|Hd].
    + apply He in Hd as [v ->]. done.
    + destruct (m !! k) as [v|] eqn:Ev; [|done]. destruct Hd. by apply He.
  - apply Forall_fmap, Forall_forall. intros k Hk. apply sorted_keys_elem in Hk as [v Hv]. cbn. rewrite Hv. by apply (KeyValues_ok dn).
Qed.

Lemma Canonicalize_iff (d1 d2 : DN) : Canonicalize d1 = Canonicalize d2 <-> KeyValues d1 = KeyValues d2.
Proof.
  split; [|by unfold Canonicalize; intros ->]. intros He. by rewrite <- (KeyValues_Canonicalize d1), He, KeyValues_Canonicalize.
Qed.

(** ** Lemmas: the registry *)

(** The names a registry gives out: the node, and a cell under it for each key. *)
Definition node_rdns (r : Registry) : list RDN :=
  [mkRDN MOTypeSubNetwork (subNetwork r); mkRDN MOTypeManagedElement (element r);
   if is_gnb r then mkRDN MOTypeGNBFunction (gnbFnID r) else mkRDN MOTypeENBFunction (enbFnID r)].

Definition cell_rdn (r : Registry) (key : string) : RDN :=
  mkRDN (if is_gnb r then MOTypeNRCellDU else MOTypeEUtranCell) (sanitizeCellID key).

Lemma NodeDN_rdns (r : Registry) : NodeDN r = Build (node_rdns r).
Proof. unfold NodeDN, node_rdns, ENBDN. by destruct (is_gnb r). Qed.

Record registry_wf (r : Registry) : Prop := {
  wf_node : exists o, objectsByDN r !! NodeDN r = Some o /\ o_DN o = NodeDN r;
  wf_cells : forall key o, cellsByKey r !! key = Some o ->
    o_DN o = Build (node_rdns r ++ [cell_rdn r key]) /\ is_Some (objectsByDN r !! o_DN o);
  wf_objects : forall dn o, objectsByDN r !! dn = Some o -> o_DN o = dn
}.

(** The part of a registry that does not change. *)
Definition same_node (r r' : Registry) : Prop :=
  (subNetwork r, element r, enbFnID r, gnbFnID r, elementType r) = (subNetwork r', element r', enbFnID r', gnbFnID r', elementType r').

Lemma same_node_names (r r' : Registry) : same_node r r' -> node_rdns r = node_rdns r' /\ forall key, cell_rdn r key = cell_rdn r' key.
Proof. destruct r, r'. unfold same_node, node_rdns, cell_rdn, is_gnb. cbn. by intros [= -> -> -> -> ->]. Qed.

Lemma NewRegistry_wf (now : time) (cfg : NrmConfig) (r : Registry) : NewRegistry now cfg = Ok r -> registry_wf r.
Proof.
  unfold NewRegistry. destruct (_ || _); [done|]. intros [= <-]. set (r0 := mkRegistry _ _ _ _ _ _ _).
  set (fn := if is_gnb r0 then (MOTypeGNBFunction, gnbFnID r0) else (MOTypeENBFunction, enbFnID r0)).
  assert (Hn : initStatic r0 = r0 <|objectsByDN := {[NodeDN r0 := mkObject fn.1 fn.2 (NodeDN r0)]}|>).
  { unfold initStatic, NodeDN, ENBDN, fn. by destruct (is_gnb r0). }
  rewrite Hn. assert (Hd : NodeDN (r0 <|objectsByDN := {[NodeDN r0 := mkObject fn.1 fn.2 (NodeDN r0)]}|>) = NodeDN r0) by done.
  constructor.
  - rewrite Hd. exists (mkObject fn.1 fn.2 (NodeDN r0)). split; [apply lookup_singleton_eq|done].
  - done.
  - intros dn o Hl. cbn in Hl. apply lookup_singleton_Some in Hl as [<- <-]. done.
Qed.

Lemma ensureCell_wf (key : string) (r : Registry) :
  registry_wf r ->
  let '(r', dn) := ensureCell key r in
  registry_wf r' /\ same_node r r' /\ dn = Build (node_rdns r ++ [cell_rdn r key]) /\ is_Some (objectsByDN r' !! dn) /\
  forall d, is_Some (objectsByDN r !! d) -> is_Some (objectsByDN r' !! d).
Proof.
  intros [Hn Hc Ho]. unfold ensureCell. destruct (cellsByKey r !! key) as [o|] eqn:Eo.
  { destruct (Hc key o Eo) as [Hd Hs]. split_and!; [by constructor|done|done|done|done]. }
  set (obj := mkObject _ _ _). assert (Hdn : AppendDN (NodeDN r) [mkRDN (if is_gnb r then MOTypeNRCellDU else MOTypeEUtranCell) (sanitizeCellID key)] =
    Build (node_rdns r ++ [cell_rdn r key])) by (rewrite NodeDN_rdns; apply AppendDN_Build).
  set (r' := r <|cellsByKey ::= _|> <|objectsByDN ::= _|>). assert (Hsame : same_node r r') by (by destruct r).
  assert (Hod : objectsByDN r' = <[o_DN obj := obj]> (objectsByDN r)) by (by destruct r).
  assert (Hck : cellsByKey r' = <[key := obj]> (cellsByKey r)) by (by destruct r).
  assert (Hnode : NodeDN r' = NodeDN r) by (by destruct r).
  assert (Hkeep : forall d, is_Some (objectsByDN r !! d) -> is_Some (objectsByDN r' !! d)).
  { intros d Hs. rewrite Hod. destruct (decide (o_DN obj = d)) as [<-|Hne]; [by rewrite lookup_insert_eq|by rewrite lookup_insert_ne]. }
  destruct (same_node_names r r' Hsame) as [Hnr Hcr].
  split_and!; [|done|done|by rewrite Hod; change (o_DN obj) with (AppendDN (NodeDN r) [mkRDN (if is_gnb r then MOTypeNRCellDU else MOTypeEUtranCell) (sanitizeCellID key)]); rewrite lookup_insert_eq|done].
  constructor.
  - rewrite Hnode, Hod. destruct (decide (o_DN obj = NodeDN r)) as [He|Hne]; [|by rewrite lookup_insert_ne].
    exists obj. by rewrite <- He, lookup_insert_eq.
  - intros k o. rewrite Hck. destruct (decide (key = k)) as [<-|Hne].
    + rewrite lookup_insert_eq. intros [= <-]. rewrite <- Hnr, <- Hcr, Hod, lookup_insert_eq. by split.
    + rewrite lookup_insert_ne by done. intros Hl. destruct (Hc k o Hl) as [Hd Hs]. rewrite <- Hnr, <- Hcr. split; [done|]. by apply Hkeep.
  - intros dn o. rewrite Hod. destruct (decide (o_DN obj = dn)) as [<-|Hne]; [by rewrite lookup_insert_eq; intros [= <-]|].
    rewrite lookup_insert_ne by done. apply Ho.
Qed.

Lemma sanitize_byte_ok (c : ascii) : Ascii.eqb (sanitize_byte c) "," = false.
Proof. destruct c as [[] [] [] [] [] [] [] []]; reflexivity. Qed.

Lemma sanitizeCellID_ok (key : string) : dn_value_ok (sanitizeCellID key) = true.
Proof.
  unfold sanitizeCellID, dn_value_ok. destruct (trim_prefix _ _) as [|c l]; [done|]. rewrite str_unstr. apply forallb_forall.
  intros x Hx. apply list_elem_of_In, list_elem_of_fmap in Hx as (y & -> & _). by rewrite sanitize_byte_ok.
Qed.

(** Samples in the order they arrive, each with the clock reading of an error. *)
Fixpoint resolve_run (samples : list (time * Sample)) (r : Registry) : Registry * list (result error DN) :=
  match samples with
  | [] => (r, [])
  | (now, s) :: rest => let '(r, dn) := Resolve now s r in
                        let '(r, out) := resolve_run rest r in (r, dn :: out)
  end.

(** The name a sample ought to get. *)
Definition sample_rdns (r : Registry) (s : Sample) : list RDN :=
  if String.eqb (s_Scope s) "node" || String.eqb (cellKeyFromSample s) "" then node_rdns r
  else node_rdns r ++ [cell_rdn r (cellKeyFromSample s)].

Definition expected_name (r : Registry) (ts : time * Sample) : result error DN :=
  if String.eqb (s_Scope ts.2) ""
  then Err (New ts.1 ErrCodeDataCorrupt "canonical sample scope is empty" [WithOp "nrm"; WithSeverity ErrSeverityMajor])
  else Ok (Build (sample_rdns r ts.2)).

Lemma Resolve_spec (now : time) (s : Sample) (r : Registry) :
  registry_wf r ->
  let '(r', out) := Resolve now s r in
  registry_wf r' /\ same_node r r' /\ out = expected_name r (now, s) /\ (forall dn, out = Ok dn -> is_Some (objectsByDN r' !! dn)) /\
  forall d, is_Some (objectsByDN r !! d) -> is_Some (objectsByDN r' !! d).
Proof.
  intros Hw. destruct (wf_node r Hw) as (o & Ho & _). assert (Hnode : forall dn, Ok (E := error) (NodeDN r) = Ok dn -> is_Some (objectsByDN r !! dn))
    by (intros dn [= <-]; by eexists).
  unfold Resolve, expected_name, sample_rdns. cbn [fst snd]. destruct (String.eqb (s_Scope s) "node") eqn:En.
  { b2p. rewrite En. cbn [orb]. rewrite <- NodeDN_rdns. by split_and!. }
  destruct (String.eqb (s_Scope s) "") eqn:Es; [by split_and!|]. cbn [orb]. cbv zeta.
  destruct (String.eqb (cellKeyFromSample s) "") eqn:Ec; [rewrite <- NodeDN_rdns; by split_and!|].
  pose proof (ensureCell_wf (cellKeyFromSample s) r Hw) as He. destruct (ensureCell _ r) as [r' dn]. destruct He as (H1 & H2 & -> & H4 & H5).
  split_and!; try done. by intros dn [= <-].
Qed.

Lemma expected_name_node (r r' : Registry) (ts : time * Sample) : same_node r r' -> expected_name r ts = expected_name r' ts.
Proof. intros Hs. destruct (same_node_names r r' Hs) as [H1 H2]. unfold expected_name, sample_rdns. by rewrite H1, H2. Qed.

Lemma resolve_run_spec (samples : list (time * Sample)) (r : Registry) :
  registry_wf r ->
  let '(r', out) := resolve_run samples r in
  registry_wf r' /\ same_node r r' /\ out = expected_name r <$> samples /\ (forall dn, Ok dn ∈ out -> is_Some (objectsByDN r' !! dn)) /\
  forall d, is_Some (objectsByDN r !! d) -> is_Some (objectsByDN r' !! d).
Proof.
  revert r. induction samples as [|[now s] rest IH]; intros r Hw; cbn [resolve_run].
  { split_and!; try done. intros dn Hin. by apply not_elem_of_nil in Hin. }
  pose proof (Resolve_spec now s r Hw) as Hr. destruct (Resolve now s r) as [r1 dn1]. destruct Hr as (H1 & H2 & H3 & H4 & H5).
  specialize (IH r1 H1). destruct (resolve_run rest r1) as [r2 out]. destruct IH as (I1 & I2 & I3 & I4 & I5). split_and!; [done|..].
  - unfold same_node in *. congruence.
  - rewrite fmap_cons, H3, I3. f_equal. apply list_fmap_ext. intros i x _. symmetry. by apply expected_name_node.
  - intros dn [He|Hin]%elem_of_cons; [|by apply I4]. apply I5, H4. by rewrite He.
  - auto.
Qed.

(** ** Theorems *)

(** C35: every sample gets the name of its managed object. Resolving any sequence of samples from a
    new registry gives each of them the name of the node (scope "node", or no cell in the scope) or
    of its cell under the node, and an error exactly for an empty scope; every name handed out stays
    registered under itself; and when the configured names hold no DN syntax, reading a name back
    gives its attributes. *)
Theorem resolve_names_registered (now : time) (cfg : NrmConfig) (r : Registry) (samples : list (time * Sample)) :
  NewRegistry now cfg = Ok r ->
  let '(r', out) := resolve_run samples r in
  out = expected_name r <$> samples /\
  (forall dn, Ok dn ∈ out -> exists o, Get dn r' = Some o /\ o_DN o = dn) /\
  (Forall (fun p => rdn_ok p = true) (node_rdns r) ->
   forall s, KeyValues (Build (sample_rdns r s)) = foldl add_rdn ∅ (sample_rdns r s)).
Proof.
  intros Hn. apply NewRegistry_wf in Hn. pose proof (resolve_run_spec samples r Hn) as Hr. destruct (resolve_run samples r) as [r' out].
  destruct Hr as (Hw & _ & He & Hs & _). split_and!; [done| |].
  - intros dn Hin. destruct (Hs dn Hin) as [o Ho]. exists o. split; [done|]. by apply (wf_objects r' Hw).
  - intros Hok s. apply KeyValues_Build. unfold sample_rdns. destruct (_ || _); [done|]. apply Forall_app. split; [done|].
    apply Forall_singleton. unfold rdn_ok, cell_rdn. cbn [rdn_Key rdn_Value]. rewrite sanitizeCellID_ok. by destruct (is_gnb r).
Qed.

Definition demo_nrm : NrmConfig := mkNrmConfig "srsRAN" "enb1" "1" "" "enb".
Definition demo_sample (scope : string) : Sample := mkSample 0 "enb1" scope ∅ ∅.

Definition demo_registry : Registry := initStatic (mkRegistry "srsRAN" "enb1" "1" "" "enb" ∅ ∅).

Lemma demo_registry_new : NewRegistry 0%Z demo_nrm = Ok demo_registry.
Proof. reflexivity. Qed.

Lemma resolve_names_registered_witness :
  let '(r', out) := resolve_run [(0%Z, demo_sample "node"); (0%Z, demo_sample "cell:pci=1/ue:rnti=70")] demo_registry in
  out = [Ok "SubNetwork=srsRAN,ManagedElement=enb1,ENBFunction=1"; Ok "SubNetwork=srsRAN,ManagedElement=enb1,ENBFunction=1,EUtranCell=pci-1"].
Proof.
  pose proof (resolve_names_registered 0%Z demo_nrm demo_registry
    [(0%Z, demo_sample "node"); (0%Z, demo_sample "cell:pci=1/ue:rnti=70")] demo_registry_new) as H.
  destruct (resolve_run _ _) as [r' out]. destruct H as (-> & _). vm_compute. reflexivity.
Defined.

(** Two cells whose scopes differ only in punctuation or case share a name. *)
Lemma cell_names_collide : sanitizeCellID "cell:carrier=0,pci=1" = sanitizeCellID "cell:Carrier-0-PCI-1".
Proof. vm_compute. reflexivity. Qed.
