(* ===== verification/Pm.v ===== *)
(** * Performance management (internal/ems/domain/pm/registry.go, internal/ems/fcaps/pm)

    The engine accumulates the allowed metrics of the samples it is given under the name of their
    managed object, and at the end of each window turns them into a report: the mean of a gauge, the
    increase of a counter. *)
From S2P Require Import Prelude GoNum GoStrings Json FileSystem Alarms Errors Nrm.

(** ** Measurement definitions (domain/pm/registry.go) *)

Definition CanonicalUEDLBitrate : string := "ue.dl_bitrate".
Definition CanonicalUEULBitrate : string := "ue.ul_bitrate".
Definition CanonicalUEULSNR : string := "ue.ul_snr".
Definition CanonicalUEDLCQI : string := "ue.dl_cqi".
Definition CanonicalUEDLBLER : string := "ue.dl_bler".
Definition CanonicalUEULBLER : string := "ue.ul_bler".
Definition CanonicalUEULPUCCHNI : string := "ue.ul_pucch_ni".
Definition CanonicalUEULPHR : string := "ue.ul_phr".
Definition CanonicalUERRCRLFCnt : string := "ue.rrc_rlf_cnt".
Definition CanonicalUERRCInactivity : string := "ue.rrc_release_cause_inactivity".
Definition CanonicalRRCConnectedUES : string := "rrc.rrc_connected_ues".
Definition CanonicalS1APReady : string := "s1ap.ready".
Definition CanonicalNGAPReady : string := "ngap.ready".
Definition CanonicalS1APStatusCode : string := "s1ap.status_code".
Definition CanonicalNASDLDrop : string := "s1ap.nas_dl_drop".
Definition CanonicalNASULFail : string := "s1ap.nas_ul_fail".
Definition CanonicalNASULSecUnknown : string := "s1ap.nas_ul_sec_hdr_unknown".
Definition CanonicalNASULParseFail : string := "s1ap.nas_ul_parse_fail".
Definition CanonicalNASDLParseFail : string := "s1ap.nas_dl_parse_fail".
Definition CanonicalNASDLServiceRej : string := "s1ap.nas_dl_service_reject".
Definition CanonicalRRCProtocolFail : string := "rrc.rrc_protocol_fail".
Definition CanonicalRRCConRejectTX : string := "rrc.rrc_con_reject_tx".
Definition CanonicalRRCPagingFail : string := "rrc.rrc_paging_add_fail".
Definition CanonicalRRCMaxRLCRetx : string := "rrc.rrc_max_rlc_retx".

Record MetricMeta := mkMeta {
  CanonicalKey : string;
  Leaf : string;
  MetaType : MetricType;
  Unit : string;
  Description : string;
  Pattern : bool
}.

Definition MeasurementDefinitions : list MetricMeta :=
  [ mkMeta CanonicalUEDLBitrate "throughputDL" Gauge "bps" "Downlink throughput (UE sample gauge)." false;
    mkMeta CanonicalUEULBitrate "throughputUL" Gauge "bps" "Uplink throughput (UE sample gauge)." false;
    mkMeta CanonicalUEULSNR "sinrUL" Gauge "dB" "Uplink SINR (UE sample gauge)." false;
    mkMeta CanonicalUEDLCQI "cqiDL" Gauge "index" "Downlink CQI (UE sample gauge)." false;
    mkMeta CanonicalUEDLBLER "blerDL" Gauge "ratio" "Downlink BLER (UE sample gauge)." false;
    mkMeta CanonicalUEULBLER "blerUL" Gauge "ratio" "Uplink BLER (UE sample gauge)." false;
    mkMeta CanonicalRRCConnectedUES "rrcConnectedUEs" Gauge "count" "Currently connected RRC UEs." false;
    mkMeta CanonicalS1APReady "" Gauge "boolean" "S1AP ready state encoded as 1/0." false;
    mkMeta CanonicalNGAPReady "" Gauge "boolean" "NGAP ready state encoded as 1/0." false;
    mkMeta CanonicalS1APStatusCode "" Gauge "count" "S1AP status code." false;
    mkMeta CanonicalNASDLDrop "" Counter "count" "Dropped downlink NAS messages." false;
    mkMeta CanonicalNASULFail "" Counter "count" "Failed uplink NAS messages." false;
    mkMeta CanonicalNASULSecUnknown "" Counter "count" "Unknown uplink NAS security headers." false;
    mkMeta CanonicalNASULParseFail "" Counter "count" "Uplink NAS parse failures." false;
    mkMeta CanonicalNASDLParseFail "" Counter "count" "Downlink NAS parse failures." false;
    mkMeta CanonicalNASDLServiceRej "" Counter "count" "Downlink NAS service rejects." false;
    mkMeta CanonicalRRCProtocolFail "" Counter "count" "RRC protocol failures." false;
    mkMeta CanonicalRRCConRejectTX "" Counter "count" "RRC connection reject transmissions." false;
    mkMeta CanonicalRRCPagingFail "" Counter "count" "Paging add failures." false;
    mkMeta CanonicalRRCMaxRLCRetx "" Counter "count" "RRC max RLC retransmission events." false;
    mkMeta CanonicalUEULPUCCHNI "" Gauge "dBm" "Uplink PUCCH noise and interference." false;
    mkMeta CanonicalUEULPHR "" Gauge "dB" "UE uplink power headroom." false;
    mkMeta CanonicalUERRCRLFCnt "" Counter "count" "UE radio link failure counter." false;
    mkMeta CanonicalUERRCInactivity "" Gauge "boolean" "UE release cause is inactivity." false;
    mkMeta "bearer.*.dl_buffered_bytes" "" Gauge "bytes" "Downlink buffered bytes per bearer." true ].

(** The loop over the parts after the first; [rest] is value[pos:]. *)
Fixpoint match_parts (parts : list bytes) (rest : bytes) : bool :=
  match parts with
  | [] => true
  | [] :: ps => match_parts ps rest
  | part :: ps => match index_of rest part with
                  | None => false
                  | Some idx => match_parts ps (drop (idx + length part) rest)
                  end
  end.

Definition wildcardMatch (pattern value : string) : bool :=
  match split_on "*" (str pattern) with
  | [] => String.eqb pattern value
  | [_] => String.eqb pattern value
  | first :: ps =>
      has_prefix (str value) first && match_parts ps (drop (length first) (str value)) &&
      let last := default [] (last ps) in
      (match last with [] => true | _ => has_suffix (str value) last end)
  end.

Definition IsAllowedCanonicalKey (name : string) : bool :=
  existsb (fun def => if Pattern def then wildcardMatch (CanonicalKey def) name else String.eqb (CanonicalKey def) name) MeasurementDefinitions.

(** ** Types and the report store (fcaps/pm/types.go, store.go) *)

Record PmConfig := mkPmConfig { Granularity : duration; ReportEvery : duration }.

Record Value := mkValue { v_Metric : Metric; v_Value : float64 }.

Record Report := mkReport {
  Begin : time;
  End : time;
  r_Granularity : duration;
  ByDN : gmap DN (gmap string Value)
}.

(** The latest report, if there is one yet. *)
Definition PmStore : Type := option Report.
Definition NewPmStore : PmStore := None.
Definition PmUpdate (r : Report) (s : PmStore) : PmStore := Some r.
Definition Latest (s : PmStore) : option Report := s.

(** ** Accumulators (fcaps/pm/engine.go) *)

Record metricAcc := mkAcc { a_metric : Metric; seen : bool; first : float64; last_ : float64; sum : float64; count : Z }.

Definition newMetricAcc (m : Metric) : metricAcc := mkAcc m false f_zero f_zero f_zero 0.

Definition add (v : float64) (a : metricAcc) : metricAcc :=
  if negb (seen a) then mkAcc (a_metric a) true v v v 1
  else a <|last_ := v|> <|sum ::= fun s => f_add s v|> <|count ::= Z.succ|>.

Definition value (a : metricAcc) : option float64 :=
  if negb (seen a) then None
  else if String.eqb (m_Type (a_metric a)) Gauge
  then if (count a =? 0)%Z then None else Some (f_div (sum a) (f_of_Z (count a)))
  else if String.eqb (m_Type (a_metric a)) Counter
  then let delta := f_sub (last_ a) (first a) in
       if f_lt delta f_zero then Some (last_ a) else Some delta
  else None.

(** ** The engine *)

Record PmEngine := mkPmEngine {
  p_Registry : Registry;
  p_Store : PmStore;
  p_cfg : PmConfig;
  windowStart : time;
  acc : gmap DN (gmap string metricAcc);
  maxDN : Z
}.

Definition NewPmEngine (now : time) (reg : Registry) (store : PmStore) (cfg : PmConfig) : PmEngine :=
  let cfg := if (Granularity cfg <=? 0)%Z then cfg <|Granularity := secs 10|> else cfg in
  let cfg := if (ReportEvery cfg <=? 0)%Z then cfg <|ReportEvery := Granularity cfg|> else cfg in
  mkPmEngine reg store cfg now ∅ 1024.

Definition applyConfig (cfg : PmConfig) (e : PmEngine) : PmEngine :=
  let e := if (0 <? Granularity cfg)%Z then e <|p_cfg ::= fun c => c <|Granularity := Granularity cfg|>|> else e in
  if (0 <? ReportEvery cfg)%Z then e <|p_cfg ::= fun c => c <|ReportEvery := ReportEvery cfg|>|> else e.

(** One metric of a sample. *)
Definition add_metric (mm : gmap string metricAcc) (nm : string * Metric) : gmap string metricAcc :=
  let '(name, m) := nm in
  if negb (IsAllowedCanonicalKey name) then mm
  else <[name := add (m_Value m) (default (newMetricAcc m) (mm !! name))]> mm.

Definition ingest_sample (now : time) (e : PmEngine) (s : Sample) : PmEngine :=
  match Resolve now s (p_Registry e) with
  | (reg, Err _) => e <|p_Registry := reg|>
  | (reg, Ok dn) =>
      let e := e <|p_Registry := reg|> in
      match acc e !! dn with
      | Some mm => e <|acc ::= <[dn := foldl add_metric mm (map_to_list (s_Metrics s))]>|>
      | None =>
          if (maxDN e <=? Z.of_nat (size (acc e)))%Z then e
          else e <|acc ::= <[dn := foldl add_metric ∅ (map_to_list (s_Metrics s))]>|>
      end
  end.

Definition ingest (now : time) (samples : list Sample) (e : PmEngine) : PmEngine := foldl (ingest_sample now) e samples.

(** The values of a managed object; an object without any is left out of the report. *)
Definition object_values (mm : gmap string metricAcc) : gmap string Value :=
  omap (fun a => mkValue (a_metric a) <$> value a) mm.

Definition flush (now : time) (e : PmEngine) : PmEngine * Report :=
  let begin := if (now <? windowStart e)%Z then now else windowStart e in
  let report := mkReport begin now (Granularity (p_cfg e))
    (omap (fun mm => let out := object_values mm in if bool_decide (out = ∅) then None else Some out) (acc e)) in
  (e <|p_Store := PmUpdate report (p_Store e)|> <|windowStart := now|> <|acc := ∅|>, report).

(** The events of the engine's loop; a report is published by each tick. *)
Inductive pm_event := PmTick (now : time) | PmSamples (now : time) (samples : list Sample) | PmConfigUpdate (cfg : PmConfig).

Definition pm_step (ev : pm_event) (e : PmEngine) : PmEngine * list Report :=
  match ev with
  | PmTick now => let '(e, r) := flush now e in (e, [r])
  | PmSamples now samples => (ingest now samples e, [])
  | PmConfigUpdate cfg => (applyConfig cfg e, [])
  end.

(** ** Reference definitions *)

(** The samples of a window with the names they resolve to. *)
Definition named (reg : Registry) (l : list (time * Sample)) : list (DN * Sample) :=
  omap (fun ts => match expected_name reg ts with Ok dn => Some (dn, ts.2) | Err _ => None end) l.

(** The first [max] distinct names. *)
Definition admit_name (max : Z) (S : gset DN) (dn : DN) : gset DN :=
  if bool_decide (dn ∈ S) then S else if (max <=? Z.of_nat (size S))%Z then S else {[dn]} ∪ S.
Definition admitted (max : Z) (dns : list DN) : gset DN := foldl (admit_name max) ∅ dns.

(** The readings of one metric of one object. *)
Definition series (dn : DN) (name : string) (l : list (DN * Sample)) : list Metric :=
  omap (fun p => if decide (p.1 = dn) then s_Metrics p.2 !! name else None) l.

(** What a window reports for a series of readings. *)
Definition series_value (ms : list Metric) : option Value :=
  match ms with
  | [] => None
  | m0 :: rest =>
      let vs := m_Value <$> ms in
      if String.eqb (m_Type m0) Gauge
      then Some (mkValue m0 (f_div (foldl f_add (m_Value m0) (m_Value <$> rest)) (f_of_Z (Z.of_nat (length ms)))))
      else if String.eqb (m_Type m0) Counter
      then let latest := default (m_Value m0) (last vs) in
           let delta := f_sub latest (m_Value m0) in
           Some (mkValue m0 (if f_lt delta f_zero then latest else delta))
      else None
  end.

(** ** Lemmas *)

Definition acc_of (ms : list Metric) : option metricAcc :=
  match ms with
  | [] => None
  | m0 :: rest => Some (mkAcc m0 true (m_Value m0) (default (m_Value m0) (last (m_Value <$> ms)))
                          (foldl f_add (m_Value m0) (m_Value <$> rest)) (Z.of_nat (length ms)))
  end.

Lemma acc_of_snoc (ms : list Metric) (m : Metric) :
  acc_of (ms ++ [m]) = Some (add (m_Value m) (default (newMetricAcc m) (acc_of ms))).
Proof.
  destruct ms as [|m0 ms]; [done|]. cbn [acc_of default app]. unfold add. cbn [seen negb]. f_equal.
  rewrite !fmap_app, foldl_app. cbn [length]. rewrite length_app. unfold update_field. cbn -[foldl Z.of_nat].
  assert (Hl : last (m_Value m0 :: (m_Value <$> ms ++ [m])) = Some (m_Value m)) by (rewrite fmap_app, app_comm_cons; apply last_snoc).
  rewrite Hl. f_equal. lia.
Qed.

Lemma acc_of_value (ms : list Metric) : (acc_of ms ≫= fun a => mkValue (a_metric a) <$> value a) = series_value ms.
Proof.
  destruct ms as [|m0 ms]; [done|]. cbn [acc_of mbind option_bind]. unfold value, series_value. cbn [seen a_metric negb count first last_ sum].
  destruct (String.eqb (m_Type m0) Gauge); [by destruct (Z.eqb_spec (Z.of_nat (length (m0 :: ms))) 0); [cbn in *; lia|]|].
  destruct (String.eqb (m_Type m0) Counter); [|done]. cbv zeta. by destruct (f_lt _ _).
Qed.

Lemma add_metrics_lookup (l : list (string * Metric)) (mm : gmap string metricAcc) (name : string) :
  NoDup l.*1 ->
  foldl add_metric mm l !! name =
  match (list_to_map l : gmap string Metric) !! name with
  | Some m => if IsAllowedCanonicalKey name then Some (add (m_Value m) (default (newMetricAcc m) (mm !! name))) else mm !! name
  | None => mm !! name
  end.
Proof.
  revert mm. induction l as [|[k m] l IH]; intros mm Hnd; [done|]. apply NoDup_cons in Hnd as [Hk Hnd]. cbn [foldl]. rewrite IH by done.
  cbn [list_to_map foldr fst snd]. unfold add_metric. destruct (decide (k = name)) as [->|Hne].
  - rewrite lookup_insert_eq, (not_elem_of_list_to_map_1 l name) by done. destruct (IsAllowedCanonicalKey name); cbn [negb]; [|done]. by rewrite lookup_insert_eq.
  - rewrite lookup_insert_ne by done. assert (Hmm : (if negb (IsAllowedCanonicalKey k) then mm else
      <[k := add (m_Value m) (default (newMetricAcc m) (mm !! k))]> mm) !! name = mm !! name) by (destruct (negb _); [done|by rewrite lookup_insert_ne]).
    by rewrite Hmm.
Qed.

Lemma add_sample_lookup (ms : gmap string Metric) (mm : gmap string metricAcc) (name : string) :
  foldl add_metric mm (map_to_list ms) !! name =
  match ms !! name with
  | Some m => if IsAllowedCanonicalKey name then Some (add (m_Value m) (default (newMetricAcc m) (mm !! name))) else mm !! name
  | None => mm !! name
  end.
Proof. rewrite add_metrics_lookup by apply NoDup_fst_map_to_list. by rewrite list_to_map_to_list. Qed.

Lemma admitted_snoc (max : Z) (l : list DN) (dn : DN) : admitted max (l ++ [dn]) = admit_name max (admitted max l) dn.
Proof. unfold admitted. by rewrite foldl_app. Qed.

Lemma admitted_spec (max : Z) (l : list DN) :
  (0 <= max)%Z ->
  (Z.of_nat (size (admitted max l)) <= max)%Z /\
  forall dn, (dn ∈ admitted max l -> dn ∈ l) /\ (dn ∈ l -> dn ∉ admitted max l -> (max <= Z.of_nat (size (admitted max l)))%Z).
Proof.
  intros Hm. induction l as [|d l [Hs Hl]] using rev_ind.
  { split; [by unfold admitted; cbn; rewrite size_empty|]. intros dn. split; [set_solver|]. intros Hin. by apply not_elem_of_nil in Hin. }
  rewrite admitted_snoc. unfold admit_name. set (A := admitted max l) in *. case_bool_decide as Hd.
  { split; [done|]. intros dn. destruct (Hl dn) as [H1 H2]. split; [set_solver|]. intros [Hin|Hin]%elem_of_app Hn; [by apply H2|]. apply list_elem_of_singleton in Hin. by subst. }
  destruct (max <=? Z.of_nat (size A))%Z eqn:Em; b2p.
  { split; [done|]. intros dn. destruct (Hl dn) as [H1 H2]. split; [set_solver|done]. }
  rewrite size_union by set_solver. rewrite size_singleton. split; [lia|]. intros dn. destruct (Hl dn) as [H1 H2]. split; [set_solver|].
  intros [Hin|Hin]%elem_of_app Hn; [|apply list_elem_of_singleton in Hin; set_solver]. assert (dn ∉ A) as Hna by set_solver. specialize (H2 Hin Hna). lia.
Qed.

Lemma series_snoc (dn d : DN) (name : string) (l : list (DN * Sample)) (s : Sample) :
  series dn name (l ++ [(d, s)]) = series dn name l ++ (if decide (d = dn) then match s_Metrics s !! name with Some m => [m] | None => [] end else []).
Proof. unfold series. rewrite omap_app. cbn. destruct (decide (d = dn)); [|done]. by destruct (s_Metrics s !! name). Qed.

Lemma series_absent (dn : DN) (name : string) (l : list (DN * Sample)) : dn ∉ l.*1 -> series dn name l = [].
Proof.
  induction l as [|[d s] l IH]; intros Hn; [done|]. cbn in Hn. apply not_elem_of_cons in Hn as [Hne Hn]. unfold series. cbn.
  rewrite decide_False by done. by apply IH.
Qed.

(** What the engine holds after the samples [l]. *)
Record acc_inv (reg : Registry) (l : list (DN * Sample)) (e : PmEngine) : Prop := {
  acc_reg : registry_wf (p_Registry e);
  acc_node : same_node reg (p_Registry e);
  acc_max : (0 <= maxDN e)%Z;
  acc_dom : dom (acc e) = admitted (maxDN e) l.*1;
  acc_series : forall dn mm name, acc e !! dn = Some mm ->
    mm !! name = if IsAllowedCanonicalKey name then acc_of (series dn name l) else None
}.

Lemma acc_of_add (dn : DN) (name : string) (l : list (DN * Sample)) (s : Sample) (mm : gmap string metricAcc) :
  mm !! name = (if IsAllowedCanonicalKey name then acc_of (series dn name l) else None) ->
  foldl add_metric mm (map_to_list (s_Metrics s)) !! name =
  if IsAllowedCanonicalKey name then acc_of (series dn name (l ++ [(dn, s)])) else None.
Proof.
  intros Hm. rewrite add_sample_lookup, series_snoc, decide_True by done. rewrite Hm. destruct (s_Metrics s !! name) as [m|].
  - destruct (IsAllowedCanonicalKey name); [|done]. by rewrite acc_of_snoc.
  - by rewrite app_nil_r.
Qed.

Lemma ingest_sample_inv (reg : Registry) (l : list (DN * Sample)) (e : PmEngine) (now : time) (s : Sample) :
  acc_inv reg l e -> acc_inv reg (l ++ named reg [(now, s)]) (ingest_sample now e s).
Proof.
  intros [Hw Hn Hx Hd Hs]. unfold ingest_sample, named. cbn [omap list_omap]. rewrite (expected_name_node reg (p_Registry e) (now, s) Hn).
  pose proof (Resolve_spec now s (p_Registry e) Hw) as Hr. destruct (Resolve now s (p_Registry e)) as [reg' out].
  destruct Hr as (Hw' & Hn' & -> & _ & _). assert (Hn2 : same_node reg reg') by (unfold same_node in *; congruence).
  destruct (expected_name (p_Registry e) (now, s)) as [dn|err]; cbn [snd].
  2:{ rewrite app_nil_r. by constructor; destruct e. }
  set (e1 := e <|p_Registry := reg'|>). assert (He1 : acc e1 = acc e /\ maxDN e1 = maxDN e /\ p_Registry e1 = reg') by (by destruct e).
  destruct He1 as (Ha & Hm & Hreg). clearbody e1. rewrite Ha, Hm. pose proof (admitted_spec (maxDN e) l.*1 Hx) as [Hsz Hadm].
  assert (Hins : forall mm, acc e1 !! dn = Some mm \/ (acc e1 !! dn = None /\ mm = ∅ /\ (Z.of_nat (size (acc e)) < maxDN e)%Z) ->
    acc_inv reg (l ++ [(dn, s)]) (e1 <|acc ::= <[dn := foldl add_metric mm (map_to_list (s_Metrics s))]>|>)).
  { intros mm Hmm. set (e2 := e1 <|acc ::= _|>). assert (He2 : acc e2 = <[dn := foldl add_metric mm (map_to_list (s_Metrics s))]> (acc e) /\
      maxDN e2 = maxDN e /\ p_Registry e2 = reg') by (unfold e2; rewrite <- Ha, <- Hm, <- Hreg; by destruct e1).
    destruct He2 as (Ha2 & Hm2 & Hr2). clearbody e2. rewrite Ha in Hmm. constructor; [by rewrite Hr2|by rewrite Hr2|by rewrite Hm2|..]; rewrite Ha2, ?Hm2.
    - rewrite dom_insert_L, Hd, fmap_app. cbn [fmap list_fmap fst]. rewrite admitted_snoc. unfold admit_name.
      destruct Hmm as [Hmm|(Hnone & _ & Hlt)].
      + assert (dn ∈ admitted (maxDN e) l.*1) by (rewrite <- Hd; by eapply elem_of_dom_2). rewrite bool_decide_true by done. set_solver.
      + assert (dn ∉ admitted (maxDN e) l.*1) by (rewrite <- Hd; by apply not_elem_of_dom). rewrite bool_decide_false by done.
        destruct (_ <=? _)%Z eqn:E; [|done]. b2p. rewrite <- Hd in E. pose proof (size_dom (acc e)) as Hsd. lia.
    - intros d mm' name. destruct (decide (dn = d)) as [<-|Hne].
      + rewrite lookup_insert_eq. intros [= <-]. apply acc_of_add. destruct Hmm as [Hmm|(Hnone & -> & Hlt)]; [by apply Hs|].
        rewrite series_absent, lookup_empty; [by destruct (IsAllowedCanonicalKey name)|]. intros Hin. destruct (Hadm dn) as [_ Hfull].
        assert (Hna : dn ∉ admitted (maxDN e) l.*1) by (rewrite <- Hd; by apply not_elem_of_dom). specialize (Hfull Hin Hna).
        rewrite <- Hd in Hfull. pose proof (size_dom (acc e)) as Hsd. lia.
      + rewrite lookup_insert_ne by done. intros Hl. rewrite (Hs d mm' name Hl), series_snoc, decide_False by done. by rewrite app_nil_r. }
  destruct (acc e !! dn) as [mm|] eqn:El; [apply Hins; left; by rewrite Ha|].
  destruct (_ <=? _)%Z eqn:E; b2p; [|apply Hins; right; split_and!; [by rewrite Ha|done|lia]].
  constructor; rewrite ?Hreg, ?Hm, ?Ha; try done.
  - rewrite Hd, fmap_app. cbn [fmap list_fmap fst]. rewrite admitted_snoc. unfold admit_name. case_bool_decide; [done|].
    destruct (_ <=? _)%Z eqn:E2; [done|]. b2p. rewrite <- Hd in E2. pose proof (size_dom (acc e)) as Hsd. lia.
  - intros d mm name Hl. rewrite (Hs d mm name Hl), series_snoc. destruct (decide (dn = d)) as [<-|]; [congruence|by rewrite app_nil_r].
Qed.

(** The samples of a window, as the batches they arrived in. *)
Definition ingest_all (batches : list (time * list Sample)) (e : PmEngine) : PmEngine :=
  foldl (fun e b => ingest b.1 b.2 e) e batches.
Definition stamped (batches : list (time * list Sample)) : list (time * Sample) := b ← batches; pair b.1 <$> b.2.

Lemma named_app (reg : Registry) (l1 l2 : list (time * Sample)) : named reg (l1 ++ l2) = named reg l1 ++ named reg l2.
Proof. unfold named. apply omap_app. Qed.

Lemma ingest_inv (reg : Registry) (now : time) (samples : list Sample) (l : list (DN * Sample)) (e : PmEngine) :
  acc_inv reg l e -> acc_inv reg (l ++ named reg (pair now <$> samples)) (ingest now samples e).
Proof.
  revert l e. induction samples as [|s samples IH]; intros l e Hi; [by rewrite app_nil_r|]. cbn [fmap list_fmap ingest foldl].
  change ((now, s) :: (pair now <$> samples)) with ([(now, s)] ++ (pair now <$> samples)). rewrite named_app, app_assoc.
  by apply IH, ingest_sample_inv.
Qed.

Lemma ingest_all_inv (reg : Registry) (batches : list (time * list Sample)) (l : list (DN * Sample)) (e : PmEngine) :
  acc_inv reg l e -> acc_inv reg (l ++ named reg (stamped batches)) (ingest_all batches e).
Proof.
  revert l e. induction batches as [|[now samples] batches IH]; intros l e Hi; [by rewrite app_nil_r|].
  unfold stamped. rewrite bind_cons, named_app, app_assoc. cbn [ingest_all foldl fst snd]. by apply IH, ingest_inv.
Qed.

(** Nothing but the accumulators and the registry changes while a window fills. *)
Lemma ingest_frame (batches : list (time * list Sample)) (e : PmEngine) :
  windowStart (ingest_all batches e) = windowStart e /\ p_cfg (ingest_all batches e) = p_cfg e /\ maxDN (ingest_all batches e) = maxDN e.
Proof.
  assert (H1 : forall now s e, windowStart (ingest_sample now e s) = windowStart e /\ p_cfg (ingest_sample now e s) = p_cfg e /\
                 maxDN (ingest_sample now e s) = maxDN e).
  { intros now s [reg st cfg ws ac mx]. unfold ingest_sample. destruct (Resolve _ _ _) as [reg' [dn|err]]; [|done].
    set (e1 := _ <|p_Registry := reg'|>). destruct (acc e1 !! dn); [done|]. by destruct (_ <=? _)%Z. }
  assert (H2 : forall samples now e, windowStart (ingest now samples e) = windowStart e /\ p_cfg (ingest now samples e) = p_cfg e /\
                 maxDN (ingest now samples e) = maxDN e).
  { induction samples as [|s samples IH]; intros now e0; [done|]. cbn [ingest foldl]. destruct (H1 now s e0) as (<- & <- & <-). apply IH. }
  revert e. induction batches as [|[now samples] batches IH]; intros e; [done|]. cbn [ingest_all foldl fst snd].
  destruct (H2 samples now e) as (<- & <- & <-). apply IH.
Qed.

Lemma flush_values (e : PmEngine) (now : time) (dn : DN) (name : string) :
  (ByDN (snd (flush now e)) !! dn ≫= fun vs => vs !! name) =
  (acc e !! dn ≫= fun mm => mm !! name ≫= fun a => mkValue (a_metric a) <$> value a).
Proof.
  cbn [flush snd ByDN]. rewrite lookup_omap. destruct (acc e !! dn) as [mm|]; [|done]. cbn [mbind option_bind].
  assert (Ho : object_values mm !! name = mm !! name ≫= fun a => mkValue (a_metric a) <$> value a) by apply lookup_omap.
  case_bool_decide as He; cbn; [|done]. rewrite <- Ho, He. done.
Qed.

(** ** Theorems *)

(** C36: a report holds exactly what its window measured. For any batches of samples given to a new
    engine: the report of the next tick covers the time since the window started (or starts at the
    tick when the clock went backwards) and holds, for each of the first 1024 managed objects and
    each allowed metric, the mean of the readings of a gauge and the increase of a counter over the
    window (its last reading when it was reset), and nothing else; the report becomes the latest one
    and the next window starts empty. *)
Theorem pm_report_exact (t0 t : time) (cfg : NrmConfig) (reg : Registry) (store : PmStore) (pcfg : PmConfig)
    (batches : list (time * list Sample)) :
  NewRegistry t0 cfg = Ok reg ->
  let e := ingest_all batches (NewPmEngine t0 reg store pcfg) in
  let '(e', rep) := flush t e in
  let l := named reg (stamped batches) in
  Begin rep = Z.min t0 t /\ End rep = t /\ Latest (p_Store e') = Some rep /\ acc e' = ∅ /\ windowStart e' = t /\
  (forall dn name,
     (ByDN rep !! dn ≫= fun vs => vs !! name) =
     if bool_decide (dn ∈ admitted 1024 l.*1) && IsAllowedCanonicalKey name then series_value (series dn name l) else None) /\
  (Z.of_nat (size (ByDN rep)) <= 1024)%Z.
Proof.
  intros Hn. apply NewRegistry_wf in Hn. cbv zeta. set (e0 := NewPmEngine t0 reg store pcfg).
  assert (H0 : acc_inv reg [] e0) by (by constructor).
  pose proof (ingest_all_inv reg batches [] e0 H0) as [_ _ _ Hd Hs]. destruct (ingest_frame batches e0) as (Hws & Hcfg & Hmx). cbn [app] in *.
  set (e := ingest_all batches e0) in *. pose proof (flush_values e t) as Hv.
  assert (Hm : maxDN e = 1024%Z) by done. rewrite Hm in Hd. destruct (flush t e) as [e' rep] eqn:Ef. cbn [snd] in Hv. unfold flush in Ef.
  injection Ef as He' Hrep. split_and!.
  - rewrite <- Hrep. cbn [Begin]. rewrite Hws. clear. change (windowStart e0) with t0. destruct (Z.ltb_spec t t0); lia.
  - by rewrite <- Hrep.
  - rewrite <- He', <- Hrep. by destruct e.
  - rewrite <- He'. by destruct e.
  - rewrite <- He'. by destruct e.
  - intros dn name. rewrite Hv. destruct (acc e !! dn) as [mm|] eqn:El.
    + cbn [mbind option_bind]. rewrite (Hs dn mm name El). assert (dn ∈ admitted 1024 (named reg (stamped batches)).*1) by (rewrite <- Hd; by eapply elem_of_dom_2).
      rewrite bool_decide_true by done. cbn [andb]. destruct (IsAllowedCanonicalKey name); [|done]. apply acc_of_value.
    + rewrite bool_decide_false; [done|]. rewrite <- Hd. by apply not_elem_of_dom.
  - pose proof (admitted_spec 1024 (named reg (stamped batches)).*1 ltac:(lia)) as [Hsz _]. rewrite <- Hd in Hsz.
    assert (Hsub : dom (ByDN rep) ⊆ dom (acc e)).
    { intros dn [vs Hvs]%elem_of_dom. rewrite <- Hrep in Hvs. cbn in Hvs. rewrite lookup_omap in Hvs. apply elem_of_dom. by destruct (acc e !! dn); [eexists|]. }
    apply subseteq_size in Hsub. rewrite (size_dom (ByDN rep)) in Hsub. lia.
Qed.

Definition counter_sample (v : Z) : Sample :=
  mkSample 0 "enb1" "node" {[CanonicalNASDLDrop := mkMetric CanonicalNASDLDrop Counter (f_of_Z v) "count"]} ∅.

(** A counter read as 5, then 9, in one window. *)
Lemma pm_report_exact_witness :
  let '(e', rep) := flush 10%Z (ingest_all [(1%Z, [counter_sample 5]); (2%Z, [counter_sample 9])]
                                  (NewPmEngine 0%Z demo_registry None (mkPmConfig 0%Z 0%Z))) in
  v_Value <$> (ByDN rep !! NodeDN demo_registry ≫= fun vs => vs !! CanonicalNASDLDrop) = Some (f_of_Z 4).
Proof.
  pose proof (pm_report_exact 0%Z 10%Z demo_nrm demo_registry None (mkPmConfig 0%Z 0%Z)
    [(1%Z, [counter_sample 5]); (2%Z, [counter_sample 9])] demo_registry_new) as H.
  cbv zeta in H. destruct (flush _ _) as [e' rep]. destruct H as (_ & _ & _ & _ & _ & H & _). rewrite H. vm_compute. reflexivity.
Defined.
