(* ===== verification/Tca.v ===== *)
(** * Threshold crossing alerts (internal/ems/fcaps/tca: config.go, engine.go)

    The engine reads performance reports and keeps one small state machine per rule and managed
    object: a threshold must stay crossed for the raise duration before the alarm is raised, and stay
    good for the clear duration before it is cleared. Go visits a map in any order, so that order is a
    parameter ([RangeOrder]). What an evaluation asks of [transition] depends on the report and the
    configuration only, so each evaluate function is given as the list of calls it makes. *)
From S2P Require Import Prelude GoNum GoStrings Json FileSystem Alarms Errors Nrm Pm.

(** ** Configuration (config.go) *)

Record RuleConfig := mkRule {
  rc_Enabled : bool;
  RaiseThreshold : float64;
  ClearThreshold : float64;
  RaiseDuration : duration;
  ClearDuration : duration
}.

(** The zero value. *)
Definition no_rule : RuleConfig := mkRule false f_zero f_zero 0%Z 0%Z.

Record TcaConfig := mkTcaConfig { tc_Enabled : bool; Rules : gmap string RuleConfig }.

Definition RuleS1InterfaceDown : string := "s1_interface_down".
Definition RuleNASSignalingLoss : string := "nas_signaling_loss".
Definition RuleNASSecurityMismatch : string := "nas_security_mismatch".
Definition RuleNASParsingFailure : string := "nas_parsing_failure".
Definition RuleRRCProtocolError : string := "rrc_protocol_error".
Definition RuleRRCConnectionRejection : string := "rrc_connection_rejection".
Definition RuleCoreServiceReject : string := "core_service_reject".
Definition RulePagingCapacityExceeded : string := "paging_capacity_exceeded".
Definition RuleRLCMaxRetransmissions : string := "rlc_max_retransmissions".
Definition RuleLowThroughput : string := "low_throughput".
Definition RuleBadSignalCondition : string := "bad_signal_condition".
Definition RuleHighBLER : string := "high_bler".
Definition RuleRLFStorm : string := "radio_link_failure_storm".
Definition RuleRFInterference : string := "rf_interference_detected".
Definition RuleUEInactivityCleanup : string := "ue_inactivity_cleanup".
Definition RuleBearerCongestion : string := "bearer_congestion".
Definition RulePowerHeadroomCritical : string := "power_headroom_critical".

Definition immediateRule (raise clear : float64) (raiseDuration clearDuration : duration) : RuleConfig :=
  mkRule true raise clear raiseDuration clearDuration.

(** A decimal constant: the float64 nearest to n/d. *)
Definition f_ratio (n d : Z) : float64 := f_div (f_of_Z n) (f_of_Z d).

Definition DemoSafeRules : list (string * RuleConfig) :=
  [ (RuleS1InterfaceDown, immediateRule (f_of_Z 1) (f_of_Z 1) 0%Z (secs 10));
    (RuleNASSignalingLoss, immediateRule f_zero f_zero 0%Z (secs 30));
    (RuleNASSecurityMismatch, immediateRule f_zero f_zero 0%Z (secs 30));
    (RuleNASParsingFailure, immediateRule f_zero f_zero 0%Z (secs 30));
    (RuleRRCProtocolError, immediateRule f_zero f_zero 0%Z (secs 30));
    (RuleRRCConnectionRejection, immediateRule f_zero f_zero 0%Z (secs 30));
    (RuleCoreServiceReject, immediateRule f_zero f_zero 0%Z (secs 30));
    (RulePagingCapacityExceeded, immediateRule f_zero f_zero 0%Z (secs 30));
    (RuleRLCMaxRetransmissions, immediateRule f_zero f_zero 0%Z (secs 30));
    (RuleLowThroughput, immediateRule (f_of_Z 1000000) (f_of_Z 1000001) (secs 30) (secs 10));
    (RuleBadSignalCondition, immediateRule f_zero (f_of_Z 5) (secs 10) (secs 10));
    (RuleHighBLER, immediateRule (f_ratio 10 100) (f_ratio 5 100) (secs 10) (secs 10));
    (RuleRLFStorm, immediateRule (f_of_Z 5) f_zero 0%Z (secs 30));
    (RuleRFInterference, immediateRule (f_of_Z (-90)) (f_of_Z (-95)) (secs 10) (secs 10));
    (RuleUEInactivityCleanup, immediateRule (f_ratio 8 10) (f_ratio 1 10) (secs 30) (secs 30));
    (RuleBearerCongestion, immediateRule (f_of_Z 500000) (f_of_Z 100000) (secs 10) (secs 10));
    (RulePowerHeadroomCritical, immediateRule f_zero (f_of_Z 3) (secs 10) (secs 10)) ].

Definition DemoSafeConfig : TcaConfig := mkTcaConfig true (list_to_map DemoSafeRules).

Definition normalizeRule (def in_ : RuleConfig) : RuleConfig :=
  if negb (rc_Enabled in_) then def <|rc_Enabled := false|>
  else
    let def := def <|rc_Enabled := true|> <|RaiseThreshold := RaiseThreshold in_|> <|ClearThreshold := ClearThreshold in_|> in
    let def := if (0 <? RaiseDuration in_)%Z then def <|RaiseDuration := RaiseDuration in_|> else def in
    if (0 <? ClearDuration in_)%Z then def <|ClearDuration := ClearDuration in_|> else def.

Definition NormalizeConfig (in_ : TcaConfig) : TcaConfig :=
  if negb (tc_Enabled in_) then mkTcaConfig false ∅
  else
    let def := DemoSafeConfig in
    def <|Rules := map_imap (fun name rule => Some (normalizeRule (default no_rule (Rules def !! name)) rule)) (Rules in_) ∪ Rules def|>.

Definition Rule (c : TcaConfig) (name : string) : RuleConfig :=
  if negb (tc_Enabled c) then no_rule else default no_rule (Rules c !! name).

(** ** The engine (engine.go) *)

Definition componentPrefix : string := "tca:".

Record stateKey := mkStateKey { sk_rule : string; sk_component : string; sk_code : string }.

#[export] Instance stateKey_eq_dec : EqDecision stateKey.
Proof. solve_decision. Defined.

#[export] Instance stateKey_countable : Countable stateKey.
Proof.
  by refine (inj_countable' (fun k => (sk_rule k, sk_component k, sk_code k)) (fun p => mkStateKey p.1.1 p.1.2 p.2) _); intros [].
Defined.

Record ruleState := mkState { active : bool; pendingRaise : time; pendingClear : time }.
Definition idle : ruleState := mkState false 0%Z 0%Z.

Record thresholdRule := mkThreshold { tr_name : string; tr_code : string; tr_config : RuleConfig; tr_severity : string }.

(** The arguments of one call of transition; the value itself goes to the log only. *)
Record Call := mkCall {
  c_now : time;
  c_rule : thresholdRule;
  c_moi : DN;
  c_violation : bool;
  c_clear : bool;
  c_detail : string
}.

Definition call_component (c : Call) : string := componentPrefix +:+ c_moi c.
Definition call_key (c : Call) : stateKey := mkStateKey (tr_name (c_rule c)) (call_component c) (tr_code (c_rule c)).

(** The order in which a range statement visits a map; the number tells the statements apart. *)
Class RangeOrder := {
  range_dns : nat -> gmap DN (gmap string Value) -> list (DN * gmap string Value);
  range_values : nat -> gmap string Value -> list (string * Value);
  range_dns_perm : forall i m, range_dns i m ≡ₚ map_to_list m;
  range_values_perm : forall i m, range_values i m ≡ₚ map_to_list m
}.

(** The engine's states, and the alarm manager it reports to. *)
Definition St : Type := gmap stateKey ruleState * (AlarmStore * World).

Section Engine.
Context {GL : GoLib} {RC : RecordCodec}.

Definition raise_alarm (c : Call) (sw : AlarmStore * World) : (AlarmStore * World) * list Event :=
  let rule := c_rule c in
  let alarm := NewThresholdAlarmWithSeverity (tr_code rule) (c_moi c) (c_detail c) (tr_severity rule) in
  let '(s, w, (evt, changed)) := Raise (c_now c) (call_component c) "degraded" alarm (fst sw) (snd sw) in
  ((s, w), if changed then [evt] else []).

Definition clear_alarm (c : Call) (sw : AlarmStore * World) : (AlarmStore * World) * list Event :=
  let '(s, w, evt) := ManagerClear (c_now c) (call_component c) (tr_code (c_rule c)) "healthy" (fst sw) (snd sw) in
  ((s, w), match evt with Some evt => [evt] | None => [] end).

Definition transition (c : Call) (st : St) : St * list Event :=
  let '(states, sw) := st in
  let now := c_now c in
  let cfg := tr_config (c_rule c) in
  let key := call_key c in
  let state := default idle (states !! key) in
  if negb (active state) then
    if negb (c_violation c) then ((delete key states, sw), [])
    else
      let fresh := time_is_zero (pendingRaise state) in
      let state := if fresh then state <|pendingRaise := now|> else state in
      let states := if fresh then <[key := state]> states else states in
      if fresh && (0 <? RaiseDuration cfg)%Z then ((states, sw), [])
      else if (time_sub now (pendingRaise state) <? RaiseDuration cfg)%Z then ((<[key := state]> states, sw), [])
      else
        let state := state <|active := true|> <|pendingRaise := 0%Z|> in
        let '(sw, evts) := raise_alarm c sw in
        ((<[key := state]> states, sw), evts)
  else if c_clear c then
    let fresh := time_is_zero (pendingClear state) in
    let state := if fresh then state <|pendingClear := now|> else state in
    let states := if fresh then <[key := state]> states else states in
    if fresh && (0 <? ClearDuration cfg)%Z then ((states, sw), [])
    else if (time_sub now (pendingClear state) <? ClearDuration cfg)%Z then ((<[key := state]> states, sw), [])
    else
      let '(sw, evts) := clear_alarm c sw in
      ((delete key states, sw), evts)
  else
    let states := <[key := state <|pendingClear := 0%Z|>]> states in
    if c_violation c then ((states, ManagerTouch now (call_component c) (tr_code (c_rule c)) (fst sw) (snd sw)), [])
    else ((states, sw), []).

(** Calls in order, with the events they return. *)
Fixpoint run_calls (calls : list Call) (st : St) : St * list Event :=
  match calls with
  | [] => (st, [])
  | c :: rest => let '(st, out) := transition c st in
                 let '(st, out') := run_calls rest st in (st, out ++ out')
  end.

(** *** What a report is asked for *)

Context {RO : RangeOrder}.

Definition Values : Type := gmap string Value.

Definition metricValue (key : string) (values : Values) : option float64 := v_Value <$> values !! key.

Fixpoint firstMetricValue (keys : list string) (values : Values) : option float64 :=
  match keys with
  | [] => None
  | key :: r => match values !! key with Some v => Some (v_Value v) | None => firstMetricValue r values end
  end.

Definition maxBLER (values : Values) : option float64 :=
  foldl (fun max key => match values !! key with
                        | None => max
                        | Some v => match max with
                                    | None => Some (v_Value v)
                                    | Some m => if f_lt m (v_Value v) then Some (v_Value v) else Some m
                                    end
                        end) None [CanonicalUEDLBLER; CanonicalUEULBLER].

Definition badSignalValue (values : Values) : option float64 :=
  match values !! CanonicalUEULSNR, values !! CanonicalUEDLCQI with
  | Some snr, cqi => if f_lt (v_Value snr) f_zero then Some (v_Value snr)
                     else match cqi with Some cqi => Some (v_Value cqi) | None => Some (v_Value snr) end
  | None, Some cqi => Some (v_Value cqi)
  | None, None => None
  end.

Definition sumValues (values : Values) (keys : list string) : option float64 :=
  foldl (fun out key => match values !! key with
                        | None => out
                        | Some v => Some (f_add (default f_zero out) (v_Value v))
                        end) None keys.

Definition belowRaise (v : float64) (cfg : RuleConfig) : bool := f_lt v (RaiseThreshold cfg).
Definition aboveRaise (v : float64) (cfg : RuleConfig) : bool := f_lt (RaiseThreshold cfg) v.
Definition atOrBelowRaise (v : float64) (cfg : RuleConfig) : bool := f_le v (RaiseThreshold cfg).
Definition belowClear (v : float64) (cfg : RuleConfig) : bool := f_lt v (ClearThreshold cfg).
Definition atOrBelowClear (v : float64) (cfg : RuleConfig) : bool := f_le v (ClearThreshold cfg).
Definition aboveClear (v : float64) (cfg : RuleConfig) : bool := f_lt (ClearThreshold cfg) v.
Definition atOrAboveClear (v : float64) (cfg : RuleConfig) : bool := f_le (ClearThreshold cfg) v.

Definition evaluatePerDNWithRule (site : nat) (report : Report) (now : time) (rule : thresholdRule)
    (valueFn : Values -> option float64) (violationFn clearFn : float64 -> RuleConfig -> bool) : list Call :=
  p ← range_dns site (ByDN report);
  match valueFn p.2 with
  | None => []
  | Some v => if f_is_nan v || f_is_inf v then []
              else [mkCall now rule p.1 (violationFn v (tr_config rule)) (clearFn v (tr_config rule))
                      (tr_name rule +:+ " value " +:+ FormatFloat v 6)]
  end.

Definition evaluatePerDN (site : nat) (c : TcaConfig) (report : Report) (now : time) (ruleName code : string)
    (valueFn : Values -> option float64) (violationFn clearFn : float64 -> RuleConfig -> bool) : list Call :=
  let cfg := Rule c ruleName in
  if negb (rc_Enabled cfg) then []
  else evaluatePerDNWithRule site report now (mkThreshold ruleName code cfg "") valueFn violationFn clearFn.

Definition evaluateS1Interface (site : nat) (c : TcaConfig) (report : Report) (now : time) : list Call :=
  let cfg := Rule c RuleS1InterfaceDown in
  if negb (rc_Enabled cfg) then []
  else evaluatePerDNWithRule site report now (mkThreshold RuleS1InterfaceDown AlarmS1InterfaceDown cfg "")
         (firstMetricValue [CanonicalS1APReady; CanonicalNGAPReady]) belowRaise atOrAboveClear.

Record counterRule := mkCounterRule { cr_rule : string; cr_code : string; cr_keys : list string; cr_majorAt : float64; cr_escalates : bool }.

Definition counterRules : list counterRule :=
  [ mkCounterRule RuleNASSignalingLoss AlarmNASSignalingLoss [CanonicalNASDLDrop; CanonicalNASULFail] f_zero false;
    mkCounterRule RuleNASSecurityMismatch AlarmNASSecurityMismatch [CanonicalNASULSecUnknown] f_zero false;
    mkCounterRule RuleNASParsingFailure AlarmNASParsingFailure [CanonicalNASULParseFail; CanonicalNASDLParseFail] f_zero false;
    mkCounterRule RuleRRCProtocolError AlarmRRCProtocolError [CanonicalRRCProtocolFail] f_zero false;
    mkCounterRule RuleRRCConnectionRejection AlarmRRCConnectionRejection [CanonicalRRCConRejectTX] (f_of_Z 5) true;
    mkCounterRule RuleCoreServiceReject AlarmCoreServiceReject [CanonicalNASDLServiceRej] f_zero false;
    mkCounterRule RulePagingCapacityExceeded AlarmPagingCapacityExceeded [CanonicalRRCPagingFail] f_zero false;
    mkCounterRule RuleRLCMaxRetransmissions AlarmRLCMaxRetransmissions [CanonicalRRCMaxRLCRetx] f_zero false ].

Definition evaluateNodeCounters (site : nat) (c : TcaConfig) (report : Report) (now : time) : list Call :=
  ip ← imap pair counterRules;
  let '(i, item) := ip in
  let cfg := Rule c (cr_rule item) in
  if negb (rc_Enabled cfg) then []
  else
    p ← range_dns (site + i) (ByDN report);
    match sumValues p.2 (cr_keys item) with
    | None => []
    | Some v =>
        let severity := if cr_escalates item && f_le (cr_majorAt item) v then SeverityMajor else "" in
        [mkCall now (mkThreshold (cr_rule item) (cr_code item) cfg severity) p.1 (aboveRaise v cfg) (atOrBelowClear v cfg)
           (cr_rule item +:+ " delta " +:+ FormatFloat v 0)]
    end.

(** The sums of evaluateLowThroughput: total throughput, connected UEs and the object to blame. *)
Definition throughput_step (t : float64 * float64 * DN) (p : DN * Values) : float64 * float64 * DN :=
  let '(total, connected, moi) := t in
  let moi := if String.eqb moi "" then p.1 else moi in
  let total := match p.2 !! CanonicalUEDLBitrate with Some dl => f_add total (v_Value dl) | None => total end in
  let total := match p.2 !! CanonicalUEULBitrate with Some ul => f_add total (v_Value ul) | None => total end in
  match p.2 !! CanonicalRRCConnectedUES with
  | Some v => if f_lt connected (v_Value v) then (total, v_Value v, p.1) else (total, connected, moi)
  | None => (total, connected, moi)
  end.

Definition evaluateLowThroughput (site : nat) (c : TcaConfig) (report : Report) (now : time) : list Call :=
  let cfg := Rule c RuleLowThroughput in
  if negb (rc_Enabled cfg) then []
  else
    let '(total, connected, moi) := foldl throughput_step (f_zero, f_zero, "") (range_dns site (ByDN report)) in
    let moi := if String.eqb moi "" then "SubNetwork=unknown/ManagedElement=unknown" else moi in
    let violation := f_lt f_zero connected && f_lt total (RaiseThreshold cfg) in
    let clear := f_le connected f_zero || f_le (ClearThreshold cfg) total in
    [mkCall now (mkThreshold RuleLowThroughput AlarmLowThroughputActiveUsers cfg "") moi violation clear
       ("aggregate throughput " +:+ FormatFloat total 3 +:+ " bps with connected UEs " +:+ FormatFloat connected 0)].

Definition evaluateBearerCongestion (site : nat) (c : TcaConfig) (report : Report) (now : time) : list Call :=
  let cfg := Rule c RuleBearerCongestion in
  if negb (rc_Enabled cfg) then []
  else
    p ← range_dns site (ByDN report);
    kv ← range_values site p.2;
    if negb (HasPrefix kv.1 "bearer.") || negb (HasSuffix kv.1 ".dl_buffered_bytes") then []
    else let v := v_Value kv.2 in
         [mkCall now (mkThreshold RuleBearerCongestion AlarmBearerCongestion cfg "") p.1 (aboveRaise v cfg) (atOrBelowClear v cfg)
            (kv.1 +:+ " buffered " +:+ FormatFloat v 0 +:+ " bytes")].

(** The calls of Evaluate; [clock] is time.Now(), read when the report has no end. *)
Definition evaluate_calls (clock : time) (c : TcaConfig) (report : Report) : list Call :=
  let now := if time_is_zero (End report) then clock else End report in
  evaluateS1Interface 0 c report now ++
  evaluateNodeCounters 1 c report now ++
  evaluateLowThroughput 9 c report now ++
  evaluatePerDN 10 c report now RuleBadSignalCondition AlarmBadSignalCondition badSignalValue belowRaise aboveClear ++
  evaluatePerDN 11 c report now RuleHighBLER AlarmHighBLER maxBLER aboveRaise belowClear ++
  evaluatePerDN 12 c report now RuleRLFStorm AlarmRadioLinkFailureStorm (metricValue CanonicalUERRCRLFCnt) aboveRaise atOrBelowClear ++
  evaluatePerDN 13 c report now RuleRFInterference AlarmRFInterferenceDetected (metricValue CanonicalUEULPUCCHNI) aboveRaise belowClear ++
  evaluatePerDN 14 c report now RuleUEInactivityCleanup AlarmUEInactivityCleanup (metricValue CanonicalUERRCInactivity) aboveRaise belowClear ++
  evaluateBearerCongestion 15 c report now ++
  evaluatePerDN 16 c report now RulePowerHeadroomCritical AlarmPowerHeadroomCritical (metricValue CanonicalUEULPHR) atOrBelowRaise aboveClear.

Definition Evaluate (clock : time) (c : TcaConfig) (report : Report) (st : St) : St * list Event :=
  if negb (tc_Enabled c) then (st, []) else run_calls (evaluate_calls clock c report) st.

(** NewEngine: the normalized configuration, no states. *)
Definition NewEngine (cfg : TcaConfig) (sw : AlarmStore * World) : TcaConfig * St := (NormalizeConfig cfg, (∅, sw)).

Definition Enabled (c : TcaConfig) : bool := tc_Enabled c.

Definition ComponentMOI (component : string) : string := TrimPrefix component componentPrefix.

End Engine.

(** ** The dwell automaton

    One rule and object, seen from outside: whether the alarm is on, and since when (zero for never)
    the reports ask for the opposite. *)

Record tsample := mkTs { ts_now : time; ts_violation : bool; ts_clear : bool }.

Definition phase : Type := bool * time.

(** A sample asks to leave the phase, and for how long it must keep asking. *)
Definition asks (on : bool) (x : tsample) : bool := if on then ts_clear x else ts_violation x.
Definition dwell (cfg : RuleConfig) (on : bool) : duration := if on then ClearDuration cfg else RaiseDuration cfg.

Definition phase_step (cfg : RuleConfig) (p : phase) (x : tsample) : phase :=
  let '(on, since) := p in
  if asks on x then
    let since' := if time_is_zero since then ts_now x else since in
    if (time_is_zero since && (0 <? dwell cfg on)%Z) || (time_sub (ts_now x) since' <? dwell cfg on)%Z then (on, since')
    else (negb on, 0%Z)
  else (on, 0%Z).

Definition phase_run (cfg : RuleConfig) (h : list tsample) (p : phase) : phase := foldl (phase_step cfg) p h.

(** The samples at the end of a history have all satisfied [P] for at least [d]. *)
Definition dwelt (P : tsample -> bool) (d : duration) (h : list tsample) : Prop :=
  exists h1 x r, h = h1 ++ x :: r /\ forallb P (x :: r) = true /\ (d <= time_sub (ts_now (default x (last r))) (ts_now x))%Z.

Definition times_ok (h : list tsample) : Prop :=
  Forall (fun x => ts_now x <> 0%Z) h /\ forall i j x y, i <= j -> h !! i = Some x -> h !! j = Some y -> (ts_now x <= ts_now y)%Z.

(** *** Leaving a phase takes a full dwell *)

Lemma phase_since (cfg : RuleConfig) (h : list tsample) :
  let '(on, since) := phase_run cfg h (false, 0%Z) in
  since <> 0%Z -> exists h1 x r, h = h1 ++ x :: r /\ forallb (asks on) (x :: r) = true /\ ts_now x = since.
Proof.
  induction h as [|x h IH] using rev_ind; [by intros []|]. unfold phase_run in *. rewrite foldl_app. cbn [foldl].
  destruct (foldl (phase_step cfg) (false, 0%Z) h) as [on since]. unfold phase_step. destruct (asks on x) eqn:Ea; [|by intros []].
  set (keep := _ || _). destruct keep; [|by intros []]. unfold time_is_zero. destruct (Z.eqb_spec since 0) as [Hz|Hz].
  - intros _. exists h, x, []. cbn [forallb]. by rewrite Ea.
  - intros _. destruct (IH Hz) as (h1 & y & r & -> & Hall & Ht). exists h1, y, (r ++ [x]). split_and!; [by rewrite <- app_assoc| |done].
    rewrite app_comm_cons, forallb_app, Hall. cbn. by rewrite Ea.
Qed.

Lemma last_snoc_default {A} (x y : A) (r : list A) : default x (last (r ++ [y])) = y.
Proof. by rewrite last_snoc. Qed.

Lemma leave_needs_dwell (cfg : RuleConfig) (h : list tsample) (x : tsample) :
  let on := fst (phase_run cfg h (false, 0%Z)) in
  fst (phase_run cfg (h ++ [x]) (false, 0%Z)) = negb on -> dwelt (asks on) (dwell cfg on) (h ++ [x]).
Proof.
  cbv zeta. pose proof (phase_since cfg h) as Hs. unfold phase_run in *. rewrite foldl_app. cbn [foldl].
  destruct (foldl (phase_step cfg) (false, 0%Z) h) as [on since]. cbn [fst]. unfold phase_step.
  destruct (asks on x) eqn:Ea; [|by destruct on]. destruct (_ || _) eqn:Ek; [by destruct on|]. intros _. apply orb_false_iff in Ek as [Hf Hd].
  apply Z.ltb_ge in Hd. unfold time_is_zero in *. destruct (Z.eqb_spec since 0) as [Hz|Hz].
  - exists h, x, []. cbn [forallb last default]. rewrite Ea. split_and!; try done.
  - destruct (Hs Hz) as (h1 & y & r & -> & Hall & <-). exists h1, y, (r ++ [x]). rewrite last_snoc_default.
    split_and!; [by rewrite <- app_assoc| |done]. rewrite app_comm_cons, forallb_app, Hall. cbn. by rewrite Ea.
Qed.

(** *** A full dwell leaves the phase *)

Lemma phase_bounded (cfg : RuleConfig) (h : list tsample) (T : time) :
  Forall (fun x => (ts_now x <= T)%Z) h -> let '(_, since) := phase_run cfg h (false, 0%Z) in since <> 0%Z -> (since <= T)%Z.
Proof.
  intros Hh. pose proof (phase_since cfg h) as Hs. destruct (phase_run cfg h (false, 0%Z)) as [on since]. intros Hz.
  destruct (Hs Hz) as (h1 & x & r & -> & _ & <-). apply Forall_app in Hh as [_ Hh]. by apply Forall_cons in Hh as [? _].
Qed.

(** While the samples ask to leave [on] and nothing else, the machine has left, or waits since [t0]. *)
Definition waits (on : bool) (t0 : time) (p : phase) : Prop := fst p = negb on \/ (fst p = on /\ snd p <> 0%Z /\ (snd p <= t0)%Z).

Lemma waits_step (cfg : RuleConfig) (on : bool) (t0 : time) (p : phase) (x : tsample) :
  asks on x && negb (asks (negb on) x) = true -> waits on t0 p ->
  waits on t0 (phase_step cfg p x) /\ ((dwell cfg on <= time_sub (ts_now x) t0)%Z -> fst (phase_step cfg p x) = negb on).
Proof.
  intros [Ha Hn]%andb_true_iff Hw. apply negb_true_iff in Hn. destruct p as [b since]. destruct Hw as [Hw|(Hb & Hz & Ht)]; cbn [fst snd] in *.
  - subst b. unfold phase_step. rewrite Hn. by split; [left|].
  - subst b. unfold phase_step. rewrite Ha. unfold time_is_zero. destruct (Z.eqb_spec since 0) as [|_]; [done|]. cbn [andb orb].
    destruct (_ <? _)%Z eqn:E; b2p; [|by split; [left|]]. split; [by right|]. intros Hd. exfalso.
    pose proof (time_sub_mono (ts_now x) since t0 Ht). lia.
Qed.

Lemma enter_waits (cfg : RuleConfig) (on : bool) (p : phase) (x : tsample) :
  ts_now x <> 0%Z -> (snd p <> 0%Z -> (snd p <= ts_now x)%Z) -> asks on x && negb (asks (negb on) x) = true ->
  waits on (ts_now x) (phase_step cfg p x) /\ ((dwell cfg on <= 0)%Z -> fst (phase_step cfg p x) = negb on).
Proof.
  intros Hx Hp [Ha Hn]%andb_true_iff. apply negb_true_iff in Hn. destruct p as [b since]. cbn [snd] in Hp. unfold phase_step.
  destruct (decide (b = on)) as [->|Hb].
  - rewrite Ha. unfold time_is_zero. destruct (Z.eqb_spec since 0) as [Hz|Hz]; cbn [andb].
    + assert (Hs : time_sub (ts_now x) (ts_now x) = 0%Z) by (unfold time_sub; rewrite Z.sub_diag; reflexivity). rewrite Hs.
      destruct (0 <? dwell cfg on)%Z eqn:E; cbn [orb]; [|by split; [left|]]. split; [by right; cbn|]. b2p. lia.
    + cbn [orb]. destruct (_ <? _)%Z eqn:E; b2p; [|by split; [left|]]. split; [right; cbn; auto|]. intros Hd. exfalso.
      pose proof (time_sub_mono (ts_now x) since (ts_now x) (Hp Hz)) as Hm. unfold time_sub in Hm at 1. rewrite Z.sub_diag in Hm.
      assert (Hb : (0 <= Z.max min_duration (Z.min max_duration 0))%Z) by done. lia.
  - assert (b = negb on) as -> by (by destruct b, on). rewrite Hn. by split; [left|].
Qed.

Lemma dwell_leaves (cfg : RuleConfig) (h : list tsample) (on : bool) :
  times_ok h -> dwelt (fun x => asks on x && negb (asks (negb on) x)) (dwell cfg on) h -> fst (phase_run cfg h (false, 0%Z)) = negb on.
Proof.
  intros [Hnz Hord] (h1 & x & r & -> & Hall & Hd). unfold phase_run. rewrite foldl_app. cbn [foldl].
  apply Forall_app in Hnz as [_ Hnz]. apply Forall_cons in Hnz as [Hx _]. cbn [forallb] in Hall. apply andb_true_iff in Hall as [Hax Hall].
  assert (Hb : snd (foldl (phase_step cfg) (false, 0%Z) h1) <> 0%Z -> (snd (foldl (phase_step cfg) (false, 0%Z) h1) <= ts_now x)%Z).
  { pose proof (phase_bounded cfg h1 (ts_now x)) as Hpb. unfold phase_run in Hpb. destruct (foldl _ _ h1) as [b since]. apply Hpb.
    apply Forall_lookup. intros i y Hi. eapply (Hord i (length h1)); [by apply lookup_lt_Some in Hi; lia| |by apply list_lookup_middle].
    by apply lookup_app_l_Some. }
  destruct (enter_waits cfg on _ x Hx Hb Hax) as [Hw H0]. set (p := phase_step cfg _ x) in *. clearbody p.
  assert (Hr : forall r, forallb (fun x => asks on x && negb (asks (negb on) x)) r = true -> waits on (ts_now x) (foldl (phase_step cfg) p r)).
  { clear -Hw. induction r as [|y r IH] using rev_ind; intros Hall; [done|]. rewrite forallb_app in Hall. apply andb_true_iff in Hall as [Hr Hy].
    cbn in Hy. rewrite andb_true_r in Hy. rewrite foldl_app. cbn [foldl]. apply waits_step; [done|]. by apply IH. }
  destruct r as [|y r _] using rev_ind.
  - cbn in Hd. apply H0. unfold time_sub in Hd. rewrite Z.sub_diag in Hd. exact Hd.
  - rewrite last_snoc_default in Hd. rewrite foldl_app. cbn [foldl]. rewrite forallb_app in Hall. apply andb_true_iff in Hall as [Hall Hy].
    cbn in Hy. rewrite andb_true_r in Hy. by apply (waits_step cfg on (ts_now x) _ y Hy (Hr r Hall)).
Qed.

(** ** The engine runs the automaton *)

Definition phase_of (st : ruleState) : phase := (active st, if active st then pendingClear st else pendingRaise st).

(** Only one of the two times is in use. *)
Definition rule_wf (st : ruleState) : Prop := (if active st then pendingRaise st else pendingClear st) = 0%Z.
Definition states_wf (states : gmap stateKey ruleState) : Prop := forall k, rule_wf (default idle (states !! k)).

Lemma states_wf_empty : states_wf ∅.
Proof. intros k. by rewrite lookup_empty. Qed.

Definition call_sample (c : Call) : tsample := mkTs (c_now c) (c_violation c) (c_clear c).

Section EngineLemmas.
Context {GL : GoLib} {RC : RecordCodec}.

Lemma lookup_put (states : gmap stateKey ruleState) (key k : stateKey) (st : ruleState) :
  <[key := st]> states !! k = if decide (key = k) then Some st else states !! k.
Proof. destruct (decide (key = k)) as [<-|]; [apply lookup_insert_eq|by apply lookup_insert_ne]. Qed.

Lemma lookup_drop_state (states : gmap stateKey ruleState) (key k : stateKey) :
  delete key states !! k = if decide (key = k) then None else states !! k.
Proof. destruct (decide (key = k)) as [<-|]; [apply lookup_delete_eq|by apply lookup_delete_ne]. Qed.

Lemma transition_shape (c : Call) (states : gmap stateKey ruleState) (sw : AlarmStore * World) :
  rule_wf (default idle (states !! call_key c)) ->
  exists o, (forall k, fst (fst (transition c (states, sw))) !! k = if decide (call_key c = k) then o else states !! k) /\
            phase_of (default idle o) = phase_step (tr_config (c_rule c)) (phase_of (default idle (states !! call_key c))) (call_sample c) /\
            rule_wf (default idle o).
Proof.
  intros Hwf. unfold transition. cbv zeta. set (key := call_key c) in *. set (st := default idle (states !! key)) in *.
  destruct st as [on pr pc] eqn:Est. unfold phase_of, phase_step, asks, dwell, call_sample, rule_wf in *.
  cbn [active pendingRaise pendingClear ts_now ts_violation ts_clear] in *. unfold time_is_zero. destruct on; cbn [negb]; subst.
  - destruct (c_clear c).
    + destruct (Z.eqb_spec pc 0) as [Hz|Hz]; cbn [andb orb].
      * destruct (0 <? _)%Z; cbn [orb]; [eexists; split; [intros k; apply lookup_put|done]|].
        match goal with |- context [if (?a <? ?b)%Z then _ else _] => change a with (time_sub (c_now c) (c_now c)) end.
        destruct (_ <? _)%Z; [eexists; split; [intros k; cbn [fst]; rewrite insert_insert_eq; apply lookup_put|done]|].
        destruct (clear_alarm c sw) as [sw' evts]. eexists. split; [intros k; cbn [fst]; rewrite delete_insert_eq; apply lookup_drop_state|done].
      * destruct (_ <? _)%Z; [eexists; split; [intros k; apply lookup_put|done]|].
        destruct (clear_alarm c sw) as [sw' evts]. eexists. split; [intros k; apply lookup_drop_state|done].
    + destruct (c_violation c); eexists; (split; [intros k; apply lookup_put|done]).
  - destruct (c_violation c); cbn [negb].
    + destruct (Z.eqb_spec pr 0) as [Hz|Hz]; cbn [andb orb].
      * destruct (0 <? _)%Z; cbn [orb]; [eexists; split; [intros k; apply lookup_put|done]|].
        match goal with |- context [if (?a <? ?b)%Z then _ else _] => change a with (time_sub (c_now c) (c_now c)) end.
        destruct (_ <? _)%Z; [eexists; split; [intros k; cbn [fst]; rewrite insert_insert_eq; apply lookup_put|done]|].
        destruct (raise_alarm c sw) as [sw' evts]. eexists. split; [intros k; cbn [fst]; rewrite insert_insert_eq; apply lookup_put|done].
      * destruct (_ <? _)%Z; [eexists; split; [intros k; apply lookup_put|done]|].
        destruct (raise_alarm c sw) as [sw' evts]. eexists. split; [intros k; apply lookup_put|done].
    + eexists. split; [intros k; apply lookup_drop_state|done].
Qed.

Lemma transition_phase (c : Call) (states : gmap stateKey ruleState) (sw : AlarmStore * World) :
  states_wf states ->
  let states' := fst (fst (transition c (states, sw))) in
  states_wf states' /\
  forall k, phase_of (default idle (states' !! k)) =
    if decide (call_key c = k) then phase_step (tr_config (c_rule c)) (phase_of (default idle (states !! k))) (call_sample c)
    else phase_of (default idle (states !! k)).
Proof.
  intros Hw. destruct (transition_shape c states sw (Hw _)) as (o & Ho & Hp & Hr). cbv zeta. split.
  - intros k. rewrite Ho. destruct (decide (call_key c = k)); [done|apply Hw].
  - intros k. rewrite Ho. by destruct (decide (call_key c = k)) as [<-|].
Qed.

(** The samples a sequence of calls gives to one rule and object. *)
Definition samples_of (k : stateKey) (calls : list Call) : list tsample :=
  omap (fun c => if decide (call_key c = k) then Some (call_sample c) else None) calls.

Lemma run_calls_phase (cfg : RuleConfig) (k : stateKey) (calls : list Call) (states : gmap stateKey ruleState) (sw : AlarmStore * World) :
  states_wf states -> Forall (fun c => call_key c = k -> tr_config (c_rule c) = cfg) calls ->
  let states' := fst (fst (run_calls calls (states, sw))) in
  states_wf states' /\ phase_of (default idle (states' !! k)) = phase_run cfg (samples_of k calls) (phase_of (default idle (states !! k))).
Proof.
  intros Hw Hc. revert states sw Hw. induction Hc as [|c calls Hc _ IH]; intros states sw Hw; [done|]. cbn [run_calls].
  destruct (transition_phase c states sw Hw) as [Hw1 Hp1]. destruct (transition c (states, sw)) as [[st1 sw1] out]. cbn [fst] in *.
  destruct (IH st1 sw1 Hw1) as [Hw2 Hp2]. destruct (run_calls calls (st1, sw1)) as [[st2 sw2] out']. cbn [fst] in *. split; [done|].
  rewrite Hp2, Hp1. unfold samples_of. cbn [omap list_omap]. destruct (decide (call_key c = k)) as [Hk|Hn]; [|done]. cbn [phase_run foldl]. by rewrite Hc.
Qed.

(** *** What a call does to the alarms *)

(** The key an alarm of the call is filed under. *)
Definition filed_key (c : Call) : Key :=
  let alarm := NewThresholdAlarmWithSeverity (tr_code (c_rule c)) (c_moi c) (c_detail c) (tr_severity (c_rule c)) in
  mkKey (call_component c) (Code (Normalize (call_component c) (ManagedObjectInstance alarm) alarm)).

Definition alarm_effect (c : Call) (was now : bool) (h : gmap Key bool) : gmap Key bool :=
  if negb was && now then <[filed_key c := true]> h
  else if was && negb now then fst (AlarmSpec.clear (mkKey (call_component c) (tr_code (c_rule c))) h)
  else h.

Lemma raise_alarm_activity (c : Call) (sw : AlarmStore * World) :
  records_wf (records (fst sw)) ->
  let s' := fst (fst (raise_alarm c sw)) in
  records_wf (records s') /\ activity s' = <[filed_key c := true]> (activity (fst sw)).
Proof.
  intros Hw. unfold raise_alarm, filed_key. cbv zeta. set (alarm := NewThresholdAlarmWithSeverity _ _ _ _). destruct sw as [s w]. cbn [fst snd] in *.
  pose proof (Raise_activity (c_now c) (call_component c) "degraded" alarm s w Hw) as Ha.
  pose proof (step_filed known_status (ARaise (c_now c) (call_component c) "degraded" alarm) s w (or_introl eq_refl) (or_intror eq_refl) Hw) as [Hf _].
  cbn [alarm_step] in Hf. cbv zeta in Ha. destruct (Raise _ _ _ _ _ _) as [[s' w'] [evt ch]]. cbn [fst] in *. destruct Ha as (Ha & _). by split.
Qed.

Lemma clear_alarm_activity (c : Call) (sw : AlarmStore * World) :
  records_wf (records (fst sw)) ->
  let s' := fst (fst (clear_alarm c sw)) in
  records_wf (records s') /\ activity s' = fst (AlarmSpec.clear (mkKey (call_component c) (tr_code (c_rule c))) (activity (fst sw))).
Proof.
  intros Hw. unfold clear_alarm. destruct sw as [s w]. cbn [fst snd] in *.
  pose proof (Clear_activity (c_now c) (call_component c) (tr_code (c_rule c)) "healthy" s w Hw) as Ha.
  pose proof (step_filed known_status (AClear (c_now c) (call_component c) (tr_code (c_rule c)) "healthy") s w (or_introl eq_refl) (or_intror eq_refl) Hw) as [Hf _].
  cbn [alarm_step] in Hf. cbv zeta in Ha. destruct (ManagerClear _ _ _ _ _ _) as [[s' w'] evt]. cbn [fst] in *. destruct Ha as (Ha & _). by split.
Qed.

Lemma touch_activity (c : Call) (sw : AlarmStore * World) :
  records_wf (records (fst sw)) ->
  let s' := fst (ManagerTouch (c_now c) (call_component c) (tr_code (c_rule c)) (fst sw) (snd sw)) in
  records_wf (records s') /\ activity s' = activity (fst sw).
Proof.
  intros Hw. destruct sw as [s w]. cbn [fst snd] in *. split; [|apply Touch_activity].
  exact (proj1 (step_filed known_status (ATouch (c_now c) (call_component c) (tr_code (c_rule c))) s w (or_introl eq_refl) (or_intror eq_refl) Hw)).
Qed.

Lemma transition_activity (c : Call) (states : gmap stateKey ruleState) (sw : AlarmStore * World) :
  records_wf (records (fst sw)) ->
  let '((states', sw'), _) := transition c (states, sw) in
  records_wf (records (fst sw')) /\
  activity (fst sw') = alarm_effect c (active (default idle (states !! call_key c))) (active (default idle (states' !! call_key c))) (activity (fst sw)).
Proof.
  intros Hw. unfold transition. cbv zeta. set (key := call_key c). set (st := default idle (states !! key)).
  assert (Hstay : forall (states' : gmap stateKey ruleState) b, active (default idle (states' !! key)) = b -> records_wf (records (fst sw)) /\
    activity (fst sw) = alarm_effect c b (active (default idle (states' !! key))) (activity (fst sw))).
  { intros states' b ->. split; [done|]. unfold alarm_effect. by destruct b. }
  pose proof (raise_alarm_activity c sw Hw) as Hra. pose proof (clear_alarm_activity c sw Hw) as Hca. pose proof (touch_activity c sw Hw) as Hta.
  cbv zeta in *. destruct st as [on pr pc] eqn:Est. cbn [active pendingRaise pendingClear]. destruct on; cbn [negb].
  - destruct (c_clear c).
    + destruct (time_is_zero pc); cbn [andb].
      * destruct (0 <? _)%Z; [apply Hstay; by rewrite lookup_insert_eq|]. destruct (_ <? _)%Z; [apply Hstay; by rewrite lookup_insert_eq|].
        destruct (clear_alarm c sw) as [sw' evts]. cbn [fst] in *. by rewrite lookup_delete_eq.
      * destruct (_ <? _)%Z; [apply Hstay; by rewrite lookup_insert_eq|].
        destruct (clear_alarm c sw) as [sw' evts]. cbn [fst] in *. by rewrite lookup_delete_eq.
    + destruct (c_violation c); [|apply Hstay; by rewrite lookup_insert_eq]. destruct (ManagerTouch _ _ _ _ _) as [s' w']. cbn [fst] in *.
      by rewrite lookup_insert_eq.
  - destruct (c_violation c); cbn [negb]; [|apply Hstay; by rewrite lookup_delete_eq]. destruct (time_is_zero pr); cbn [andb].
    + destruct (0 <? _)%Z; [apply Hstay; by rewrite lookup_insert_eq|]. destruct (_ <? _)%Z; [apply Hstay; by rewrite lookup_insert_eq|].
      destruct (raise_alarm c sw) as [sw' evts]. cbn [fst] in *. by rewrite lookup_insert_eq.
    + destruct (_ <? _)%Z; [apply Hstay; by rewrite lookup_insert_eq|].
      destruct (raise_alarm c sw) as [sw' evts]. cbn [fst] in *. by rewrite lookup_insert_eq.
Qed.

End EngineLemmas.

(** ** Agreement with the alarm store *)

(** The rules and the alarms they raise. *)
Definition rule_table : list (string * string) :=
  (RuleS1InterfaceDown, AlarmS1InterfaceDown) :: ((fun r => (cr_rule r, cr_code r)) <$> counterRules) ++
  [ (RuleLowThroughput, AlarmLowThroughputActiveUsers); (RuleBadSignalCondition, AlarmBadSignalCondition); (RuleHighBLER, AlarmHighBLER);
    (RuleRLFStorm, AlarmRadioLinkFailureStorm); (RuleRFInterference, AlarmRFInterferenceDetected);
    (RuleUEInactivityCleanup, AlarmUEInactivityCleanup); (RuleBearerCongestion, AlarmBearerCongestion);
    (RulePowerHeadroomCritical, AlarmPowerHeadroomCritical) ].

Definition call_ok (c : Call) : Prop := (tr_name (c_rule c), tr_code (c_rule c)) ∈ rule_table.

Lemma rule_table_inj (n1 n2 code : string) : (n1, code) ∈ rule_table -> (n2, code) ∈ rule_table -> n1 = n2.
Proof.
  intros H1 H2. assert (Hc : forallb (fun p => forallb (fun q => implb (String.eqb p.2 q.2) (String.eqb p.1 q.1)) rule_table) rule_table = true)
    by (vm_compute; reflexivity).
  rewrite forallb_forall in Hc. specialize (Hc _ (proj1 (list_elem_of_In _ _) H1)). rewrite forallb_forall in Hc.
  specialize (Hc _ (proj1 (list_elem_of_In _ _) H2)). cbn [fst snd] in Hc. rewrite string_eqb_refl in Hc. by apply String.eqb_eq.
Qed.

Section Agreement.
Context {GL : GoLib} {RC : RecordCodec}.

(** strings.ToLower works rune by rune: a leading ASCII letter is lowered by itself. *)
Definition lower_keeps_head : Prop :=
  forall c l, is_ascii_byte c = true -> exists l', uni_to_lower (c :: l) = lower_byte c :: l'.

Lemma to_lower_head (c : ascii) (l : bytes) :
  lower_keeps_head -> is_ascii_byte c = true -> exists l', to_lower (c :: l) = lower_byte c :: l'.
Proof. intros Hl Hc. unfold to_lower. destruct (forallb is_ascii_byte (c :: l)); [by eexists|by apply Hl]. Qed.

Lemma tca_component_plain (moi code : string) :
  lower_keeps_head -> Contains code "PROCESS" = false -> Contains code "NETWORK" = false ->
  canonicalCode (componentPrefix +:+ moi) code = code.
Proof.
  intros Hl H1 H2. unfold canonicalCode. cbv zeta. set (comp := componentPrefix +:+ moi).
  assert (Hs : exists l, str comp = "t"%char :: l) by (by eexists). destruct Hs as [l Hs].
  assert (Ht : TrimSpace comp = "" \/ exists r, str (TrimSpace comp) = "t"%char :: r).
  { unfold TrimSpace. rewrite str_unstr. unfold trim_space, trim_left. rewrite Hs, strip_lead by (by apply solid_lead).
    destruct (trim_right_prefix ("t"%char :: l)) as [q Hq]. destruct (trim_right ("t"%char :: l)) as [|x r]; [by left|right].
    exists r. by injection Hq as <- _. }
  assert (Hne : forall x, x = "uds" \/ x = "netconf" -> ToLower (TrimSpace comp) <> x).
  { intros x Hx He. destruct Ht as [Ht|[r Ht]].
    - rewrite Ht in He. unfold ToLower, to_lower in He. cbn in He. subst x. by destruct Hx.
    - unfold ToLower in He. rewrite Ht in He. destruct (to_lower_head "t"%char r Hl eq_refl) as [l' Hl']. rewrite Hl' in He.
      apply (f_equal str) in He. rewrite str_unstr in He. by destruct Hx; subst x. }
  rewrite (proj2 (String.eqb_neq _ _) (Hne "uds" (or_introl eq_refl))), (proj2 (String.eqb_neq _ _) (Hne "netconf" (or_intror eq_refl))).
  by rewrite H1, H2.
Qed.

Lemma rule_code_plain (name code : string) :
  (name, code) ∈ rule_table -> TrimSpace code = code /\ code <> "" /\ Contains code "PROCESS" = false /\ Contains code "NETWORK" = false.
Proof.
  intros Hin. assert (Hc : forallb (fun p => String.eqb (TrimSpace p.2) p.2 && negb (String.eqb p.2 "") &&
      negb (Contains p.2 "PROCESS") && negb (Contains p.2 "NETWORK")) rule_table = true) by (vm_compute; reflexivity).
  rewrite forallb_forall in Hc. specialize (Hc _ (proj1 (list_elem_of_In _ _) Hin)). cbn [snd] in Hc. b2p. by split_and!.
Qed.

Lemma filed_key_plain (c : Call) :
  lower_keeps_head -> call_ok c -> filed_key c = mkKey (call_component c) (tr_code (c_rule c)).
Proof.
  intros Hl Hc. destruct (rule_code_plain _ _ Hc) as (Ht & Hne & H1 & H2). unfold filed_key. cbv zeta. f_equal.
  assert (Hn : forall comp moi a, Code a = tr_code (c_rule c) -> Code (Normalize comp moi a) = canonicalCode comp (tr_code (c_rule c))).
  { intros comp moi a Ha. unfold Normalize. cbv zeta. rewrite Ha, Ht, (proj2 (String.eqb_neq _ _) Hne). by destruct a. }
  rewrite Hn by done. by apply tca_component_plain.
Qed.

(** A rule's machine is on exactly when its alarm is active. *)
Definition agrees (states : gmap stateKey ruleState) (s : AlarmStore) : Prop :=
  forall name code moi, (name, code) ∈ rule_table ->
  active (default idle (states !! mkStateKey name (componentPrefix +:+ moi) code)) = true <-> activity s !! mkKey (componentPrefix +:+ moi) code = Some true.

Lemma transition_agree (c : Call) (st : St) :
  lower_keeps_head -> call_ok c -> states_wf (fst st) -> records_wf (records (fst (snd st))) -> agrees (fst st) (fst (snd st)) ->
  let st' := fst (transition c st) in states_wf (fst st') /\ records_wf (records (fst (snd st'))) /\ agrees (fst st') (fst (snd st')).
Proof.
  intros Hl Hc Hw Hr Ha. destruct st as [states sw]. cbn [fst snd] in *. pose proof (transition_activity c states sw Hr) as Ht.
  destruct (transition_shape c states sw (Hw _)) as (o & Ho & _). destruct (transition_phase c states sw Hw) as [Hw' _].
  destruct (transition c (states, sw)) as [[states' sw'] out]. cbn [fst snd] in *. destruct Ht as [Hr' Ht]. split_and!; [done|done|].
  intros name code moi Hin. rewrite Ht. clear Ht. specialize (Ha name code moi Hin). pose proof (Ho (call_key c)) as Hoc. rewrite decide_True in Hoc by done.
  rewrite Hoc, Ho. unfold alarm_effect. rewrite filed_key_plain by done. set (K := mkKey (call_component c) (tr_code (c_rule c))).
  destruct (decide (call_key c = mkStateKey name (componentPrefix +:+ moi) code)) as [Hk|Hk].
  - pose proof (f_equal sk_component Hk) as Hcomp. pose proof (f_equal sk_code Hk) as Hcode. unfold call_key in Hcomp, Hcode.
    cbn [sk_component sk_code] in Hcomp, Hcode. assert (HK : K = mkKey (componentPrefix +:+ moi) code) by (unfold K; by rewrite Hcode, Hcomp).
    rewrite Hk, HK. destruct (active (default idle (states !! _))) eqn:E1, (active (default idle o)) eqn:E2; cbn [negb andb].
    + done.
    + unfold AlarmSpec.clear. rewrite bool_decide_true by (by apply Ha). cbn [fst]. by rewrite lookup_insert_eq.
    + by rewrite lookup_insert_eq.
    + done.
  - assert (HK : K <> mkKey (componentPrefix +:+ moi) code).
    { intros HK. pose proof (f_equal k_Component HK) as Hcomp. pose proof (f_equal k_Code HK) as Hcode. cbn [K k_Component k_Code] in Hcomp, Hcode.
      apply Hk. unfold call_key. rewrite Hcomp, Hcode. f_equal. apply (rule_table_inj _ _ code); [|done].
      unfold call_ok in Hc. by rewrite Hcode in Hc. }
    rewrite Ha. destruct (negb _ && _); [by rewrite lookup_insert_ne|]. destruct (_ && _); [|done].
    unfold AlarmSpec.clear. case_bool_decide; [|done]. cbn [fst]. by rewrite lookup_insert_ne.
Qed.

Lemma run_calls_agree (calls : list Call) (st : St) :
  lower_keeps_head -> Forall call_ok calls -> states_wf (fst st) -> records_wf (records (fst (snd st))) -> agrees (fst st) (fst (snd st)) ->
  let st' := fst (run_calls calls st) in states_wf (fst st') /\ records_wf (records (fst (snd st'))) /\ agrees (fst st') (fst (snd st')).
Proof.
  intros Hl Hc. revert st. induction Hc as [|c calls Hc _ IH]; intros st Hw Hr Ha; [done|]. cbn [run_calls].
  destruct (transition_agree c st Hl Hc Hw Hr Ha) as (Hw1 & Hr1 & Ha1). destruct (transition c st) as [st1 out]. cbn [fst] in *.
  specialize (IH st1 Hw1 Hr1 Ha1). by destruct (run_calls calls st1) as [st2 out'].
Qed.

Context {RO : RangeOrder}.

Lemma per_dn_ok (site : nat) (report : Report) (now : time) (rule : thresholdRule) valueFn violationFn clearFn :
  (tr_name rule, tr_code rule) ∈ rule_table -> Forall call_ok (evaluatePerDNWithRule site report now rule valueFn violationFn clearFn).
Proof.
  intros Hin. apply Forall_bind, Forall_forall. intros [dn vs] _. cbn. destruct (valueFn vs); [|done]. destruct (_ || _); [done|]. by apply Forall_singleton.
Qed.

Lemma evaluate_calls_ok (clock : time) (c : TcaConfig) (report : Report) : Forall call_ok (evaluate_calls clock c report).
Proof.
  assert (Hin : forall n code, existsb (fun p => String.eqb p.1 n && String.eqb p.2 code) rule_table = true -> (n, code) ∈ rule_table).
  { intros n code He. apply existsb_exists in He as ([n' code'] & Hin & Hb). cbn in Hb. b2p. subst. by apply list_elem_of_In. }
  assert (Hper : forall site now n code f v cl, existsb (fun p => String.eqb p.1 n && String.eqb p.2 code) rule_table = true ->
            Forall call_ok (evaluatePerDN site c report now n code f v cl)).
  { intros. unfold evaluatePerDN. cbv zeta. destruct (negb _); [done|]. apply per_dn_ok. by apply Hin. }
  unfold evaluate_calls. cbv zeta. rewrite !Forall_app. split_and!; try (by apply Hper).
  - apply Forall_bind, Forall_forall. intros [i item] Hi. unfold compose. destruct (negb _); [done|].
    apply Forall_bind, Forall_forall. intros [dn vs] _. unfold compose. cbn [fst snd].
    destruct (sumValues vs (cr_keys item)); [|done]. apply Forall_singleton. unfold call_ok. cbn [c_rule tr_name tr_code].
    apply elem_of_lookup_imap in Hi as (j & x & [= -> ->] & Hx). apply list_elem_of_lookup_2 in Hx. right. apply elem_of_app. left.
    apply list_elem_of_fmap. by exists x.
  - unfold evaluateLowThroughput. cbv zeta. destruct (negb _); [done|]. destruct (foldl _ _ _) as [[total connected] moi]. apply Forall_singleton. by apply Hin.
  - unfold evaluateBearerCongestion. cbv zeta. destruct (negb _); [done|]. apply Forall_bind, Forall_forall. intros [dn vs] _. unfold compose. apply Forall_bind, Forall_forall.
    intros [k v] _. unfold compose. cbn [fst snd]. destruct (_ || _); [done|]. apply Forall_singleton. by apply Hin.
Qed.

End Agreement.

(** ** Runs of the service: reports, and the alarms of other components *)

Inductive tca_op := TEvaluate (clock : time) (report : Report) | TAlarm (op : alarm_op).

Definition op_component (op : alarm_op) : string :=
  match op with
  | ARaise _ c _ _ => c
  | ATouch _ c _ => c
  | AClear _ c _ _ => c
  | AClearComponent _ c _ => c
  end.

Definition tca_op_ok (op : tca_op) : Prop :=
  match op with TEvaluate _ _ => True | TAlarm op => HasPrefix (op_component op) componentPrefix = false end.

Section Runs.
Context {GL : GoLib} {RC : RecordCodec} {RO : RangeOrder}.

Definition tca_step (c : TcaConfig) (st : St) (op : tca_op) : St :=
  match op with
  | TEvaluate clock report => fst (Evaluate clock c report st)
  | TAlarm op => (fst st, alarm_step op (snd st))
  end.

Definition tca_run (c : TcaConfig) (ops : list tca_op) (st : St) : St := foldl (tca_step c) st ops.

(** An operation on another component leaves the activity of a key alone. *)
Lemma foreign_activity (op : alarm_op) (s : AlarmStore) (w : World) (k : Key) :
  records_wf (records s) -> k_Component k <> op_component op ->
  activity (fst (alarm_step op (s, w))) !! k = activity s !! k.
Proof.
  intros Hw Hk. destruct op as [t c h a|t c code|t c code h|t c h]; cbn [alarm_step op_component] in *.
  - pose proof (Raise_activity t c h a s w Hw) as Ha. cbv zeta in Ha. destruct (Raise _ _ _ _ _ _) as [[s' w'] [ev ch]]. destruct Ha as (Ha & _).
    cbn [fst]. rewrite Ha. cbn [AlarmSpec.raise fst]. apply lookup_insert_ne. intros <-. by destruct Hk.
  - by rewrite Touch_activity.
  - pose proof (Clear_activity t c code h s w Hw) as Ha. cbv zeta in Ha. destruct (ManagerClear _ _ _ _ _ _) as [[s' w'] ev]. destruct Ha as (Ha & _).
    cbn [fst]. rewrite Ha. unfold AlarmSpec.clear. case_bool_decide; [|done]. cbn [fst]. apply lookup_insert_ne. intros <-. by destruct Hk.
  - pose proof (ClearComponent_activity t c h s w Hw) as Ha. destruct (ManagerClearComponent _ _ _ _ _) as [[s' w'] evs]. destruct Ha as (Ha & _).
    cbn [fst]. rewrite Ha. unfold AlarmSpec.clear_component. rewrite map_lookup_imap. destruct (activity s !! k) as [b|]; [|done]. cbn.
    rewrite (proj2 (String.eqb_neq _ _) Hk). by rewrite andb_true_r.
Qed.

Lemma tca_step_agree (c : TcaConfig) (st : St) (op : tca_op) :
  lower_keeps_head -> tca_op_ok op -> states_wf (fst st) -> records_wf (records (fst (snd st))) -> agrees (fst st) (fst (snd st)) ->
  let st' := tca_step c st op in states_wf (fst st') /\ records_wf (records (fst (snd st'))) /\ agrees (fst st') (fst (snd st')).
Proof.
  intros Hl Ho Hw Hr Ha. destruct op as [clock report|op]; cbn [tca_step].
  - unfold Evaluate. destruct (negb _); [done|]. by apply run_calls_agree; [|apply evaluate_calls_ok|..].
  - destruct st as [states [s w]]. cbn [fst snd] in *. split_and!; [done| |].
    + exact (proj1 (step_filed known_status op s w (or_introl eq_refl) (or_intror eq_refl) Hr)).
    + intros name code moi Hin. rewrite (Ha name code moi Hin). rewrite foreign_activity; [done|done|]. cbn [k_Component]. cbn in Ho. intros He.
      rewrite <- He in Ho. destruct moi; vm_compute in Ho; discriminate Ho.
Qed.

(** ** Theorems *)

(** C37: an alarm is raised and cleared only after a full dwell, and always after one. For any
    sequence of engine calls from an empty state, and any rule and object: if a call changes whether
    the alarm is on, then the latest samples of that rule, for at least the raise (or clear)
    duration, all crossed the threshold (or were all good); and conversely, when the clock does not
    run backwards, samples that cross the threshold without being good for that long leave the alarm
    on, and good ones without a crossing leave it off. *)
Theorem tca_dwell (cfg : RuleConfig) (k : stateKey) (calls : list Call) (sw : AlarmStore * World) :
  Forall (fun c => call_key c = k -> tr_config (c_rule c) = cfg) calls ->
  let on cs := active (default idle (fst (fst (run_calls cs (∅, sw))) !! k)) in
  (forall cs c, calls = cs ++ [c] -> on calls <> on cs -> dwelt (asks (on cs)) (dwell cfg (on cs)) (samples_of k calls)) /\
  (forall b, times_ok (samples_of k calls) ->
     dwelt (fun x => asks b x && negb (asks (negb b) x)) (dwell cfg b) (samples_of k calls) -> on calls = negb b).
Proof.
  intros Hc. cbv zeta. assert (Hrun : forall cs, Forall (fun c => call_key c = k -> tr_config (c_rule c) = cfg) cs ->
    active (default idle (fst (fst (run_calls cs (∅, sw))) !! k)) = fst (phase_run cfg (samples_of k cs) (false, 0%Z))).
  { intros cs Hcs. destruct (run_calls_phase cfg k cs ∅ sw states_wf_empty Hcs) as [_ Hp]. cbv zeta in Hp. rewrite lookup_empty in Hp.
    change (phase_of (default idle None)) with (false, 0%Z) in Hp. by rewrite <- Hp. }
  split.
  - intros cs c -> Hne. apply Forall_app in Hc as [Hc1 Hc2]. rewrite (Hrun cs Hc1) in *. rewrite Hrun in Hne by (by apply Forall_app).
    assert (Hs : samples_of k (cs ++ [c]) = samples_of k cs ++ (if decide (call_key c = k) then [call_sample c] else [])).
    { unfold samples_of. rewrite omap_app. cbn. by destruct (decide (call_key c = k)). }
    rewrite Hs in *. destruct (decide (call_key c = k)); [|by rewrite app_nil_r in Hne].
    apply leave_needs_dwell. by destruct (fst (phase_run cfg (samples_of k cs ++ _) _)), (fst (phase_run cfg (samples_of k cs) _)).
  - intros b Ht Hd. rewrite Hrun by done. by apply dwell_leaves.
Qed.


(** An engine started beside an alarm left active never clears it while the reports stay good. *)
Lemma restarted_engine_keeps_alarm (calls : list Call) (sw : AlarmStore * World) :
  Forall (fun c => c_violation c = false) calls -> run_calls calls (∅, sw) = ((∅, sw), []).
Proof.
  intros Hv. assert (Ht : forall c, c_violation c = false -> transition c (∅, sw) = ((∅, sw), [])).
  { intros c Hc. unfold transition. cbv zeta. rewrite lookup_empty, Hc. cbn. by rewrite delete_empty. }
  induction Hv as [|c calls Hc _ IH]; [done|]. cbn [run_calls]. rewrite (Ht c Hc). by rewrite IH.
Qed.

End Runs.

(** ** Witnesses *)

Definition list_order : RangeOrder.
Proof. refine {| range_dns := fun _ m => map_to_list m; range_values := fun _ m => map_to_list m |}; done. Defined.

Definition lower_golib : GoLib := {|
  uni_to_lower := map lower_byte; uni_equal_fold := fun a b => bool_decide (a = b); uni_quote := id; uni_unquote := Some;
  ParseFloat := fun _ => None; ParseFloatErr := fun _ => f_zero; FormatFloat := fun _ _ => "0.000"; ParseIP := dotted_quad
|}.

Lemma lower_golib_head : lower_keeps_head (GL := lower_golib).
Proof. intros c l _. by eexists. Qed.

Definition bler_rule : RuleConfig := mkRule true (f_ratio 10 100) (f_ratio 5 100) (secs 10) (secs 10).
Definition bler_call (t : Z) : Call := mkCall (secs t) (mkThreshold RuleHighBLER AlarmHighBLER bler_rule "") "enb1" true false "bad".

(** Crossed at 1 s, 6 s and 11 s: on at the third sample. *)
Lemma tca_dwell_witness :
  let on cs := active (default idle (fst (fst (run_calls (GL := lower_golib) (RC := BitCodec.bit_codec) cs (∅, (NewStore, mkWorld ∅ [])))) !! call_key (bler_call 1))) in
  on [bler_call 1; bler_call 6; bler_call 11] = true /\
  dwelt (asks false) (secs 10) (samples_of (call_key (bler_call 1)) [bler_call 1; bler_call 6; bler_call 11]).
Proof.
  pose proof (tca_dwell (GL := lower_golib) (RC := BitCodec.bit_codec) bler_rule (call_key (bler_call 1)) [bler_call 1; bler_call 6; bler_call 11]
    (NewStore, mkWorld ∅ []) ltac:(by repeat constructor)) as [HA _]. cbv zeta in *.
  assert (Hon : active (default idle (fst (fst (run_calls (GL := lower_golib) (RC := BitCodec.bit_codec) [bler_call 1; bler_call 6; bler_call 11]
     (∅, (NewStore, mkWorld ∅ [])))) !! call_key (bler_call 1))) = true) by (vm_compute; reflexivity).
  assert (Hoff : active (default idle (fst (fst (run_calls (GL := lower_golib) (RC := BitCodec.bit_codec) [bler_call 1; bler_call 6]
     (∅, (NewStore, mkWorld ∅ [])))) !! call_key (bler_call 1))) = false) by (vm_compute; reflexivity).
  split; [exact Hon|]. specialize (HA [bler_call 1; bler_call 6] (bler_call 11) eq_refl). rewrite Hon, Hoff in HA. apply HA. discriminate.
Defined.

Definition drop_report : Report :=
  mkReport (secs 1) (secs 2) (secs 10) {["enb1" := {[CanonicalNASDLDrop := mkValue (mkMetric CanonicalNASDLDrop Counter (f_of_Z 3) "count") (f_of_Z 3)]}]}.

