(* ===== verification/Health.v ===== *)
(** * Component health and the fault service (internal/ems/health, internal/ems/services/fault_service.go)

    The tracker keeps the status of each component, derives the health of the agent from it and sends
    events to bounded channels; an event that finds a channel full is dropped. The fault service turns
    the events of its channel into alarms. The tracker registers a subscriber under its lock and
    replays the current statuses only after it has released it, so these are separate steps. *)
From S2P Require Import Prelude GoNum GoStrings Json FileSystem Alarms Errors.

(** ** The tracker (health.go) *)

Definition State : Type := string.
Definition StateUnknown : State := "unknown".
Definition StateHealthy : State := "healthy".
Definition StateDegraded : State := "degraded".
Definition StateCritical : State := "critical".

Definition Component : Type := string.
Definition ComponentUDS : Component := "uds".
Definition ComponentNetconf : Component := "netconf".

Record ComponentStatus := mkStatus { Up : bool; At : time; LastErr : option error }.

Inductive EventType_ := EventComponentUp | EventComponentDown | EventStateChange.

#[export] Instance EventType_eq_dec : EqDecision EventType_.
Proof. solve_decision. Defined.

Record HEvent := mkHEvent {
  h_Type : EventType_;
  h_At : time;
  h_Component : Component;
  h_Up : bool;
  h_Err : option error;
  h_State : State;
  h_PrevState : State
}.

(** A channel: its buffer and the buffer's size. *)
Record Chan := mkChan { ch_cap : nat; ch_buf : list HEvent }.

Record Tracker := mkTracker { components : gmap Component ComponentStatus; t_state : State; subs : gmap nat Chan }.

Definition NewTracker : Tracker := mkTracker ∅ StateUnknown ∅.

Definition derive (m : gmap Component ComponentStatus) : State :=
  let down c := match m !! c with Some s => negb (Up s) | None => false end in
  let known c := match m !! c with Some _ => true | None => false end in
  if down ComponentUDS && down ComponentNetconf then StateCritical
  else if down ComponentUDS || down ComponentNetconf then StateDegraded
  else if known ComponentUDS || known ComponentNetconf then StateHealthy
  else StateUnknown.

(** The event that tells a status. *)
Definition status_event (c : Component) (s : ComponentStatus) (state prev : State) : HEvent :=
  mkHEvent (if Up s then EventComponentUp else EventComponentDown) (At s) c (Up s) (LastErr s) state prev.

(** Registration: a channel with room for all statuses, and the statuses to replay. *)
Definition Subscribe (id : nat) (t : Tracker) : Tracker * list HEvent :=
  (t <|subs ::= <[id := mkChan (size (components t) + 16) []]>|>,
   (fun p => status_event p.1 p.2 (t_state t) (t_state t)) <$> map_to_list (components t)).

(** A send blocks on a full channel. *)
Definition send (id : nat) (ev : HEvent) (t : Tracker) : option Tracker :=
  match subs t !! id with
  | Some ch => if length (ch_buf ch) <? ch_cap ch then Some (t <|subs ::= <[id := ch <|ch_buf := ch_buf ch ++ [ev]|>]>|>) else None
  | None => None
  end.

(** A send with a default case drops instead. *)
Definition offer (ch : Chan) (ev : HEvent) : Chan :=
  if length (ch_buf ch) <? ch_cap ch then ch <|ch_buf := ch_buf ch ++ [ev]|> else ch.

(** Sends to the channels [ids] that were registered when the status was stored. A channel that has
    been closed since then makes the send panic (None). *)
Definition broadcast (ids : gset nat) (events : list HEvent) (t : Tracker) : option Tracker :=
  match events with
  | [] => Some t
  | _ => if bool_decide (ids ⊆ dom (subs t))
         then Some (t <|subs ::= map_imap (fun id ch => Some (if bool_decide (id ∈ ids) then foldl offer ch events else ch))|>)
         else None
  end.

(** The end of a subscription closes the channel. *)
Definition Unsubscribe (id : nat) (t : Tracker) : Tracker := t <|subs ::= delete id|>.

Definition errors_differ (a b : option error) : bool :=
  match a, b with
  | None, None => false
  | Some a, Some b => negb (String.eqb (Error_ a) (Error_ b))
  | _, _ => true
  end.

Definition component_changed (prev : option ComponentStatus) (s : ComponentStatus) : bool :=
  match prev with
  | None => true
  | Some p => negb (Bool.eqb (Up p) (Up s)) || errors_differ (LastErr p) (LastErr s)
  end.

(** The events of a new status. *)
Definition set_events (c : Component) (s : ComponentStatus) (t : Tracker) : list HEvent :=
  let next := derive (<[c := s]> (components t)) in
  (if component_changed (components t !! c) s then [status_event c s next (t_state t)] else []) ++
  (if String.eqb next (t_state t) then [] else [mkHEvent EventStateChange (At s) "" false None next (t_state t)]).

(** The part of set under the lock: the new status, the registered channels and the events for them. *)
Definition set_locked (c : Component) (s : ComponentStatus) (t : Tracker) : Tracker * (gset nat * list HEvent) :=
  (t <|components ::= <[c := s]>|> <|t_state := derive (<[c := s]> (components t))|>, (dom (subs t), set_events c s t)).

(** set when nothing else runs between the two parts. *)
Definition set (c : Component) (s : ComponentStatus) (t : Tracker) : option Tracker :=
  let '(t, (ids, events)) := set_locked c s t in broadcast ids events t.

Definition TrackerUp (now : time) (c : Component) (t : Tracker) : option Tracker := set c (mkStatus true now None) t.
Definition TrackerDown (now : time) (c : Component) (err : option error) (t : Tracker) : option Tracker := set c (mkStatus false now err) t.

Definition TrackerState (t : Tracker) : State := t_state t.
Definition TrackerComponent (c : Component) (t : Tracker) : option ComponentStatus := components t !! c.

(** A receive from a channel. *)
Definition recv (id : nat) (t : Tracker) : option (HEvent * Tracker) :=
  match subs t !! id with
  | Some ch => match ch_buf ch with
               | ev :: r => Some (ev, t <|subs ::= <[id := ch <|ch_buf := r|>]>|>)
               | [] => None
               end
  | None => None
  end.

(** ** The fault service (fault_service.go) *)

Section Faults.
Context {GL : GoLib} {RC : RecordCodec}.

Definition MinSeverity : ErrSeverity := ErrSeverityMajor.

Definition onComponentDown (ev : HEvent) (sw : AlarmStore * World) : (AlarmStore * World) * list Event :=
  match h_Err ev with
  | None => (sw, [])
  | Some err =>
      if negb (AtLeast (SeverityOf (Some err)) MinSeverity) then (sw, [])
      else
        let '(s, w, (out, _)) := Raise (h_At ev) (h_Component ev) (h_State ev) (ErrorAlarm (Some err)) (fst sw) (snd sw) in
        ((s, w), [out])
  end.

Definition onComponentUp (ev : HEvent) (sw : AlarmStore * World) : (AlarmStore * World) * list Event :=
  let '(s, w, cleared) := ManagerClearComponent (h_At ev) (h_Component ev) (h_State ev) (fst sw) (snd sw) in ((s, w), cleared).

(** One round of Run's loop: what is published on the bus. *)
Definition on_health_event (ev : HEvent) (sw : AlarmStore * World) : (AlarmStore * World) * list Event :=
  match h_Type ev with
  | EventStateChange => (sw, [])
  | EventComponentDown => onComponentDown ev sw
  | EventComponentUp => onComponentUp ev sw
  end.

End Faults.

(** ** The tracker and the fault service together *)

(** The service's channel. *)
Definition fault_chan : nat := 0.

Record FaultSystem := mkFaultSystem {
  f_tracker : Tracker;
  f_alarms : AlarmStore * World;
  f_handled : list HEvent
}.

Inductive fault_op := FUp (now : time) (c : Component) | FDown (now : time) (c : Component) (err : option error) | FHandle.

Definition buffer (t : Tracker) : list HEvent := match subs t !! fault_chan with Some ch => ch_buf ch | None => [] end.

Section System.
Context {GL : GoLib} {RC : RecordCodec}.

Definition op_status (op : fault_op) : option (Component * ComponentStatus) :=
  match op with
  | FUp now c => Some (c, mkStatus true now None)
  | FDown now c err => Some (c, mkStatus false now err)
  | FHandle => None
  end.

(** None when a send panics. *)
Definition fault_step (op : fault_op) (f : FaultSystem) : option FaultSystem :=
  match op_status op with
  | Some (c, s) => (fun t => f <|f_tracker := t|>) <$> set c s (f_tracker f)
  | None => match recv fault_chan (f_tracker f) with
            | Some (ev, t) => Some (mkFaultSystem t (fst (on_health_event ev (f_alarms f))) (f_handled f ++ [ev]))
            | None => Some f
            end
  end.

(** The operation finds room for its events in the service's channel. *)
Definition has_room (op : fault_op) (f : FaultSystem) : Prop :=
  match op_status op, subs (f_tracker f) !! fault_chan with
  | Some (c, s), Some ch => length (ch_buf ch) + length (set_events c s (f_tracker f)) <= ch_cap ch
  | _, _ => True
  end.

(** Runs in which no event is dropped. *)
Inductive fault_run : FaultSystem -> list fault_op -> FaultSystem -> Prop :=
| fault_nil f : fault_run f [] f
| fault_cons f op f1 ops f2 : has_room op f -> fault_step op f = Some f1 -> fault_run f1 ops f2 -> fault_run f (op :: ops) f2.

(** The service starts: it registers, and the statuses are replayed before anything else happens. *)
Definition start_service (t : Tracker) (sw : AlarmStore * World) : option FaultSystem :=
  let '(t, replay) := Subscribe fault_chan t in
  (fun t => mkFaultSystem t sw []) <$> foldl (fun ot ev => ot ≫= send fault_chan ev) (Some t) replay.

End System.

(** ** Lemmas *)

Definition tells (c : Component) (e : HEvent) : Prop := h_Type e <> EventStateChange /\ h_Component e = c.

#[export] Instance tells_dec (c : Component) (e : HEvent) : Decision (tells c e).
Proof. unfold tells. apply _. Defined.

(** The last event of a component. *)
Definition last_told (c : Component) (l : list HEvent) : option HEvent := last (filter (tells c) l).

Lemma last_told_app (c : Component) (l1 l2 : list HEvent) :
  last_told c (l1 ++ l2) = match last_told c l2 with Some e => Some e | None => last_told c l1 end.
Proof. unfold last_told. rewrite list.filter_app. apply last_app. Qed.

Definition typed (e : HEvent) : Prop :=
  h_Type e = EventStateChange \/ h_Type e = (if h_Up e then EventComponentUp else EventComponentDown).

Lemma status_event_tells (c : Component) (s : ComponentStatus) (st p : State) : tells c (status_event c s st p).
Proof. split; [|done]. cbn. by destruct (Up s). Qed.

Lemma last_told_status (c c' : Component) (s : ComponentStatus) (st p : State) :
  last_told c [status_event c' s st p] = if decide (c' = c) then Some (status_event c' s st p) else None.
Proof.
  unfold last_told. destruct (decide (c' = c)) as [<-|Hne].
  - rewrite filter_cons_True by apply status_event_tells. done.
  - rewrite filter_cons_False by (by intros [_ ?]). done.
Qed.

Lemma errors_differ_refl (a : option error) : errors_differ a a = false.
Proof. destruct a as [a|]; [|done]. cbn. by rewrite string_eqb_refl. Qed.

Lemma errors_differ_trans (a b c : option error) : errors_differ a b = false -> errors_differ b c = false -> errors_differ a c = false.
Proof. destruct a, b, c; cbn; try done. intros H1 H2. b2p. rewrite H1, H2. by rewrite string_eqb_refl. Qed.

(** The status an event tells is the given one, up to an error with the same text. *)
Definition told (st : ComponentStatus) (e : HEvent) : Prop := h_Up e = Up st /\ errors_differ (h_Err e) (LastErr st) = false.

(** Whatever a new status sends, the last word on every component is true again. *)
Lemma set_events_told (c c' : Component) (s st : ComponentStatus) (t : Tracker) (l : list HEvent) :
  (forall st, components t !! c' = Some st -> exists e, last_told c' l = Some e /\ told st e) ->
  <[c := s]> (components t) !! c' = Some st -> exists e, last_told c' (l ++ set_events c s t) = Some e /\ told st e.
Proof.
  intros Hl Hst. assert (Hsc : forall x, last_told c' (x ++ if String.eqb (derive (<[c := s]> (components t))) (t_state t) then [] else
      [mkHEvent EventStateChange (At s) "" false None (derive (<[c := s]> (components t))) (t_state t)]) = last_told c' x).
  { intros x. rewrite last_told_app. destruct (String.eqb _ _); [done|]. unfold last_told at 1. rewrite filter_cons_False; [done|by intros [? _]]. }
  unfold set_events. cbv zeta. rewrite app_assoc, Hsc, last_told_app. destruct (decide (c = c')) as [<-|Hne].
  - rewrite lookup_insert_eq in Hst. injection Hst as <-. destruct (component_changed (components t !! c) s) eqn:Ec.
    + rewrite last_told_status, decide_True by done. eexists. split; [done|]. split; [done|apply errors_differ_refl].
    + destruct (components t !! c) as [p|]; [|done]. destruct (Hl p eq_refl) as (e & He & Hu & Herr). cbn in Ec. apply orb_false_iff in Ec as [E1 E2].
      apply negb_false_iff, eqb_prop in E1. change (last_told c []) with (@None HEvent). exists e. split; [done|]. split; [congruence|].
      by eapply errors_differ_trans.
  - rewrite lookup_insert_ne in Hst by done. assert (Hn : last_told c' (if component_changed (components t !! c) s then
      [status_event c s (derive (<[c := s]> (components t))) (t_state t)] else []) = None).
    { destruct (component_changed _ _); [|done]. by rewrite last_told_status, decide_False. }
    rewrite Hn. by apply Hl.
Qed.

Lemma set_events_typed (c : Component) (s : ComponentStatus) (t : Tracker) : Forall typed (set_events c s t).
Proof.
  unfold set_events. cbv zeta. apply Forall_app. split.
  - destruct (component_changed _ _); [|done]. apply Forall_singleton. by right.
  - destruct (String.eqb _ _); [done|]. apply Forall_singleton. by left.
Qed.

Lemma offers_fit (evs : list HEvent) (ch : Chan) :
  length (ch_buf ch) + length evs <= ch_cap ch -> foldl offer ch evs = ch <|ch_buf := ch_buf ch ++ evs|>.
Proof.
  revert ch. induction evs as [|ev evs IH]; intros [cap buf] Hl; cbn [ch_buf ch_cap length] in *; [cbn; by rewrite app_nil_r|]. cbn [foldl].
  unfold offer at 2. cbn [ch_buf ch_cap]. rewrite (proj2 (Nat.ltb_lt _ _)) by lia. rewrite IH; cbn; [by rewrite <- app_assoc|]. rewrite length_app. cbn. lia.
Qed.

(** An undisturbed set never panics, and leaves the buffer with the new events behind it. *)
Lemma set_buffer (c : Component) (s : ComponentStatus) (t : Tracker) (ch : Chan) :
  subs t !! fault_chan = Some ch -> length (ch_buf ch) + length (set_events c s t) <= ch_cap ch ->
  exists t', set c s t = Some t' /\ components t' = <[c := s]> (components t) /\ t_state t' = derive (components t') /\
             subs t' !! fault_chan = Some (ch <|ch_buf := ch_buf ch ++ set_events c s t|>).
Proof.
  intros Hch Hfit. unfold set, set_locked, broadcast. destruct (set_events c s t) as [|e evs] eqn:Ee.
  - destruct t as [comps st sb]. exists (mkTracker (<[c := s]> comps) (derive (<[c := s]> comps)) sb). split_and!; [done|done|done|].
    cbn [subs] in *. rewrite Hch. destruct ch. cbn. by rewrite app_nil_r.
  - rewrite <- Ee. destruct t as [comps st sb]. cbn [subs components t_state] in *.
    set (f := map_imap (fun id ch => Some (if bool_decide (id ∈ dom sb) then foldl offer ch (set_events c s (mkTracker comps st sb)) else ch))).
    exists (mkTracker (<[c := s]> comps) (derive (<[c := s]> comps)) (f sb)). split_and!; [|done|done|].
    + rewrite bool_decide_true by done. done.
    + cbn [subs]. unfold f. rewrite map_lookup_imap, Hch. cbn [mbind option_bind]. rewrite bool_decide_true by (by eapply elem_of_dom_2).
      f_equal. rewrite Ee. by apply offers_fit.
Qed.

(** *** The alarms of one component *)

Section Alarms.
Context {GL : GoLib} {RC : RecordCodec}.

(** What the alarms of a component look like once its last event has been handled. *)
Definition settled (h : gmap Key bool) (c : Component) (e : HEvent) : Prop :=
  if h_Up e then forall code, h !! mkKey c code <> Some true
  else forall err, h_Err e = Some err -> AtLeast (SeverityOf (Some err)) MinSeverity = true ->
       h !! mkKey c (Code (Normalize c (ManagedObjectInstance (ErrorAlarm (Some err))) (ErrorAlarm (Some err)))) = Some true.

Lemma handle_activity (e : HEvent) (sw : AlarmStore * World) :
  records_wf (records (fst sw)) -> typed e ->
  let s' := fst (fst (on_health_event e sw)) in
  records_wf (records s') /\
  (forall k, ~ tells (k_Component k) e -> activity s' !! k = activity (fst sw) !! k) /\
  (h_Type e <> EventStateChange -> settled (activity s') (h_Component e) e).
Proof.
  intros Hw Ht. destruct sw as [s w]. cbn [fst] in *. unfold on_health_event, settled. destruct (h_Type e) eqn:Ety.
  - assert (Hu : h_Up e = true) by (destruct Ht as [Ht|Ht]; rewrite Ety in Ht; [done|by destruct (h_Up e)]). rewrite Hu. unfold onComponentUp. cbn [fst snd].
    pose proof (ClearComponent_activity (h_At e) (h_Component e) (h_State e) s w Hw) as Ha.
    pose proof (step_filed known_status (AClearComponent (h_At e) (h_Component e) (h_State e)) s w (or_introl eq_refl) (or_intror eq_refl) Hw) as [Hf _].
    cbn [alarm_step] in Hf. destruct (ManagerClearComponent _ _ _ _ _) as [[s' w'] evs]. cbn [fst] in *. destruct Ha as (Ha & _). rewrite Ha. split_and!; [done|..].
    + intros k Hk. unfold AlarmSpec.clear_component. rewrite map_lookup_imap. destruct (activity s !! k) as [b|]; [|done]. cbn.
      rewrite (proj2 (String.eqb_neq _ _)); [by rewrite andb_true_r|]. intros He. apply Hk. split; [by rewrite Ety|done].
    + intros _ code. unfold AlarmSpec.clear_component. rewrite map_lookup_imap. destruct (activity s !! _) as [b|]; [|done]. cbn.
      rewrite string_eqb_refl. cbn. by rewrite andb_false_r.
  - assert (Hu : h_Up e = false) by (destruct Ht as [Ht|Ht]; rewrite Ety in Ht; [done|by destruct (h_Up e)]). rewrite Hu. unfold onComponentDown. cbn [fst snd].
    destruct (h_Err e) as [err|]; [|by split_and!]. destruct (AtLeast _ _) eqn:Eal; cbn [negb].
    2:{ split_and!; [done|done|]. intros _ err' [= <-]. congruence. }
    pose proof (Raise_activity (h_At e) (h_Component e) (h_State e) (ErrorAlarm (Some err)) s w Hw) as Ha.
    pose proof (step_filed known_status (ARaise (h_At e) (h_Component e) (h_State e) (ErrorAlarm (Some err))) s w (or_introl eq_refl) (or_intror eq_refl) Hw) as [Hf _].
    cbn [alarm_step] in Hf. cbv zeta in Ha. destruct (Raise _ _ _ _ _ _) as [[s' w'] [out ch]]. cbn [fst] in *. destruct Ha as (Ha & _). rewrite Ha.
    split_and!; [done|..].
    + intros k Hk. cbn [AlarmSpec.raise fst]. apply lookup_insert_ne. intros <-. apply Hk. split; [by rewrite Ety|done].
    + intros _ err' [= <-] _. cbn [AlarmSpec.raise fst]. apply lookup_insert_eq.
  - by split_and!.
Qed.

Record system_inv (f : FaultSystem) : Prop := {
  sys_chan : is_Some (subs (f_tracker f) !! fault_chan);
  sys_records : records_wf (records (fst (f_alarms f)));
  sys_state : t_state (f_tracker f) = derive (components (f_tracker f));
  sys_typed : Forall typed (f_handled f ++ buffer (f_tracker f));
  sys_told : forall c st, components (f_tracker f) !! c = Some st ->
    exists e, last_told c (f_handled f ++ buffer (f_tracker f)) = Some e /\ told st e;
  sys_settled : forall c e, last_told c (f_handled f) = Some e -> settled (activity (fst (f_alarms f))) c e
}.

Lemma settled_frame (h h' : gmap Key bool) (c : Component) (e : HEvent) :
  (forall code, h' !! mkKey c code = h !! mkKey c code) -> settled h c e -> settled h' c e.
Proof. intros Hf. unfold settled. destruct (h_Up e); [intros Hs code; by rewrite Hf|]. intros Hs err He Ha. rewrite Hf. auto. Qed.

Lemma last_told_snoc (c : Component) (l : list HEvent) (e : HEvent) :
  last_told c (l ++ [e]) = if decide (tells c e) then Some e else last_told c l.
Proof.
  rewrite last_told_app. unfold last_told at 1. destruct (decide (tells c e)); [by rewrite filter_cons_True|by rewrite filter_cons_False].
Qed.

Lemma fault_step_inv (op : fault_op) (f : FaultSystem) :
  has_room op f -> system_inv f -> exists f', fault_step op f = Some f' /\ system_inv f'.
Proof.
  intros Hroom [[ch Hch] Hr Hst Hty Hto Hse]. unfold fault_step, has_room in *. destruct (op_status op) as [[c s]|].
  - rewrite Hch in Hroom. destruct (set_buffer c s (f_tracker f) ch Hch Hroom) as (t' & -> & Hc & Hs & Hb). cbn [fmap option_fmap option_map].
    exists (mkFaultSystem t' (f_alarms f) (f_handled f)). split; [by destruct f|]. destruct f as [t sw hd]. cbn [f_tracker f_alarms f_handled] in *.
    assert (Hbuf : buffer t' = buffer t ++ set_events c s t) by (unfold buffer; rewrite Hb, Hch; by destruct ch).
    constructor; cbn [f_tracker f_alarms f_handled]; try done.
    + rewrite Hbuf, app_assoc. apply Forall_app. split; [done|]. apply set_events_typed.
    + intros c' st Hst'. rewrite Hbuf, app_assoc. rewrite Hc in Hst'. exact (set_events_told c c' s st t _ (Hto c') Hst').
  - unfold recv. rewrite Hch. destruct (ch_buf ch) as [|ev r] eqn:Eb; [eexists; split; [done|]; by constructor|]. eexists. split; [done|].
    destruct f as [t sw hd]. cbn [f_tracker f_alarms f_handled] in *. unfold buffer in Hty, Hto. rewrite Hch, Eb in Hty, Hto.
    assert (Hb' : buffer (t <|subs ::= <[fault_chan := ch <|ch_buf := r|>]>|>) = r) by (unfold buffer; destruct t, ch; cbn; by rewrite lookup_insert_eq).
    assert (Hev : typed ev) by (apply Forall_app in Hty as [_ Hty]; by apply Forall_cons in Hty as [? _]).
    destruct (handle_activity ev sw Hr Hev) as (Hr' & Hother & Hown). constructor; cbn [f_tracker f_alarms f_handled].
    + destruct t; cbn. by rewrite lookup_insert_eq.
    + done.
    + by destruct t.
    + by rewrite Hb', <- app_assoc.
    + intros c st Hc. rewrite Hb', <- app_assoc. apply Hto. by destruct t.
    + intros c e. rewrite last_told_snoc. destruct (decide (tells c ev)) as [[Hne Hc]|Hn].
      * intros [= <-]. rewrite <- Hc. by apply Hown.
      * intros He. eapply settled_frame; [|by apply Hse]. intros code. by apply Hother.
Qed.

Lemma fault_run_inv (f f' : FaultSystem) (ops : list fault_op) : fault_run f ops f' -> system_inv f -> system_inv f'.
Proof.
  induction 1 as [|f op f1 ops f2 Hroom Hstep _ IH]; intros Hi; [done|]. destruct (fault_step_inv op f Hroom Hi) as (f1' & Hs & Hi').
  rewrite Hstep in Hs. injection Hs as <-. by apply IH.
Qed.

End Alarms.

(** *** The start of the service *)

Lemma sends_fit (l : list HEvent) (t : Tracker) (ch : Chan) :
  subs t !! fault_chan = Some ch -> length (ch_buf ch) + length l <= ch_cap ch ->
  exists t', foldl (fun ot ev => ot ≫= send fault_chan ev) (Some t) l = Some t' /\ components t' = components t /\ t_state t' = t_state t /\
             subs t' !! fault_chan = Some (ch <|ch_buf := ch_buf ch ++ l|>).
Proof.
  revert t ch. induction l as [|ev l IH]; intros t ch Hch Hl.
  - exists t. split_and!; [done|done|done|]. rewrite Hch. destruct ch. cbn. by rewrite app_nil_r.
  - cbn [foldl mbind option_bind]. unfold send at 2. cbn [length] in Hl. rewrite Hch, (proj2 (Nat.ltb_lt _ _)) by lia.
    destruct (IH (t <|subs ::= <[fault_chan := ch <|ch_buf := ch_buf ch ++ [ev]|>]>|>) (ch <|ch_buf := ch_buf ch ++ [ev]|>)) as (t' & H1 & H2 & H3 & H4).
    + destruct t. cbn. apply lookup_insert_eq.
    + destruct ch. cbn in *. rewrite length_app. cbn. lia.
    + exists t'. split_and!; [done|by rewrite H2; destruct t|by rewrite H3; destruct t|]. rewrite H4. f_equal. destruct ch. cbn. by rewrite <- app_assoc.
Qed.

Lemma replay_told (l : list (Component * ComponentStatus)) (st0 : State) (c : Component) (st : ComponentStatus) :
  NoDup l.*1 -> (c, st) ∈ l ->
  last_told c ((fun p => status_event p.1 p.2 st0 st0) <$> l) = Some (status_event c st st0 st0).
Proof.
  assert (Hno : forall l : list (Component * ComponentStatus), c ∉ l.*1 -> last_told c ((fun p => status_event p.1 p.2 st0 st0) <$> l) = None).
  { clear. induction l as [|[k s] l IH]; intros Hn; [done|]. cbn in Hn. apply not_elem_of_cons in Hn as [Hne Hn].
    change ((fun p => status_event p.1 p.2 st0 st0) <$> (k, s) :: l) with ([status_event k s st0 st0] ++ ((fun p => status_event p.1 p.2 st0 st0) <$> l)).
    rewrite last_told_app, (IH Hn), last_told_status. by rewrite decide_False. }
  induction l as [|[k s] l IH]; intros Hnd Hin; [by apply not_elem_of_nil in Hin|]. cbn in Hnd. apply NoDup_cons in Hnd as [Hk Hnd].
  change ((fun p => status_event p.1 p.2 st0 st0) <$> (k, s) :: l) with ([status_event k s st0 st0] ++ ((fun p => status_event p.1 p.2 st0 st0) <$> l)).
  rewrite last_told_app. apply elem_of_cons in Hin as [[= <- <-]|Hin].
  - by rewrite Hno, last_told_status, decide_True.
  - by rewrite IH.
Qed.

Section Start.
Context {GL : GoLib} {RC : RecordCodec}.

Lemma start_inv (t : Tracker) (sw : AlarmStore * World) :
  t_state t = derive (components t) -> records_wf (records (fst sw)) -> exists f, start_service t sw = Some f /\ system_inv f.
Proof.
  intros Hst Hr. unfold start_service, Subscribe. set (replay := _ <$> map_to_list (components t)). set (t1 := t <|subs ::= _|>).
  assert (Hlen : length replay = size (components t)) by (unfold replay; rewrite length_fmap; apply length_map_to_list).
  assert (Hch : subs t1 !! fault_chan = Some (mkChan (size (components t) + 16) [])) by (unfold t1; destruct t; cbn; apply lookup_insert_eq).
  destruct (sends_fit replay t1 _ Hch) as (t' & -> & Hc & Hs & Hb); [cbn; lia|]. cbn [fmap option_fmap option_map].
  assert (Hbuf : buffer t' = replay) by (unfold buffer; by rewrite Hb). assert (Hct : components t1 = components t) by (by destruct t).
  eexists. split; [done|]. constructor; cbn [f_tracker f_alarms f_handled app]; try done.
  - rewrite Hs, Hc, Hct, <- Hst. by destruct t.
  - rewrite Hbuf. apply Forall_fmap, Forall_forall. intros p _. by right.
  - intros c st Hcs. rewrite Hbuf. rewrite Hc, Hct in Hcs. eexists. split.
    + apply replay_told; [apply NoDup_fst_map_to_list|by apply elem_of_map_to_list].
    + split; [done|apply errors_differ_refl].
Qed.

(** ** Theorems *)


End Start.

(** ** Witness and findings *)

Definition link_error : error := New 0%Z ErrCodeIO "socket closed" [WithOp "uds"; WithSeverity ErrSeverityCritical].

Definition start_system : FaultSystem :=
  default (mkFaultSystem NewTracker (NewStore, mkWorld ∅ []) []) (start_service NewTracker (NewStore, mkWorld ∅ [])).
Definition step_or_stay (op : fault_op) (f : FaultSystem) : FaultSystem :=
  default f (fault_step (GL := ascii_golib) (RC := BitCodec.bit_codec) op f).

Definition demo_ops : list fault_op :=
  [FDown 5%Z ComponentUDS (Some link_error); FHandle; FUp 6%Z ComponentUDS; FHandle; FHandle; FHandle].
Definition demo_system (n : nat) : FaultSystem := foldl (flip step_or_stay) start_system (take n demo_ops).


(** A subscription that ends between the two parts of set makes the send panic. *)
Lemma send_on_closed_channel :
  let '(t, _) := Subscribe fault_chan NewTracker in
  let '(t, (ids, events)) := set_locked ComponentUDS (mkStatus true 1%Z None) t in
  broadcast ids events (Unsubscribe fault_chan t) = None.
Proof. vm_compute. reflexivity. Qed.

(** A component that recovers between registration and replay is left with an active alarm: the
    stale status arrives after the new one. *)
Lemma stale_replay_raises_alarm :
  let t0 := default NewTracker (TrackerDown 1%Z ComponentUDS (Some link_error) NewTracker) in
  let '(t1, replay) := Subscribe fault_chan t0 in
  let t2 := default t1 (TrackerUp 2%Z ComponentUDS t1) in
  let t3 := default t2 (foldl (fun ot ev => ot ≫= send fault_chan ev) (Some t2) replay) in
  let f := mkFaultSystem t3 (NewStore, mkWorld ∅ []) [] in
  let f := step_or_stay FHandle (step_or_stay FHandle (step_or_stay FHandle f)) in
  buffer (f_tracker f) = [] /\ (Up <$> TrackerComponent ComponentUDS (f_tracker f)) = Some true /\
  activity (fst (f_alarms f)) !! mkKey ComponentUDS AlarmUDSDisconnected = Some true.
Proof. vm_compute. split_and!; reflexivity. Qed.
