(* ===== verification/Worker.v ===== *)
(** * Worker supervision (internal/ems/worker: backoff.go, supervisor.go)

    The supervisor restarts a worker that exits with an error, after a delay that doubles up to a
    maximum and starts over once the worker has run long enough. *)
From S2P Require Import Prelude GoNum GoStrings Json FileSystem Alarms Errors.

(** ** Backoff (backoff.go) *)

Record ExponentialBackoff := mkBackoff {
  Base : duration;
  Max : duration;
  ResetAfter : duration;
  Jitter : float64;
  cur : duration
}.

Definition NewExponentialBackoff (base max resetAfter : duration) (jitter : float64) : ExponentialBackoff :=
  mkBackoff (if (base <=? 0)%Z then second else base)
            (if (max <=? 0)%Z then secs 30 else max)
            (if (resetAfter <=? 0)%Z then secs 30 else resetAfter)
            (if f_lt jitter f_zero then f_zero else jitter) 0%Z.

Definition int64_mul (a b : Z) : Z := wrap_signed 64 (a * b).
Definition int64_add (a b : Z) : Z := wrap_signed 64 (a + b).

(** [rnd] is the random number in [0, 1) that is drawn when there is jitter. *)
Definition Next (rnd : float64) (uptime : duration) (b : ExponentialBackoff) : ExponentialBackoff * duration :=
  let c := if (ResetAfter b <=? uptime)%Z then 0%Z else cur b in
  let c := if (c =? 0)%Z then Base b
           else let d := int64_mul c 2 in if (Max b <? d)%Z then Max b else d in
  let delay := if f_lt f_zero (Jitter b)
               then int64_add c (f_to_int64 (f_mul (f_mul rnd (Jitter b)) (f_of_Z c))) else c in
  (b <|cur := c|>, delay).

(** ** The supervisor (supervisor.go) *)

(** One life of the worker: how it ends, after how long, and whether the context is cancelled when it
    ends or during the delay. *)
Record life := mkLife {
  l_err : option error;
  l_uptime : duration;
  l_rnd : float64;
  l_cancelled : bool;
  l_cancelled_waiting : bool
}.

(** The supervisor through the lives of its worker: the delays it waited; true when it has returned. *)
Fixpoint supervise (lives : list life) (b : ExponentialBackoff) : list duration * bool :=
  match lives with
  | [] => ([], false)
  | l :: rest =>
      if l_cancelled l then ([], true)
      else match l_err l with
           | None => ([], true)
           | Some _ =>
               let '(b, delay) := Next (l_rnd l) (l_uptime l) b in
               if l_cancelled_waiting l then ([], true)
               else let '(ds, fin) := supervise rest b in (delay :: ds, fin)
           end
  end.

Definition default_backoff : ExponentialBackoff := NewExponentialBackoff second (secs 30) (secs 30) (f_div (f_of_Z 1) (f_of_Z 10)).

(** ** Lemmas *)

(** The delay before jitter after a number of failures in a row. *)
Fixpoint doubled (base max : Z) (n : nat) : Z :=
  match n with
  | 0 => base
  | S n => Z.min max (2 * doubled base max n)
  end.

Lemma doubled_bounds (base max : Z) (n : nat) : (0 < base)%Z -> (0 < max)%Z -> (0 < doubled base max n <= Z.max base max)%Z.
Proof. intros Hb Hm. induction n as [|n IH]; cbn [doubled]; lia. Qed.

(** How many failures in a row the backoff has seen. *)
Inductive streak (b : ExponentialBackoff) : option nat -> Prop :=
| streak_none : cur b = 0%Z -> streak b None
| streak_some n : cur b = doubled (Base b) (Max b) n -> streak b (Some n).

Definition backoff_ok (b : ExponentialBackoff) : Prop :=
  (0 < Base b < 2 ^ 62)%Z /\ (0 < Max b < 2 ^ 62)%Z /\ (0 < ResetAfter b)%Z.

(** The streak after one more failure. *)
Definition next_streak (reset : bool) (k : option nat) : nat :=
  match k with Some n => if reset then 0 else S n | None => 0 end.

Lemma Next_streak (rnd : float64) (uptime : duration) (b : ExponentialBackoff) (k : option nat) :
  backoff_ok b -> streak b k ->
  let '(b', delay) := Next rnd uptime b in
  let c := doubled (Base b) (Max b) (next_streak (ResetAfter b <=? uptime)%Z k) in
  b' = b <|cur := c|> /\ (0 < c <= Z.max (Base b) (Max b))%Z /\
  delay = (if f_lt f_zero (Jitter b) then int64_add c (f_to_int64 (f_mul (f_mul rnd (Jitter b)) (f_of_Z c))) else c).
Proof.
  intros (Hb & Hm & Hr) Hs. unfold Next. cbv zeta.
  assert (Hc : (if ((if (ResetAfter b <=? uptime)%Z then 0%Z else cur b) =? 0)%Z then Base b
     else if (Max b <? int64_mul (if (ResetAfter b <=? uptime)%Z then 0%Z else cur b) 2)%Z then Max b
          else int64_mul (if (ResetAfter b <=? uptime)%Z then 0%Z else cur b) 2) =
     doubled (Base b) (Max b) (next_streak (ResetAfter b <=? uptime)%Z k)).
  { destruct (ResetAfter b <=? uptime)%Z; cbn [next_streak]; [by destruct k|]. destruct Hs as [Hz|n Hn].
    - rewrite Hz. done.
    - pose proof (doubled_bounds (Base b) (Max b) n ltac:(lia) ltac:(lia)) as Hd. rewrite Hn.
      rewrite (proj2 (Z.eqb_neq _ _)) by lia. unfold int64_mul. rewrite wrap_signed_small; [|lia|unfold fits_int; lia]. cbn [next_streak doubled].
      destruct (Z.ltb_spec (Max b) (doubled (Base b) (Max b) n * 2)); lia. }
  rewrite Hc. split_and!; [done| | |done]; apply doubled_bounds; lia.
Qed.
