(* ===== verification/Lifecycle.v ===== *)
(** * Container restarts (internal/ems/worker/lifecycle.go)

    The supervisor restarts a container and its dependents through the Docker API. What the API
    answers, how long each request and wait takes and when the context is cancelled are a script that
    every request and wait takes the next entry of; requests and answers are kept in a log. *)
From S2P Require Import Prelude GoNum GoStrings Json FileSystem Alarms Errors.

(** ** The environment *)

Inductive answer :=
| AReply (status : Z) (body : string)
| AFail (err : error)
| ACancel.

Inductive docker_call :=
| DPost (url : string) (timeout : duration)
| DGet (url : string)
| DWait (d : duration).

Record Docker := mkDocker {
  clock : time;
  script : list (N * answer);
  log : list (docker_call * answer)
}.

Definition canceled : error := Plain "context canceled".

(** A request or wait: the clock moves on by at least [least]. *)
Definition ask (c : docker_call) (least : duration) (d : Docker) : Docker * answer :=
  match script d with
  | [] => let a := AFail (Plain "no answer") in (mkDocker (clock d + least)%Z [] (log d ++ [(c, a)]), a)
  | (dt, a) :: r => (mkDocker (clock d + least + Z.of_N dt)%Z r (log d ++ [(c, a)]), a)
  end.

(** select on the context and time.After: true when the time has passed. *)
Definition wait (dur : duration) (d : Docker) : Docker * bool :=
  let '(d, a) := ask (DWait dur) (Z.max 0 dur)%Z d in
  (d, match a with ACancel => false | _ => true end).

(** ** URLs *)

Definition hex_upper (n : N) : ascii := if (n <? 10)%N then ascii_of_N (n + 48) else ascii_of_N (n + 55).
Definition escape_byte (keep : ascii -> bool) (c : ascii) : bytes :=
  if is_lower c || is_upper c || is_digit c || keep c then [c]
  else ["%"%char; hex_upper (code c / 16); hex_upper (code c mod 16)].

Definition unreserved (c : ascii) : bool := existsb (Ascii.eqb c) (str "-_.~").

(** url.PathEscape *)
Definition PathEscape (s : string) : string :=
  unstr (str s ≫= escape_byte (fun c => unreserved c || existsb (Ascii.eqb c) (str "$&+=:@"))).

(** url.QueryEscape *)
Definition QueryEscape (s : string) : string :=
  unstr (str s ≫= fun c => if Ascii.eqb c " " then ["+"%char] else escape_byte unreserved c).

Definition trim_right_slash (l : bytes) : bytes := rev (drop (length (take_while (Ascii.eqb "/") (rev l))) (rev l)).
Definition trim_slash (l : bytes) : bytes := trim_right_slash (drop (length (take_while (Ascii.eqb "/") l)) l).

(** ** The supervisor *)

Record RestartPlan := mkPlan { Primary : string; Dependents : list string; DelayAfterStart : duration }.

Record DockerLifecycleSupervisor := mkSupervisor {
  APIVersion : string;
  Timeout : duration;
  Endpoint : string;
  Plans : gmap string RestartPlan
}.

Definition NewDockerLifecycleSupervisor (timeout : duration) : DockerLifecycleSupervisor := mkSupervisor "" timeout "http://unix" ∅.

Definition trim_plan (target : string) (p : RestartPlan) : RestartPlan :=
  let primary := TrimSpace (Primary p) in
  mkPlan (if String.eqb primary "" then target else primary)
         (List.filter (fun d => negb (String.eqb d "")) (TrimSpace <$> Dependents p)) (DelayAfterStart p).

(** The plans in the order the map is visited: of two keys that trim to the same target, the later one
    wins. *)
Definition SetPlans (plans : list (string * RestartPlan)) (s : DockerLifecycleSupervisor) : DockerLifecycleSupervisor :=
  s <|Plans := foldl (fun out kp => let target := TrimSpace kp.1 in
                                    if String.eqb target "" then out else <[target := trim_plan target kp.2]> out) ∅ plans|>.

Definition planForTarget (target : string) (s : DockerLifecycleSupervisor) : RestartPlan :=
  match Plans s !! target with
  | Some p => if String.eqb (Primary p) "" then p <|Primary := target|> else p
  | None => mkPlan target [] (secs 5)
  end.

Definition requestTimeout (action : string) (s : DockerLifecycleSupervisor) : duration :=
  let base := if (Timeout s <=? 0)%Z then secs 20 else Timeout s in
  if String.eqb action "stop" then wrap_signed 64 (base + secs 15)
  else if (base <? secs 10)%Z then secs 10 else base.

Definition strconvSeconds (d : duration) : string :=
  if (d <=? 0)%Z then "0"
  else
    let r := (d mod second)%Z in
    let rounded := if (r + r <? second)%Z then (d - r)%Z
                   else let d1 := wrap_signed 64 (d + second - r) in if (d <? d1)%Z then d1 else max_duration in
    let n := (rounded / second)%Z in
    FormatInt (if (n <? 1)%Z then 1%Z else n).

Definition actionURL (target action : string) (query : list (string * string)) (s : DockerLifecycleSupervisor) : string :=
  let base := unstr (trim_right_slash (str (Endpoint s))) in
  let apiVersion := unstr (trim_slash (str (APIVersion s))) in
  let u := if String.eqb apiVersion ""
           then base +:+ "/containers/" +:+ PathEscape target +:+ "/" +:+ action
           else base +:+ "/" +:+ apiVersion +:+ "/containers/" +:+ PathEscape target +:+ "/" +:+ action in
  match query with
  | [] => u
  | _ => u +:+ "?" +:+ String.concat "&" ((fun kv => QueryEscape kv.1 +:+ "=" +:+ QueryEscape kv.2) <$> query)
  end.

Definition inspectURL (target : string) (s : DockerLifecycleSupervisor) : string :=
  let base := unstr (trim_right_slash (str (Endpoint s))) in
  let apiVersion := unstr (trim_slash (str (APIVersion s))) in
  if String.eqb apiVersion "" then base +:+ "/containers/" +:+ PathEscape target +:+ "/json"
  else base +:+ "/" +:+ apiVersion +:+ "/containers/" +:+ PathEscape target +:+ "/json".

Section Restart.
Context {GL : GoLib}.
(** json.Decoder on the answer of an inspect: whether the container runs. *)
Context (decode_running : string -> result string bool) (s : DockerLifecycleSupervisor).

Definition docker_error (now : time) (msg : string) : error :=
  New now ErrCodeProcess msg [WithOp "docker_supervisor"; WithSeverity ErrSeverityCritical].
Definition interrupted (now : time) (msg : string) : error :=
  default canceled (Wrap now (Some canceled) ErrCodeProcess msg [WithOp "docker_supervisor"; WithSeverity ErrSeverityMajor]).

(** 204 No Content or 304 Not Modified. *)
Definition accepted (a : answer) : bool :=
  match a with AReply status _ => (status =? 204)%Z || (status =? 304)%Z | _ => false end.

Definition doContainerAction (target action : string) (query : list (string * string)) (d : Docker) : Docker * option error :=
  let '(d, a) := ask (DPost (actionURL target action query s) (requestTimeout action s)) 0%Z d in
  match a with
  | AReply status body =>
      if accepted a then (d, None)
      else
        let msg := TrimSpace (unstr (take 4096 (str body))) in
        let msg := if String.eqb msg "" then "status=" +:+ FormatInt status else msg in
        (d, Some (docker_error (clock d) ("docker action " +:+ Quote action +:+ " failed for " +:+ Quote target +:+ ": " +:+ msg)))
  | AFail err => (d, Wrap (clock d) (Some err) ErrCodeNetwork "docker api request failed" [WithOp "docker_supervisor"; WithSeverity ErrSeverityCritical])
  | ACancel => (d, Wrap (clock d) (Some canceled) ErrCodeNetwork "docker api request failed" [WithOp "docker_supervisor"; WithSeverity ErrSeverityCritical])
  end.

Definition stopContainer (target : string) (d : Docker) : Docker * option error :=
  match doContainerAction target "stop" [("t", strconvSeconds (Timeout s))] d with
  | (d, None) => (d, None)
  | (d, Some err) =>
      match doContainerAction target "kill" [] d with
      | (d, None) => (d, None)
      | (d, Some killErr) =>
          (d, Some (docker_error (clock d) ("container stop/kill failed for " +:+ Quote target +:+ ": stop=" +:+ Error_ err +:+ "; kill=" +:+ Error_ killErr)))
      end
  end.

(** The attempts [i], [i+1], ... of startContainer. *)
Fixpoint start_loop (attempts i : nat) (target : string) (lastErr : string) (d : Docker) : Docker * option error :=
  match attempts with
  | 0 => (d, Some (docker_error (clock d) ("container start failed for " +:+ Quote target +:+ " after retries: " +:+ lastErr)))
  | S attempts =>
      let '(d, go) := if (0 <? i) then wait second d else (d, true) in
      if negb go then (d, Some (interrupted (clock d) "start retry interrupted"))
      else match doContainerAction target "start" [] d with
           | (d, None) => (d, None)
           | (d, Some err) => start_loop attempts (S i) target (Error_ err) d
           end
  end.

Definition startContainer (target : string) (d : Docker) : Docker * option error :=
  let '(d, go) := wait (1500 * 1000000)%Z d in
  if negb go then (d, Some (interrupted (clock d) "start interrupted before cooldown"))
  else start_loop 5 0 target "<nil>" d.

(** The answer of an inspect says that the container runs. *)
Definition says_running (a : answer) : bool :=
  match a with
  | AReply status body => (status =? 200)%Z && match decode_running (unstr (take (Z.to_nat (2 ^ 20)) (str body))) with Ok b => b | Err _ => false end
  | _ => false
  end.

(** An error counts as not running. *)
Definition isContainerRunning (target : string) (d : Docker) : Docker * bool :=
  let '(d, a) := ask (DGet (inspectURL target s)) 0%Z d in (d, says_running a).

(** The loop of waitPrimaryReady; None when the fuel is used up. *)
Fixpoint ready_loop (fuel : nat) (deadline : time) (target : string) (d : Docker) : Docker * option (option error) :=
  match fuel with
  | 0 => (d, None)
  | S fuel =>
      if (deadline <=? clock d)%Z
      then (d, Some (Some (New (clock d) ErrCodeProcess ("container " +:+ Quote target +:+ " did not become running in time")
                             [WithOp "docker_supervisor"; WithSeverity ErrSeverityMajor])))
      else
        let '(d, running) := isContainerRunning target d in
        if running then (d, Some None)
        else
          let '(d, go) := wait (500 * 1000000)%Z d in
          if negb go then (d, Some (Some (interrupted (clock d) "wait primary ready interrupted")))
          else ready_loop fuel deadline target d
  end.

Definition waitPrimaryReady (fuel : nat) (target : string) (d : Docker) : Docker * option (option error) :=
  ready_loop fuel (clock d + secs 15)%Z target d.

Definition waitAfterPrimaryStart (dur : duration) (d : Docker) : Docker * option error :=
  let '(d, go) := wait (if (dur <=? 0)%Z then secs 5 else dur) d in
  (d, if go then None else Some (interrupted (clock d) "start delay interrupted")).

(** Runs an operation on each container until one fails. *)
Fixpoint each_container (f : string -> Docker -> Docker * option error) (targets : list string) (d : Docker) : Docker * option error :=
  match targets with
  | [] => (d, None)
  | t :: r => match f t d with
              | (d, None) => each_container f r d
              | (d, Some err) => (d, Some err)
              end
  end.

(** The result is None when the fuel of the readiness loop is used up. *)
Definition TriggerRestart (fuel : nat) (target : string) (d : Docker) : Docker * option (option error) :=
  let target := TrimSpace target in
  if String.eqb target ""
  then (d, Some (Some (New (clock d) ErrCodeConfig "restart target is empty" [WithOp "docker_supervisor"; WithSeverity ErrSeverityMajor])))
  else
    let plan := planForTarget target s in
    match stopContainer (Primary plan) d with
    | (d, Some err) => (d, Some (Some err))
    | (d, None) =>
    match each_container stopContainer (Dependents plan) d with
    | (d, Some err) => (d, Some (Some err))
    | (d, None) =>
    match startContainer (Primary plan) d with
    | (d, Some err) => (d, Some (Some err))
    | (d, None) =>
    match waitPrimaryReady fuel (Primary plan) d with
    | (d, None) => (d, None)
    | (d, Some (Some err)) => (d, Some (Some err))
    | (d, Some None) =>
    match waitAfterPrimaryStart (DelayAfterStart plan) d with
    | (d, Some err) => (d, Some (Some err))
    | (d, None) =>
        let '(d, r) := each_container startContainer (Dependents plan) d in (d, Some r)
    end
    end
    end
    end
    end.

End Restart.

(** ** Lemmas *)

Definition entry : Type := docker_call * answer.

Section Proofs.
Context {GL : GoLib} (decode_running : string -> result string bool) (s : DockerLifecycleSupervisor).

(** The request for an action on a container, and the inspection of one. *)
Definition action_query (action : string) : list (string * string) :=
  if String.eqb action "stop" then [("t", strconvSeconds (Timeout s))] else [].
Definition action_call (target action : string) : docker_call :=
  DPost (actionURL target action (action_query action) s) (requestTimeout action s).
Definition inspect_call (target : string) : docker_call := DGet (inspectURL target s).

Definition is_wait (e : entry) : Prop := exists dur, e.1 = DWait dur.
Definition stops (targets : list string) (e : entry) : Prop := exists t a, t ∈ targets /\ (a = "stop" \/ a = "kill") /\ e.1 = action_call t a.
Definition starts (targets : list string) (e : entry) : Prop := is_wait e \/ exists t, t ∈ targets /\ e.1 = action_call t "start".
Definition probes (target : string) (e : entry) : Prop := is_wait e \/ e.1 = inspect_call target.

(** Each target got an accepted answer to one of the actions. *)
Definition acted (actions targets : list string) (l : list entry) : Prop :=
  forall t, t ∈ targets -> exists a x, a ∈ actions /\ (action_call t a, x) ∈ l /\ accepted x = true.

(** [f] added entries that satisfy [P]; they satisfy [Q] when it succeeded. The clock has not gone back. *)
Definition adds (P : entry -> Prop) (Q : list entry -> Prop) (d d' : Docker) (ok : Prop) : Prop :=
  exists l, log d' = log d ++ l /\ Forall P l /\ (ok -> Q l) /\ (clock d <= clock d')%Z.

Lemma ask_adds (c : docker_call) (least : duration) (d : Docker) :
  (0 <= least)%Z ->
  let '(d', a) := ask c least d in log d' = log d ++ [(c, a)] /\ (clock d + least <= clock d')%Z.
Proof. intros Hl. unfold ask. destruct (script d) as [|[dt a] r]; cbn; split; [done|lia|done|lia]. Qed.

Lemma action_adds (target action : string) (query : list (string * string)) (d : Docker) :
  query = action_query action ->
  let '(d', r) := doContainerAction s target action query d in
  exists x, log d' = log d ++ [(action_call target action, x)] /\ (r = None -> accepted x = true) /\ (clock d <= clock d')%Z.
Proof.
  intros ->. unfold doContainerAction. pose proof (ask_adds (action_call target action) 0%Z d ltac:(lia)) as Ha. unfold action_call in *. destruct (ask _ _ d) as [d' a]. destruct Ha as [Hl Hc].
  destruct a as [status body|err|]; cbn [Wrap]; [|eexists; split_and!; [exact Hl|done|lia]..]. cbv zeta.
  destruct (accepted _) eqn:E; eexists; (split_and!; [exact Hl|done|lia]).
Qed.

Lemma stop_adds (target : string) (d : Docker) :
  let '(d', r) := stopContainer s target d in adds (stops [target]) (acted ["stop"; "kill"] [target]) d d' (r = None).
Proof.
  unfold stopContainer. pose proof (action_adds target "stop" [("t", strconvSeconds (Timeout s))] d eq_refl) as H1. destruct (doContainerAction s target "stop" [("t", strconvSeconds (Timeout s))] d) as [d1 [err|]]; destruct H1 as (x & Hl & Hx & Hc).
  - pose proof (action_adds target "kill" [] d1 eq_refl) as H2. destruct (doContainerAction s target "kill" [] d1) as [d2 r]. destruct H2 as (y & Hl2 & Hy & Hc2).
    assert (Hadd : adds (stops [target]) (acted ["stop"; "kill"] [target]) d d2 (r = None)).
    { exists [(action_call target "stop", x); (action_call target "kill", y)]. split_and!; [by rewrite Hl2, Hl, <- app_assoc| | |lia].
      - repeat constructor; eexists target, _; (split; [by left|split; [|done]]); auto.
      - intros Hr t ->%list_elem_of_singleton. exists "kill", y. split_and!; [right; left|right; left|by apply Hy]. }
    destruct r; [|done]. destruct Hadd as (l & ? & ? & _ & ?). by exists l.
  - exists [(action_call target "stop", x)]. split_and!; [done| | |lia].
    + apply Forall_singleton. exists target, "stop". split; [by left|auto].
    + intros _ t ->%list_elem_of_singleton. exists "stop", x. split_and!; [left|left|by apply Hx].
Qed.

Lemma wait_adds (dur : duration) (d : Docker) :
  let '(d', go) := wait dur d in exists x, log d' = log d ++ [(DWait dur, x)] /\ (clock d + Z.max 0 dur <= clock d')%Z.
Proof.
  unfold wait. pose proof (ask_adds (DWait dur) (Z.max 0 dur) d ltac:(lia)) as Ha. destruct (ask _ _ d) as [d' a]. destruct Ha. by exists a.
Qed.

Lemma adds_cons (P : entry -> Prop) (Q : list entry -> Prop) (d d1 d2 : Docker) (e : entry) (ok : Prop) :
  (forall l, Q l -> Q (e :: l)) -> P e -> log d1 = log d ++ [e] -> (clock d <= clock d1)%Z -> adds P Q d1 d2 ok -> adds P Q d d2 ok.
Proof.
  intros Hq He Hl Hc (l & Hl2 & Hp & Hok & Hc2). exists (e :: l). split_and!; [by rewrite Hl2, Hl, <- app_assoc|by constructor|auto|lia].
Qed.

Lemma acted_cons (actions targets : list string) (e : entry) (l : list entry) : acted actions targets l -> acted actions targets (e :: l).
Proof. intros Ha t Ht. destruct (Ha t Ht) as (a & x & H1 & H2 & H3). exists a, x. split_and!; [done|by right|done]. Qed.

Lemma adds_nil (P : entry -> Prop) (Q : list entry -> Prop) (d : Docker) (ok : Prop) : (ok -> Q []) -> adds P Q d d ok.
Proof. intros Hq. exists []. split_and!; [by rewrite app_nil_r|done|done|lia]. Qed.

Lemma start_loop_adds (attempts i : nat) (target lastErr : string) (d : Docker) :
  let '(d', r) := start_loop s attempts i target lastErr d in adds (starts [target]) (acted ["start"] [target]) d d' (r = None).
Proof.
  revert i lastErr d. induction attempts as [|n IH]; intros i lastErr d; cbn [start_loop]; [by apply adds_nil|].
  assert (Hmain : forall d0, let '(d', r) := match doContainerAction s target "start" [] d0 with
        | (d, None) => (d, None) | (d, Some err) => start_loop s n (S i) target (Error_ err) d end in
        adds (starts [target]) (acted ["start"] [target]) d0 d' (r = None)).
  { intros d0. pose proof (action_adds target "start" [] d0 eq_refl) as H1. destruct (doContainerAction s target "start" [] d0) as [d1 [err|]]; destruct H1 as (x & Hl & Hx & Hc).
    - specialize (IH (S i) (Error_ err) d1). destruct (start_loop s n (S i) target (Error_ err) d1) as [d2 r].
      eapply adds_cons; [intros l; apply acted_cons| |exact Hl|done|exact IH]. right. exists target. split; [by left|done].
    - exists [(action_call target "start", x)]. split_and!; [done| | |done].
      + apply Forall_singleton. right. exists target. split; [by left|done].
      + intros _ t ->%list_elem_of_singleton. exists "start", x. split_and!; [left|left|by apply Hx]. }
  destruct (0 <? i).
  - pose proof (wait_adds second d) as Hw. destruct (wait second d) as [d1 go]. destruct Hw as (x & Hl & Hc). destruct go; cbn [negb].
    + specialize (Hmain d1). destruct (match doContainerAction s target "start" [] d1 with (d, None) => _ | (d, Some err) => _ end) as [d2 r].
      eapply adds_cons; [intros l; apply acted_cons| |exact Hl|lia|exact Hmain]. left. by eexists.
    + exists [(DWait second, x)]. split_and!; [done|apply Forall_singleton; left; by eexists|done|lia].
  - cbn [negb]. apply Hmain.
Qed.

Lemma start_adds (target : string) (d : Docker) :
  let '(d', r) := startContainer s target d in adds (starts [target]) (acted ["start"] [target]) d d' (r = None).
Proof.
  unfold startContainer. pose proof (wait_adds (1500 * 1000000)%Z d) as Hw. destruct (wait _ d) as [d1 go]. destruct Hw as (x & Hl & Hc). destruct go; cbn [negb].
  - pose proof (start_loop_adds 5 0 target "<nil>" d1) as H1. destruct (start_loop s 5 0 target "<nil>" d1) as [d2 r].
    eapply adds_cons; [intros l; apply acted_cons| |exact Hl|lia|exact H1]. left. by eexists.
  - eexists. split_and!; [exact Hl|apply Forall_singleton; left; by eexists|done|lia].
Qed.

Lemma each_adds (P : list string -> entry -> Prop) (actions : list string) (f : string -> Docker -> Docker * option error) (targets : list string) (d : Docker) :
  (forall t d, let '(d', r) := f t d in adds (P [t]) (acted actions [t]) d d' (r = None)) ->
  (forall t e ts, P [t] e -> t ∈ ts -> P ts e) ->
  let '(d', r) := each_container f targets d in adds (P targets) (acted actions targets) d d' (r = None).
Proof.
  intros Hf Hmono. assert (Hgen : forall ts d, (forall t, t ∈ ts -> t ∈ targets) ->
    let '(d', r) := each_container f ts d in adds (P targets) (acted actions ts) d d' (r = None)).
  { induction ts as [|t ts IH]; intros d0 Hin; cbn [each_container]; [apply adds_nil; intros _ t Ht; by apply not_elem_of_nil in Ht|].
    pose proof (Hf t d0) as H1. destruct (f t d0) as [d1 [err|]]; destruct H1 as (l & Hl & Hp & Hq & Hc).
    - exists l. split_and!; [done| |done|done]. eapply Forall_impl; [exact Hp|]. intros e He. eapply Hmono; [exact He|]. apply Hin. by left.
    - specialize (IH d1 ltac:(intros t' Ht'; apply Hin; by right)). destruct (each_container f ts d1) as [d2 r]. destruct IH as (l2 & Hl2 & Hp2 & Hq2 & Hc2).
      exists (l ++ l2). split_and!; [by rewrite Hl2, Hl, <- app_assoc| | |lia].
      + apply Forall_app. split; [|done]. eapply Forall_impl; [exact Hp|]. intros e He. eapply Hmono; [exact He|]. apply Hin. by left.
      + intros Hr t' [->|Ht']%elem_of_cons.
        * destruct (Hq eq_refl t ltac:(by left)) as (a & x & H1 & H2 & H3). exists a, x. split_and!; [done|apply elem_of_app; by left|done].
        * destruct (Hq2 Hr t' Ht') as (a & x & H1 & H2 & H3). exists a, x. split_and!; [done|apply elem_of_app; by right|done]. }
  by apply Hgen.
Qed.

(** *** The readiness loop ends *)

Lemma ready_loop_adds (fuel : nat) (deadline : time) (target : string) (d : Docker) :
  let '(d', r) := ready_loop decode_running s fuel deadline target d in
  adds (probes target) (fun l => exists x, (inspect_call target, x) ∈ l /\ says_running decode_running x = true) d d' (r = Some None) /\
  (0 < fuel -> (deadline - clock d <= (Z.of_nat fuel - 1) * (500 * 1000000))%Z -> r <> None).
Proof.
  revert d. induction fuel as [|n IH]; intros d; cbn [ready_loop]; [split; [by apply adds_nil|lia]|].
  destruct (Z.leb_spec deadline (clock d)) as [Hd|Hd]; [split; [by apply adds_nil|done]|].
  unfold isContainerRunning. pose proof (ask_adds (inspect_call target) 0%Z d ltac:(lia)) as Ha. destruct (ask _ _ d) as [d1 a]. destruct Ha as [Hl Hc].
  destruct (says_running decode_running a) eqn:Er.
  { split; [|done]. exists [(inspect_call target, a)]. split_and!; [done|apply Forall_singleton; by right|intros _; exists a; split; [by left|done]|lia]. }
  pose proof (wait_adds (500 * 1000000)%Z d1) as Hw. destruct (wait _ d1) as [d2 go]. destruct Hw as (x & Hl2 & Hc2). destruct go; cbn [negb].
  - specialize (IH d2). destruct (ready_loop decode_running s n deadline target d2) as [d3 r]. destruct IH as [IH1 IH2]. split.
    + assert (Hcons : forall e l, (exists x, (inspect_call target, x) ∈ l /\ says_running decode_running x = true) ->
                exists x, (inspect_call target, x) ∈ e :: l /\ says_running decode_running x = true) by (intros e l (y & ? & ?); exists y; split; [by right|done]).
      eapply adds_cons; [apply Hcons| |exact Hl|lia|]; [by right|]. eapply adds_cons; [apply Hcons| |exact Hl2|lia|exact IH1]. left. by eexists.
    + intros _ Hb. destruct n as [|n]; [lia|]. apply IH2; [lia|]. lia.
  - split; [|done]. exists [(inspect_call target, a); (DWait (500 * 1000000)%Z, x)]. split_and!; [by rewrite Hl2, Hl, <- app_assoc| |done|lia].
    apply Forall_cons; split; [by right|]. apply Forall_singleton. left. by eexists.
Qed.

Lemma stops_mono (t : string) (e : entry) (ts : list string) : stops [t] e -> t ∈ ts -> stops ts e.
Proof. intros (t' & a & Ht & Ha & He) Hin. apply list_elem_of_singleton in Ht as ->. by exists t, a. Qed.

Lemma starts_mono (t : string) (e : entry) (ts : list string) : starts [t] e -> t ∈ ts -> starts ts e.
Proof. intros [Hw|(t' & Ht & He)] Hin; [by left|right]. apply list_elem_of_singleton in Ht as ->. by exists t. Qed.

(** ** Theorems *)

(** The phases of a restart in its log: each begins only when the one before it was complete. *)
Record phases (plan : RestartPlan) (l : list entry) (ok : bool) : Prop := {
  ph_all : exists s1 s2 s3 s4 s5 s6, l = s1 ++ s2 ++ s3 ++ s4 ++ s5 ++ s6 /\
    Forall (stops [Primary plan]) s1 /\ Forall (stops (Dependents plan)) s2 /\ Forall (starts [Primary plan]) s3 /\
    Forall (probes (Primary plan)) s4 /\ Forall is_wait s5 /\ Forall (starts (Dependents plan)) s6 /\
    (s2 ++ s3 ++ s4 ++ s5 ++ s6 <> [] \/ ok = true -> acted ["stop"; "kill"] [Primary plan] s1) /\
    (s3 ++ s4 ++ s5 ++ s6 <> [] \/ ok = true -> acted ["stop"; "kill"] (Dependents plan) s2) /\
    (s4 ++ s5 ++ s6 <> [] \/ ok = true -> acted ["start"] [Primary plan] s3) /\
    (s5 ++ s6 <> [] \/ ok = true -> exists x, (inspect_call (Primary plan), x) ∈ s4 /\ says_running decode_running x = true) /\
    (ok = true -> acted ["start"] (Dependents plan) s6)
}.

Lemma adds_log (P : entry -> Prop) (Q : list entry -> Prop) (d d' : Docker) (ok : Prop) : adds P Q d d' ok -> exists l, log d' = log d ++ l /\ Forall P l /\ (ok -> Q l).
Proof. intros (l & H1 & H2 & H3 & _). by exists l. Qed.

(** C40: a restart ends, and restarts in order. Whatever the Docker API answers and however long it
    takes, a restart of a named target is over after at most 31 rounds of the readiness loop; its
    requests are, in this order: stop (or kill) the primary, stop (or kill) the dependents, start the
    primary, ask until it runs, wait, start the dependents. A phase begins only when every container
    of the phase before it has accepted, and success means that all of them have. *)
Theorem restart_ends_in_order (fuel : nat) (target : string) (d : Docker) :
  31 <= fuel -> TrimSpace target <> "" ->
  let '(d', r) := TriggerRestart decode_running s fuel target d in
  exists err l, r = Some err /\ log d' = log d ++ l /\ phases (planForTarget (TrimSpace target) s) l (match err with None => true | Some _ => false end).
Proof.
  intros Hf Ht. unfold TriggerRestart. cbv zeta. rewrite (proj2 (String.eqb_neq _ _) Ht). set (plan := planForTarget (TrimSpace target) s).
  pose proof (stop_adds (Primary plan) d) as H1. destruct (stopContainer s (Primary plan) d) as [d1 [e1|]]; apply adds_log in H1 as (s1 & L1 & P1 & Q1).
  { exists (Some e1), s1. split_and!; [done|done|]. constructor. exists s1, [], [], [], [], []. rewrite !app_nil_r. split_and!; try done; intros [?|?]; done. }
  pose proof (each_adds stops ["stop"; "kill"] (stopContainer s) (Dependents plan) d1 stop_adds stops_mono) as H2.
  destruct (each_container (stopContainer s) (Dependents plan) d1) as [d2 [e2|]]; apply adds_log in H2 as (s2 & L2 & P2 & Q2).
  { exists (Some e2), (s1 ++ s2). split_and!; [done|by rewrite L2, L1, <- app_assoc|]. constructor. exists s1, s2, [], [], [], []. rewrite !app_nil_r.
    split_and!; try done; try (by intros _; apply Q1); intros [?|?]; done. }
  pose proof (start_adds (Primary plan) d2) as H3. destruct (startContainer s (Primary plan) d2) as [d3 [e3|]]; apply adds_log in H3 as (s3 & L3 & P3 & Q3).
  { exists (Some e3), (s1 ++ s2 ++ s3). split_and!; [done|by rewrite L3, L2, L1, <- !app_assoc|]. constructor. exists s1, s2, s3, [], [], []. rewrite !app_nil_r.
    split_and!; try done; try (by intros _; apply Q1); try (by intros _; apply Q2); intros [?|?]; done. }
  pose proof (ready_loop_adds fuel (clock d3 + secs 15)%Z (Primary plan) d3) as H4. unfold waitPrimaryReady.
  destruct (ready_loop decode_running s fuel (clock d3 + secs 15)%Z (Primary plan) d3) as [d4 r4]. destruct H4 as [H4 Hend].
  apply adds_log in H4 as (s4 & L4 & P4 & Q4). destruct r4 as [[e4|]|].
  3:{ exfalso. apply Hend; [lia| |done]. unfold secs, second. lia. }
  { exists (Some e4), (s1 ++ s2 ++ s3 ++ s4). split_and!; [done|by rewrite L4, L3, L2, L1, <- !app_assoc|]. constructor. exists s1, s2, s3, s4, [], [].
    rewrite !app_nil_r. split_and!; try done; try (by intros _; apply Q1); try (by intros _; apply Q2); try (by intros _; apply Q3); intros [?|?]; done. }
  unfold waitAfterPrimaryStart. pose proof (wait_adds (if (DelayAfterStart plan <=? 0)%Z then secs 5 else DelayAfterStart plan) d4) as H5.
  destruct (wait _ d4) as [d5 go]. destruct H5 as (x & L5 & _). set (s5 := [(DWait _, x)]) in L5. assert (P5 : Forall is_wait s5) by (apply Forall_singleton; by eexists).
  destruct go.
  2:{ eexists _, (s1 ++ s2 ++ s3 ++ s4 ++ s5). split_and!; [done|by rewrite L5, L4, L3, L2, L1, <- !app_assoc|]. constructor. exists s1, s2, s3, s4, s5, [].
      rewrite !app_nil_r. split_and!; try done; try (by intros _; apply Q1); try (by intros _; apply Q2); try (by intros _; apply Q3); try (by intros _; apply Q4). }
  pose proof (each_adds starts ["start"] (startContainer s) (Dependents plan) d5 start_adds starts_mono) as H6.
  destruct (each_container (startContainer s) (Dependents plan) d5) as [d6 r6]. apply adds_log in H6 as (s6 & L6 & P6 & Q6).
  exists r6, (s1 ++ s2 ++ s3 ++ s4 ++ s5 ++ s6). split_and!; [done|by rewrite L6, L5, L4, L3, L2, L1, <- !app_assoc|]. constructor.
  exists s1, s2, s3, s4, s5, s6. split_and!; try done; try (by intros _; apply Q1); try (by intros _; apply Q2); try (by intros _; apply Q3); try (by intros _; apply Q4).
  intros Hok. apply Q6. by destruct r6.
Qed.

End Proofs.

(** An API that accepts everything and reports a running container. *)
Definition demo_script : list (N * answer) :=
  [(1%N, AReply 204 ""); (1%N, AReply 204 ""); (0%N, AReply 0 ""); (1%N, AReply 204 ""); (1%N, AReply 200 "{}"); (0%N, AReply 0 ""); (0%N, AReply 0 ""); (1%N, AReply 304 "")].
Definition demo_supervisor : DockerLifecycleSupervisor :=
  SetPlans [("enb", mkPlan "" ["ue1"] 0%Z)] (NewDockerLifecycleSupervisor (secs 20)).

Lemma restart_ends_in_order_witness :
  let '(d', r) := TriggerRestart (GL := ascii_golib) (fun _ => Ok true) demo_supervisor 31 " enb " (mkDocker 0%Z demo_script []) in
  r = Some None /\ phases (fun _ => Ok true) demo_supervisor (mkPlan "enb" ["ue1"] 0%Z) (log d') true.
Proof.
  pose proof (restart_ends_in_order (GL := ascii_golib) (fun _ => Ok true) demo_supervisor 31 " enb " (mkDocker 0%Z demo_script []) ltac:(lia)
    ltac:(vm_compute; discriminate)) as H.
  assert (Hr : snd (TriggerRestart (GL := ascii_golib) (fun _ => Ok true) demo_supervisor 31 " enb " (mkDocker 0%Z demo_script [])) = Some None)
    by (vm_compute; reflexivity).
  destruct (TriggerRestart _ _ _ _ _) as [d' r]. destruct H as (err & l & He & Hl & Hp). cbn [snd] in Hr. split; [exact Hr|].
  rewrite Hr in He. injection He as <-. cbn [log app] in Hl. rewrite Hl. exact Hp.
Defined.
