(* ===== verification/Control.v ===== *)
(** * The control API (internal/ems/services/config_control.go)

    The HTTP service in front of the configuration store, the NETCONF manager, the notification queue
    and the lifecycle supervisor: one handler per route. The decoding of JSON bodies is a parameter,
    as are the YANG library and the supervisor of the manager; [clk] gives the successive readings of
    the clock while a request is served. The response is the value handed to the JSON encoder. *)
From S2P Require Import Prelude GoNum GoStrings Json FileSystem Alarms Notifications Nrm Pm.
From S2P Require Import Locks ConfigData ConfigEdit ConfigStore Persist Bindings Artifacts NetconfManager.

(** ** Requests and responses *)

Record Request := mkRequest {
  Method : string;
  Path : string;
  Header : string -> string;
  Body : result string string;
  QueryMax : string
}.

Record restartResponse := mkRestartResponse { rr_Status : string; rr_Serial : string; rr_Container : string; rr_Message : string }.

Record configResponse := mkConfigResponse {
  cr_Status : string;
  cr_Running : option EditableConfig;
  cr_Candidate : option EditableConfig;
  cr_Message : string;
  cr_ErrorTag : string;
  cr_ErrorType : string;
  cr_ErrorAppTag : string;
  cr_ErrorInfo : option Z
}.

Inductive ResponseBody :=
| RRestart (r : restartResponse)
| RConfig (r : configResponse)
| RLines (lines : list string)
| REmpty.

Record Response := mkResponse { StatusCode : Z; Content : ResponseBody }.

Definition StatusOK : Z := 200.
Definition StatusAccepted : Z := 202.
Definition StatusNoContent : Z := 204.
Definition StatusBadRequest : Z := 400.
Definition StatusNotFound : Z := 404.
Definition StatusMethodNotAllowed : Z := 405.
Definition StatusConflict : Z := 409.
Definition StatusServiceUnavailable : Z := 503.

Definition writeJSON (status : Z) (payload : restartResponse) : Response := mkResponse status (RRestart payload).
Definition writeConfigJSON (status : Z) (payload : configResponse) : Response := mkResponse status (RConfig payload).

(** The responses the handlers build: an error with a message, a configuration, nothing. *)
Definition config_error (status : Z) (msg : string) : Response :=
  writeConfigJSON status (mkConfigResponse "error" None None msg "" "" "" None).
Definition config_ok (run candidate : option EditableConfig) (msg : string) : Response :=
  writeConfigJSON StatusOK (mkConfigResponse "ok" run candidate msg "" "" "" None).

Definition method_not_allowed : Response := config_error StatusMethodNotAllowed "method not allowed".
Definition invalid_json : Response := config_error StatusBadRequest "invalid JSON payload".

Definition httpStatusForRPCError (e : RPCError) : Z :=
  if String.eqb (Tag e) ErrorTagInUse || String.eqb (Tag e) ErrorTagLockDenied then StatusConflict else StatusBadRequest.

Definition writeNetconfError (err : merror) : Response :=
  match err with
  | ERPC e =>
      writeConfigJSON (httpStatusForRPCError e)
        (mkConfigResponse "error" None None
           (if String.eqb (Message e) "" then RPCError_Error e else Message e)
           (Tag e) (Type_ e) (AppTag e)
           (if (OwnerSessionID e =? 0)%Z then None else Some (OwnerSessionID e)))
  | EPlain msg =>
      writeConfigJSON StatusBadRequest (mkConfigResponse "error" None None msg ErrorTagOperationFailed "application" "" None)
  end.

Definition merror_text (e : merror) : string := match e with ERPC e => RPCError_Error e | EPlain msg => msg end.

(** ** Decoding *)

(** encoding/json on the request types. A Decode that fails gives None; an Unmarshal into the caller's
    variable gives what it leaves there, and whether it succeeded. *)
Class RequestCodec := {
  decode_restart : string -> option string;
  decode_changes : string -> option (list (string * any));
  decode_sessions : string -> option (list SessionMeta);
  decode_report : string -> option (string * list (string * float64));
  unmarshal_edit : string -> option EditRequest;
  unmarshal_validate : string -> option (SessionMeta * ValidateRequest);
  unmarshal_lock : string -> LockRequest * bool;
  unmarshal_meta : string -> SessionMeta * bool
}.

(** json.Unmarshal stores in an interface only values of their dynamic type. *)
Definition codec_wf `{RequestCodec} : Prop := forall b l, decode_changes b = Some l -> Forall (fun kv => any_wf kv.2) l.

Inductive decode_error := EOF | ReadError.

Section Decode.
Context {RC : RequestCodec}.

Definition populateSessionMetaHeaders (r : Request) (out : SessionMeta) : SessionMeta :=
  let raw := TrimSpace (Header r "X-NETCONF-Session-ID") in
  mkSession (if String.eqb raw "" then SessionID out
             else match ParseUint 64 raw with Some v => v | None => SessionID out end)
            (TrimSpace (Header r "X-NETCONF-Username")).

Definition set (s : string) : bool := negb (String.eqb (TrimSpace s) "").

Definition isNetconfEditEnvelope (req : EditRequest) : bool :=
  set (er_Payload req) || set (er_Target req) || set (er_DefaultOperation req) || set (er_TestOption req) || set (er_ErrorOption req) ||
  negb (SessionID (er_session req) =? 0)%Z || set (Username (er_session req)).

Definition isNetconfValidateEnvelope (meta : SessionMeta) (req : ValidateRequest) : bool :=
  set (vr_Payload req) || set (vr_Source req) || negb (SessionID meta =? 0)%Z || set (Username meta).

Definition no_session : SessionMeta := mkSession 0 "".

Definition decodeNetconfEditRequest (r : Request) : result decode_error EditRequest :=
  match Body r with
  | Err _ => Err ReadError
  | Ok body =>
      let trimmed := TrimSpace body in
      let envelope := if HasPrefix trimmed "{" then
                        match unmarshal_edit body with Some e => if isNetconfEditEnvelope e then Some e else None | None => None end
                      else None in
      match envelope with
      | Some e => Ok e
      | None =>
          if String.eqb trimmed "" then Err EOF
          else Ok (mkEdit (populateSessionMetaHeaders r no_session) (TrimSpace (Header r "X-NETCONF-Target"))
                          (TrimSpace (Header r "X-NETCONF-Default-Operation")) (TrimSpace (Header r "X-NETCONF-Test-Option"))
                          (TrimSpace (Header r "X-NETCONF-Error-Option")) trimmed)
      end
  end.

Definition decodeNetconfValidateRequest (r : Request) : result decode_error ValidateRequest :=
  match Body r with
  | Err _ => Err ReadError
  | Ok body =>
      let trimmed := TrimSpace body in
      let envelope := if HasPrefix trimmed "{" then
                        match unmarshal_validate body with
                        | Some (meta, v) => if isNetconfValidateEnvelope meta v then Some v else None
                        | None => None
                        end
                      else None in
      match envelope with
      | Some v => Ok v
      | None => Ok (mkValidate (TrimSpace (Header r "X-NETCONF-Source")) trimmed)
      end
  end.

(** The metadata is filled in also when the end of an empty body is reported. *)
Definition decodeNetconfSessionMeta (r : Request) : SessionMeta * option decode_error :=
  match Body r with
  | Err _ => (no_session, Some ReadError)
  | Ok body =>
      let trimmed := TrimSpace body in
      let '(out, ok) := if String.eqb trimmed "" then (no_session, false) else unmarshal_meta body in
      if ok && (negb (SessionID out =? 0)%Z || set (Username out)) then (out, None)
      else
        let out := populateSessionMetaHeaders r out in
        if (SessionID out =? 0)%Z && negb (set (Username out)) && String.eqb trimmed "" then (out, Some EOF) else (out, None)
  end.

Definition decodeNetconfCommitRequest (r : Request) : result decode_error SessionMeta :=
  match decodeNetconfSessionMeta r with
  | (_, Some ReadError) => Err ReadError
  | (meta, _) => Ok meta
  end.

Definition decodeNetconfLockRequest (r : Request) : result decode_error LockRequest :=
  match Body r with
  | Err _ => Err ReadError
  | Ok body =>
      let trimmed := TrimSpace body in
      let '(out, ok) := if String.eqb trimmed "" then (mkLockReq no_session "", false) else unmarshal_lock body in
      if ok && (set (lr_Target out) || negb (SessionID (lr_session out) =? 0)%Z || set (Username (lr_session out))) then Ok out
      else
        let target := TrimSpace (Header r "X-NETCONF-Target") in
        if String.eqb target "" && String.eqb trimmed "" then Err EOF
        else Ok (mkLockReq (populateSessionMetaHeaders r (lr_session out)) target)
  end.

(** json.NewDecoder on the body, or on its first MiB. *)
Definition decode_body {A : Type} (decode : string -> option A) (r : Request) : option A :=
  match Body r with Ok b => decode b | Err _ => None end.
Definition decode_limited {A : Type} (decode : string -> option A) (r : Request) : option A :=
  decode_body (fun b => decode (unstr (take (Z.to_nat (2 ^ 20)) (str b)))) r.

End Decode.

(** ** State *)

(** What the service was given: no store, a store, or a NETCONF manager and the store inside it. *)
Inductive Backend :=
| NoStore
| StoreOnly (st : Store)
| WithManager (m : Manager).

Record ConfigControl := mkControl {
  Targets : gmap string string;
  backend : Backend;
  Queue : option NotificationQueue;
  TCATestInject : bool;
  restarting : option string;
  Published : list Report
}.

(** The targets in the order the map is visited. *)
Definition copyTargets (l : list (string * string)) : gmap string string :=
  foldl (fun out kv => let kk := TrimSpace kv.1 in let vv := TrimSpace kv.2 in
                       if String.eqb kk "" || String.eqb vv "" then out else <[kk := vv]> out) ∅ l.

Definition NewConfigControl (targets : list (string * string)) (b : Backend) (q : option NotificationQueue) (inject : bool) : ConfigControl :=
  mkControl (copyTargets targets) b q inject None [].

Definition the_store (c : ConfigControl) : option Store :=
  match backend c with NoStore => None | StoreOnly st => Some st | WithManager m => Some (store m) end.

(** The one target of a map with a single entry, unless it is blank. *)
Definition only_target (targets : gmap string string) : option string :=
  match map_to_list targets with
  | [(_, target)] => if set target then Some target else None
  | _ => None
  end.

Definition resolveTargetForSerial (serial : string) (c : ConfigControl) : option string :=
  let serial := TrimSpace serial in
  if String.eqb serial "" then None
  else match (match Targets c !! serial with Some target => if set target then Some target else None | None => None end) with
       | Some target => Some target
       | None =>
           match the_store c with
           | None => None
           | Some st =>
               if String.eqb serial (TrimSpace (ENBSerial (running st))) || String.eqb serial (TrimSpace (ENBSerial (cand st)))
               then only_target (Targets c) else None
           end
       end.

(** The resolver that wiring.go hands to the manager. *)
Definition targetResolver (targets : gmap string string) (serial : string) : string * bool :=
  let serial := TrimSpace serial in
  if String.eqb serial "" then ("", false)
  else match (match targets !! serial with Some target => if set target then Some target else None | None => None end) with
       | Some target => (target, true)
       | None => match only_target targets with Some target => (target, true) | None => ("", false) end
       end.

Section Handlers.
Context {GL : GoLib} {PF : Platform} {RC : RequestCodec}.

Definition outcome : Type := ConfigControl * World * Response.

(** The checks that open most handlers. *)
Definition only_method (method : string) (r : Request) (c : ConfigControl) (w : World) (k : outcome) : outcome :=
  if String.eqb (Method r) method then k else (c, w, method_not_allowed).
Definition with_store (c : ConfigControl) (w : World) (k : Store -> outcome) : outcome :=
  match the_store c with
  | Some st => k st
  | None => (c, w, config_error StatusServiceUnavailable "configuration store is not configured")
  end.
Definition with_manager (c : ConfigControl) (w : World) (k : Manager -> outcome) : outcome :=
  match backend c with
  | WithManager m => k m
  | _ => (c, w, config_error StatusServiceUnavailable "netconf mediation is not configured")
  end.

Definition set_manager (m : Manager) (c : ConfigControl) : ConfigControl := c <|backend := WithManager m|>.
Definition set_store (st : Store) (c : ConfigControl) : ConfigControl := c <|backend := StoreOnly st|>.

Definition restart_error (status : Z) (serial container msg : string) : Response :=
  writeJSON status (mkRestartResponse "error" serial container msg).

(** An accepted restart holds the mutex until the supervisor is done: see [restart_done]. *)
Definition handleRestart (r : Request) (c : ConfigControl) : ConfigControl * Response :=
  if negb (String.eqb (Method r) "POST") then (c, restart_error StatusMethodNotAllowed "" "" "method not allowed")
  else match TriggerRestart with
  | None => (c, restart_error StatusServiceUnavailable "" "" "supervisor is not configured")
  | Some _ =>
  match decode_body decode_restart r with
  | None => (c, restart_error StatusBadRequest "" "" "invalid JSON payload")
  | Some serial =>
      let serial := TrimSpace serial in
      if String.eqb serial "" then (c, restart_error StatusBadRequest "" "" "serial is required")
      else match resolveTargetForSerial serial c with
           | Some target =>
               if negb (set target) then (c, restart_error StatusNotFound serial "" "serial is not managed by this EMS instance")
               else match restarting c with
                    | Some _ => (c, restart_error StatusConflict serial target "restart already in progress")
                    | None => (c <|restarting := Some target|>, writeJSON StatusAccepted (mkRestartResponse "accepted" serial target ""))
                    end
           | None => (c, restart_error StatusNotFound serial "" "serial is not managed by this EMS instance")
           end
  end
  end.

(** The supervisor of an accepted restart returns. *)
Definition restart_done (c : ConfigControl) : ConfigControl := c <|restarting := None|>.

Definition handleRunning (r : Request) (c : ConfigControl) (w : World) : outcome :=
  only_method "GET" r c w (with_store c w (fun st => (c, w, config_ok (Some (running st)) None ""))).

Definition handleCandidate (r : Request) (c : ConfigControl) (w : World) : outcome :=
  only_method "GET" r c w (with_store c w (fun st => (c, w, config_ok None (Some (cand st)) ""))).

Definition handleEditConfig (r : Request) (c : ConfigControl) (w : World) : outcome :=
  only_method "POST" r c w (with_store c w (fun st =>
    match decode_body decode_changes r with
    | None => (c, w, invalid_json)
    | Some [] => (c, w, config_error StatusBadRequest "changes are required")
    | Some changes =>
        match backend c with
        | WithManager m =>
            match EditFlat changes m w with
            | (m, w, Err e) => (set_manager m c, w, config_error StatusBadRequest (merror_text e))
            | (m, w, Ok cfg) => (set_manager m c, w, config_ok None (Some cfg) "")
            end
        | _ =>
            match Edit changes st with
            | (st, Err e) => (set_store st c, w, config_error StatusBadRequest e)
            | (st, Ok cfg) => (set_store st c, w, config_ok None (Some cfg) "")
            end
        end
    end)).

Definition handleCommit (r : Request) (clk : nat -> time) (c : ConfigControl) (w : World) : outcome :=
  only_method "POST" r c w (with_store c w (fun st =>
    match backend c with
    | WithManager m =>
        match Commit no_session (clk 0) (clk 1) (clk 2) (clk 3) m w with
        | (m, w, Err e) => (set_manager m c, w, config_error StatusBadRequest (merror_text e))
        | (m, w, Ok run) => (set_manager m c, w, config_ok (Some run) None "")
        end
    | _ =>
        match Persist.Commit st w with
        | (st, w, Err e) => (set_store st c, w, config_error StatusBadRequest e)
        | (st, w, Ok run) =>
            let c := set_store st c in
            match resolveTargetForSerial (TrimSpace (ENBSerial run)) c, TriggerRestart with
            | Some target, Some restart =>
                match restart target with
                | Some e => (c, w, writeConfigJSON StatusConflict (mkConfigResponse "error" (Some run) None e "" "" "" None))
                | None => (c, w, config_ok (Some run) None "")
                end
            | _, _ => (c, w, config_ok (Some run) None "config committed; restart is skipped (target/supervisor unavailable)")
            end
        end
    end)).

Definition handleNetconfEditConfig (r : Request) (clk : nat -> time) (c : ConfigControl) (w : World) : outcome :=
  only_method "POST" r c w (with_manager c w (fun m =>
    match decodeNetconfEditRequest r with
    | Err _ => (c, w, invalid_json)
    | Ok req =>
        match EditConfig req (clk 0) (clk 1) m w with
        | (m, w, Err e) => (set_manager m c, w, writeNetconfError e)
        | (m, w, Ok cfg) => (set_manager m c, w, config_ok None (Some cfg) "")
        end
    end)).

Definition handleNetconfValidate (r : Request) (c : ConfigControl) (w : World) : outcome :=
  only_method "POST" r c w (with_manager c w (fun m =>
    match decodeNetconfValidateRequest r with
    | Err _ => (c, w, invalid_json)
    | Ok req => (c, w, match Validate req m with Some e => writeNetconfError e | None => config_ok None None "" end)
    end)).

Definition handleNetconfCommit (r : Request) (clk : nat -> time) (c : ConfigControl) (w : World) : outcome :=
  only_method "POST" r c w (with_manager c w (fun m =>
    match decodeNetconfCommitRequest r with
    | Err _ => (c, w, invalid_json)
    | Ok req =>
        match Commit req (clk 0) (clk 1) (clk 2) (clk 3) m w with
        | (m, w, Err e) => (set_manager m c, w, writeNetconfError e)
        | (m, w, Ok run) => (set_manager m c, w, config_ok (Some run) None "")
        end
    end)).

Definition handleNetconfDiscardChanges (r : Request) (clk : nat -> time) (c : ConfigControl) (w : World) : outcome :=
  only_method "POST" r c w (with_manager c w (fun m =>
    match decodeNetconfSessionMeta r with
    | (_, Some ReadError) => (c, w, invalid_json)
    | (req, _) =>
        match DiscardChanges req (clk 0) (clk 1) m w with
        | (m, w, Err e) => (set_manager m c, w, writeNetconfError e)
        | (m, w, Ok cfg) => (set_manager m c, w, config_ok None (Some cfg) "")
        end
    end)).

Definition handleNetconfLockLike (acquire : bool) (r : Request) (clk : nat -> time) (c : ConfigControl) (w : World) : outcome :=
  only_method "POST" r c w (with_manager c w (fun m =>
    match decodeNetconfLockRequest r with
    | Err _ => (c, w, invalid_json)
    | Ok req =>
        let '(m, w, err) := if acquire then let '(m, err) := Lock req (clk 0) m in (m, w, err)
                            else Unlock req (clk 0) (clk 1) m w in
        (set_manager m c, w, match err with Some e => writeNetconfError e | None => config_ok None None "" end)
    end)).

Definition handleNetconfLock : Request -> (nat -> time) -> ConfigControl -> World -> outcome := handleNetconfLockLike true.
Definition handleNetconfUnlock : Request -> (nat -> time) -> ConfigControl -> World -> outcome := handleNetconfLockLike false.

Definition handleNetconfSessionClose (r : Request) (c : ConfigControl) (w : World) : outcome :=
  only_method "POST" r c w (with_manager c w (fun m =>
    match decodeNetconfSessionMeta r with
    | (_, Some _) => (c, w, invalid_json)
    | (req, None) => let '(m, w) := SessionClose (SessionID req) m w in (set_manager m c, w, config_ok None None "")
    end)).

Definition handleNetconfSessionReset (r : Request) (c : ConfigControl) (w : World) : outcome :=
  only_method "POST" r c w (with_manager c w (fun m =>
    let '(m, w) := ResetSessions m w in (set_manager m c, w, config_ok None None ""))).

Definition handleNetconfKeepAlive (r : Request) (clk : nat -> time) (c : ConfigControl) (w : World) : outcome :=
  only_method "POST" r c w (with_manager c w (fun m =>
    match decode_limited decode_sessions r with
    | None => (c, w, invalid_json)
    | Some metas => (set_manager (KeepAlive metas (clk 0) (clk 1) m) c, w, config_ok None None "")
    end)).

Definition notification_line (n : Notification) : string := FormatRFC3339 (n_EventTime n) +:+ unstr [ascii_of_nat 9] +:+ n_Payload n.

(** How many notifications the request asks for. *)
Definition requested_max (r : Request) : Z :=
  let raw := TrimSpace (QueryMax r) in
  if String.eqb raw "" then 100%Z
  else match ParseInt 64 raw with Some v => if (0 <? v)%Z then v else 100%Z | None => 100%Z end.

Definition handleNetconfNotifications (r : Request) (c : ConfigControl) (w : World) : outcome :=
  only_method "POST" r c w (
    match Queue c with
    | None => (c, w, mkResponse StatusNoContent REmpty)
    | Some q =>
        let '(q, items) := Drain (requested_max r) q in
        let c := c <|Queue := Some q|> in
        match items with
        | [] => (c, w, mkResponse StatusNoContent REmpty)
        | _ => (c, w, mkResponse StatusOK (RLines (notification_line <$> items)))
        end
    end).

(** The values of a test report; of two names that trim to the same, the one visited last wins. *)
Definition test_values (metrics : list (string * float64)) : gmap string Value :=
  foldl (fun out nv => let name := TrimSpace nv.1 in
                       if String.eqb name "" then out else <[name := mkValue (mkMetric name "" nv.2 "") nv.2]> out) ∅ metrics.

Definition handleTCATestReport (r : Request) (clk : nat -> time) (c : ConfigControl) (w : World) : outcome :=
  only_method "POST" r c w (
    if negb (TCATestInject c) then (c, w, config_error StatusNotFound "TCA test injection is disabled")
    else match decode_limited decode_report r with
    | None => (c, w, invalid_json)
    | Some (object, metrics) =>
        let moi := TrimSpace object in
        if String.eqb moi "" then (c, w, config_error StatusBadRequest "managed_object is required")
        else match metrics with
        | [] => (c, w, config_error StatusBadRequest "metrics are required")
        | _ =>
            let values := test_values metrics in
            if bool_decide (values = ∅) then (c, w, config_error StatusBadRequest "metrics are empty after normalization")
            else (c <|Published ::= fun l => l ++ [mkReport (clk 0) (clk 0) 0%Z {[ moi := values ]}]|>, w,
                  config_ok None None "TCA test report accepted")
        end
    end).

(** The routes. *)
Definition handler (r : Request) (clk : nat -> time) (c : ConfigControl) (w : World) : outcome :=
  let path := Path r in
  if String.eqb path "/v1/control/restart" then let '(c, resp) := handleRestart r c in (c, w, resp)
  else if String.eqb path "/v1/control/config/running" then handleRunning r c w
  else if String.eqb path "/v1/control/config/candidate" then handleCandidate r c w
  else if String.eqb path "/v1/control/config/edit-config" then handleEditConfig r c w
  else if String.eqb path "/v1/control/config/commit" then handleCommit r clk c w
  else if String.eqb path "/v1/control/netconf/edit-config" then handleNetconfEditConfig r clk c w
  else if String.eqb path "/v1/control/netconf/validate" then handleNetconfValidate r c w
  else if String.eqb path "/v1/control/netconf/commit" then handleNetconfCommit r clk c w
  else if String.eqb path "/v1/control/netconf/discard-changes" then handleNetconfDiscardChanges r clk c w
  else if String.eqb path "/v1/control/netconf/lock" then handleNetconfLock r clk c w
  else if String.eqb path "/v1/control/netconf/unlock" then handleNetconfUnlock r clk c w
  else if String.eqb path "/v1/control/netconf/session-close" then handleNetconfSessionClose r c w
  else if String.eqb path "/v1/control/netconf/sessions/reset" then handleNetconfSessionReset r c w
  else if String.eqb path "/v1/control/netconf/sessions/keepalive" then handleNetconfKeepAlive r clk c w
  else if String.eqb path "/v1/control/netconf/notifications" then handleNetconfNotifications r c w
  else if String.eqb path "/v1/control/fm/tca/test-report" then handleTCATestReport r clk c w
  else (c, w, mkResponse StatusNotFound REmpty).

End Handlers.

(** ** Runs *)

(** Requests come interleaved with the end of an accepted restart, the ticks of the session collector
    (netconf_session_gc.go) and the alarm events that wiring.go feeds into the queue. *)
Inductive control_op :=
| CRequest (r : Request) (clk : nat -> time)
| CRestartDone
| CSweep (now clock : time)
| CAlarm (now : time) (evt : Event).

Section Runs.
Context {GL : GoLib} {PF : Platform} {RC : RequestCodec}.

Definition gc_tick (now clock : time) (c : ConfigControl) (w : World) : ConfigControl * World :=
  match backend c with
  | WithManager m => let '(m, w, _) := SweepExpiredSessions now clock m w in (set_manager m c, w)
  | _ => (c, w)
  end.

Definition on_alarm (now : time) (evt : Event) (c : ConfigControl) : ConfigControl :=
  match Queue c with Some q => c <|Queue := Some (AppendAlarmEvent now evt q)|> | None => c end.

Definition control_step (op : control_op) (s : ConfigControl * World * list Response) : ConfigControl * World * list Response :=
  let '(c, w, answers) := s in
  match op with
  | CRequest r clk => let '(c, w, resp) := handler r clk c w in (c, w, answers ++ [resp])
  | CRestartDone => (restart_done c, w, answers)
  | CSweep now clock => let '(c, w) := gc_tick now clock c w in (c, w, answers)
  | CAlarm now evt => (on_alarm now evt c, w, answers)
  end.

Definition control_run (ops : list control_op) (s : ConfigControl * World * list Response) : ConfigControl * World * list Response :=
  foldl (flip control_step) s ops.

End Runs.

(** ** Lemmas *)

Definition accepted (r : Response) : bool := (StatusCode r =? StatusAccepted)%Z.
Definition response_lines (r : Response) : list string := match Content r with RLines l => l | _ => [] end.
Definition is_done (op : control_op) : bool := match op with CRestartDone => true | _ => false end.

(** The number of elements that satisfy a test. *)
Definition count {A : Type} (f : A -> bool) (l : list A) : nat := length (List.filter f l).

Lemma count_app {A : Type} (f : A -> bool) (l1 l2 : list A) : count f (l1 ++ l2) = count f l1 + count f l2.
Proof. unfold count. by rewrite List.filter_app, length_app. Qed.

Lemma count_one_false {A : Type} (f : A -> bool) (x : A) : f x = false -> count f [x] = 0.
Proof. intros Hx. unfold count. cbn. by rewrite Hx. Qed.

(** A response of a handler that neither accepts a restart nor delivers notifications. *)
Definition plain_response (r : Response) : Prop := accepted r = false /\ response_lines r = [].

Lemma plain_config (status : Z) (p : configResponse) : status <> StatusAccepted -> plain_response (writeConfigJSON status p).
Proof. intros Hs. split; [|done]. by apply Z.eqb_neq. Qed.

Lemma plain_netconf_error (e : merror) : plain_response (writeNetconfError e).
Proof. destruct e as [e|msg]; apply plain_config; [|done]. unfold httpStatusForRPCError. by destruct (_ || _). Qed.

#[export] Hint Resolve plain_netconf_error : ems.
#[export] Hint Extern 1 (plain_response _) => (apply plain_config; discriminate) : ems.
#[export] Hint Extern 2 (plain_response (match ?e with _ => _ end)) => destruct e : ems.

Section Lemmas.
Context {GL : GoLib} {PF : Platform} {RC : RequestCodec}.

(** The outcome of a request, as at most one operation of the manager. *)
Record through (c : ConfigControl) (m : Manager) (w : World) (mops : list mgr_op) (o : outcome) : Prop := {
  th_manager : exists m', backend o.1.1 = WithManager m' /\ (m', o.1.2) = mgr_run mops (m, w);
  th_wf : Forall mgr_op_wf mops;
  th_targets : Targets o.1.1 = Targets c
}.

(** Neither the queue nor the restart is involved. *)
Definition aside (c : ConfigControl) (o : outcome) : Prop :=
  Queue o.1.1 = Queue c /\ restarting o.1.1 = restarting c /\ plain_response o.2.

Definition quiet (c : ConfigControl) (m : Manager) (w : World) (o : outcome) : Prop :=
  aside c o /\ exists mops, through c m w mops o /\ length mops <= 1.

Lemma quiet_same (c : ConfigControl) (m : Manager) (w : World) (resp : Response) :
  backend c = WithManager m -> plain_response resp -> quiet c m w (c, w, resp).
Proof. intros Hb Hr. split; [done|]. exists []. split; [|cbn; lia]. constructor; [by exists m|done|done]. Qed.

Lemma quiet_op (op : mgr_op) (c : ConfigControl) (m m' : Manager) (w w' : World) (resp : Response) :
  mgr_op_wf op -> mgr_step op (m, w) = (m', w') -> plain_response resp -> quiet c m w (set_manager m' c, w', resp).
Proof.
  intros Hw Hs Hr. split; [by destruct c|]. exists [op]. split; [|cbn; lia]. constructor; [|by apply Forall_singleton|by destruct c].
  exists m'. split; [by destruct c|]. change (mgr_run [op] (m, w)) with (mgr_step op (m, w)). done.
Qed.

Lemma quiet_method (method : string) (r : Request) (c : ConfigControl) (m : Manager) (w : World) (k : outcome) :
  backend c = WithManager m -> quiet c m w k -> quiet c m w (only_method method r c w k).
Proof. intros Hb Hk. unfold only_method. destruct (String.eqb _ _); [done|]. apply quiet_same; auto with ems. Qed.

End Lemmas.

(** Opens a handler on a service with a manager. *)
Ltac open_handler Hb :=
  try (apply quiet_method; [exact Hb|]); unfold with_store, with_manager, the_store; rewrite ?Hb.

(** The handler returned what the manager's operation did. *)
Ltac by_op op E := apply (quiet_op op); [done|cbn [mgr_step]; rewrite ?E; done|auto with ems].

Section Handled.
Context {GL : GoLib} {PF : Platform} {RC : RequestCodec} (Hcodec : codec_wf).
Context (r : Request) (clk : nat -> time) (c : ConfigControl) (m : Manager) (w : World) (Hb : backend c = WithManager m).

Lemma quiet_edit : quiet c m w (handleEditConfig r c w).
Proof.
  unfold handleEditConfig. open_handler Hb. destruct (decode_body decode_changes r) as [[|ch chs]|] eqn:Ed; [apply quiet_same; auto with ems| |apply quiet_same; auto with ems].
  assert (Hw : mgr_op_wf (MEditFlat (ch :: chs))).
  { unfold decode_body in Ed. destruct (Body r) as [b|e]; [|done]. by apply (Hcodec b). }
  destruct (EditFlat (ch :: chs) m w) as [[m' w'] [cfg|e]] eqn:E; by_op (MEditFlat (ch :: chs)) E.
Qed.

Lemma quiet_commit : quiet c m w (handleCommit r clk c w).
Proof.
  unfold handleCommit. open_handler Hb.
  destruct (Commit no_session _ _ _ _ m w) as [[m' w'] [cfg|e]] eqn:E; by_op (MCommit no_session (clk 0) (clk 1) (clk 2) (clk 3)) E.
Qed.

Lemma quiet_netconf_edit : quiet c m w (handleNetconfEditConfig r clk c w).
Proof.
  unfold handleNetconfEditConfig. open_handler Hb. destruct (decodeNetconfEditRequest r) as [req|e]; [|apply quiet_same; auto with ems].
  destruct (EditConfig req _ _ m w) as [[m' w'] [cfg|e]] eqn:E; by_op (MEditConfig req (clk 0) (clk 1)) E.
Qed.

Lemma quiet_netconf_commit : quiet c m w (handleNetconfCommit r clk c w).
Proof.
  unfold handleNetconfCommit. open_handler Hb. destruct (decodeNetconfCommitRequest r) as [req|e]; [|apply quiet_same; auto with ems].
  destruct (Commit req _ _ _ _ m w) as [[m' w'] [cfg|e]] eqn:E; by_op (MCommit req (clk 0) (clk 1) (clk 2) (clk 3)) E.
Qed.

Lemma quiet_netconf_discard : quiet c m w (handleNetconfDiscardChanges r clk c w).
Proof.
  unfold handleNetconfDiscardChanges. open_handler Hb.
  destruct (decodeNetconfSessionMeta r) as [req [[]|]]; try (apply quiet_same; by auto with ems);
    destruct (DiscardChanges req _ _ m w) as [[m' w'] [cfg|e]] eqn:E; by_op (MDiscard req (clk 0) (clk 1)) E.
Qed.

Lemma quiet_netconf_lock (acquire : bool) : quiet c m w (handleNetconfLockLike acquire r clk c w).
Proof.
  unfold handleNetconfLockLike. open_handler Hb. destruct (decodeNetconfLockRequest r) as [req|e]; [|apply quiet_same; auto with ems]. destruct acquire.
  - destruct (Lock req (clk 0) m) as [m' e] eqn:E. by_op (MLock req (clk 0)) E.
  - destruct (Unlock req (clk 0) (clk 1) m w) as [[m' w'] e] eqn:E. by_op (MUnlock req (clk 0) (clk 1)) E.
Qed.

Lemma quiet_netconf_close : quiet c m w (handleNetconfSessionClose r c w).
Proof.
  unfold handleNetconfSessionClose. open_handler Hb. destruct (decodeNetconfSessionMeta r) as [req [e|]]; [apply quiet_same; auto with ems|].
  destruct (SessionClose (SessionID req) m w) as [m' w'] eqn:E. by_op (MSessionClose (SessionID req)) E.
Qed.

Lemma quiet_netconf_reset : quiet c m w (handleNetconfSessionReset r c w).
Proof.
  unfold handleNetconfSessionReset. open_handler Hb. destruct (ResetSessions m w) as [m' w'] eqn:E. by_op MResetSessions E.
Qed.

Lemma quiet_netconf_keepalive : quiet c m w (handleNetconfKeepAlive r clk c w).
Proof.
  unfold handleNetconfKeepAlive. open_handler Hb. destruct (decode_limited decode_sessions r) as [metas|]; [|apply quiet_same; auto with ems].
  by_op (MKeepAlive metas (clk 0) (clk 1)) I.
Qed.

Lemma quiet_reads : quiet c m w (handleRunning r c w) /\ quiet c m w (handleCandidate r c w) /\ quiet c m w (handleNetconfValidate r c w).
Proof.
  split_and!; [unfold handleRunning|unfold handleCandidate|unfold handleNetconfValidate]; open_handler Hb; try (apply quiet_same; by auto with ems).
  destruct (decodeNetconfValidateRequest r); apply quiet_same; auto with ems.
Qed.

(** A test report reaches the bus only. *)
Lemma quiet_report : quiet c m w (handleTCATestReport r clk c w).
Proof.
  unfold handleTCATestReport. apply quiet_method; [done|]. destruct (negb _); [apply quiet_same; auto with ems|].
  destruct (decode_limited decode_report r) as [[object metrics]|]; [|apply quiet_same; auto with ems]. cbv zeta.
  destruct (String.eqb _ _); [apply quiet_same; auto with ems|]. destruct metrics; [apply quiet_same; auto with ems|].
  destruct (bool_decide _); [apply quiet_same; auto with ems|]. split; [split_and!; [by destruct c|by destruct c|auto with ems]|].
  exists []. split; [|cbn; lia]. constructor; [|done|by destruct c]. exists m. split; [by destruct c|done].
Qed.

End Handled.

Section Served.
Context {GL : GoLib} {PF : Platform} {RC : RequestCodec} (Hcodec : codec_wf).

Definition busy (c : ConfigControl) : nat := match restarting c with Some _ => 1 | None => 0 end.

(** The notifications: the queue after some operations, of which the responses delivered all that was
    drained. *)
Definition delivered (q0 q : option NotificationQueue) (answers : list Response) : Prop :=
  match q0 with
  | None => q = None /\ mjoin (response_lines <$> answers) = []
  | Some q0 => exists qops, let '(q', out) := queue_run qops (q0, []) in
               q = Some q' /\ mjoin (response_lines <$> answers) = notification_line <$> out
  end.

(** What a run from [c0] has come to. *)
Record served (c0 : ConfigControl) (m0 : Manager) (w0 : World) (ops : list control_op) (s : ConfigControl * World * list Response) : Prop := {
  sv_manager : exists mops m, backend s.1.1 = WithManager m /\ (m, s.1.2) = mgr_run mops (m0, w0) /\ Forall mgr_op_wf mops /\ length mops <= length ops;
  sv_restarts : count accepted s.2 <= count is_done ops + busy s.1.1;
  sv_queue : delivered (Queue c0) (Queue s.1.1) s.2
}.

Lemma delivered_more (q0 q : option NotificationQueue) (answers : list Response) (resp : Response) :
  response_lines resp = [] -> delivered q0 q answers -> delivered q0 q (answers ++ [resp]).
Proof.
  intros Hr. assert (Hj : mjoin (response_lines <$> answers ++ [resp]) = mjoin (response_lines <$> answers)).
  { rewrite fmap_app, join_app. cbn. by rewrite Hr, !app_nil_r. }
  unfold delivered. by rewrite Hj.
Qed.

Lemma mgr_run_snoc (mops l : list mgr_op) (mw : Manager * World) : mgr_run (mops ++ l) mw = mgr_run l (mgr_run mops mw).
Proof. unfold mgr_run. by rewrite foldl_app. Qed.

(** A request that is none of the queue's or the supervisor's business. *)
Lemma quiet_served (c0 c : ConfigControl) (m0 m : Manager) (w0 w : World) (ops : list control_op) (answers : list Response) (op : control_op) (o : outcome) :
  served c0 m0 w0 ops (c, w, answers) -> backend c = WithManager m -> quiet c m w o ->
  served c0 m0 w0 (ops ++ [op]) (o.1.1, o.1.2, answers ++ [o.2]).
Proof.
  intros [(mops & m1 & Hb & Hm & Hw & Hl) Hr Hq] Hbm [(Hqu & Hre & Hp1 & Hp2) (l & [(m' & Hb' & Hm') Hw' _] & Hl')]. cbn [fst snd] in *.
  rewrite Hb in Hbm. injection Hbm as ->. constructor; cbn [fst snd].
  - exists (mops ++ l), m'. split_and!; [done| |by apply Forall_app|rewrite !length_app; cbn; lia]. by rewrite mgr_run_snoc, <- Hm.
  - rewrite !count_app. rewrite (count_one_false accepted _ Hp1). unfold busy in *. rewrite Hre. lia.
  - rewrite Hqu. by apply delivered_more.
Qed.

Lemma restart_served (c0 c : ConfigControl) (m0 : Manager) (w0 w : World) (ops : list control_op) (answers : list Response) (op : control_op) (r : Request) :
  served c0 m0 w0 ops (c, w, answers) ->
  let '(c', resp) := handleRestart r c in served c0 m0 w0 (ops ++ [op]) (c', w, answers ++ [resp]).
Proof.
  intros [(mops & m1 & Hb & Hm & Hw & Hl) Hr Hq]. cbn [fst snd] in *.
  assert (Hno : forall status serial container msg, status <> StatusAccepted -> served c0 m0 w0 (ops ++ [op]) (c, w, answers ++ [restart_error status serial container msg])).
  { intros status serial container msg Hs. constructor; cbn [fst snd].
    - exists mops, m1. split_and!; [done|done|done|rewrite length_app; lia].
    - rewrite !count_app. rewrite (count_one_false accepted) by (by apply Z.eqb_neq). lia.
    - by apply delivered_more. }
  unfold handleRestart. destruct (negb _); [by apply Hno|]. destruct TriggerRestart; [|by apply Hno].
  destruct (decode_body decode_restart r) as [serial|]; [|by apply Hno]. cbv zeta. destruct (String.eqb _ _); [by apply Hno|].
  destruct (resolveTargetForSerial _ c) as [target|]; [|by apply Hno]. destruct (negb _); [by apply Hno|].
  destruct (restarting c) eqn:Er; [by apply Hno|]. constructor; cbn [fst snd].
  - exists mops, m1. split_and!; [by destruct c|done|done|rewrite length_app; lia].
  - rewrite !count_app. unfold busy in *. rewrite Er in Hr. destruct c. cbn in *. lia.
  - apply delivered_more; [done|]. by destruct c.
Qed.

Lemma notifications_served (c0 c : ConfigControl) (m0 : Manager) (w0 w : World) (ops : list control_op) (answers : list Response) (op : control_op) (r : Request) :
  served c0 m0 w0 ops (c, w, answers) ->
  let '(c', w', resp) := handleNetconfNotifications r c w in served c0 m0 w0 (ops ++ [op]) (c', w', answers ++ [resp]).
Proof.
  intros [(mops & m1 & Hb & Hm & Hw & Hl) Hr Hq]. cbn [fst snd] in *.
  assert (Hmk : forall c' resp, backend c' = backend c -> restarting c' = restarting c -> accepted resp = false ->
            delivered (Queue c0) (Queue c') (answers ++ [resp]) -> served c0 m0 w0 (ops ++ [op]) (c', w, answers ++ [resp])).
  { intros c' resp Hbc Hrc Ha Hd. constructor; cbn [fst snd]; [| |done].
    - exists mops, m1. split_and!; [by rewrite Hbc|done|done|rewrite length_app; lia].
    - rewrite !count_app. rewrite (count_one_false accepted _ Ha). unfold busy in *. rewrite Hrc. lia. }
  unfold handleNetconfNotifications, only_method. destruct (String.eqb _ _); [|by apply Hmk, delivered_more].
  destruct (Queue c) as [q|] eqn:Eq; [|apply Hmk; [done..|]; rewrite Eq; by apply delivered_more].
  destruct (Drain (requested_max r) q) as [q' items] eqn:Ed.
  assert (Hd : forall resp, response_lines resp = notification_line <$> items -> delivered (Queue c0) (Some q') (answers ++ [resp])).
  { intros resp Hl2. unfold delivered in *. destruct (Queue c0) as [q0|]; [|by destruct Hq]. destruct Hq as (qops & Hq).
    destruct (queue_run qops (q0, [])) as [q1 out] eqn:Er. destruct Hq as [[= <-] Hj]. exists (qops ++ [QDrain (requested_max r)]).
    unfold queue_run in *. rewrite foldl_app, Er. cbn [foldl flip queue_step]. unfold flip. cbn [queue_step]. rewrite Ed. split; [done|].
    rewrite fmap_app, join_app, Hj, fmap_app. f_equal. cbn. by rewrite app_nil_r. }
  assert (Hq' : Queue (c <|Queue := Some q'|>) = Some q') by by destruct c.
  destruct items as [|it its]; (apply Hmk; [by destruct c|by destruct c|done|]; rewrite Hq'; by apply Hd).
Qed.

Lemma step_served (c0 : ConfigControl) (m0 : Manager) (w0 : World) (ops : list control_op) (op : control_op) (s : ConfigControl * World * list Response) :
  served c0 m0 w0 ops s -> served c0 m0 w0 (ops ++ [op]) (control_step op s).
Proof.
  destruct s as [[c w] answers]. intros Hs. destruct (sv_manager _ _ _ _ _ Hs) as (mops & m & Hb & Hm & Hw & Hl). cbn [fst snd] in *.
  destruct op as [r clk| |now clock|now evt]; cbn [control_step].
  - set (good := fun o : outcome => let '(c', w', resp) := o in served c0 m0 w0 (ops ++ [CRequest r clk]) (c', w', answers ++ [resp])).
    assert (Hquiet : forall o, quiet c m w o -> good o).
    { intros [[c' w'] resp] Ho. by apply (quiet_served c0 c m0 m w0 w ops answers _ (c', w', resp)). }
    destruct (quiet_reads r c m w Hb) as (Hr1 & Hr2 & Hr3). assert (Hall : forall o, good o -> served c0 m0 w0 (ops ++ [CRequest r clk]) (let '(c', w', resp) := o in (c', w', answers ++ [resp]))) by (by intros [[? ?] ?]).
    apply Hall. unfold handler. cbv zeta.
    destruct (String.eqb _ _); [pose proof (restart_served c0 c m0 w0 w ops answers (CRequest r clk) r Hs) as H; unfold good; by destruct (handleRestart r c)|].
    repeat (destruct (String.eqb _ _); [first [by apply Hquiet | by apply Hquiet, quiet_edit | by apply Hquiet, quiet_commit | by apply Hquiet, quiet_netconf_edit
      | by apply Hquiet, quiet_netconf_commit | by apply Hquiet, quiet_netconf_discard | by apply Hquiet, quiet_netconf_lock | by apply Hquiet, quiet_netconf_close
      | by apply Hquiet, quiet_netconf_reset | by apply Hquiet, quiet_netconf_keepalive | by apply Hquiet, quiet_report
      | exact (notifications_served c0 c m0 w0 w ops answers _ r Hs)]|]).
    apply Hquiet, quiet_same; [done|]. done.
  - destruct Hs as [_ Hr Hq]. cbn [fst snd] in *. constructor; cbn [fst snd].
    + exists mops, m. split_and!; [by destruct c|done|done|rewrite length_app; lia].
    + rewrite count_app. unfold busy in *. destruct c as [? ? ? ? [|] ?]; cbn in *; lia.
    + by destruct c.
  - unfold gc_tick. rewrite Hb. destruct (SweepExpiredSessions now clock m w) as [[m' w'] expired] eqn:E. destruct Hs as [_ Hr Hq]. cbn [fst snd] in *. constructor; cbn [fst snd].
    + exists (mops ++ [MSweep now clock]), m'. split_and!; [by destruct c| |apply Forall_app; split; [done|by apply Forall_singleton]|rewrite !length_app; cbn; lia].
      rewrite mgr_run_snoc, <- Hm. change (mgr_run [MSweep now clock] (m, w)) with (mgr_step (MSweep now clock) (m, w)). cbn [mgr_step]. by rewrite E.
    + rewrite count_app. destruct c. unfold busy in *. cbn in *. lia.
    + by destruct c.
  - unfold on_alarm. destruct Hs as [_ Hr Hq]. cbn [fst snd] in *. destruct (Queue c) as [q|] eqn:Eq.
    + constructor; cbn [fst snd].
      * exists mops, m. split_and!; [by destruct c|done|done|rewrite length_app; lia].
      * rewrite count_app. destruct c. unfold busy in *. cbn in *. lia.
      * assert (Hq' : Queue (c <|Queue := Some (AppendAlarmEvent now evt q)|>) = Some (AppendAlarmEvent now evt q)) by by destruct c. rewrite Hq'.
        unfold delivered in *. destruct (Queue c0) as [q0|]; [|by destruct Hq]. destruct Hq as (qops & Hq). exists (qops ++ [QEvent now evt]).
        unfold queue_run in *. rewrite foldl_app. destruct (foldl _ (q0, []) qops) as [q1 out]. destruct Hq as [[= <-] Hj]. done.
    + constructor; cbn [fst snd]; [|rewrite count_app; lia|by rewrite Eq].
      exists mops, m. split_and!; [done|done|done|rewrite length_app; lia].
Qed.

Lemma control_run_served (ops : list control_op) (c : ConfigControl) (m : Manager) (w : World) :
  backend c = WithManager m -> served c m w ops (control_run ops (c, w, [])).
Proof.
  intros Hb. induction ops as [|op ops IH] using rev_ind.
  - constructor; cbn; [by exists [], m|lia|]. unfold delivered. destruct (Queue c); [by exists []|done].
  - unfold control_run. rewrite foldl_app. by apply step_served.
Qed.

End Served.

(** ** Theorems *)

(** The session an edit-config, discard-changes or commit request acts for. *)
Definition acting_session `{RequestCodec} (r : Request) : option SessionMeta :=
  if String.eqb (Path r) "/v1/control/netconf/edit-config"
  then match decodeNetconfEditRequest r with Ok req => Some (er_session req) | Err _ => None end
  else if String.eqb (Path r) "/v1/control/netconf/discard-changes"
  then match decodeNetconfSessionMeta r with (_, Some ReadError) => None | (meta, _) => Some meta end
  else if String.eqb (Path r) "/v1/control/netconf/commit"
  then match decodeNetconfCommitRequest r with Ok meta => Some meta | Err _ => None end
  else None.

Section Theorems.
Context {GL : GoLib} {PF : Platform} {RC : RequestCodec}.


(** A request against a lock held by somebody else is answered with a conflict. While a live
    session holds the candidate, every edit-config, discard-changes and commit request that acts for
    another session is answered with 409, the tag in-use and the holder's session id (which is left
    out when it is 0); no configuration and no file changes. *)
Theorem foreign_request_conflict (r : Request) (clk : nat -> time) (c : ConfigControl) (m : Manager) (w : World) (sess : SessionMeta) (o : Z) :
  backend c = WithManager m -> Method r = "POST" -> acting_session r = Some sess ->
  holders (clk 0) (mlocks m) !! "candidate" = Some o -> o <> SessionID sess ->
  exists c' m' p, handler r clk c w = (c', w, mkResponse StatusConflict (RConfig p)) /\ backend c' = WithManager m' /\ store m' = store m /\
    cr_ErrorTag p = ErrorTagInUse /\ cr_ErrorInfo p = (if (o =? 0)%Z then None else Some o).
Proof.
  intros Hb Hm Ha Hh Hne. destruct (ensure_refuses "candidate" ErrorTagInUse sess (clk 0) (clk 1) (mlocks m) o eq_refl Hh Hne) as (e & He & Ho & Ht).
  change (Tag e = ErrorTagInUse) in Ht. set (m' := m <|mlocks := fst (ensure "candidate" sess ErrorTagInUse (clk 0) (clk 1) (mlocks m))|>).
  assert (Hans : exists p, writeNetconfError (ERPC e) = mkResponse StatusConflict (RConfig p) /\ cr_ErrorTag p = ErrorTagInUse /\
                           cr_ErrorInfo p = (if (o =? 0)%Z then None else Some o)).
  { unfold writeNetconfError, httpStatusForRPCError. rewrite Ht, Ho. eexists. split; [done|]. done. }
  destruct Hans as (p & Hp & Hp1 & Hp2). exists (set_manager m' c), m', p.
  assert (Hh2 : handler r clk c w = (set_manager m' c, w, mkResponse StatusConflict (RConfig p)));
    [|split_and!; [done|by destruct c|by destruct m|done|done]].
  assert (Href : forall req, er_session req = sess -> forall x, x ∈ [EditConfig req (clk 0) (clk 1) m w; DiscardChanges sess (clk 0) (clk 1) m w;
                   Commit sess (clk 0) (clk 1) (clk 2) (clk 3) m w] -> x = (m', w, Err (ERPC e))).
  { intros req <-. by apply candidate_refusal. }
  unfold acting_session in Ha. unfold handler. cbv zeta.
  destruct (String.eqb_spec (Path r) "/v1/control/netconf/edit-config") as [->|_].
  { cbn [String.eqb Ascii.eqb Bool.eqb]. unfold handleNetconfEditConfig, only_method, with_manager. rewrite Hm, Hb. cbn [String.eqb Ascii.eqb Bool.eqb].
    destruct (decodeNetconfEditRequest r) as [req|]; [|done]. injection Ha as Ha. rewrite (Href req Ha _ ltac:(left)). by rewrite Hp. }
  pose (anyreq := mkEdit sess "" "" "" "" "").
  destruct (String.eqb_spec (Path r) "/v1/control/netconf/discard-changes") as [->|_].
  { cbn [String.eqb Ascii.eqb Bool.eqb]. unfold handleNetconfDiscardChanges, only_method, with_manager. rewrite Hm, Hb. cbn [String.eqb Ascii.eqb Bool.eqb].
    destruct (decodeNetconfSessionMeta r) as [meta [[]|]]; [|done|]; injection Ha as ->; rewrite (Href anyreq eq_refl _ ltac:(right; left)); by rewrite Hp. }
  destruct (String.eqb_spec (Path r) "/v1/control/netconf/commit") as [->|_]; [|done].
  cbn [String.eqb Ascii.eqb Bool.eqb]. unfold handleNetconfCommit, only_method, with_manager. rewrite Hm, Hb. cbn [String.eqb Ascii.eqb Bool.eqb].
  destruct (decodeNetconfCommitRequest r) as [meta|]; [|done]. injection Ha as ->. rewrite (Href anyreq eq_refl _ ltac:(right; right; left)). by rewrite Hp.
Qed.

End Theorems.

(** ** Witnesses and a finding *)

(** A codec that reads every body the same way. *)
Definition sample_codec : RequestCodec := {|
  decode_restart := Some;
  decode_changes := fun _ => Some [("pci", AFloat64 (f_of_Z 7))];
  decode_sessions := fun _ => Some [bob];
  decode_report := fun _ => Some ("ENBFunction=1", [("pm.bler", f_of_Z 1)]);
  unmarshal_edit := fun _ => None;
  unmarshal_validate := fun _ => None;
  unmarshal_lock := fun b => (mkLockReq bob b, true);
  unmarshal_meta := fun _ => (bob, true)
|}.

Lemma sample_codec_wf : codec_wf (H := sample_codec).
Proof. intros b l [= <-]. apply Forall_singleton. vm_compute. reflexivity. Qed.

Definition post (path body : string) : control_op :=
  CRequest (mkRequest "POST" path (fun _ => "") (Ok body) "") (fun _ => secs 110).
Definition sample_control (m : Manager) : ConfigControl :=
  NewConfigControl [("4660", " srsenb ")] (WithManager m) (Some (NewNotificationQueue 0)) false.
Definition sample_ops : list control_op :=
  [post "/v1/control/restart" " 4660 "; post "/v1/control/restart" "4660"; CRestartDone;
   post "/v1/control/netconf/lock" "candidate"; post "/v1/control/config/edit-config" "{}";
   CAlarm (secs 111) (mkEvent (secs 111) "uds" "degraded" (NewThresholdAlarm (GL := ascii_golib) "" "" "") StatusActive 1); post "/v1/control/netconf/notifications" ""].


Lemma foreign_request_conflict_witness :
  exists c p, handler (GL := ascii_golib) (PF := sample_platform None) (RC := sample_codec)
    (mkRequest "POST" "/v1/control/netconf/commit" (fun _ => "") (Ok "{}") "") (fun _ => secs 110)
    (sample_control (sample_manager sample_store alice_locked 0)) sample_world = (c, sample_world, mkResponse 409 (RConfig p)) /\ cr_ErrorInfo p = Some 7%Z.
Proof.
  destruct (foreign_request_conflict (GL := ascii_golib) (PF := sample_platform None) (RC := sample_codec)
    (mkRequest "POST" "/v1/control/netconf/commit" (fun _ => "") (Ok "{}") "") (fun _ => secs 110)
    (sample_control (sample_manager sample_store alice_locked 0)) (sample_manager sample_store alice_locked 0) sample_world bob 7%Z eq_refl eq_refl
    ltac:(vm_compute; reflexivity) ltac:(vm_compute; reflexivity) ltac:(done)) as (c & m & p & Hh & _ & _ & _ & Hi).
  exists c, p. split; [exact Hh|exact Hi].
Defined.

(** The plain edit route asks no lock: it changes the candidate that another session has locked. *)
Lemma flat_edit_ignores_lock :
  let '(c, _, resp) := handler (GL := ascii_golib) (PF := sample_platform None) (RC := sample_codec)
    (mkRequest "POST" "/v1/control/config/edit-config" (fun _ => "") (Ok "{}") "") (fun _ => secs 110)
    (sample_control (sample_manager sample_store alice_locked 0)) sample_world in
  holders (secs 110) alice_locked !! "candidate" = Some 7%Z /\ StatusCode resp = 200%Z /\
  (PCI ∘ cand <$> the_store c) <> (PCI ∘ running <$> the_store c).
Proof. vm_compute. split_and!; [reflexivity|reflexivity|discriminate]. Qed.
