(* ===== verification/Metrics.v ===== *)
(** * Raw metrics (internal/ems/domain: metrics.go, nr_metrics.go; internal/ems/fcaps/metrics/parser.go)

    The structures of the JSON reports of srsENB and of a gNB and how encoding/json fills them. The
    text of a report is parsed by a parameter; decoding starts from the JSON value, whose numbers are
    kept as literals. The flat structures that the mediation reads by reflection are tables of their
    JSON tags and kinds, with a value for each tag. An error anywhere makes the whole decoding fail,
    so it is not told apart. A container that occurs twice in an object is decoded afresh, where
    encoding/json would decode into what the first occurrence left. *)
From S2P Require Import Prelude GoNum GoStrings Json.

(** The parser of encoding/json, for a whole text (Unmarshal) and for the first value of a stream
    (Decoder.Decode): members in the order of the text. *)
Class JsonText := { ParseJson : string -> option json; ParseFirst : string -> option json }.

(** ** Fields *)

Inductive kind := KString | KFloat64 | KUint (bits : Z) | KInt (bits : Z).

Inductive gval := GString (s : string) | GFloat64 (x : float64) | GUint (z : Z) | GInt (z : Z).

Definition zero_of (k : kind) : gval :=
  match k with KString => GString "" | KFloat64 => GFloat64 f_zero | KUint _ => GUint 0 | KInt _ => GInt 0 end.

(** The literal of a number. *)
Definition number_text (j : json) : option string :=
  match j with JNum t => Some t | JInt z => Some (FormatInt z) | _ => None end.

(** Assignments to the members of a Go map, in order. *)
Definition members (l : list (string * json)) : gmap string json := foldl (fun m kv => <[kv.1 := kv.2]> m) ∅ l.

Section Decode.
Context {GL : GoLib}.

(** A null leaves the variable as it was. *)
Definition decode_scalar (k : kind) (j : json) (old : gval) : option gval :=
  match j with
  | JNull => Some old
  | _ => match k with
         | KString => match j with JStr s => Some (GString s) | _ => None end
         | KFloat64 => GFloat64 <$> (number_text j ≫= ParseFloat)
         | KUint bits => GUint <$> (number_text j ≫= ParseUint bits)
         | KInt bits => GInt <$> (number_text j ≫= ParseInt bits)
         end
  end.

(** The field a member goes to: names are compared without case. *)
Definition field_named (fields : list (string * kind)) (name : string) : option (string * kind) :=
  find (fun f => EqualFold f.1 name) fields.

(** The struct value: a value for each tag. *)
Definition fields_zero (fields : list (string * kind)) : gmap string gval := list_to_map ((fun f => (f.1, zero_of f.2)) <$> fields).

Definition decode_member (fields : list (string * kind)) (kv : string * json) (vals : gmap string gval) : option (gmap string gval) :=
  match field_named fields kv.1 with
  | None => Some vals
  | Some (tag, k) =>
      match decode_scalar k kv.2 (default (zero_of k) (vals !! tag)) with
      | Some v => Some (<[tag := v]> vals)
      | None => None
      end
  end.

Definition decode_members (fields : list (string * kind)) (l : list (string * json)) : option (gmap string gval) :=
  foldl (fun acc kv => acc ≫= decode_member fields kv) (Some (fields_zero fields)) l.

(** A slice: null makes it nil. *)
Definition decode_list {A : Type} (dec : json -> option A) (j : json) : option (list A) :=
  match j with
  | JNull => Some []
  | JArr l => mapM dec l
  | _ => None
  end.

(** The slice a member with this name gives; a later member replaces an earlier one. *)
Definition decode_list_member {A : Type} (name : string) (dec : json -> option A) (l : list (string * json)) : option (list A) :=
  foldl (fun acc kv => acc ≫= fun old => if EqualFold name kv.1 then decode_list dec kv.2 else Some old) (Some []) l.

(** The containers: an object whose member [name], if there is one, stands for it. *)
Definition unwrap {A : Type} (name : string) (dec : json -> option A) (j : json) : option A :=
  match j with
  | JObj l => match members l !! name with Some inner => dec inner | None => dec j end
  | JNull => dec j
  | _ => None
  end.

(** An object or null, decoded member by member. *)
Definition decode_object {A : Type} (dec : list (string * json) -> option A) (j : json) : option A :=
  match j with JObj l => dec l | JNull => dec [] | _ => None end.

(** ** eNB reports (metrics.go) *)

Definition u32 : kind := KUint 32.

Definition BearerFields : list (string * kind) :=
  [("bearer_id", u32); ("qci", u32); ("dl_total_bytes", KUint 64); ("ul_total_bytes", KUint 64); ("dl_latency", KFloat64);
   ("ul_latency", KFloat64); ("dl_buffered_bytes", u32); ("ul_buffered_bytes", u32)].

Definition UEFields : list (string * kind) :=
  [("ue_rnti", KUint 16); ("dl_cqi", KFloat64); ("dl_mcs", KFloat64); ("dl_bitrate", KFloat64); ("dl_bler", KFloat64); ("ul_snr", KFloat64);
   ("ul_mcs", KFloat64); ("ul_pusch_rssi", KFloat64); ("ul_pucch_rssi", KFloat64); ("ul_pucch_ni", KFloat64); ("ul_pusch_tpc", KInt 64);
   ("ul_pucch_tpc", KInt 64); ("dl_cqi_offset", KFloat64); ("ul_snr_offset", KFloat64); ("ul_bitrate", KFloat64); ("ul_bler", KFloat64);
   ("ul_phr", KFloat64); ("ul_bsr", u32); ("rrc_state_str", KString); ("rrc_state", u32); ("rrc_drb_count", u32); ("rrc_nof_cells", u32);
   ("rrc_is_allocated", u32); ("rrc_sr_res_present", u32); ("rrc_n_pucch_cs_present", u32); ("rrc_is_csfb", u32); ("rrc_connect_notified", u32);
   ("rrc_rlf_cnt", u32); ("rrc_rlf_info_pending", u32); ("rrc_consecutive_kos_dl", u32); ("rrc_consecutive_kos_ul", u32); ("rrc_has_tmsi", u32);
   ("rrc_m_tmsi", u32); ("rrc_mmec", u32); ("rrc_establishment_cause", u32); ("rrc_transaction_id", u32); ("rrc_activity_timer_running", u32);
   ("rrc_activity_timer_elapsed", u32); ("rrc_activity_timer_duration", u32); ("rrc_phy_dl_rlf_timer_running", u32);
   ("rrc_phy_dl_rlf_timer_elapsed", u32); ("rrc_phy_dl_rlf_timer_duration", u32); ("rrc_phy_ul_rlf_timer_running", u32);
   ("rrc_phy_ul_rlf_timer_elapsed", u32); ("rrc_phy_ul_rlf_timer_duration", u32); ("rrc_rlc_rlf_timer_running", u32);
   ("rrc_rlc_rlf_timer_elapsed", u32); ("rrc_rlc_rlf_timer_duration", u32); ("rrc_last_ul_msg_bytes", u32);
   ("rrc_eutra_capabilities_unpacked", u32); ("rrc_release_cause", KString); ("rrc_con_req_rx", u32); ("rrc_con_setup_tx", u32);
   ("rrc_con_setup_complete_rx", u32); ("rrc_con_reject_tx", u32); ("rrc_con_reest_req_rx", u32); ("rrc_con_reest_tx", u32);
   ("rrc_con_reest_complete_rx", u32); ("rrc_con_reest_reject_tx", u32); ("rrc_con_reconf_tx", u32); ("rrc_con_reconf_complete_rx", u32);
   ("rrc_con_release_tx", u32); ("rrc_security_mode_command_tx", u32); ("rrc_security_mode_complete_rx", u32);
   ("rrc_security_mode_failure_rx", u32); ("rrc_ue_cap_enquiry_tx", u32); ("rrc_ue_cap_info_rx", u32); ("rrc_ue_info_req_tx", u32);
   ("rrc_ue_info_resp_rx", u32); ("rrc_max_rlc_retx", u32); ("rrc_protocol_fail", u32)].

Definition CellFields : list (string * kind) := [("carrier_id", u32); ("pci", u32); ("nof_rach", u32)].
Definition RootFields : list (string * kind) := [("type", KString); ("enb_serial", KString); ("timestamp", KFloat64)].

Record BearerContainer := mkBearer { b_fields : gmap string gval }.
Record UEContainer := mkUE { ue_fields : gmap string gval; BearerList : list BearerContainer }.
Record CellContainer := mkCell { cell_fields : gmap string gval; UEList : list UEContainer }.
Record S1APContainer := mkS1AP { S1Status : string; StatusCode : Z; S1Counters : gmap string Z }.
Record RRCContainer := mkRRC { RRCCounters : gmap string Z }.

Record EnbMetrics := mkEnb {
  e_Type : string;
  EnbSerial : string;
  e_Timestamp : float64;
  S1AP : S1APContainer;
  RRC : RRCContainer;
  CellList : list CellContainer
}.

Definition get_string (tag : string) (m : gmap string gval) : string := match m !! tag with Some (GString s) => s | _ => "" end.
Definition get_uint (tag : string) (m : gmap string gval) : Z := match m !! tag with Some (GUint z) => z | _ => 0%Z end.
Definition get_float (tag : string) (m : gmap string gval) : float64 := match m !! tag with Some (GFloat64 x) => x | _ => f_zero end.

Definition decode_bearer : json -> option BearerContainer :=
  unwrap "bearer_container" (decode_object (fun l => mkBearer <$> decode_members BearerFields l)).

Definition decode_ue : json -> option UEContainer :=
  unwrap "ue_container" (decode_object (fun l =>
    match decode_members UEFields l, decode_list_member "bearer_list" decode_bearer l with
    | Some f, Some bs => Some (mkUE f bs)
    | _, _ => None
    end)).

Definition decode_cell : json -> option CellContainer :=
  unwrap "cell_container" (decode_object (fun l =>
    match decode_members CellFields l, decode_list_member "ue_list" decode_ue l with
    | Some f, Some us => Some (mkCell f us)
    | _, _ => None
    end)).

(** What json.Number accepts as a quoted number. *)
Definition digits_prefix (l : bytes) : bytes * bytes := (take_while is_digit l, drop (length (take_while is_digit l)) l).
Definition isValidNumber (s : string) : bool :=
  let l := match str s with c :: r => if Ascii.eqb c "-" then r else c :: r | [] => [] end in
  match l with
  | [] => false
  | c :: r =>
      if negb (is_digit c) then false
      else
        let l := if Ascii.eqb c "0" then r else snd (digits_prefix r) in
        let l := match l with
                 | d :: e :: r => if Ascii.eqb d "." && is_digit e then snd (digits_prefix r) else l
                 | _ => l
                 end in
        let l := match l with
                 | e :: r =>
                     if Ascii.eqb e "e" || Ascii.eqb e "E" then
                       let r := match r with sg :: r' => if Ascii.eqb sg "+" || Ascii.eqb sg "-" then r' else r | [] => [] end in
                       match r with c :: _ => if is_digit c then snd (digits_prefix r) else l | [] => l end
                     else l
                 | [] => l
                 end in
        match l with [] => true | _ => false end
  end.

(** json.Unmarshal into a json.Number. *)
Definition decode_number (j : json) : option string :=
  match j with
  | JNull => Some ""
  | JStr s => if isValidNumber s then Some s else None
  | _ => number_text j
  end.

(** The conversion of a float64 to uint64: towards zero; what does not fit gives 2^63, as the amd64
    code does. *)
Definition f_to_uint64 (x : float64) : Z :=
  if f_lt x (f_of_Z (2 ^ 63)) then wrap_unsigned 64 (f_to_int64 x)
  else wrap_unsigned 64 (Z.lxor (wrap_unsigned 64 (f_to_int64 (f_sub x (f_of_Z (2 ^ 63))))) (2 ^ 63)).

Definition parseUint64 (j : json) : option Z :=
  num ← decode_number j;
  match ParseInt 64 num with
  | Some i => if (i <? 0)%Z then None else Some i
  | None =>
      match ParseFloat num with
      | Some f => if f_lt f f_zero then None else Some (f_to_uint64 f)
      | None => None
      end
  end.

(** All entries must be counters. *)
Definition decode_counters (m : gmap string json) : option (gmap string Z) :=
  foldl (fun acc kv => acc ≫= fun out => (fun n => <[kv.1 := n]> out) <$> parseUint64 kv.2) (Some ∅) (map_to_list m).

Definition decode_s1ap (j : json) : option S1APContainer :=
  decode_object (fun l =>
    let raw := members l in
    let status := match raw !! "s1ap_status" with Some v => decode_scalar KString v (GString "") | None => Some (GString "") end in
    let scode := match raw !! "s1ap_status_code" with Some v => decode_scalar (KInt 64) v (GInt 0) | None => Some (GInt 0) end in
    match status, scode, decode_counters (delete "s1ap_status" (delete "s1ap_status_code" raw)) with
    | Some (GString s), Some (GInt c), Some counters => Some (mkS1AP s c counters)
    | _, _, _ => None
    end) j.

Definition decode_rrc (j : json) : option RRCContainer := decode_object (fun l => mkRRC <$> decode_counters (members l)) j.

(** A nested struct: each member with its name is decoded; the last one stays. *)
Definition decode_struct_member {A : Type} (name : string) (dec : json -> option A) (zero : A) (l : list (string * json)) : option A :=
  foldl (fun acc kv => acc ≫= fun old => if EqualFold name kv.1 then dec kv.2 else Some old) (Some zero) l.

Definition decode_enb (j : json) : option EnbMetrics :=
  decode_object (fun l =>
    match decode_members RootFields l, decode_struct_member "s1ap_container" decode_s1ap (mkS1AP "" 0 ∅) l,
          decode_struct_member "rrc_container" decode_rrc (mkRRC ∅) l, decode_list_member "cell_list" decode_cell l with
    | Some f, Some s1, Some rrc, Some cells => Some (mkEnb (get_string "type" f) (get_string "enb_serial" f) (get_float "timestamp" f) s1 rrc cells)
    | _, _, _, _ => None
    end) j.

(** ** gNB reports (nr_metrics.go) *)

Definition NRUEFields : list (string * kind) :=
  [("ue_rnti", u32); ("dl_cqi", KFloat64); ("dl_bitrate", KFloat64); ("dl_bler", KFloat64); ("ul_sinr", KFloat64); ("ul_bitrate", KFloat64);
   ("ul_bler", KFloat64); ("ul_phr", KFloat64)].

Record NRUEContainer := mkNRUE { nrue_fields : gmap string gval }.
Record NRCellContainer := mkNRCell { NCI : string; NRCellID : string; nr_PCI : Z; NRUEList : list NRUEContainer }.

Record GnbMetrics := mkGnb {
  g_Type : string;
  g_Timestamp : float64;
  GnbID : string;
  GnbSerial : string;
  NGAP : gmap string json;
  g_RRC : gmap string json;
  g_CellList : list NRCellContainer
}.

(** StringID.UnmarshalJSON. *)
Definition decode_StringID (j : json) : option string :=
  match j with
  | JStr s => Some (TrimSpace s)
  | JNull => Some ""
  | _ => number_text j
  end.

Definition Identity (g : GnbMetrics) : string :=
  if negb (String.eqb (TrimSpace (GnbSerial g)) "") then GnbSerial g else GnbID g.

Definition NRCellIdentity (c : NRCellContainer) : string :=
  if negb (String.eqb (NCI c) "") then NCI c
  else if negb (String.eqb (NRCellID c) "") then NRCellID c
  else "pci=" +:+ FormatUint (nr_PCI c).

(** A JSON value decoded into an interface: every number must be a float64. *)
Fixpoint numbers_ok (j : json) : bool :=
  match j with
  | JNum t => match ParseFloat t with Some _ => true | None => false end
  | JArr l => forallb numbers_ok l
  | JObj l => forallb (fun kv => numbers_ok (snd kv)) l
  | _ => true
  end.

(** map[string]any: a further member adds to the map, null makes it nil. Numbers stay literals when the
    decoder was told to use json.Number. *)
Definition decode_map_member (useNumber : bool) (name : string) (l : list (string * json)) : option (gmap string json) :=
  foldl (fun acc kv => acc ≫= fun old =>
           if EqualFold name kv.1 then
             match kv.2 with
             | JNull => Some ∅
             | JObj ms => if useNumber || forallb (fun e => numbers_ok (snd e)) ms then Some (members ms ∪ old) else None
             | _ => None
             end
           else Some old) (Some ∅) l.

Definition decode_nr_cell : json -> option NRCellContainer :=
  unwrap "cell_container" (decode_object (fun l =>
    match decode_struct_member "nci" decode_StringID "" l, decode_struct_member "nr_cell_id" decode_StringID "" l,
          decode_members [("pci", u32)] l,
          decode_list_member "ue_list" (decode_object (fun l => mkNRUE <$> decode_members NRUEFields l)) l with
    | Some nci, Some cellid, Some f, Some us => Some (mkNRCell nci cellid (get_uint "pci" f) us)
    | _, _, _, _ => None
    end)).

Definition decode_gnb (useNumber : bool) (j : json) : option GnbMetrics :=
  decode_object (fun l =>
    match decode_members [("type", KString); ("timestamp", KFloat64)] l, decode_struct_member "gnb_id" decode_StringID "" l,
          decode_struct_member "gnb_serial" decode_StringID "" l, decode_map_member useNumber "ngap_container" l, decode_map_member useNumber "rrc_container" l,
          decode_list_member "cell_list" decode_nr_cell l with
    | Some f, Some id, Some serial, Some ngap, Some rrc, Some cells =>
        Some (mkGnb (get_string "type" f) (get_float "timestamp" f) id serial ngap rrc cells)
    | _, _, _, _, _, _ => None
    end) j.

End Decode.

(** ** The parsers of fcaps/metrics (parser.go) *)

Inductive parse_error := ErrInvalidJSON | ErrInvalidType | ErrMissingRoot.

Section Parsers.
Context {GL : GoLib} {JT : JsonText}.

Definition ParseGnbMetrics (raw : string) : result parse_error GnbMetrics :=
  match ParseFirst raw ≫= decode_gnb true with
  | None => Err ErrInvalidJSON
  | Some m =>
      if negb (String.eqb (g_Type m) "gnb_metrics") then Err ErrInvalidType
      else if f_eq (g_Timestamp m) f_zero || String.eqb (Identity m) "" then Err ErrMissingRoot
      else Ok m
  end.

Definition ParseEnbMetrics (raw : string) : result parse_error EnbMetrics :=
  match ParseFirst raw ≫= decode_enb with
  | None => Err ErrInvalidJSON
  | Some m =>
      if negb (String.eqb (e_Type m) "enb_metrics") then Err ErrInvalidType
      else if f_eq (e_Timestamp m) f_zero || String.eqb (EnbSerial m) "" then Err ErrMissingRoot
      else Ok m
  end.

End Parsers.
