(* ===== verification/Mediation.v ===== *)
(** * Mediation (internal/ems/mediation/rules.go, internal/ems/mediation/srsran: mapper.go, defs.go)

    The mapping of a raw report to canonical samples: one for the node, one for each cell and one for
    each UE. Fields are read through tables of rules by their JSON tags. *)
From S2P Require Import Prelude GoNum GoStrings Json FileSystem Alarms Errors Nrm Pm Metrics.

(** ** Rules (rules.go, defs.go) *)

Record FieldRule := mkRule { JSONTag : string; RuleKey : string; RuleType : MetricType; RuleUnit : string }.

Definition toFloat64 (v : gval) : option float64 :=
  match v with
  | GFloat64 x => Some x
  | GInt z | GUint z => Some (f_of_Z z)
  | GString _ => None
  end.

(** [vals] gives the value of each field by its JSON tag. *)
Definition ApplyFieldRules (vals : gmap string gval) (rules : list FieldRule) (dst : gmap string Metric) : gmap string Metric :=
  foldl (fun dst r => match vals !! JSONTag r ≫= toFloat64 with
                      | Some val => <[RuleKey r := mkMetric (RuleKey r) (RuleType r) val (RuleUnit r)]> dst
                      | None => dst
                      end) dst rules.

Definition KeyS1APStatusCode : string := "s1ap.status_code".
Definition KeyRRCConnectedUES : string := "rrc.rrc_connected_ues".
Definition KeyCellNoFRACH : string := "cell.nof_rach".
Definition KeyUEDLCQI : string := "ue.dl_cqi".
Definition KeyUEDLMCS : string := "ue.dl_mcs".
Definition KeyUEDLBitrate : string := "ue.dl_bitrate".
Definition KeyUEDLBLER : string := "ue.dl_bler".
Definition KeyUEULSNR : string := "ue.ul_snr".
Definition KeyUEULMCS : string := "ue.ul_mcs".
Definition KeyUEULBitrate : string := "ue.ul_bitrate".
Definition KeyUEULBLER : string := "ue.ul_bler".
Definition KeyUEULPUSCHRSSI : string := "ue.ul_pusch_rssi".
Definition KeyUEULPUCCHRSSI : string := "ue.ul_pucch_rssi".
Definition KeyUEULPUCCHNI : string := "ue.ul_pucch_ni".
Definition KeyUEDLCQIOffset : string := "ue.dl_cqi_offset".
Definition KeyUEULSNROffset : string := "ue.ul_snr_offset".
Definition KeyUEULPHR : string := "ue.ul_phr".
Definition KeyUEULBSR : string := "ue.ul_bsr".
Definition KeyUERRCState : string := "ue.rrc_state".
Definition KeyUERRCDRBCount : string := "ue.rrc_drb_count".
Definition KeyUERRCNoFCells : string := "ue.rrc_nof_cells".
Definition KeyUERRCRLFCnt : string := "ue.rrc_rlf_cnt".

Definition UEFieldRules : list FieldRule :=
  [ mkRule "dl_cqi" KeyUEDLCQI Gauge "";
    mkRule "dl_mcs" KeyUEDLMCS Gauge "";
    mkRule "dl_bitrate" KeyUEDLBitrate Gauge "bps";
    mkRule "dl_bler" KeyUEDLBLER Gauge "";
    mkRule "ul_snr" KeyUEULSNR Gauge "dB";
    mkRule "ul_mcs" KeyUEULMCS Gauge "";
    mkRule "ul_bitrate" KeyUEULBitrate Gauge "bps";
    mkRule "ul_bler" KeyUEULBLER Gauge "";
    mkRule "ul_pusch_rssi" KeyUEULPUSCHRSSI Gauge "dBm";
    mkRule "ul_pucch_rssi" KeyUEULPUCCHRSSI Gauge "dBm";
    mkRule "ul_pucch_ni" KeyUEULPUCCHNI Gauge "dBm";
    mkRule "dl_cqi_offset" KeyUEDLCQIOffset Gauge "";
    mkRule "ul_snr_offset" KeyUEULSNROffset Gauge "";
    mkRule "ul_phr" KeyUEULPHR Gauge "dB";
    mkRule "ul_bsr" KeyUEULBSR Gauge "bytes";
    mkRule "rrc_state" KeyUERRCState Gauge "count";
    mkRule "rrc_drb_count" KeyUERRCDRBCount Gauge "count";
    mkRule "rrc_nof_cells" KeyUERRCNoFCells Gauge "count";
    mkRule "rrc_rlf_cnt" KeyUERRCRLFCnt Counter "count" ].

Definition BearerFieldRules : list FieldRule :=
  [ mkRule "dl_total_bytes" "dl_total_bytes" Counter "bytes";
    mkRule "ul_total_bytes" "ul_total_bytes" Counter "bytes";
    mkRule "dl_latency" "dl_latency" Gauge "";
    mkRule "ul_latency" "ul_latency" Gauge "";
    mkRule "dl_buffered_bytes" "dl_buffered_bytes" Gauge "bytes";
    mkRule "ul_buffered_bytes" "ul_buffered_bytes" Gauge "bytes" ].

(** ** The mapper (mapper.go) *)

Definition putCounter (name unit : string) (v : float64) (dst : gmap string Metric) : gmap string Metric :=
  <[name := mkMetric name Counter v unit]> dst.
Definition putGauge (name unit : string) (v : float64) (dst : gmap string Metric) : gmap string Metric :=
  <[name := mkMetric name Gauge v unit]> dst.

Definition boolean (b : bool) : float64 := if b then f_of_Z 1 else f_zero.

Inductive map_error := MapInvalidJSON | MapError (e : error).

Record Mapper := mkMapper { SourceID : string }.

Section Mapper.
Context {GL : GoLib}.

(** The counters of a container under their prefix; the key [connected] is the gauge of connected UEs. *)
Definition put_counters (prefix : string) (connected : option string) (counters : gmap string Z) (dst : gmap string Metric) : gmap string Metric :=
  foldl (fun dst kv => if bool_decide (Some kv.1 = connected) then putGauge KeyRRCConnectedUES "count" (f_of_Z kv.2) dst
                       else putCounter (prefix +:+ kv.1) "count" (f_of_Z kv.2) dst) dst (map_to_list counters).

Definition mapNode (tsMillis : Z) (sourceID : string) (m : EnbMetrics) : Sample :=
  let s1 := S1AP m in
  let ready := EqualFold (TrimSpace (S1Status s1)) "ready" || (StatusCode s1 =? 1)%Z in
  let metrics := putGauge CanonicalS1APReady "boolean" (boolean ready) ∅ in
  let metrics := putGauge KeyS1APStatusCode "count" (f_of_Z (StatusCode s1)) metrics in
  let metrics := put_counters "s1ap." None (S1Counters s1) metrics in
  let metrics := put_counters "rrc." (Some "rrc_connected_ues") (RRCCounters (RRC m)) metrics in
  mkSample tsMillis sourceID "node" metrics
    (list_to_map [("type", e_Type m); ("enb_serial", EnbSerial m); ("s1ap_status", S1Status s1)]).

(** The metrics and the attribute of one bearer. *)
Definition put_bearer (b : BearerContainer) (dst : gmap string Metric) : gmap string Metric :=
  let prefix := "bearer." +:+ FormatUint (get_uint "bearer_id" (b_fields b)) +:+ "." in
  foldl (fun dst kv => <[prefix +:+ kv.1 := kv.2 <|m_Name := "bearer." +:+ kv.1|>]> dst) dst
        (map_to_list (ApplyFieldRules (b_fields b) BearerFieldRules ∅)).
Definition put_bearer_attr (b : BearerContainer) (attrs : gmap string string) : gmap string string :=
  <["bearer." +:+ FormatUint (get_uint "bearer_id" (b_fields b)) +:+ ".qci" := FormatUint (get_uint "qci" (b_fields b))]> attrs.

Definition mapUE (tsMillis : Z) (sourceID cellID : string) (u : UEContainer) : Sample :=
  let f := ue_fields u in
  let rnti := FormatUint (get_uint "ue_rnti" f) in
  let metrics := ApplyFieldRules f UEFieldRules ∅ in
  let inactive := EqualFold (TrimSpace (get_string "rrc_release_cause" f)) "inactivity" in
  let metrics := putGauge CanonicalUERRCInactivity "boolean" (boolean inactive) metrics in
  mkSample tsMillis sourceID (cellID +:+ "/ue:rnti=" +:+ rnti)
    (foldl (fun dst b => put_bearer b dst) metrics (BearerList u))
    (foldl (fun attrs b => put_bearer_attr b attrs)
       (list_to_map [("ue_rnti", rnti); ("rrc_state_str", get_string "rrc_state_str" f); ("rrc_release_cause", get_string "rrc_release_cause" f)])
       (BearerList u)).

Definition cell_scope (c : CellContainer) : string :=
  "cell:carrier=" +:+ FormatUint (get_uint "carrier_id" (cell_fields c)) +:+ ",pci=" +:+ FormatUint (get_uint "pci" (cell_fields c)).

(** The samples of one cell. *)
Definition map_cell (tsMillis : Z) (sourceID : string) (c : CellContainer) : list Sample :=
  let cellID := cell_scope c in
  mkSample tsMillis sourceID cellID
    (putCounter KeyCellNoFRACH "count" (f_of_Z (get_uint "nof_rach" (cell_fields c))) ∅)
    (list_to_map [("carrier_id", FormatUint (get_uint "carrier_id" (cell_fields c))); ("pci", FormatUint (get_uint "pci" (cell_fields c)))])
  :: (mapUE tsMillis sourceID cellID <$> UEList c).

Definition mapCells (tsMillis : Z) (sourceID : string) (cells : list CellContainer) : list Sample := cells ≫= map_cell tsMillis sourceID.

Definition data_corrupt (now : time) (msg : string) : map_error :=
  MapError (New now ErrCodeDataCorrupt msg [WithOp "mediation.srsran"; WithSeverity ErrSeverityMajor]).

Definition to_millis (ts : float64) : Z := f_to_int64 (f_mul ts (f_of_Z 1000)).

(** *** gNB reports *)

Definition mapNRCounters (prefix : string) (values : gmap string json) (dst : gmap string Metric) : gmap string Metric :=
  foldl (fun dst kv =>
           match kv.2 with
           | JNum t => match ParseFloat t with
                       | Some v => if String.eqb prefix "rrc" && String.eqb kv.1 "rrc_connected_ues"
                                   then putGauge CanonicalRRCConnectedUES "count" v dst
                                   else putCounter (prefix +:+ "." +:+ kv.1) "count" v dst
                       | None => dst
                       end
           | _ => dst
           end) dst (map_to_list values).

Definition nrReady (values : gmap string json) : option float64 :=
  let ready s := boolean (EqualFold s "ready" || EqualFold s "connected") in
  match values !! "ngap_status", values !! "status" with
  | Some (JStr s), _ => Some (ready s)
  | _, Some (JStr s) => Some (ready s)
  | _, _ => None
  end.

Definition nr_ue (ts : Z) (source cellScope : string) (u : NRUEContainer) : Sample :=
  let f := nrue_fields u in
  let rnti := FormatUint (get_uint "ue_rnti" f) in
  mkSample ts source (cellScope +:+ "/ue:rnti=" +:+ rnti)
    (putGauge CanonicalUEULPHR "dB" (get_float "ul_phr" f)
    (putGauge CanonicalUEULBLER "ratio" (get_float "ul_bler" f)
    (putGauge CanonicalUEULBitrate "bps" (get_float "ul_bitrate" f)
    (putGauge CanonicalUEULSNR "dB" (get_float "ul_sinr" f)
    (putGauge CanonicalUEDLBLER "ratio" (get_float "dl_bler" f)
    (putGauge CanonicalUEDLBitrate "bps" (get_float "dl_bitrate" f)
    (putGauge CanonicalUEDLCQI "index" (get_float "dl_cqi" f) ∅)))))))
    {[ "ue_rnti" := rnti ]}.

Definition nr_cell (ts : Z) (source : string) (c : NRCellContainer) : list Sample :=
  let scope := "cell:nr=" +:+ NRCellIdentity c in
  mkSample ts source scope ∅ (list_to_map [("nci", NCI c); ("nr_cell_id", NRCellID c); ("pci", FormatUint (nr_PCI c))])
  :: (nr_ue ts source scope <$> NRUEList c).

Definition mapGNB (now : time) (m : Mapper) (j : json) : result map_error (list Sample) :=
  match decode_gnb false j with
  | None => Err MapInvalidJSON
  | Some g =>
      if negb (String.eqb (g_Type g) "gnb_metrics") || f_eq (g_Timestamp g) f_zero || String.eqb (Identity g) ""
      then Err (data_corrupt now "invalid gNB metrics envelope")
      else
        let source := if String.eqb (SourceID m) "" then Identity g else SourceID m in
        let ts := to_millis (g_Timestamp g) in
        let metrics := mapNRCounters "rrc" (g_RRC g) (mapNRCounters "ngap" (NGAP g) ∅) in
        let metrics := match nrReady (NGAP g) with Some r => putGauge CanonicalNGAPReady "boolean" r metrics | None => metrics end in
        Ok (mkSample ts source "node" metrics (list_to_map [("type", g_Type g); ("gnb_id", Identity g)])
            :: (g_CellList g ≫= nr_cell ts source))
  end.

Context {JT : JsonText}.

Definition parseEnbMetrics (now : time) (raw : string) : result map_error EnbMetrics :=
  match ParseFirst raw ≫= decode_enb with
  | None => Err (data_corrupt now "invalid metrics json")
  | Some m =>
      if negb (String.eqb (e_Type m) "enb_metrics") then Err (data_corrupt now "unexpected metrics type")
      else if String.eqb (EnbSerial m) "" || f_eq (e_Timestamp m) f_zero then Err (data_corrupt now "missing required root fields")
      else Ok m
  end.

(** The samples of a decoded eNB report. *)
Definition map_enb (m : Mapper) (parsed : EnbMetrics) : list Sample :=
  let tsMillis := to_millis (e_Timestamp parsed) in
  let sourceID := if String.eqb (SourceID m) "" then EnbSerial parsed else SourceID m in
  mapNode tsMillis sourceID parsed :: mapCells tsMillis sourceID (CellList parsed).

Definition Map (now : time) (m : Mapper) (rawJSON : string) : result map_error (list Sample) :=
  if String.eqb rawJSON "" then Err (data_corrupt now "empty metrics payload")
  else match ParseJson rawJSON with
       | None => Err MapInvalidJSON
       | Some j =>
           match decode_object (decode_members [("type", KString)]) j with
           | None => Err MapInvalidJSON
           | Some envelope =>
               if String.eqb (get_string "type" envelope) "gnb_metrics" then mapGNB now m j
               else match parseEnbMetrics now rawJSON with
                    | Err e => Err e
                    | Ok parsed => Ok (map_enb m parsed)
                    end
           end
       end.

End Mapper.

(** ** Lemmas: decoded structures *)

(** A value of a kind, within its width. *)
Definition has_kind (k : kind) (v : gval) : Prop :=
  match k, v with
  | KString, GString _ => True
  | KFloat64, GFloat64 _ => True
  | KUint bits, GUint z => fits_uint bits z
  | KInt _, GInt _ => True
  | _, _ => False
  end.

Definition kind_ok (k : kind) : Prop := match k with KUint bits => (0 <= bits)%Z | _ => True end.

(** A decoded structure has a value of its kind for every tag. *)
Definition struct_ok (fields : list (string * kind)) (vals : gmap string gval) : Prop :=
  forall tag k, (tag, k) ∈ fields -> exists v, vals !! tag = Some v /\ has_kind k v.

Lemma zero_has_kind (k : kind) : kind_ok k -> has_kind k (zero_of k).
Proof. destruct k; cbn; try done. intros Hb. split; [lia|]. by apply Z.pow_pos_nonneg. Qed.

Section Decoded.
Context {GL : GoLib}.

Lemma decode_scalar_kind (k : kind) (j : json) (old v : gval) : has_kind k old -> decode_scalar k j old = Some v -> has_kind k v.
Proof.
  intros Ho. unfold decode_scalar. destruct j; [by intros [= <-]|..]; destruct k; intros Hv; cbn [number_text] in Hv; simplify_option_eq; try done;
    unfold ParseUint in *; by eapply parse_uint_range.
Qed.

Lemma fields_zero_ok (fields : list (string * kind)) :
  NoDup fields.*1 -> Forall (fun f => kind_ok f.2) fields -> struct_ok fields (fields_zero fields).
Proof.
  intros Hnd Hk tag k Hin. exists (zero_of k). split; [|apply zero_has_kind; by apply (proj1 (Forall_forall _ _) Hk (tag, k))].
  unfold fields_zero. apply elem_of_list_to_map_1; [|apply list_elem_of_fmap; by exists (tag, k)].
  rewrite <- list_fmap_compose. exact Hnd.
Qed.

Lemma decode_members_ok (fields : list (string * kind)) (l : list (string * json)) (vals : gmap string gval) :
  NoDup fields.*1 -> Forall (fun f => kind_ok f.2) fields -> decode_members fields l = Some vals -> struct_ok fields vals.
Proof.
  intros Hnd Hk. unfold decode_members. revert vals. induction l as [|kv l IH] using rev_ind; intros vals.
  - cbn. intros [= <-]. by apply fields_zero_ok.
  - rewrite foldl_app. cbn [foldl]. destruct (foldl _ _ l) as [v0|]; [|done]. cbn [mbind option_bind]. specialize (IH v0 eq_refl).
    unfold decode_member. destruct (field_named fields kv.1) as [[tag k]|] eqn:Ef; [|intros [= <-]; exact IH].
    apply find_some in Ef as [Hin _]. apply list_elem_of_In in Hin. destruct (IH tag k Hin) as (v & Hv & Hvk). rewrite Hv. change (default (zero_of k) (Some v)) with v.
    destruct (decode_scalar k kv.2 v) as [v'|] eqn:Es; [|done]. intros [= <-] tag' k' Hin'. destruct (decide (tag = tag')) as [<-|Hne].
    + exists v'. rewrite lookup_insert_eq. split; [done|]. assert (k' = k) as ->.
      { apply list_elem_of_lookup in Hin as [i Hi], Hin' as [j Hj].
        assert (i = j) as <- by (eapply (NoDup_lookup fields.*1); [done|by rewrite list_lookup_fmap, Hi|by rewrite list_lookup_fmap, Hj]). by simplify_eq. }
      by eapply decode_scalar_kind.
    + rewrite lookup_insert_ne by done. by apply IH.
Qed.

End Decoded.

(** ** Reflection (rules.go)

    The code finds a field through the tags of the struct's type, with an index per type that is kept
    in a cache. [FieldType] is what reflect says of a field: exported, and its json tag; a struct is
    the values of its fields in order. *)
Module Reflect.

Record FieldType := mkFieldType { Exported : bool; JsonTag : string }.

(** The name in a tag: what precedes the first comma. *)
Definition tag_name (tag : string) : option string :=
  if String.eqb tag "" || String.eqb tag "-" then None
  else let name := unstr (take_while (fun c => negb (Ascii.eqb c ",")) (str tag)) in
       if String.eqb name "" || String.eqb name "-" then None else Some name.

Definition field_name (f : FieldType) : option string := if Exported f then tag_name (JsonTag f) else None.

Fixpoint index_loop (i : nat) (t : list FieldType) (out : gmap string nat) : gmap string nat :=
  match t with
  | [] => out
  | f :: t => index_loop (S i) t (match field_name f with Some name => <[name := i]> out | None => out end)
  end.

(** The cache, by the name of the type. *)
Definition indexByJSONTag (name : string) (t : list FieldType) (fieldIndexCache : gmap string (gmap string nat)) :
    gmap string (gmap string nat) * gmap string nat :=
  match fieldIndexCache !! name with
  | Some v => (fieldIndexCache, v)
  | None => let out := index_loop 0 t ∅ in (<[name := out]> fieldIndexCache, out)
  end.

(** The value of a struct, or a nil pointer to one. *)
Definition apply_reflected (name : string) (t : list FieldType) (src : option (list gval)) (rules : list FieldRule)
    (cache : gmap string (gmap string nat)) (dst : gmap string Metric) : gmap string (gmap string nat) * gmap string Metric :=
  match src with
  | None => (cache, dst)
  | Some v =>
      let '(cache, idx) := indexByJSONTag name t cache in
      (cache, foldl (fun dst r => match idx !! JSONTag r with
                                  | None => dst
                                  | Some i => match v !! i ≫= toFloat64 with
                                              | Some val => <[RuleKey r := mkMetric (RuleKey r) (RuleType r) val (RuleUnit r)]> dst
                                              | None => dst
                                              end
                                  end) dst rules)
  end.

(** The struct as a map from names to values, a later field of the same name replacing an earlier one. *)
Definition by_name (t : list FieldType) (v : list gval) : gmap string gval :=
  foldl (fun out fv => match field_name fv.1 with Some name => <[name := fv.2]> out | None => out end) ∅ (zip t v).

(** What the cache holds of a type is the index of that type. *)
Definition cache_ok (types : string -> list FieldType) (cache : gmap string (gmap string nat)) : Prop :=
  forall name idx, cache !! name = Some idx -> idx = index_loop 0 (types name) ∅.

Lemma index_loop_snoc (t : list FieldType) (f : FieldType) (i : nat) (out : gmap string nat) :
  index_loop i (t ++ [f]) out = match field_name f with Some name => <[name := i + length t]> (index_loop i t out) | None => index_loop i t out end.
Proof.
  revert i out. induction t as [|g t IH]; intros i out; cbn [app index_loop length].
  - by rewrite Nat.add_0_r.
  - rewrite IH. by replace (S i + length t) with (i + S (length t)) by lia.
Qed.

Lemma index_loop_bound (t : list FieldType) (k : string) (j : nat) : index_loop 0 t ∅ !! k = Some j -> j < length t.
Proof.
  induction t as [|f t IH] using rev_ind; [cbn; by rewrite lookup_empty|]. rewrite index_loop_snoc, length_app. cbn [length].
  destruct (field_name f) as [name|]; [|intros H%IH; lia]. destruct (decide (name = k)) as [->|Hne].
  - rewrite lookup_insert_eq. intros [= <-]. lia.
  - rewrite lookup_insert_ne by done. intros H%IH. lia.
Qed.

(** Looking a name up in the index and then in the struct is looking it up by name. *)
Lemma index_by_name (t : list FieldType) (v : list gval) (k : string) :
  length v = length t -> index_loop 0 t ∅ !! k ≫= (fun i => v !! i) = by_name t v !! k.
Proof.
  revert v. induction t as [|f t IH] using rev_ind; intros v Hl; [destruct v; [|done]; cbn; by rewrite !lookup_empty|].
  destruct v as [|x v _] using rev_ind; [rewrite length_app in Hl; cbn in Hl; lia|]. rewrite !length_app in Hl. cbn in Hl. assert (Hv : length v = length t) by lia.
  assert (Hold : index_loop 0 t ∅ !! k ≫= (fun i => (v ++ [x]) !! i) = by_name t v !! k).
  { rewrite <- IH by done. destruct (index_loop 0 t ∅ !! k) as [j|] eqn:Ej; [|done]. cbn. apply index_loop_bound in Ej. apply lookup_app_l. lia. }
  unfold by_name in *. rewrite zip_with_app by done. rewrite foldl_app, index_loop_snoc. cbn [zip_with foldl fst snd]. destruct (field_name f) as [name|]; [|done].
  destruct (decide (name = k)) as [->|Hne]; [|by rewrite !lookup_insert_ne].
  rewrite !lookup_insert_eq. cbn. rewrite <- Hv. by apply list_lookup_middle.
Qed.

(** Reading through the cached index is reading the fields by their names: the rules see the struct as
    the map that [ApplyFieldRules] takes, whichever types the cache has met before. *)
Theorem apply_reflected_by_name (types : string -> list FieldType) (name : string) (v : list gval) (rules : list FieldRule)
    (cache : gmap string (gmap string nat)) (dst : gmap string Metric) :
  cache_ok types cache -> length v = length (types name) ->
  let '(cache', dst') := apply_reflected name (types name) (Some v) rules cache dst in
  cache_ok types cache' /\ dst' = ApplyFieldRules (by_name (types name) v) rules dst.
Proof.
  intros Hc Hl. unfold apply_reflected, indexByJSONTag.
  assert (Hf : forall dst, foldl (fun dst r => match index_loop 0 (types name) ∅ !! JSONTag r with None => dst | Some i =>
      match v !! i ≫= toFloat64 with Some val => <[RuleKey r := mkMetric (RuleKey r) (RuleType r) val (RuleUnit r)]> dst | None => dst end end) dst rules =
    ApplyFieldRules (by_name (types name) v) rules dst).
  { unfold ApplyFieldRules. induction rules as [|r rules IH]; intros dst0; [done|]. cbn [foldl]. rewrite IH. f_equal.
    rewrite <- index_by_name by done. by destruct (index_loop 0 (types name) ∅ !! JSONTag r). }
  destruct (cache !! name) as [idx|] eqn:Ec; [rewrite (Hc _ _ Ec)|]; (split; [|apply Hf]); [done|].
  intros n idx. destruct (decide (n = name)) as [->|Hne]; [rewrite lookup_insert_eq; by intros [= <-]|rewrite lookup_insert_ne by done; apply Hc].
Qed.

Lemma apply_reflected_by_name_witness :
  let t := [mkFieldType true "dl_cqi,omitempty"; mkFieldType false "hidden"; mkFieldType true "-"; mkFieldType true "ul_mcs"] in
  let v := [GInt 7; GInt 8; GInt 9; GUint 20] in
  (apply_reflected "UE" t (Some v) [mkRule "dl_cqi" "ue.dl_cqi" "" ""; mkRule "hidden" "x" "" ""] ∅ ∅).2 =
  {[ "ue.dl_cqi" := mkMetric "ue.dl_cqi" "" (f_of_Z 7) "" ]}.
Proof.
  intros t v. pose proof (apply_reflected_by_name (fun _ => t) "UE" v [mkRule "dl_cqi" "ue.dl_cqi" "" ""; mkRule "hidden" "x" "" ""] ∅ ∅
    ltac:(intros n idx; by rewrite lookup_empty) eq_refl) as H.
  destruct (apply_reflected _ _ _ _ _ _) as [cache' dst']. destruct H as [_ ->]. vm_compute. reflexivity.
Defined.

End Reflect.

(** ** Lemmas: rules *)

(** The field a rule reads gives a number. *)
Definition reads (vals : gmap string gval) (r : FieldRule) : Prop := exists v, vals !! JSONTag r ≫= toFloat64 = Some v.

Definition rule_metric (vals : gmap string gval) (r : FieldRule) : Metric :=
  mkMetric (RuleKey r) (RuleType r) (default f_zero (vals !! JSONTag r ≫= toFloat64)) (RuleUnit r).

Lemma ApplyFieldRules_lookup (vals : gmap string gval) (rules : list FieldRule) (dst : gmap string Metric) (k : string) :
  NoDup (RuleKey <$> rules) -> Forall (reads vals) rules ->
  ApplyFieldRules vals rules dst !! k = match find (fun r => String.eqb (RuleKey r) k) rules with Some r => Some (rule_metric vals r) | None => dst !! k end.
Proof.
  intros Hnd Hr. unfold ApplyFieldRules. revert dst. induction rules as [|r rules IH]; intros dst; [done|]. cbn [foldl find].
  apply NoDup_cons in Hnd as [Hn Hnd]. apply Forall_cons in Hr as [[v Hv] Hr]. rewrite (IH Hnd Hr), Hv.
  assert (Hm : rule_metric vals r = mkMetric (RuleKey r) (RuleType r) v (RuleUnit r)) by (unfold rule_metric; by rewrite Hv).
  destruct (String.eqb_spec (RuleKey r) k) as [<-|Hne].
  - destruct (find _ rules) as [r'|] eqn:Ef; [|by rewrite lookup_insert_eq, Hm]. exfalso. apply Hn. apply find_some in Ef as [Hin He]. b2p.
    rewrite <- He. apply list_elem_of_fmap. exists r'. split; [done|]. by apply list_elem_of_In.
  - destruct (find _ rules); [done|]. by rewrite lookup_insert_ne.
Qed.

Lemma find_rule (rules : list FieldRule) (r : FieldRule) :
  NoDup (RuleKey <$> rules) -> r ∈ rules -> find (fun x => String.eqb (RuleKey x) (RuleKey r)) rules = Some r.
Proof.
  induction rules as [|x rules IH]; intros Hnd Hr; [by apply not_elem_of_nil in Hr|]. cbn. apply NoDup_cons in Hnd as [Hn Hnd].
  apply elem_of_cons in Hr as [->|Hr]; [by rewrite string_eqb_refl|]. destruct (String.eqb_spec (RuleKey x) (RuleKey r)) as [He|]; [|by apply IH].
  exfalso. apply Hn. rewrite He. apply list_elem_of_fmap. by exists r.
Qed.

(** Insertions under a common prefix. *)
Lemma prefixed_lookup (p : string) (g : string * Metric -> Metric) (l : list (string * Metric)) (dst : gmap string Metric) (k : string) :
  NoDup l.*1 ->
  foldl (fun dst kv => <[p +:+ kv.1 := g kv]> dst) dst l !! k =
  match find (fun kv => String.eqb (p +:+ kv.1) k) l with Some kv => Some (g kv) | None => dst !! k end.
Proof.
  intros Hnd. revert dst. induction l as [|[a v] l IH]; intros dst; [done|]. cbn in Hnd. apply NoDup_cons in Hnd as [Ha Hnd]. cbn [foldl find fst].
  rewrite (IH Hnd). destruct (String.eqb_spec (p +:+ a) k) as [<-|Hne].
  - destruct (find _ l) as [[a' v']|] eqn:Ef; [|by rewrite lookup_insert_eq]. exfalso. apply find_some in Ef as [Hin He]. cbn in He.
    apply String.eqb_eq, (inj (String.append p)) in He as ->. apply Ha. apply list_elem_of_fmap. exists (a, v'). split; [done|]. by apply list_elem_of_In.
  - destruct (find _ l); [done|]. by rewrite lookup_insert_ne.
Qed.

Lemma find_ext {A : Type} (f g : A -> bool) (l : list A) : (forall x, f x = g x) -> find f l = find g l.
Proof. intros Hfg. induction l as [|x l IH]; [done|]. cbn. rewrite Hfg. by destruct (g x). Qed.

Lemma find_map_to_list (m : gmap string Metric) (s : string) :
  find (fun kv : string * Metric => String.eqb kv.1 s) (map_to_list m) = (fun v => (s, v)) <$> (m !! s).
Proof.
  destruct (m !! s) as [v|] eqn:E.
  - destruct (find _ _) as [[a v']|] eqn:Ef.
    + apply find_some in Ef as [Hin He]. cbn in He. b2p. subst a. apply list_elem_of_In, elem_of_map_to_list in Hin. rewrite E in Hin. by injection Hin as ->.
    + exfalso. pose proof (find_none _ _ Ef (s, v)) as Hf. cbn in Hf. rewrite string_eqb_refl in Hf. discriminate Hf. apply list_elem_of_In. by apply elem_of_map_to_list.
  - destruct (find _ _) as [[a v']|] eqn:Ef; [|done]. apply find_some in Ef as [Hin He]. cbn in He. b2p. subst a.
    apply list_elem_of_In, elem_of_map_to_list in Hin. by rewrite E in Hin.
Qed.

Definition numeric (k : kind) : bool := match k with KString => false | _ => true end.

(** Every rule reads a numeric field of the structure. *)
Definition rules_fit (fields : list (string * kind)) (rules : list FieldRule) : bool :=
  forallb (fun r => existsb (fun f => String.eqb f.1 (JSONTag r) && numeric f.2) fields) rules.

Lemma rules_fit_reads (fields : list (string * kind)) (rules : list FieldRule) (vals : gmap string gval) :
  rules_fit fields rules = true -> struct_ok fields vals -> Forall (reads vals) rules.
Proof.
  intros Hf Hs. unfold rules_fit in Hf. rewrite forallb_forall in Hf. apply Forall_forall. intros r Hr. apply list_elem_of_In in Hr.
  specialize (Hf r Hr). apply existsb_exists in Hf as ([tag k] & Hin & Hk). cbn in Hk. apply andb_true_iff in Hk as [Ht Hk]. apply String.eqb_eq in Ht as ->.
  destruct (Hs (JSONTag r) k) as (v & Hv & Hkind); [by apply list_elem_of_In|]. unfold reads. rewrite Hv. destruct k, v; cbn in *; try done; by eexists.
Qed.

Lemma ue_rules_fit : rules_fit UEFields UEFieldRules = true.
Proof. vm_compute. reflexivity. Qed.
Lemma bearer_rules_fit : rules_fit BearerFields BearerFieldRules = true.
Proof. vm_compute. reflexivity. Qed.
Lemma ue_rules_nodup : NoDup (RuleKey <$> UEFieldRules).
Proof. apply (bool_decide_unpack _). vm_compute. exact I. Qed.
Lemma bearer_rules_nodup : NoDup (RuleKey <$> BearerFieldRules).
Proof. apply (bool_decide_unpack _). vm_compute. exact I. Qed.

(** ** Lemmas: bearers *)

Definition bearer_id (b : BearerContainer) : Z := get_uint "bearer_id" (b_fields b).
Definition bearer_key (b : BearerContainer) (r : FieldRule) : string := ("bearer." +:+ FormatUint (bearer_id b) +:+ ".") +:+ RuleKey r.
Definition bearer_metric (b : BearerContainer) (r : FieldRule) : Metric := (rule_metric (b_fields b) r) <|m_Name := "bearer." +:+ RuleKey r|>.

Definition bearer_ok (b : BearerContainer) : Prop := struct_ok BearerFields (b_fields b).

Lemma bearer_id_nonneg (b : BearerContainer) : bearer_ok b -> (0 <= bearer_id b)%Z.
Proof.
  intros Hb. destruct (Hb "bearer_id" u32) as (v & Hv & Hk); [left|]. unfold bearer_id, get_uint. rewrite Hv. destruct v; try done. apply Hk.
Qed.

Lemma digits_dot_inj (d1 d2 r1 r2 : bytes) :
  Forall (fun c => is_digit c = true) d1 -> Forall (fun c => is_digit c = true) d2 -> d1 ++ "."%char :: r1 = d2 ++ "."%char :: r2 -> d1 = d2 /\ r1 = r2.
Proof.
  revert d2. induction d1 as [|c d1 IH]; intros [|c2 d2] H1 H2 E; cbn in E.
  - by injection E.
  - injection E as <- _. apply Forall_cons in H2 as [H2 _]. discriminate H2.
  - injection E as -> _. apply Forall_cons in H1 as [H1 _]. discriminate H1.
  - injection E as -> E. apply Forall_cons in H1 as [_ H1], H2 as [_ H2]. destruct (IH d2 H1 H2 E) as [-> ->]. done.
Qed.

Lemma bearer_key_inj (b1 b2 : BearerContainer) (r1 r2 : FieldRule) :
  bearer_ok b1 -> bearer_ok b2 -> bearer_key b1 r1 = bearer_key b2 r2 -> bearer_id b1 = bearer_id b2 /\ RuleKey r1 = RuleKey r2.
Proof.
  intros H1%bearer_id_nonneg H2%bearer_id_nonneg E. apply (f_equal str) in E. unfold bearer_key, FormatUint in E. rewrite !str_app, !str_unstr in E.
  rewrite <- !app_assoc in E. apply app_inv_head in E. cbn [app] in E.
  apply digits_dot_inj in E as [Ed Er]; [|by apply format_digits_all_digits..]. split; [|by apply str_inj].
  apply (f_equal (digits_val 0)) in Ed. rewrite !format_uint_val in Ed by done. by injection Ed.
Qed.

Lemma put_bearer_lookup (b : BearerContainer) (dst : gmap string Metric) (k : string) :
  bearer_ok b ->
  put_bearer b dst !! k = match find (fun r => String.eqb (bearer_key b r) k) BearerFieldRules with Some r => Some (bearer_metric b r) | None => dst !! k end.
Proof.
  intros Hb. unfold put_bearer. cbv zeta. fold (bearer_id b). set (p := "bearer." +:+ _ +:+ ".").
  rewrite prefixed_lookup by apply NoDup_fst_map_to_list.
  assert (Hreads : Forall (reads (b_fields b)) BearerFieldRules) by (eapply rules_fit_reads; [apply bearer_rules_fit|done]).
  destruct (find _ BearerFieldRules) as [r|] eqn:Ef.
  - apply find_some in Ef as [Hr He]. apply String.eqb_eq in He as <-. apply list_elem_of_In in Hr.
    rewrite (find_ext _ (fun kv => String.eqb kv.1 (RuleKey r))).
    + rewrite find_map_to_list, ApplyFieldRules_lookup, find_rule; [done|apply bearer_rules_nodup|done|apply bearer_rules_nodup|done].
    + intros [a v]. unfold bearer_key. fold p. cbn. destruct (String.eqb_spec a (RuleKey r)) as [->|Hne]; [by rewrite string_eqb_refl|].
      apply String.eqb_neq. intros E. apply Hne. by apply (inj (String.append p)).
  - destruct (find _ (map_to_list _)) as [[a v]|] eqn:Em; [|done]. exfalso. apply find_some in Em as [Hin He]. cbn in He. apply String.eqb_eq in He.
    apply list_elem_of_In, elem_of_map_to_list in Hin. rewrite ApplyFieldRules_lookup in Hin by (done || apply bearer_rules_nodup).
    destruct (find (fun r => String.eqb (RuleKey r) a) BearerFieldRules) as [r|] eqn:Es; [|by rewrite lookup_empty in Hin].
    apply find_some in Es as [Hr Ha]. apply String.eqb_eq in Ha. pose proof (find_none _ _ Ef r Hr) as Hf. cbn in Hf. apply String.eqb_neq in Hf. apply Hf.
    unfold bearer_key. fold p. by rewrite Ha.
Qed.

(** The bearers in order: the last one with an id counts. *)
Definition bearer_metrics (bs : list BearerContainer) (dst : gmap string Metric) : gmap string Metric := foldl (fun dst b => put_bearer b dst) dst bs.

Lemma bearer_metrics_last (bs1 bs2 : list BearerContainer) (b : BearerContainer) (r : FieldRule) (dst : gmap string Metric) :
  bearer_ok b -> Forall bearer_ok bs2 -> Forall (fun b' => bearer_id b' <> bearer_id b) bs2 -> r ∈ BearerFieldRules ->
  bearer_metrics (bs1 ++ b :: bs2) dst !! bearer_key b r = Some (bearer_metric b r).
Proof.
  intros Hb Hok Hid Hr. unfold bearer_metrics. rewrite foldl_app. cbn [foldl]. set (d0 := put_bearer b _).
  assert (Hd0 : d0 !! bearer_key b r = Some (bearer_metric b r)).
  { unfold d0. rewrite put_bearer_lookup by done. rewrite (find_ext _ (fun x => String.eqb (RuleKey x) (RuleKey r))).
    - rewrite find_rule by (done || apply bearer_rules_nodup). done.
    - intros x. destruct (String.eqb_spec (RuleKey x) (RuleKey r)) as [E|Hne]; [unfold bearer_key; rewrite E; apply string_eqb_refl|].
      apply String.eqb_neq. intros E. apply Hne. by destruct (bearer_key_inj b b x r Hb Hb E). }
  clearbody d0. induction bs2 as [|b' bs2 IH] using rev_ind; [done|]. apply Forall_app in Hok as [Hok Hb'], Hid as [Hid Hi'].
  apply Forall_cons in Hb' as [Hb' _], Hi' as [Hi' _]. rewrite foldl_app. cbn [foldl]. rewrite (put_bearer_lookup b' _ _ Hb').
  destruct (find _ _) as [x|] eqn:Ef; [|by apply IH]. exfalso. apply find_some in Ef as [_ E]. apply String.eqb_eq in E. apply Hi'.
  by destruct (bearer_key_inj b' b x r Hb' Hb E).
Qed.

Lemma bearer_metrics_other (bs : list BearerContainer) (dst : gmap string Metric) (k : string) :
  Forall bearer_ok bs -> (forall b r, b ∈ bs -> r ∈ BearerFieldRules -> k <> bearer_key b r) -> bearer_metrics bs dst !! k = dst !! k.
Proof.
  intros Hok Hk. unfold bearer_metrics. revert dst. induction bs as [|b bs IH]; intros dst; [done|]. cbn [foldl]. apply Forall_cons in Hok as [Hb Hok].
  rewrite IH; [|done|intros b' r Hb' Hr; apply Hk; [by right|done]]. rewrite put_bearer_lookup by done.
  destruct (find _ _) as [x|] eqn:Ef; [|done]. exfalso. apply find_some in Ef as [Hx E]. apply String.eqb_eq in E. apply (Hk b x); [left|by apply list_elem_of_In|done].
Qed.

(** ** Lemmas: scopes *)

Definition no_slash (l : bytes) : bool := forallb (fun c => negb (Ascii.eqb c "/")) l.

Lemma no_slash_app (l1 l2 : bytes) : no_slash (l1 ++ l2) = no_slash l1 && no_slash l2.
Proof. apply forallb_app. Qed.

Lemma digits_no_slash (n : Z) : (0 <= n)%Z -> no_slash (format_uint n) = true.
Proof.
  intros Hn. apply forallb_forall. intros c Hc. pose proof (format_digits_all_digits (S (Z.to_nat (Z.log2 n))) n Hn) as Hd.
  apply list_elem_of_In in Hc. rewrite Forall_forall in Hd. specialize (Hd c Hc). apply negb_true_iff, Ascii.eqb_neq. intros ->. discriminate Hd.
Qed.

Lemma index_no_slash (l : bytes) : no_slash l = true -> index l (str "/ue:") = None.
Proof.
  unfold index. induction l as [|c l IH]; intros Hl; [done|]. cbn in Hl. apply andb_true_iff in Hl as [Hc Hl].
  change (index_of (c :: l) (str "/ue:")) with (if has_prefix (c :: l) (str "/ue:") then Some 0 else S <$> index_of l (str "/ue:")).
  rewrite (IH Hl). cbn [has_prefix str list_ascii_of_string]. apply negb_true_iff in Hc. by rewrite Hc.
Qed.

Lemma index_ue (l r : bytes) : no_slash l = true -> index (l ++ str "/ue:" ++ r) (str "/ue:") = Some (length l).
Proof.
  unfold index. induction l as [|c l IH]; intros Hl; [by destruct r|]. cbn in Hl. apply andb_true_iff in Hl as [Hc Hl]. cbn [app].
  change (index_of (c :: l ++ str "/ue:" ++ r) (str "/ue:")) with
    (if has_prefix (c :: l ++ str "/ue:" ++ r) (str "/ue:") then Some 0 else S <$> index_of (l ++ str "/ue:" ++ r) (str "/ue:")).
  rewrite (IH Hl). cbn [has_prefix str list_ascii_of_string]. apply negb_true_iff in Hc. by rewrite Hc.
Qed.

(** ** Lemmas: decoded reports *)

Section Reports.
Context {GL : GoLib}.

Lemma unwrap_ok {A : Type} (P : A -> Prop) (name : string) (dec : list (string * json) -> option A) (j : json) (x : A) :
  (forall l x, dec l = Some x -> P x) -> unwrap name (decode_object dec) j = Some x -> P x.
Proof.
  intros Hd. unfold unwrap. destruct j; try done; [by apply Hd|]. destruct (members l !! name) as [inner|]; [|by apply Hd].
  destruct inner; try done; by apply Hd.
Qed.

Lemma decode_list_ok {A : Type} (P : A -> Prop) (name : string) (dec : json -> option A) (l : list (string * json)) (xs : list A) :
  (forall j x, dec j = Some x -> P x) -> decode_list_member name dec l = Some xs -> Forall P xs.
Proof.
  intros Hd. unfold decode_list_member. revert xs. induction l as [|kv l IH] using rev_ind; intros xs; [by intros [= <-]|].
  rewrite foldl_app. cbn [foldl]. destruct (foldl _ _ l) as [old|]; [|done]. cbn [mbind option_bind]. destruct (EqualFold _ _); [|by intros [= <-]; apply IH].
  unfold decode_list. destruct (kv.2); try done; [by intros [= <-]|]. intros Hm%mapM_Some. clear IH. induction Hm as [|j x js ys Hx _ IHm]; [done|].
  constructor; [by eapply Hd|done].
Qed.

Definition ue_ok (u : UEContainer) : Prop := struct_ok UEFields (ue_fields u) /\ Forall bearer_ok (BearerList u).
Definition cell_ok (c : CellContainer) : Prop := struct_ok CellFields (cell_fields c) /\ Forall ue_ok (UEList c).

Lemma fields_checked (fields : list (string * kind)) :
  bool_decide (NoDup fields.*1) && forallb (fun f => match f.2 with KUint bits => (0 <=? bits)%Z | _ => true end) fields = true ->
  NoDup fields.*1 /\ Forall (fun f => kind_ok f.2) fields.
Proof.
  intros [H1 H2]%andb_true_iff. split; [by apply bool_decide_eq_true in H1|]. rewrite forallb_forall in H2. apply Forall_forall. intros [tag k] Hin.
  apply list_elem_of_In in Hin. specialize (H2 _ Hin). cbn in *. destruct k; try done. cbn. lia.
Qed.

Lemma decode_bearer_ok (j : json) (b : BearerContainer) : decode_bearer j = Some b -> bearer_ok b.
Proof.
  apply unwrap_ok. intros l x. destruct (decode_members BearerFields l) as [f|] eqn:E; [|done]. intros [= <-].
  destruct (fields_checked BearerFields) as [H1 H2]; [vm_compute; reflexivity|]. by eapply decode_members_ok.
Qed.

Lemma decode_ue_ok (j : json) (u : UEContainer) : decode_ue j = Some u -> ue_ok u.
Proof.
  apply unwrap_ok. intros l x. destruct (decode_members UEFields l) as [f|] eqn:E; [|done]. destruct (decode_list_member _ _ l) as [bs|] eqn:Eb; [|done].
  intros [= <-]. split.
  - destruct (fields_checked UEFields) as [H1 H2]; [vm_compute; reflexivity|]. by eapply decode_members_ok.
  - eapply decode_list_ok; [apply decode_bearer_ok|exact Eb].
Qed.

Lemma decode_cell_ok (j : json) (c : CellContainer) : decode_cell j = Some c -> cell_ok c.
Proof.
  apply unwrap_ok. intros l x. destruct (decode_members CellFields l) as [f|] eqn:E; [|done]. destruct (decode_list_member _ _ l) as [us|] eqn:Eu; [|done].
  intros [= <-]. split.
  - destruct (fields_checked CellFields) as [H1 H2]; [vm_compute; reflexivity|]. by eapply decode_members_ok.
  - eapply decode_list_ok; [apply decode_ue_ok|exact Eu].
Qed.

Lemma decode_enb_ok (j : json) (m : EnbMetrics) : decode_enb j = Some m -> Forall cell_ok (CellList m).
Proof.
  unfold decode_enb. assert (Hl : forall l, match decode_members RootFields l, decode_struct_member "s1ap_container" decode_s1ap (mkS1AP "" 0 ∅) l,
          decode_struct_member "rrc_container" decode_rrc (mkRRC ∅) l, decode_list_member "cell_list" decode_cell l with
    | Some f, Some s1, Some rrc, Some cells => Some (mkEnb (get_string "type" f) (get_string "enb_serial" f) (get_float "timestamp" f) s1 rrc cells)
    | _, _, _, _ => None end = Some m -> Forall cell_ok (CellList m)).
  { intros l. destruct (decode_members RootFields l), (decode_struct_member "s1ap_container" decode_s1ap (mkS1AP "" 0 ∅) l), (decode_struct_member "rrc_container" decode_rrc (mkRRC ∅) l); try done.
    destruct (decode_list_member _ _ l) as [cs|] eqn:Ec; [|done]. intros [= <-]. eapply decode_list_ok; [apply decode_cell_ok|exact Ec]. }
  destruct j; try done; apply Hl.
Qed.

Lemma get_uint_nonneg (fields : list (string * kind)) (vals : gmap string gval) (tag : string) (bits : Z) :
  struct_ok fields vals -> (tag, KUint bits) ∈ fields -> (0 <= get_uint tag vals)%Z.
Proof. intros Hs Hin. destruct (Hs tag _ Hin) as (v & Hv & Hk). unfold get_uint. rewrite Hv. destruct v; try done. apply Hk. Qed.

(** The UEs of a cell count for the cell. *)
Lemma ue_resolves_to_cell (c : CellContainer) (s1 s2 : Sample) (rnti : string) (now : time) (r : Registry) :
  cell_ok c -> s_Scope s1 = cell_scope c +:+ "/ue:rnti=" +:+ rnti -> s_Scope s2 = cell_scope c -> Resolve now s1 r = Resolve now s2 r.
Proof.
  intros [Hc _] H1 H2. assert (Hns : no_slash (str (cell_scope c)) = true).
  { unfold cell_scope. rewrite !str_app, !no_slash_app. unfold FormatUint. rewrite !str_unstr, !digits_no_slash; [done|..];
      (eapply get_uint_nonneg; [exact Hc|]; [repeat first [by left|right]]). }
  assert (Hpre : has_prefix (str (cell_scope c)) (str "cell:") = true) by (unfold cell_scope; by rewrite str_app).
  assert (Hk : forall s, cellKeyFromSample s = cell_scope c -> Resolve now s r = let '(r, dn) := ensureCell (cell_scope c) r in (r, Ok dn)).
  { intros s Hs. unfold Resolve. destruct (String.eqb_spec (s_Scope s) "node") as [E|_].
    { exfalso. unfold cellKeyFromSample in Hs. rewrite E in Hs. discriminate Hs. }
    destruct (String.eqb_spec (s_Scope s) "") as [E|_].
    { exfalso. unfold cellKeyFromSample in Hs. rewrite E in Hs. discriminate Hs. }
    cbv zeta. by rewrite Hs. }
  rewrite (Hk s1), (Hk s2); [done| |].
  - unfold cellKeyFromSample. rewrite H2. rewrite (index_no_slash _ Hns), Hpre, unstr_str. done.
  - unfold cellKeyFromSample. rewrite H1. destruct (String.eqb_spec (cell_scope c +:+ "/ue:rnti=" +:+ rnti) "") as [E|_]; [discriminate E|].
    change ("/ue:rnti=" +:+ rnti) with ("/ue:" +:+ ("rnti=" +:+ rnti)). rewrite !str_app. cbv zeta. rewrite (index_ue _ _ Hns), take_app_length, Hpre. apply unstr_str.
Qed.

End Reports.

(** ** Theorems *)

Lemma ue_keys_apart (b : BearerContainer) (r r' : FieldRule) : r' ∈ UEFieldRules -> RuleKey r' <> bearer_key b r /\ RuleKey r' <> CanonicalUERRCInactivity.
Proof.
  intros Hin. assert (Hp : forallb (fun x => HasPrefix (RuleKey x) "ue." && negb (String.eqb (RuleKey x) CanonicalUERRCInactivity)) UEFieldRules = true)
    by (vm_compute; reflexivity). rewrite forallb_forall in Hp. apply list_elem_of_In in Hin. specialize (Hp _ Hin). apply andb_true_iff in Hp as [H1 H2].
  split; [|by apply negb_true_iff, String.eqb_neq in H2]. intros E. rewrite E in H1. discriminate H1.
Qed.

Section Theorems.
Context {GL : GoLib} {JT : JsonText}.

(** The metrics of a decoded UE, by key. *)
Record ue_metrics_exact (u : UEContainer) (m : gmap string Metric) : Prop := {
  ux_rules : forall r, r ∈ UEFieldRules -> reads (ue_fields u) r /\ m !! RuleKey r = Some (rule_metric (ue_fields u) r);
  ux_bearers : forall bs1 b bs2 r, BearerList u = bs1 ++ b :: bs2 -> Forall (fun b' => bearer_id b' <> bearer_id b) bs2 -> r ∈ BearerFieldRules ->
    reads (b_fields b) r /\ m !! bearer_key b r = Some (bearer_metric b r);
  ux_only : forall k, is_Some (m !! k) -> k = CanonicalUERRCInactivity \/ (exists r, r ∈ UEFieldRules /\ k = RuleKey r) \/
    (exists b r, b ∈ BearerList u /\ r ∈ BearerFieldRules /\ k = bearer_key b r)
}.

Lemma mapUE_exact (ts : Z) (source cellID : string) (u : UEContainer) : ue_ok u -> ue_metrics_exact u (s_Metrics (mapUE ts source cellID u)).
Proof.
  intros [Hu Hbs]. unfold mapUE. cbv zeta. cbn [s_Metrics]. set (dst := putGauge CanonicalUERRCInactivity _ _ _). fold (bearer_metrics (BearerList u) dst).
  assert (Hreads : Forall (reads (ue_fields u)) UEFieldRules) by (eapply rules_fit_reads; [apply ue_rules_fit|done]).
  assert (Hbreads : forall b, b ∈ BearerList u -> Forall (reads (b_fields b)) BearerFieldRules).
  { intros b Hb. eapply rules_fit_reads; [apply bearer_rules_fit|]. rewrite Forall_forall in Hbs. by apply Hbs. }
  constructor.
  - intros r Hr. rewrite Forall_forall in Hreads. split; [by apply Hreads|]. rewrite bearer_metrics_other; [|done|intros b r' _ _; by apply ue_keys_apart].
    unfold dst, putGauge. rewrite lookup_insert_ne by (symmetry; apply (ue_keys_apart (mkBearer ∅) r r Hr)).
    rewrite ApplyFieldRules_lookup, find_rule; [done|apply ue_rules_nodup|done|apply ue_rules_nodup|by apply Forall_forall].
  - intros bs1 b bs2 r Hb Hid Hr. rewrite Hb in *. apply Forall_app in Hbs as [_ Hbs]. apply Forall_cons in Hbs as [Hbok Hbs]. split.
    + assert (Hin : b ∈ bs1 ++ b :: bs2) by (apply elem_of_app; right; left). pose proof (Hbreads b Hin) as Hrb. rewrite Forall_forall in Hrb. by apply Hrb.
    + by apply bearer_metrics_last.
  - intros k [v Hv]. destruct (decide (Exists (fun b => Exists (fun r => k = bearer_key b r) BearerFieldRules) (BearerList u))) as [He|Hn].
    + right. right. apply Exists_exists in He as (b & Hb & He). apply Exists_exists in He as (r & Hr & ->). by exists b, r.
    + rewrite bearer_metrics_other in Hv; [|done|].
      2:{ intros b r Hb Hr ->. apply Hn. apply Exists_exists. exists b. split; [done|]. apply Exists_exists. by exists r. }
      unfold dst, putGauge in Hv. destruct (decide (k = CanonicalUERRCInactivity)) as [->|Hk]; [by left|]. rewrite lookup_insert_ne in Hv by done.
      rewrite ApplyFieldRules_lookup in Hv; [|apply ue_rules_nodup|done]. destruct (find _ UEFieldRules) as [r|] eqn:Ef; [|by rewrite lookup_empty in Hv].
      apply find_some in Ef as [Hr Hk']. apply String.eqb_eq in Hk'. right. left. exists r. split; [by apply list_elem_of_In|done].
Qed.

(** C8: a report is mapped without loss, to the right objects. Whenever the mapper accepts an eNB report,
    the report decodes and for each of its UEs there is a sample that holds, under its canonical key,
    the value of every field that has a rule, no rule being skipped, and of every field of each of its
    bearers (the last one with a bearer id counts), and nothing else but the inactivity flag; and the
    sample is attributed to the same managed object as the sample of its cell, which is also there. *)
Theorem mapped_report_exact (now : time) (m : Mapper) (raw : string) (samples : list Sample) (j : json) (envelope : gmap string gval) :
  Map now m raw = Ok samples -> ParseJson raw = Some j -> decode_object (decode_members [("type", KString)]) j = Some envelope ->
  get_string "type" envelope <> "gnb_metrics" ->
  exists parsed, ParseFirst raw ≫= decode_enb = Some parsed /\ length samples = S (length (CellList parsed) + length (CellList parsed ≫= UEList)) /\
  forall c u, c ∈ CellList parsed -> u ∈ UEList c ->
    exists cell ue, cell ∈ samples /\ ue ∈ samples /\ s_Scope cell = cell_scope c /\ s_Timestamp ue = to_millis (e_Timestamp parsed) /\
      ue_metrics_exact u (s_Metrics ue) /\ (forall now r, Resolve now ue r = Resolve now cell r).
Proof.
  intros Hm Hj He Ht. unfold Map in Hm. destruct (String.eqb raw ""); [done|]. rewrite Hj, He, (proj2 (String.eqb_neq _ _) Ht) in Hm.
  unfold parseEnbMetrics in Hm. destruct (ParseFirst raw ≫= decode_enb) as [parsed|] eqn:Ep; [|done].
  destruct (negb _); [done|]. destruct (_ || _); [done|]. injection Hm as <-. exists parsed. split; [done|].
  assert (Hcells : Forall cell_ok (CellList parsed)) by (destruct (ParseFirst raw) as [j0|]; [|done]; by eapply decode_enb_ok).
  unfold map_enb. cbv zeta. set (src := if String.eqb (SourceID m) "" then _ else _). set (ts := to_millis (e_Timestamp parsed)). split.
  - cbn [length]. f_equal. unfold mapCells. clear. induction (CellList parsed) as [|c l IH]; [done|].
    rewrite !bind_cons, !length_app, IH. unfold map_cell. cbn [length]. rewrite length_fmap. lia.
  - intros c u Hc Hu. rewrite Forall_forall in Hcells. pose proof (Hcells c Hc) as Hcok.
    exists (mkSample ts src (cell_scope c) (putCounter KeyCellNoFRACH "count" (f_of_Z (get_uint "nof_rach" (cell_fields c))) ∅)
      (list_to_map [("carrier_id", FormatUint (get_uint "carrier_id" (cell_fields c))); ("pci", FormatUint (get_uint "pci" (cell_fields c)))])),
      (mapUE ts src (cell_scope c) u).
    assert (Hin : forall s, s ∈ map_cell ts src c -> s ∈ mapNode ts src parsed :: mapCells ts src (CellList parsed)).
    { intros s Hs. right. apply list_elem_of_bind. by exists c. }
    split_and!; [apply Hin; left|apply Hin; right; apply list_elem_of_fmap; by exists u|done|done| |].
    + apply mapUE_exact. destruct Hcok as [_ Hus]. rewrite Forall_forall in Hus. by apply Hus.
    + intros now' r. by eapply ue_resolves_to_cell.
Qed.

End Theorems.

(** ** Witness *)

Definition sample_report : json :=
  JObj [("type", JStr "enb_metrics"); ("enb_serial", JStr "4660"); ("timestamp", JNum "1");
        ("s1ap_container", JObj [("s1ap_status", JStr " Ready "); ("nas_ul_fail", JNum "3")]);
        ("cell_list", JArr [JObj [("cell_container", JObj [("carrier_id", JNum "0"); ("pci", JNum "7");
           ("ue_list", JArr [JObj [("ue_rnti", JNum "70"); ("dl_cqi", JNum "12"); ("rrc_release_cause", JStr "Inactivity");
              ("bearer_list", JArr [JObj [("bearer_id", JNum "3"); ("DL_Buffered_Bytes", JNum "9")]])]])])]])].

Definition sample_text : JsonText := {| ParseJson := fun _ => Some sample_report; ParseFirst := fun _ => Some sample_report |}.

Definition sample_envelope : gmap string gval := {[ "type" := GString "enb_metrics" ]}.
Definition sample_mapping : result map_error (list Sample) := Map (GL := ascii_golib) (JT := sample_text) 0%Z (mkMapper "enb1") "{...}".

Lemma mapped_report_exact_witness :
  exists parsed, decode_enb (GL := ascii_golib) sample_report = Some parsed /\
    (fun s => length s) <$> (match sample_mapping with Ok s => Some s | Err _ => None end) = Some (S (length (CellList parsed) + length (CellList parsed ≫= UEList))).
Proof.
  assert (Hok : is_ok sample_mapping = true) by (vm_compute; reflexivity).
  destruct sample_mapping as [samples|e] eqn:Em; [|discriminate Hok].
  destruct (mapped_report_exact (GL := ascii_golib) (JT := sample_text) 0%Z (mkMapper "enb1") "{...}" samples sample_report
    sample_envelope Em eq_refl ltac:(vm_compute; reflexivity) ltac:(vm_compute; discriminate)) as (parsed & Hp & Hl & _).
  exists parsed. split; [exact Hp|]. cbn. by rewrite Hl.
Defined.

(** The buffered bytes of the bearer, found under a member name in other case. *)
Example sample_bearer_metric :
  match sample_mapping with
  | Ok [_; _; ue] => m_Value <$> (s_Metrics ue !! "bearer.3.dl_buffered_bytes")
  | _ => None
  end = Some (f_of_Z 9).
Proof. vm_compute. reflexivity. Qed.
