(* ===== verification/Normalize.v ===== *)
(** * Normalisation for NETCONF (internal/ems/mediation/srsran/normalize.go)

    A raw report is rewritten for the strict parser of the YANG library: list entries get their keys
    and the numbers of 64-bit and decimal leaves become strings. Decoded maps are objects with their
    members in key order. The code shares the copied keys between two maps and converts them twice;
    conversion is idempotent ([convert_idem]), so the values come out the same. *)
From S2P Require Import Prelude GoNum GoStrings Json Metrics.

(** ** Decoding into map[string]any *)

(** Members in key order, of equal keys the last. *)
Fixpoint to_value (j : json) : json :=
  match j with
  | JArr l => JArr (map to_value l)
  | JObj l => JObj (foldl (fun acc kv => jset kv.1 kv.2 acc) [] (map (fun e => (fst e, to_value (snd e))) l))
  | _ => j
  end.

(** ** normalizeStructure *)

Definition asSlice (v : option json) : option (list json) := match v with Some (JArr l) => Some l | _ => None end.
Definition asMap (v : option json) : option (list (string * json)) := match v with Some (JObj l) => Some l | _ => None end.

(** Copies a key from [src] unless the entry has it. *)
Definition copy_key (k : string) (src entry : list (string * json)) : list (string * json) :=
  match jget k entry with
  | Some _ => entry
  | None => match jget k src with Some v => jset k v entry | None => entry end
  end.

(** The object an entry is about: the container inside it, or the entry itself. *)
Definition container (name : string) (entry : list (string * json)) : list (string * json) := default entry (asMap (jget name entry)).

(** Changes the list [name] of that object in place. *)
Definition update_list (cont name : string) (f : json -> json) (entry : list (string * json)) : list (string * json) :=
  match asSlice (jget name (container cont entry)) with
  | None => entry
  | Some l =>
      match asMap (jget cont entry) with
      | Some inner => jset cont (JObj (jset name (JArr (map f l)) inner)) entry
      | None => jset name (JArr (map f l)) entry
      end
  end.

Definition normalize_bearer (j : json) : json :=
  match j with
  | JObj entry =>
      match jget "bearer_id" entry, asMap (jget "bearer_container" entry) with
      | None, Some inner => JObj (copy_key "bearer_id" inner entry)
      | _, _ => j
      end
  | _ => j
  end.

Definition normalize_ue (j : json) : json :=
  match j with
  | JObj entry => JObj (update_list "ue_container" "bearer_list" normalize_bearer (copy_key "ue_rnti" (container "ue_container" entry) entry))
  | _ => j
  end.

Definition normalize_cell (j : json) : json :=
  match j with
  | JObj entry =>
      let entry := copy_key "carrier_id" (container "cell_container" entry) entry in
      let entry := copy_key "pci" (container "cell_container" entry) entry in
      JObj (update_list "cell_container" "ue_list" normalize_ue entry)
  | _ => j
  end.

Definition normalizeStructure (root : list (string * json)) : list (string * json) :=
  match asSlice (jget "cell_list" root) with
  | None => root
  | Some cells => jset "cell_list" (JArr (map normalize_cell cells)) root
  end.

(** ** normalizeTypes *)

Definition decimal_keys : list string :=
  ["timestamp"; "dl_cqi"; "dl_mcs"; "dl_bitrate"; "dl_bler"; "ul_snr"; "ul_mcs"; "ul_bitrate"; "ul_bler"; "ul_phr"; "ul_pusch_rssi";
   "ul_pucch_rssi"; "ul_pucch_ni"; "dl_cqi_offset"; "ul_snr_offset"; "dl_latency"; "ul_latency"].

Section Types.
Context {GL : GoLib}.

(** A json.Number is JNum, an int64 JInt; a decoder that uses json.Number makes no other numbers. *)
Definition toUintString (v : json) : option string :=
  match v with JNum t => Some t | JInt z => Some (FormatInt z) | _ => None end.

Definition toDecimalString (v : json) : option string :=
  match v with
  | JNum t => match ParseFloat t with Some f => Some (FormatFloat f 6) | None => None end
  | JInt z => Some (FormatInt z)
  | _ => None
  end.

Definition toInt64String (v : json) : option string :=
  match v with JNum t => Some t | JInt z => Some (FormatInt z) | _ => None end.

Definition convertValue (key : string) (v : json) : option string :=
  if HasPrefix key "nas_" then toUintString v
  else if existsb (String.eqb key) decimal_keys then toDecimalString v
  else if existsb (String.eqb key) ["dl_total_bytes"; "ul_total_bytes"] then toUintString v
  else if existsb (String.eqb key) ["ul_pusch_tpc"; "ul_pucch_tpc"] then toInt64String v
  else None.

Fixpoint walkAndConvert (j : json) : json :=
  match j with
  | JObj l => JObj (map (fun e => (fst e, match convertValue (fst e) (snd e) with Some s => JStr s | None => walkAndConvert (snd e) end)) l)
  | JArr l => JArr (map walkAndConvert l)
  | _ => j
  end.

Context {JT : JsonText}.

(** The document before it is written. A null report gives a null document. *)
Definition normalized (j : json) : option json :=
  match to_value j with
  | JObj root => Some (walkAndConvert (JObj (normalizeStructure root)))
  | JNull => Some JNull
  | _ => None
  end.

Definition NormalizeForNetconf (raw : string) : option string :=
  j ← ParseFirst raw; doc ← normalized j; Some (unstr (Marshal doc)).

End Types.

(** ** Lemmas: members *)

Definition has (k : string) (l : list (string * json)) : bool := match jget k l with Some _ => true | None => false end.

Lemma copy_key_same (k : string) (l : list (string * json)) : copy_key k l l = l.
Proof. unfold copy_key. by destruct (jget k l) eqn:E. Qed.

Lemma copy_key_get (k : string) (src e : list (string * json)) : jget k (copy_key k src e) = match jget k e with Some v => Some v | None => jget k src end.
Proof. unfold copy_key. destruct (jget k e) eqn:E; [done|]. destruct (jget k src) eqn:Es; [|done]. rewrite jget_jset. by rewrite string_eqb_refl. Qed.

Lemma copy_key_other (k k' : string) (src e : list (string * json)) : k' <> k -> jget k' (copy_key k src e) = jget k' e.
Proof.
  intros Hne. unfold copy_key. destruct (jget k e); [done|]. destruct (jget k src); [|done]. rewrite jget_jset. rewrite (proj2 (String.eqb_neq k k')) by congruence. done.
Qed.

Lemma copy_key_container (k cont : string) (e : list (string * json)) :
  cont <> k -> asMap (jget cont (copy_key k (container cont e) e)) = asMap (jget cont e) /\
  container cont (copy_key k (container cont e) e) = container cont e.
Proof.
  intros Hne. rewrite (copy_key_other k cont) by done. split; [done|]. unfold container. rewrite (copy_key_other k cont) by done.
  destruct (asMap (jget cont e)) as [inner|]; [done|]. cbn. by rewrite copy_key_same.
Qed.

(** What [update_list] leaves and what it changes: the object the entry is about. *)
Lemma update_list_container (cont name : string) (f : json -> json) (e l : list (string * json)) (ls : list json) :
  cont <> name -> l = container cont e -> asSlice (jget name l) = Some ls -> container cont (update_list cont name f e) = jset name (JArr (map f ls)) l.
Proof.
  intros Hne -> El. unfold update_list. rewrite El. unfold container in *. destruct (asMap (jget cont e)) as [inner|] eqn:Em.
  - rewrite jget_jset, string_eqb_refl. done.
  - rewrite jget_jset, (proj2 (String.eqb_neq name cont)) by congruence. by rewrite Em.
Qed.

Lemma update_list_none (cont name : string) (f : json -> json) (e : list (string * json)) :
  asSlice (jget name (container cont e)) = None -> update_list cont name f e = e.
Proof. intros El. unfold update_list. by rewrite El. Qed.

Lemma update_list_get (cont name k : string) (f : json -> json) (e : list (string * json)) :
  cont <> name -> k <> cont -> k <> name ->
  jget k (update_list cont name f e) = jget k e /\ jget k (container cont (update_list cont name f e)) = jget k (container cont e).
Proof.
  intros Hcn Hkc Hkn. split.
  - unfold update_list. destruct (asSlice _); [|done]. destruct (asMap _); rewrite jget_jset;
      [rewrite (proj2 (String.eqb_neq cont k)) by congruence|rewrite (proj2 (String.eqb_neq name k)) by congruence]; done.
  - destruct (asSlice (jget name (container cont e))) as [ls|] eqn:El; [|by rewrite update_list_none].
    rewrite (update_list_container cont name f e _ ls Hcn eq_refl El), jget_jset, (proj2 (String.eqb_neq name k)) by congruence. done.
Qed.

(** ** Lemmas: list keys *)

(** The entry has the key if the object it is about has it. *)
Definition keyed (k cont : string) (e : list (string * json)) : bool := implb (has k (container cont e)) (has k e).

Definition elements (cont name : string) (e : list (string * json)) : list json := default [] (asSlice (jget name (container cont e))).

Definition bearer_keyed (j : json) : bool :=
  match j with JObj e => keyed "bearer_id" "bearer_container" e | _ => true end.
Definition ue_keyed (j : json) : bool :=
  match j with JObj e => keyed "ue_rnti" "ue_container" e && forallb bearer_keyed (elements "ue_container" "bearer_list" e) | _ => true end.
Definition cell_keyed (j : json) : bool :=
  match j with
  | JObj e => keyed "carrier_id" "cell_container" e && keyed "pci" "cell_container" e && forallb ue_keyed (elements "cell_container" "ue_list" e)
  | _ => true
  end.
Definition report_keyed (root : list (string * json)) : bool := forallb cell_keyed (default [] (asSlice (jget "cell_list" root))).

Lemma keyed_copy (k cont : string) (e : list (string * json)) : cont <> k -> keyed k cont (copy_key k (container cont e) e) = true.
Proof.
  intros Hne. unfold keyed, has. rewrite (proj2 (copy_key_container k cont e Hne)), copy_key_get. by destruct (jget k e), (jget k (container cont e)).
Qed.

Lemma keyed_frame (k cont : string) (e e' : list (string * json)) :
  jget k (container cont e') = jget k (container cont e) -> jget k e' = jget k e -> keyed k cont e' = keyed k cont e.
Proof. intros H1 H2. unfold keyed, has. by rewrite H1, H2. Qed.

Lemma normalize_bearer_keyed (j : json) : bearer_keyed (normalize_bearer j) = true.
Proof.
  destruct j as [| | | | | |e]; try done. cbn [normalize_bearer]. destruct (jget "bearer_id" e) eqn:Eb.
  - cbn [bearer_keyed]. unfold keyed, has. rewrite Eb. apply implb_true_r.
  - destruct (asMap (jget "bearer_container" e)) as [inner|] eqn:Em.
    + cbn [bearer_keyed]. assert (Hc : inner = container "bearer_container" e) by (unfold container; by rewrite Em). rewrite Hc. by apply keyed_copy.
    + cbn [bearer_keyed]. unfold keyed, container. rewrite Em. cbn. by destruct (has _ _).
Qed.

Lemma forallb_map_true {A : Type} (p : A -> bool) (f : A -> A) (l : list A) : (forall x, p (f x) = true) -> forallb p (map f l) = true.
Proof. intros Hf. induction l as [|x l IH]; [done|]. cbn. by rewrite Hf, IH. Qed.

(** The elements of an updated list. *)
Lemma elements_update (cont name : string) (f : json -> json) (p : json -> bool) (e : list (string * json)) :
  cont <> name -> (forall x, p (f x) = true) -> forallb p (elements cont name (update_list cont name f e)) = true.
Proof.
  intros Hne Hf. unfold elements. destruct (asSlice (jget name (container cont e))) as [ls|] eqn:El.
  - rewrite (update_list_container cont name f e _ ls Hne eq_refl El), jget_jset, string_eqb_refl. cbn. by apply forallb_map_true.
  - rewrite update_list_none by done. by rewrite El.
Qed.

Lemma normalize_ue_keyed (j : json) : ue_keyed (normalize_ue j) = true.
Proof.
  destruct j as [| | | | | |e]; try done. cbn [normalize_ue ue_keyed]. set (e1 := copy_key _ _ e). apply andb_true_iff. split.
  - destruct (update_list_get "ue_container" "bearer_list" "ue_rnti" normalize_bearer e1) as (H1 & H2); [done..|].
    rewrite (keyed_frame _ _ _ _ H2 H1). by apply keyed_copy.
  - apply elements_update; [done|]. apply normalize_bearer_keyed.
Qed.

Lemma normalize_cell_keyed (j : json) : cell_keyed (normalize_cell j) = true.
Proof.
  destruct j as [| | | | | |e]; try done. cbn [normalize_cell cell_keyed]. cbv zeta. set (e1 := copy_key "carrier_id" _ e). set (e2 := copy_key "pci" _ e1).
  rewrite !andb_true_iff. split_and!.
  - destruct (update_list_get "cell_container" "ue_list" "carrier_id" normalize_ue e2) as (H1 & H2); [done..|]. rewrite (keyed_frame _ _ _ _ H2 H1).
    assert (Hf : keyed "carrier_id" "cell_container" e2 = keyed "carrier_id" "cell_container" e1).
    { unfold e2. apply keyed_frame; [by rewrite (proj2 (copy_key_container "pci" "cell_container" e1 ltac:(done)))|by apply copy_key_other]. }
    rewrite Hf. by apply keyed_copy.
  - destruct (update_list_get "cell_container" "ue_list" "pci" normalize_ue e2) as (H1 & H2); [done..|]. rewrite (keyed_frame _ _ _ _ H2 H1). by apply keyed_copy.
  - apply elements_update; [done|]. apply normalize_ue_keyed.
Qed.

(** ** Lemmas: conversion *)

(** Induction on a JSON value and the values inside it. *)
Section Induction.
Context (P : json -> Prop) (Hnull : P JNull) (Hstr : forall s, P (JStr s)) (Hint : forall z, P (JInt z)) (Hnum : forall t, P (JNum t)) (Hbool : forall b, P (JBool b)).
Context (Harr : forall l, Forall P l -> P (JArr l)) (Hobj : forall l, Forall (fun e => P (snd e)) l -> P (JObj l)).

Fixpoint json_nested_ind (j : json) : P j :=
  match j with
  | JNull => Hnull
  | JStr s => Hstr s
  | JInt z => Hint z
  | JNum t => Hnum t
  | JBool b => Hbool b
  | JArr l => Harr l ((fix go l : Forall P l := match l with [] => List.Forall_nil _ | x :: r => @List.Forall_cons _ _ x r (json_nested_ind x) (go r) end) l)
  | JObj l => Hobj l ((fix go l : Forall (fun e => P (snd e)) l := match l with [] => List.Forall_nil _ | x :: r => @List.Forall_cons _ (fun e => P (snd e)) x r (json_nested_ind (snd x)) (go r) end) l)
  end.

End Induction.

Section Convert.
Context {GL : GoLib}.

(** No member is left that conversion would change. *)
Fixpoint converted (j : json) : bool :=
  match j with
  | JObj l => forallb (fun e => match convertValue (fst e) (snd e) with Some _ => false | None => converted (snd e) end) l
  | JArr l => forallb converted l
  | _ => true
  end.

Definition same_shape (v w : json) : Prop :=
  match v, w with JObj _, JObj _ | JArr _, JArr _ => True | _, _ => v = w end.

Lemma convert_shape (key : string) (v w : json) : convertValue key v = None -> same_shape v w -> convertValue key w = None.
Proof.
  destruct v, w; intros Hc Hvw; try done; try (by injection Hvw as <-); unfold convertValue in *; by repeat case_match.
Qed.

Lemma walk_shape (v : json) : same_shape v (walkAndConvert v).
Proof. by destruct v. Qed.

Lemma convert_string (key s : string) : convertValue key (JStr s) = None.
Proof. unfold convertValue. by repeat case_match. Qed.

Lemma walk_converted (j : json) : converted (walkAndConvert j) = true.
Proof.
  induction j as [|s|z|t|b|l IH|l IH] using json_nested_ind; try done; cbn [walkAndConvert converted].
  - induction IH as [|x l Hx _ IHl]; [done|]. cbn [map forallb]. by rewrite Hx.
  - induction IH as [|[k v] l Hx _ IHl]; [done|]. cbn [map forallb fst snd] in *. rewrite IHl, andb_true_r.
    destruct (convertValue k v) eqn:Ec; [by rewrite convert_string|]. rewrite (convert_shape k v _ Ec (walk_shape v)). exact Hx.
Qed.

Lemma walk_fixed (j : json) : converted j = true -> walkAndConvert j = j.
Proof.
  induction j as [|s|z|t|b|l IH|l IH] using json_nested_ind; try done; cbn [walkAndConvert converted]; intros Hc; f_equal.
  - induction IH as [|x l Hx _ IHl]; [done|]. cbn [map forallb] in *. apply andb_true_iff in Hc as [H1 H2]. by rewrite Hx, IHl.
  - induction IH as [|[k v] l Hx _ IHl]; [done|]. cbn [map forallb fst snd] in *. apply andb_true_iff in Hc as [H1 H2]. rewrite (IHl H2).
    destruct (convertValue k v); [done|]. by rewrite Hx.
Qed.

Lemma convert_idem (j : json) : walkAndConvert (walkAndConvert j) = walkAndConvert j.
Proof. apply walk_fixed, walk_converted. Qed.

(** *** Conversion and list keys *)

Definition convert_members (l : list (string * json)) : list (string * json) :=
  map (fun e => (fst e, match convertValue (fst e) (snd e) with Some s => JStr s | None => walkAndConvert (snd e) end)) l.

Lemma convert_get (k : string) (l : list (string * json)) :
  jget k (convert_members l) = (fun v => match convertValue k v with Some s => JStr s | None => walkAndConvert v end) <$> jget k l.
Proof.
  induction l as [|[a v] l IH]; [done|]. cbn. destruct (String.eqb_spec a k) as [->|]; [done|exact IH].
Qed.

(** The names of containers and lists are not those of leaves. *)
Definition structural (k : string) : Prop := forall v, convertValue k v = None.

Lemma structural_names :
  Forall structural ["cell_list"; "cell_container"; "ue_list"; "ue_container"; "bearer_list"; "bearer_container"].
Proof. repeat constructor; intros v; reflexivity. Qed.

Lemma convert_map (k : string) (l : list (string * json)) : structural k -> asMap (jget k (convert_members l)) = convert_members <$> asMap (jget k l).
Proof. intros Hk. rewrite convert_get. destruct (jget k l) as [v|]; [|done]. cbn. rewrite Hk. by destruct v. Qed.

Lemma convert_slice (k : string) (l : list (string * json)) : structural k -> asSlice (jget k (convert_members l)) = map walkAndConvert <$> asSlice (jget k l).
Proof. intros Hk. rewrite convert_get. destruct (jget k l) as [v|]; [|done]. cbn. rewrite Hk. by destruct v. Qed.

Lemma convert_container (k : string) (l : list (string * json)) : structural k -> container k (convert_members l) = convert_members (container k l).
Proof. intros Hk. unfold container. rewrite convert_map by done. by destruct (asMap (jget k l)). Qed.

Lemma convert_keyed (k cont : string) (l : list (string * json)) : structural cont -> keyed k cont (convert_members l) = keyed k cont l.
Proof.
  intros Hc. unfold keyed, has. rewrite convert_container, !convert_get by done. by destruct (jget k (container cont l)), (jget k l).
Qed.

Lemma convert_elements (cont name : string) (p : json -> bool) (l : list (string * json)) :
  structural cont -> structural name -> (forall j, p (walkAndConvert j) = p j) ->
  forallb p (elements cont name (convert_members l)) = forallb p (elements cont name l).
Proof.
  intros Hc Hn Hp. unfold elements. rewrite convert_container, convert_slice by done. destruct (asSlice _) as [js|]; [|done]. cbn.
  induction js as [|j js IH]; [done|]. cbn. by rewrite Hp, IH.
Qed.

End Convert.

(** ** Theorems *)

Section Theorems.
Context {GL : GoLib} {JT : JsonText}.

Lemma structural_name (k : string) : k ∈ ["cell_list"; "cell_container"; "ue_list"; "ue_container"; "bearer_list"; "bearer_container"] -> structural k.
Proof. intros Hk. pose proof structural_names as Hs. rewrite Forall_forall in Hs. by apply Hs. Qed.

#[local] Hint Extern 1 (structural _) => (apply structural_name; repeat first [by left | right]) : core.

Lemma walk_bearer (j : json) : bearer_keyed (walkAndConvert j) = bearer_keyed j.
Proof. destruct j; try done. cbn [walkAndConvert bearer_keyed]. fold (convert_members l). apply convert_keyed. auto. Qed.

Lemma walk_ue (j : json) : ue_keyed (walkAndConvert j) = ue_keyed j.
Proof.
  destruct j; try done. cbn [walkAndConvert ue_keyed]. fold (convert_members l). rewrite convert_keyed, convert_elements by auto using walk_bearer. done.
Qed.

Lemma walk_cell (j : json) : cell_keyed (walkAndConvert j) = cell_keyed j.
Proof.
  destruct j; try done. cbn [walkAndConvert cell_keyed]. fold (convert_members l). rewrite !convert_keyed, convert_elements by auto using walk_ue. done.
Qed.

Lemma structure_keyed (root : list (string * json)) : report_keyed (normalizeStructure root) = true.
Proof.
  unfold normalizeStructure, report_keyed. destruct (asSlice (jget "cell_list" root)) as [l|] eqn:E; [|by rewrite E].
  rewrite jget_jset, string_eqb_refl. cbn. apply forallb_map_true, normalize_cell_keyed.
Qed.

(** A normalised report is fit for the YANG parser. Whenever the normalisation succeeds on an object,
    nothing that has to be a string is left as a number, at any depth; every cell, UE and bearer entry
    carries its list keys if the container inside it has them; every other member of the report is the
    old one, converted; and converting the document again changes nothing. *)
Theorem normalized_report_fits (j doc : json) (root : list (string * json)) :
  normalized j = Some doc -> to_value j = JObj root ->
  exists out, doc = JObj out /\ converted doc = true /\ report_keyed out = true /\
    (forall k, k <> "cell_list" -> jget k out = (fun v => match convertValue k v with Some s => JStr s | None => walkAndConvert v end) <$> jget k root) /\
    walkAndConvert doc = doc.
Proof.
  intros Hn Hr. unfold normalized in Hn. rewrite Hr in Hn. injection Hn as <-. exists (convert_members (normalizeStructure root)).
  split_and!; [done|exact (walk_converted (JObj (normalizeStructure root)))| | |exact (convert_idem (JObj (normalizeStructure root)))].
  - pose proof (structure_keyed root) as Hk. unfold report_keyed in *. rewrite convert_slice by auto.
    destruct (asSlice (jget "cell_list" (normalizeStructure root))) as [l|]; [|done]. cbn in *. clear -Hk. induction l as [|x l IH]; [done|].
    cbn in *. apply andb_true_iff in Hk as [H1 H2]. by rewrite walk_cell, H1, IH.
  - intros k Hk. rewrite convert_get. f_equal. unfold normalizeStructure. destruct (asSlice _); [|done]. rewrite jget_jset.
    rewrite (proj2 (String.eqb_neq "cell_list" k)) by congruence. done.
Qed.

End Theorems.

(** ** Witness *)

Definition raw_report : json :=
  JObj [("timestamp", JNum "5"); ("type", JStr "enb_metrics");
        ("cell_list", JArr [JObj [("cell_container", JObj [("pci", JNum "7"); ("carrier_id", JNum "0");
           ("ue_list", JArr [JObj [("ue_container", JObj [("ue_rnti", JNum "70"); ("ul_pusch_tpc", JNum "-1")])]])])]])].

Lemma normalized_report_fits_witness :
  exists out, normalized (GL := ascii_golib) raw_report = Some (JObj out) /\ report_keyed out = true /\ jget "timestamp" out = Some (JStr "5.000").
Proof.
  pose (doc := normalized (GL := ascii_golib) raw_report). assert (Hd : exists d, doc = Some d) by (eexists; vm_compute; reflexivity). destruct Hd as [d Hd].
  destruct (normalized_report_fits (GL := ascii_golib) raw_report d
    (match to_value raw_report with JObj l => l | _ => [] end) Hd ltac:(vm_compute; reflexivity)) as (out & -> & _ & Hk & Hg & _).
  exists out. split; [exact Hd|]. split; [exact Hk|]. rewrite (Hg "timestamp" ltac:(done)). vm_compute. reflexivity.
Defined.

(** The keys of the cell and of the UE beside their containers. *)
Example normalized_keys :
  match normalized (GL := ascii_golib) raw_report with
  | Some (JObj [("cell_list", JArr [JObj cell]); _; _]) => (has "carrier_id" cell, has "pci" cell, has "ue_rnti" cell)
  | _ => (false, false, false)
  end = (true, true, false).
Proof. vm_compute. reflexivity. Qed.
