(* ===== verification/AgentConfig.v ===== *)
(** * The agent's configuration (internal/ems/config/config.go, the TCA part of internal/ems/wiring/wiring.go)

    A YAML file read over the defaults, completed where it leaves fields empty, and overridden by the
    environment. The YAML library is a parameter that decodes a text into a given configuration;
    [env] is os.Getenv. Fields are independent of each other but for the element type, so that the
    updates of a field are one expression. *)
From S2P Require Import Prelude GoNum GoStrings Durations Json FileSystem Alarms Errors Nrm Pm Tca.

(** ** Data *)

Record ElementConfig := mkElementConfig { el_Type : string; SocketPath : string }.
Record LogConfig := mkLogConfig { lg_Level : string; lg_Format : string; lg_Color : bool; lg_Timestamp : bool; lg_Components : gmap string string }.
Record MetricsConfig := mkMetricsConfig { me_SnapshotPath : string; LogUDS : bool }.
Record NetconfSSHConfig := mkSSHConfig { HostKey : string; AuthorizedKey : string; ssh_Username : string }.

Record NetconfConfig := mkNetconfConfig {
  nc_Enabled : bool;
  nc_Addr : string;
  Transport : string;
  nc_SnapshotPath : string;
  DatastoreDir : string;
  YangDir : string;
  SSH : NetconfSSHConfig
}.

Record NRMConfig := mkNRMConfig { nrm_SubNetwork : string; nrm_ManagedElement : string; nrm_ENBFunctionID : string; nrm_GNBFunctionID : string }.
Record PMConfig := mkPMConfig { pm_Enabled : bool; GranularityPeriod : string; ReportPeriod : string }.

Record TCARuleConfig := mkTCARule {
  tr_Enabled : bool;
  tr_RaiseThreshold : float64;
  tr_ClearThreshold : float64;
  tr_RaiseDuration : string;
  tr_ClearDuration : string
}.

Record TCARuleSetConfig := mkTCARules {
  S1InterfaceDown : TCARuleConfig;
  NASSignalingLoss : TCARuleConfig;
  NASSecurityMismatch : TCARuleConfig;
  NASParsingFailure : TCARuleConfig;
  RRCProtocolError : TCARuleConfig;
  RRCConnectionRejection : TCARuleConfig;
  CoreServiceReject : TCARuleConfig;
  PagingCapacityExceeded : TCARuleConfig;
  RLCMaxRetransmissions : TCARuleConfig;
  LowThroughput : TCARuleConfig;
  LowULSINR : TCARuleConfig;
  BadSignalCondition : TCARuleConfig;
  HighBLER : TCARuleConfig;
  RadioLinkFailureStorm : TCARuleConfig;
  RFInterferenceDetected : TCARuleConfig;
  UEInactivityCleanup : TCARuleConfig;
  BearerCongestion : TCARuleConfig;
  PowerHeadroomCritical : TCARuleConfig
}.

Record TCAConfig := mkTCA { tca_Enabled : bool; TestInjectionEnabled : bool; tca_Rules : TCARuleSetConfig }.

Record ControlRestartTarget := mkTarget {
  t_Serial : string;
  t_Container : string;
  ENBConfigPath : string;
  RRConfigPath : string;
  SIBConfigPath : string;
  RBConfigPath : string;
  t_Dependents : list string;
  t_DelayAfterStart : string
}.

Record ControlRestart := mkControlRestart { DockerSocket : string; rs_Timeout : string; rs_Targets : list ControlRestartTarget }.
Record ControlConfig := mkControlConfig { ct_Enabled : bool; ct_Addr : string; Restart_ : ControlRestart }.

Record Config := mkConfig {
  Element : ElementConfig;
  BusBuffer : Z;
  Log : LogConfig;
  MetricsC : MetricsConfig;
  Netconf : NetconfConfig;
  NRM : NRMConfig;
  PM : PMConfig;
  FM : TCAConfig;
  Control : ControlConfig
}.

Definition no_tca_rule : TCARuleConfig := mkTCARule false f_zero f_zero "" "".
Definition no_tca_rules : TCARuleSetConfig :=
  mkTCARules no_tca_rule no_tca_rule no_tca_rule no_tca_rule no_tca_rule no_tca_rule no_tca_rule no_tca_rule no_tca_rule no_tca_rule
             no_tca_rule no_tca_rule no_tca_rule no_tca_rule no_tca_rule no_tca_rule no_tca_rule no_tca_rule.

Definition Default : Config :=
  mkConfig (mkElementConfig "enb" "/var/run/enb-metrics/enb_metrics.uds")
           200
           (mkLogConfig "info" "json" false true ∅)
           (mkMetricsConfig "" false)
           (mkNetconfConfig false "0.0.0.0:8300" "tcp" "" "" "yang" (mkSSHConfig "" "" "admin"))
           (mkNRMConfig "srsRAN" "enb1" "1" "")
           (mkPMConfig false "10s" "10s")
           (mkTCA false false no_tca_rules)
           (mkControlConfig false "0.0.0.0:18080" (mkControlRestart "/var/run/docker.sock" "20s" [])).

(** ** Defaults *)

Definition isNRGNB (elementType : string) : bool := String.eqb elementType "gnb" || String.eqb elementType "oai-gnb".

Definition or_default (s def : string) : string := if String.eqb s "" then def else s.

Definition applyDefaults (cfg : Config) : Config :=
  let def := Default in
  let typ := or_default (el_Type (Element cfg)) (el_Type (Element def)) in
  let nr := isNRGNB typ in
  let socket := or_default (SocketPath (Element cfg)) (SocketPath (Element def)) in
  let socket := if nr && String.eqb socket (SocketPath (Element def)) then "/var/run/gnb-metrics/gnb_metrics.uds" else socket in
  let nc := Netconf cfg in
  let element := or_default (nrm_ManagedElement (NRM cfg)) (nrm_ManagedElement (NRM def)) in
  let element := if nr && String.eqb element (nrm_ManagedElement (NRM def)) then "gnb1" else element in
  let enbID := nrm_ENBFunctionID (NRM cfg) in
  let enbID := if String.eqb enbID "" then (if nr then enbID else nrm_ENBFunctionID (NRM def))
               else if nr && String.eqb enbID (nrm_ENBFunctionID (NRM def)) then "" else enbID in
  let gnbID := nrm_GNBFunctionID (NRM cfg) in
  let gnbID := if String.eqb gnbID "" && nr then "1" else gnbID in
  mkConfig (mkElementConfig typ socket)
           (if (BusBuffer cfg =? 0)%Z then BusBuffer def else BusBuffer cfg)
           ((Log cfg) <|lg_Level ::= fun s => or_default s (lg_Level (Log def))|> <|lg_Format ::= fun s => or_default s (lg_Format (Log def))|>)
           ((MetricsC cfg) <|me_SnapshotPath ::= fun s => or_default s (me_SnapshotPath (MetricsC def))|>)
           (mkNetconfConfig (nc_Enabled nc) (or_default (nc_Addr nc) (nc_Addr (Netconf def))) (or_default (Transport nc) (Transport (Netconf def)))
              (or_default (nc_SnapshotPath nc) (nc_SnapshotPath (Netconf def))) (DatastoreDir nc) (or_default (YangDir nc) (YangDir (Netconf def)))
              ((SSH nc) <|ssh_Username ::= fun s => or_default s (ssh_Username (SSH (Netconf def)))|>))
           (mkNRMConfig (or_default (nrm_SubNetwork (NRM cfg)) (nrm_SubNetwork (NRM def))) element enbID gnbID)
           (mkPMConfig (pm_Enabled (PM cfg)) (or_default (GranularityPeriod (PM cfg)) (GranularityPeriod (PM def)))
              (or_default (ReportPeriod (PM cfg)) (ReportPeriod (PM def))))
           (FM cfg)
           (mkControlConfig (ct_Enabled (Control cfg)) (or_default (ct_Addr (Control cfg)) (ct_Addr (Control def)))
              (mkControlRestart (or_default (DockerSocket (Restart_ (Control cfg))) (DockerSocket (Restart_ (Control def))))
                 (or_default (rs_Timeout (Restart_ (Control cfg))) (rs_Timeout (Restart_ (Control def)))) (rs_Targets (Restart_ (Control cfg))))).

(** ** The environment *)

Section Environment.
Context (env : string -> string).

Fixpoint envString (keys : list string) : string :=
  match keys with
  | [] => ""
  | k :: r => if String.eqb (env k) "" then envString r else env k
  end.

(** fmt.Sscanf with %d: blanks, a sign and digits; what follows is not read. *)
Definition scan_int (s : string) : option Z :=
  let l := str s in
  let blank c := ascii_space c && negb (Ascii.eqb c newline) in
  let l := drop (length (take_while blank l)) l in
  let '(sign, l) := match l with c :: r => if Ascii.eqb c "+" || Ascii.eqb c "-" then ([c], r) else ([], l) | [] => ([], []) end in
  match take_while is_digit l with
  | [] => None
  | ds => parse_int 64 (sign ++ ds)
  end.

Fixpoint envInt (keys : list string) : option Z :=
  match keys with
  | [] => None
  | k :: r => if String.eqb (env k) "" then envInt r else match scan_int (env k) with Some z => Some z | None => envInt r end
  end.

Fixpoint envBool (keys : list string) : option bool :=
  match keys with
  | [] => None
  | k :: r =>
      if existsb (String.eqb (env k)) ["1"; "true"; "TRUE"; "yes"; "YES"; "y"; "Y"] then Some true
      else if existsb (String.eqb (env k)) ["0"; "false"; "FALSE"; "no"; "NO"; "n"; "N"] then Some false
      else envBool r
  end.

(** A field and the variables that override it, with and without the prefix. *)
Definition env_or (name old : string) : string := or_default (envString ["EMS_" +:+ name; name]) old.
Definition env_flag (name : string) (old : bool) : bool := default old (envBool ["EMS_" +:+ name; name]).

Definition applyEnvOverrides (cfg : Config) : Config :=
  let nc := Netconf cfg in
  let ct := Control cfg in
  mkConfig (mkElementConfig (env_or "ELEMENT_TYPE" (el_Type (Element cfg))) (env_or "SOCKET_PATH" (SocketPath (Element cfg))))
           (default (BusBuffer cfg) (envInt ["EMS_BUS_BUFFER"; "BUS_BUFFER"]))
           (mkLogConfig (env_or "LOG_LEVEL" (lg_Level (Log cfg))) (env_or "LOG_FORMAT" (lg_Format (Log cfg))) (env_flag "LOG_COLOR" (lg_Color (Log cfg)))
              (env_flag "LOG_TIMESTAMP" (lg_Timestamp (Log cfg))) (lg_Components (Log cfg)))
           (mkMetricsConfig (env_or "METRICS_SNAPSHOT_PATH" (me_SnapshotPath (MetricsC cfg))) (env_flag "METRICS_LOG_UDS" (LogUDS (MetricsC cfg))))
           (mkNetconfConfig (env_flag "NETCONF_ENABLED" (nc_Enabled nc)) (env_or "NETCONF_ADDR" (nc_Addr nc)) (env_or "NETCONF_TRANSPORT" (Transport nc))
              (env_or "NETCONF_SNAPSHOT_PATH" (nc_SnapshotPath nc)) (DatastoreDir nc) (env_or "NETCONF_YANG_DIR" (YangDir nc))
              (mkSSHConfig (env_or "NETCONF_SSH_HOSTKEY" (HostKey (SSH nc))) (env_or "NETCONF_SSH_AUTHORIZED_KEY" (AuthorizedKey (SSH nc)))
                 (env_or "NETCONF_SSH_USERNAME" (ssh_Username (SSH nc)))))
           (mkNRMConfig (env_or "NRM_SUBNETWORK" (nrm_SubNetwork (NRM cfg))) (env_or "NRM_MANAGED_ELEMENT" (nrm_ManagedElement (NRM cfg)))
              (env_or "NRM_ENB_FUNCTION_ID" (nrm_ENBFunctionID (NRM cfg))) (env_or "NRM_GNB_FUNCTION_ID" (nrm_GNBFunctionID (NRM cfg))))
           (mkPMConfig (env_flag "PM_ENABLED" (pm_Enabled (PM cfg))) (env_or "PM_GRANULARITY_PERIOD" (GranularityPeriod (PM cfg)))
              (env_or "PM_REPORT_PERIOD" (ReportPeriod (PM cfg))))
           (FM cfg)
           (mkControlConfig (env_flag "CONTROL_ENABLED" (ct_Enabled ct)) (env_or "CONTROL_ADDR" (ct_Addr ct))
              (mkControlRestart (env_or "CONTROL_DOCKER_SOCKET" (DockerSocket (Restart_ ct))) (env_or "CONTROL_RESTART_TIMEOUT" (rs_Timeout (Restart_ ct)))
                 (rs_Targets (Restart_ ct)))).

(** yaml.Unmarshal into a configuration that holds the defaults. *)
Context (UnmarshalYAML : bytes -> Config -> result string Config).

Definition Load (path : string) (w : World) : World * result string Config :=
  let path := if String.eqb path "" then or_default (env "EMS_CONFIG") "config/ems-agent/ems-agent.yaml" else path in
  match ReadFile path w with
  | (w, Err ENOENT) => (w, Ok (applyEnvOverrides (applyDefaults Default)))
  | (w, Err e) => (w, Err (strerror e))
  | (w, Ok data) => match UnmarshalYAML data Default with
                    | Err e => (w, Err e)
                    | Ok cfg => (w, Ok (applyEnvOverrides (applyDefaults cfg)))
                    end
  end.

End Environment.

(** ** Threshold rules (wiring.go) *)

Definition wiring_wrap (now : time) (cause msg : string) : error :=
  default (Plain cause) (Wrap now (Some (Plain cause)) ErrCodeConfig msg [WithOp "wiring"; WithSeverity ErrSeverityCritical]).

Definition parseTCADuration (now : time) (raw : string) : result error duration :=
  let raw := TrimSpace raw in
  if String.eqb raw "" then Ok 0%Z
  else match ParseDuration raw with
       | Err e => Err (wiring_wrap now e "invalid fm.tca rule duration")
       | Ok d => Ok d
       end.

Definition buildTCARule (now : time) (in_ : TCARuleConfig) : result error RuleConfig :=
  let? raise := parseTCADuration now (tr_RaiseDuration in_) in
  let? clear := parseTCADuration now (tr_ClearDuration in_) in
  Ok (mkRule (tr_Enabled in_) (tr_RaiseThreshold in_) (tr_ClearThreshold in_) raise clear).

Definition isTCARuleConfigured (r : TCARuleConfig) : bool :=
  tr_Enabled r || negb (f_eq (tr_RaiseThreshold r) f_zero) || negb (f_eq (tr_ClearThreshold r) f_zero) ||
  negb (String.eqb (tr_RaiseDuration r) "") || negb (String.eqb (tr_ClearDuration r) "").

Definition firstConfiguredRule (primary fallback : TCARuleConfig) : TCARuleConfig := if isTCARuleConfigured primary then primary else fallback.

Definition tca_rules (r : TCARuleSetConfig) : list (string * TCARuleConfig) :=
  [ (RuleS1InterfaceDown, S1InterfaceDown r);
    (RuleNASSignalingLoss, NASSignalingLoss r);
    (RuleNASSecurityMismatch, NASSecurityMismatch r);
    (RuleNASParsingFailure, NASParsingFailure r);
    (RuleRRCProtocolError, RRCProtocolError r);
    (RuleRRCConnectionRejection, RRCConnectionRejection r);
    (RuleCoreServiceReject, CoreServiceReject r);
    (RulePagingCapacityExceeded, PagingCapacityExceeded r);
    (RuleRLCMaxRetransmissions, RLCMaxRetransmissions r);
    (RuleLowThroughput, LowThroughput r);
    (RuleBadSignalCondition, firstConfiguredRule (BadSignalCondition r) (LowULSINR r));
    (RuleHighBLER, HighBLER r);
    (RuleRLFStorm, RadioLinkFailureStorm r);
    (RuleRFInterference, RFInterferenceDetected r);
    (RuleUEInactivityCleanup, UEInactivityCleanup r);
    (RuleBearerCongestion, BearerCongestion r);
    (RulePowerHeadroomCritical, PowerHeadroomCritical r) ].

(** The rules that are configured. The code visits a map: of several rules with a bad duration, any one
    gives the error. *)
Fixpoint build_rules (now : time) (l : list (string * TCARuleConfig)) : result error (gmap string RuleConfig) :=
  match l with
  | [] => Ok ∅
  | (name, raw) :: r =>
      if isTCARuleConfigured raw
      then let? rule := buildTCARule now raw in let? out := build_rules now r in Ok (<[name := rule]> out)
      else build_rules now r
  end.

Definition buildTCAConfig (now : time) (in_ : TCAConfig) : result error TcaConfig :=
  if negb (tca_Enabled in_) then Ok (mkTcaConfig false ∅)
  else let? rules := build_rules now (tca_rules (tca_Rules in_)) in Ok (NormalizeConfig (mkTcaConfig true rules)).

(** The registry that wiring.go builds from the configuration. *)
Definition build_registry (now : time) (cfg : Config) : result error Registry :=
  NewRegistry now (mkNrmConfig (nrm_SubNetwork (NRM cfg)) (nrm_ManagedElement (NRM cfg)) (nrm_ENBFunctionID (NRM cfg)) (nrm_GNBFunctionID (NRM cfg))
                     (el_Type (Element cfg))).

(** ** Lemmas *)

Lemma or_default_set (s def : string) : def <> "" -> or_default s def <> "".
Proof. unfold or_default. by destruct (String.eqb_spec s ""). Qed.

Lemma env_or_set (env : string -> string) (name old : string) : old <> "" -> env_or env name old <> "".
Proof. apply or_default_set. Qed.

Lemma env_or_unset (env : string -> string) (name old : string) : env ("EMS_" +:+ name) = "" -> env name = "" -> env_or env name old = old.
Proof. intros H1 H2. unfold env_or, envString. by rewrite H1, H2. Qed.

#[export] Hint Resolve or_default_set env_or_set : ems.

(** The fields the agent cannot do without. *)
Definition required (cfg : Config) : list string :=
  [el_Type (Element cfg); SocketPath (Element cfg); lg_Level (Log cfg); lg_Format (Log cfg); nc_Addr (Netconf cfg); Transport (Netconf cfg);
   YangDir (Netconf cfg); ssh_Username (SSH (Netconf cfg)); nrm_SubNetwork (NRM cfg); nrm_ManagedElement (NRM cfg); GranularityPeriod (PM cfg);
   ReportPeriod (PM cfg); ct_Addr (Control cfg); DockerSocket (Restart_ (Control cfg)); rs_Timeout (Restart_ (Control cfg))].

Lemma defaults_required (cfg : Config) : Forall (fun s => s <> "") (required (applyDefaults cfg)).
Proof.
  destruct cfg as [[? ?] ? [] [] [? ? ? ? ? ? []] [] [] ? [? ? []]]. unfold required, applyDefaults. cbn.
  repeat (apply Forall_cons; split); try apply Forall_nil_2; try (by apply or_default_set); by case_match; [|apply or_default_set].
Qed.

Lemma overrides_required (env : string -> string) (cfg : Config) :
  Forall (fun s => s <> "") (required cfg) -> Forall (fun s => s <> "") (required (applyEnvOverrides env cfg)).
Proof.
  unfold required, applyEnvOverrides. cbn. intros H. repeat (apply Forall_cons in H as [? H]). repeat (apply Forall_cons; split); try apply Forall_nil_2;
    by apply env_or_set.
Qed.

(** The function id of the element's type is set. *)
Definition function_id (cfg : Config) : string := if isNRGNB (el_Type (Element cfg)) then nrm_GNBFunctionID (NRM cfg) else nrm_ENBFunctionID (NRM cfg).

Lemma defaults_function_id (cfg : Config) : function_id (applyDefaults cfg) <> "".
Proof.
  unfold function_id, applyDefaults. cbn [Element NRM el_Type nrm_GNBFunctionID nrm_ENBFunctionID]. set (nr := isNRGNB _).
  destruct nr; cbn [andb]; rewrite ?andb_true_r; cbn [andb].
  - destruct (String.eqb_spec (nrm_GNBFunctionID (NRM cfg)) ""); done.
  - destruct (String.eqb_spec (nrm_ENBFunctionID (NRM cfg)) ""); done.
Qed.

Lemma registry_builds (now : time) (cfg : Config) :
  nrm_SubNetwork (NRM cfg) <> "" -> nrm_ManagedElement (NRM cfg) <> "" -> function_id cfg <> "" -> exists r, build_registry now cfg = Ok r.
Proof.
  intros H1 H2 H3. unfold build_registry, NewRegistry, function_id, isNRGNB in *. cbn [SubNetwork ManagedElement ENBFunctionID GNBFunctionID ElementType].
  rewrite (proj2 (String.eqb_neq _ _) H1), (proj2 (String.eqb_neq _ _) H2). cbn [orb]. destruct (_ || _); rewrite (proj2 (String.eqb_neq _ _) H3); by eexists.
Qed.

(** ** Theorems *)

Section Theorems.
Context (env : string -> string) (UnmarshalYAML : bytes -> Config -> result string Config).

(** Whatever the file and the environment say, a configuration that loads has every field the agent
    cannot do without; and when the environment does not name another element type, the registry of
    managed objects can be built from it, for an eNB as for a gNB. *)
Theorem loaded_config_complete (path : string) (w w' : World) (cfg : Config) (now : time) :
  Load env UnmarshalYAML path w = (w', Ok cfg) ->
  Forall (fun s => s <> "") (required cfg) /\
  (env "EMS_ELEMENT_TYPE" = "" -> env "ELEMENT_TYPE" = "" -> exists r, build_registry now cfg = Ok r).
Proof.
  intros Hl. assert (Hcfg : exists c0, cfg = applyEnvOverrides env (applyDefaults c0)).
  { unfold Load in Hl. destruct (ReadFile _ w) as [w1 [data|e]].
    - destruct (UnmarshalYAML data Default) as [c0|e]; [|done]. injection Hl as _ <-. by exists c0.
    - destruct e; try done. injection Hl as _ <-. by exists Default. }
  destruct Hcfg as [c0 ->]. pose proof (overrides_required env _ (defaults_required c0)) as Hreq. split; [done|]. intros Ht1 Ht2.
  assert (Htype : el_Type (Element (applyEnvOverrides env (applyDefaults c0))) = el_Type (Element (applyDefaults c0))).
  { unfold applyEnvOverrides. cbn [Element el_Type]. by apply (env_or_unset env "ELEMENT_TYPE"). }
  rewrite Forall_forall in Hreq. apply registry_builds.
  - apply Hreq. unfold required. do 8 right. left.
  - apply Hreq. unfold required. do 9 right. left.
  - pose proof (defaults_function_id c0) as Hf. unfold function_id in *. rewrite Htype. destruct (isNRGNB _); unfold applyEnvOverrides; by apply env_or_set.
Qed.

End Theorems.

(** ** Witness and finding *)

Definition gnb_file (data : bytes) (cfg : Config) : result string Config := Ok (cfg <|Element ::= fun e => e <|el_Type := "gnb"|>|>).

Lemma loaded_config_complete_witness :
  exists cfg r, snd (Load (fun _ => "") gnb_file "/etc/ems.yaml" (mkWorld {["/etc/ems.yaml" := mkInode [] 420 (0, 0)%Z]} [])) = Ok cfg /\
    SocketPath (Element cfg) = "/var/run/gnb-metrics/gnb_metrics.uds" /\ build_registry 0%Z cfg = Ok r.
Proof.
  pose (out := Load (fun _ => "") gnb_file "/etc/ems.yaml" (mkWorld {["/etc/ems.yaml" := mkInode [] 420 (0, 0)%Z]} [])).
  assert (Hk : is_ok (snd out) = true) by (vm_compute; reflexivity).
  assert (Hs : (match snd out with Ok cfg => SocketPath (Element cfg) | Err _ => "" end) = "/var/run/gnb-metrics/gnb_metrics.uds") by (vm_compute; reflexivity).
  destruct out as [w' [cfg|e]] eqn:Eo; [|discriminate Hk]. unfold out in *. cbn [snd] in Hs.
  destruct (loaded_config_complete _ _ _ _ _ _ 0%Z Eo) as [_ Hr]. destruct (Hr eq_refl eq_refl) as [r Hb].
  exists cfg, r. rewrite Eo. split; [reflexivity|]. split; [exact Hs|exact Hb].
Defined.

(** Defaults come before the environment: an element type given there meets the defaults of an eNB, and
    the registry cannot be built. *)
Lemma gnb_by_environment_fails :
  let env k := if String.eqb k "EMS_ELEMENT_TYPE" then "gnb" else "" in
  match snd (Load env gnb_file "/none.yaml" (mkWorld ∅ [])) with
  | Ok cfg => el_Type (Element cfg) = "gnb" /\ SocketPath (Element cfg) = SocketPath (Element Default) /\ is_ok (build_registry 0%Z cfg) = false
  | Err _ => False
  end.
Proof. vm_compute. split_and!; reflexivity. Qed.
