(* ===== verification/AlarmLog.v ===== *)
(** * The alarm log reader (internal/ems/services/alarm_log_reader.go)

    Once a second the reader opens the station's alarm log, continues at the offset it has reached,
    and turns the lines it finds into alarms. What a read of the file gives is an argument; [clk] is
    the clock, by line. *)
From S2P Require Import Prelude GoNum GoStrings Json FileSystem Alarms.

(** ** Lines *)

(** bufio.Scanner with its default buffer: the lines without their ends; a line that does not fit makes
    it stop with an error (true). *)
Definition MaxScanTokenSize : nat := 64 * 1024.
Definition carriage_return : ascii := ascii_of_N 13.
Definition drop_cr (l : bytes) : bytes := match rev l with c :: r => if Ascii.eqb c carriage_return then rev r else l | [] => l end.

Fixpoint fitting_lines (segments : list bytes) : list string * bool :=
  match segments with
  | [] => ([], false)
  | [l] => match l with
           | [] => ([], false)
           | _ => if MaxScanTokenSize <=? length l then ([], true) else ([unstr (drop_cr l)], false)
           end
  | l :: r => if MaxScanTokenSize <=? length l then ([], true)
              else let '(ls, err) := fitting_lines r in (unstr (drop_cr l) :: ls, err)
  end.

Definition scan_lines (data : bytes) : list string * bool := fitting_lines (split_on newline data).

(** ** Alarms of lines *)

Inductive line_action := LineNone | LineClear | LineRaise (a : Alarm).

Section Reader.
Context {GL : GoLib} {RC : RecordCodec}.

Definition log_alarm (code text moi : string) : Alarm := mkAlarm code text "" "" moi "" "" "" "".

Definition mapSrsENBAlarmLine (line moi : string) : line_action :=
  let text := TrimSpace line in
  if String.eqb text "" then LineNone
  else
    let lower := ToLower text in
    let has := Contains lower in
    if has "clear" || has "restored" || has "recovered" then LineClear
    else if has "s1" || has "mme" then LineRaise (log_alarm AlarmS1Down text moi)
    else if has "error" || has "failed" || has "alarm" then LineRaise (log_alarm AlarmGenericEMS text moi)
    else LineNone.

Record AlarmLogReader := mkReader { LogPath : string; LogMOI : string }.

Definition NewAlarmLogReader (path moi : string) : AlarmLogReader := mkReader (TrimSpace path) (TrimSpace moi).

(** The state a line acts on, and what it publishes on the bus. *)
Definition LogState : Type := AlarmStore * World * list Event.

Definition handle_line (r : AlarmLogReader) (now : time) (line : string) (st : LogState) : LogState :=
  let '(s, w, published) := st in
  match mapSrsENBAlarmLine line (LogMOI r) with
  | LineNone => st
  | LineClear => let '(s, w, events) := ManagerClearComponent now "srsenb" "healthy" s w in (s, w, published ++ events)
  | LineRaise alarm =>
      let '(s, w, (evt, changed)) := Raise now "srsenb" "degraded" alarm s w in (s, w, if changed then published ++ [evt] else published)
  end.

(** The lines in order; the first one is line [i]. *)
Fixpoint handle_lines (r : AlarmLogReader) (clk : nat -> time) (i : nat) (lines : list string) (st : LogState) : LogState :=
  match lines with
  | [] => st
  | l :: rest => handle_lines r clk (S i) rest (handle_line r (clk i) l st)
  end.

(** [file] is the contents of the log, or the error of opening, seeking or reading it. *)
Definition readNewLines (r : AlarmLogReader) (clk : nat -> time) (i : nat) (file : result errno bytes) (offset : nat) (st : LogState) :
    LogState * result errno nat :=
  match file with
  | Err e => (st, Err e)
  | Ok data =>
      let from := if length data <? offset then 0 else offset in
      let '(lines, tooLong) := scan_lines (drop from data) in
      (handle_lines r clk i lines st, if tooLong then Err EIO else Ok (length data))
  end.

(** One tick of Run's loop: an error leaves the offset where it was. *)
Definition log_tick (r : AlarmLogReader) (clk : nat -> time) (i : nat) (file : result errno bytes) (s : LogState * nat) : LogState * nat :=
  let '(st, offset) := s in
  if String.eqb (LogPath r) "" then s
  else match readNewLines r clk i file offset st with
       | (st, Ok next) => (st, next)
       | (st, Err _) => (st, offset)
       end.

End Reader.

(** ** Lemmas *)

(** Whole lines, each short enough. *)
Definition whole_lines (chunk : bytes) : Prop :=
  exists lines, chunk = concat (map (fun l => l ++ [newline]) lines) /\ Forall (fun l => (newline ∉ l) /\ length l < MaxScanTokenSize) lines.

Lemma split_line (l rest : bytes) : newline ∉ l -> split_on newline (l ++ newline :: rest) = l :: split_on newline rest.
Proof.
  induction l as [|c l IH]; intros Hn; cbn [app split_on]; [by rewrite Ascii.eqb_refl|]. apply not_elem_of_cons in Hn as [Hc Hn].
  rewrite (proj2 (Ascii.eqb_neq c newline)) by congruence. by rewrite IH.
Qed.

Lemma split_whole (lines : list bytes) (rest : bytes) :
  Forall (fun l => (newline ∉ l) /\ length l < MaxScanTokenSize) lines ->
  split_on newline (concat (map (fun l => l ++ [newline]) lines) ++ rest) = lines ++ split_on newline rest.
Proof.
  induction 1 as [|l lines [Hl _] _ IH]; [done|]. cbn [map concat]. rewrite <- !app_assoc. cbn [app]. by rewrite split_line, IH.
Qed.

Lemma split_nonempty (l : bytes) : split_on newline l <> [].
Proof. induction l as [|c l IH]; cbn; [done|]. destruct (Ascii.eqb c newline); [done|]. by destruct (split_on newline l). Qed.

Lemma fitting_cons (l : bytes) (r : list bytes) :
  r <> [] -> length l < MaxScanTokenSize -> fitting_lines (l :: r) = (unstr (drop_cr l) :: fst (fitting_lines r), snd (fitting_lines r)).
Proof.
  intros Hr Hl. destruct r as [|x r]; [done|].
  change (fitting_lines (l :: x :: r)) with (if MaxScanTokenSize <=? length l then ([], true) else
    let '(ls, err) := fitting_lines (x :: r) in (unstr (drop_cr l) :: ls, err)).
  rewrite (proj2 (Nat.leb_gt _ _) Hl). by destruct (fitting_lines (x :: r)).
Qed.

(** Lines of a text that starts with whole lines. *)
Lemma scan_app (chunk rest : bytes) : whole_lines chunk ->
  snd (scan_lines chunk) = false /\ scan_lines (chunk ++ rest) = (fst (scan_lines chunk) ++ fst (scan_lines rest), snd (scan_lines rest)).
Proof.
  intros (lines & -> & Hl). unfold scan_lines.
  assert (Hgen : forall r, fitting_lines (lines ++ split_on newline r) =
    (map (fun l => unstr (drop_cr l)) lines ++ fst (fitting_lines (split_on newline r)), snd (fitting_lines (split_on newline r)))).
  { intros r. induction Hl as [|l lines [_ Hlen] Hl IH]; [cbn; by destruct (fitting_lines (split_on newline r))|]. cbn [app map].
    rewrite fitting_cons; [by rewrite IH| |done]. destruct lines; [apply split_nonempty|done]. }
  pose proof (split_whole lines [] Hl) as H0. rewrite app_nil_r in H0. rewrite (split_whole lines rest Hl), H0, !Hgen. cbn [split_on fitting_lines fst snd].
  rewrite app_nil_r. done.
Qed.

Section Reads.
Context {GL : GoLib} {RC : RecordCodec} (r : AlarmLogReader) (clk : nat -> time).

Lemma handle_app (i : nat) (l1 l2 : list string) (st : LogState) :
  handle_lines r clk i (l1 ++ l2) st = handle_lines r clk (i + length l1) l2 (handle_lines r clk i l1 st).
Proof. revert i st. induction l1 as [|l l1 IH]; intros i st; cbn; [by rewrite Nat.add_0_r|]. rewrite IH. f_equal. lia. Qed.

(** The log as it grows, read after each addition; lines are numbered through. *)
Fixpoint follow (chunks : list bytes) (seen : bytes) (i : nat) (s : LogState * nat) : LogState * nat :=
  match chunks with
  | [] => s
  | c :: rest => follow rest (seen ++ c) (i + length (fst (scan_lines c))) (log_tick r clk i (Ok (seen ++ c)) s)
  end.

(** ** Theorems *)

Lemma follow_from (chunks : list bytes) (seen : bytes) (i : nat) (st : LogState) :
  LogPath r <> "" -> Forall whole_lines chunks ->
  follow chunks seen i (st, length seen) =
  (handle_lines r clk i (fst (scan_lines (concat chunks))) st, length (seen ++ concat chunks)).
Proof.
  intros Hp Hc. revert seen i st. induction Hc as [|c chunks Hc _ IH]; intros seen i st; [by rewrite app_nil_r|]. cbn [follow concat].
  destruct (scan_app c (concat chunks) Hc) as [Herr Happ]. rewrite Happ. cbn [fst]. rewrite handle_app.
  assert (Ht : log_tick r clk i (Ok (seen ++ c)) (st, length seen) = (handle_lines r clk i (fst (scan_lines c)) st, length (seen ++ c))).
  { unfold log_tick, readNewLines. rewrite (proj2 (String.eqb_neq _ _) Hp), length_app, (proj2 (Nat.ltb_ge _ _)) by lia.
    rewrite drop_app_length. destruct (scan_lines c) as [ls err]. cbn [snd] in Herr. by rewrite Herr. }
  rewrite Ht, IH. by rewrite <- app_assoc.
Qed.

(** C3: no line is lost and none is read twice. When the log grows by whole lines that fit the scanner's
    buffer, however many at a time, the reader has after each tick handled exactly the lines of the
    whole log, in order, and its offset is the length of the log; a log that is shorter than the
    offset is read again from its start. *)
Theorem log_lines_handled_once (chunks : list bytes) (st : LogState) :
  LogPath r <> "" -> Forall whole_lines chunks ->
  follow chunks [] 0 (st, 0) = (handle_lines r clk 0 (fst (scan_lines (concat chunks))) st, length (concat chunks)) /\
  (forall fresh offset i, whole_lines fresh -> length fresh < offset ->
     log_tick r clk i (Ok fresh) (st, offset) = (handle_lines r clk i (fst (scan_lines fresh)) st, length fresh)).
Proof.
  intros Hp Hc. split; [by apply (follow_from chunks [] 0 st)|]. intros fresh offset i Hf Ho. unfold log_tick, readNewLines.
  rewrite (proj2 (String.eqb_neq _ _) Hp), (proj2 (Nat.ltb_lt _ _)) by lia. destruct (scan_app fresh [] Hf) as [Herr _]. cbv zeta iota. rewrite drop_0.
  destruct (scan_lines fresh) as [ls err]. cbn [snd] in Herr. by rewrite Herr.
Qed.

End Reads.

(** ** Witness and findings *)

Definition enb_reader : AlarmLogReader := NewAlarmLogReader "/var/run/enb1_alarms.log" "ENBFunction=1".
Definition s1_chunk : bytes := str "S1 link to MME lost" ++ [newline].
Definition restored_chunk : bytes := str "S1 link restored" ++ [newline].
Definition log_start : LogState := (NewStore, mkWorld ∅ [], []).
Definition s1_active (st : LogState) : bool :=
  existsb (fun r => String.eqb (k_Code (r_Key r)) AlarmS1Down) (Active (fst (fst st))).

Lemma one_line_whole (l : bytes) : bool_decide (newline ∈ l) = false -> length l < MaxScanTokenSize -> whole_lines (l ++ [newline]).
Proof. intros Hn Hl. exists [l]. split; [cbn; by rewrite app_nil_r|]. apply Forall_singleton. split; [by apply bool_decide_eq_false in Hn|done]. Qed.

Lemma s1_chunks_whole : Forall whole_lines [s1_chunk; restored_chunk].
Proof. apply Forall_cons; split; [|apply Forall_singleton]; (apply one_line_whole; [vm_compute; reflexivity|apply Nat.ltb_lt; vm_compute; reflexivity]). Qed.

Lemma log_lines_handled_once_witness :
  snd (follow (GL := ascii_golib) (RC := BitCodec.bit_codec) enb_reader (fun _ => 5%Z) [s1_chunk; restored_chunk] [] 0 (log_start, 0)) = 37 /\
  s1_active (fst (log_tick (GL := ascii_golib) (RC := BitCodec.bit_codec) enb_reader (fun _ => 5%Z) 0 (Ok s1_chunk) (log_start, 0))) = true.
Proof.
  split; [|vm_compute; reflexivity].
  pose proof (log_lines_handled_once (GL := ascii_golib) (RC := BitCodec.bit_codec) enb_reader (fun _ => 5%Z) [s1_chunk; restored_chunk] log_start
    ltac:(done) s1_chunks_whole) as [H _]. rewrite H. reflexivity.
Defined.

(** A line too long for the scanner stops the reader for good: the lines before it are handled again at
    every tick and the offset stays where it was. *)
Lemma long_line_replays :
  let file := Ok (s1_chunk ++ replicate MaxScanTokenSize "x"%char ++ [newline]) in
  let tick := log_tick (GL := ascii_golib) (RC := BitCodec.bit_codec) enb_reader (fun _ => 5%Z) 0 file in
  let '((s, _, _), offset) := tick (tick (log_start, 0)) in
  offset = 0 /\ (r_Count <$> Active s) = [2%Z].
Proof. vm_compute. split; reflexivity. Qed.

(** A line that is read while it is being written counts as two: the alarm of the first half is raised,
    the rest does not clear it. *)
Lemma half_line_raises :
  let tick file := log_tick (GL := ascii_golib) (RC := BitCodec.bit_codec) enb_reader (fun _ => 5%Z) 0 (Ok file) in
  let whole := str "S1 link restored" ++ [newline] in
  s1_active (fst (tick whole (tick (take 11 whole) (log_start, 0)))) = true /\ s1_active (fst (tick whole (log_start, 0))) = false.
Proof. vm_compute. split; reflexivity. Qed.
