(* ===== verification/Bus.v ===== *)
(** * The message bus (internal/ems/bus/bus.go)

    Publish holds the read lock while it visits the subscribed channels, so publishers run
    concurrently with each other and with receivers, but never with Subscribe or with the goroutine
    that ends a subscription, which take the write lock. A publication is therefore a sequence of
    steps: it begins, offers its message to one channel at a time and ends. An action that has to wait
    for a lock or for a message is blocked; a send on a closed channel panics. *)
From S2P Require Import Prelude GoNum.

Section Bus.
Context {Message : Type}.

(** ** State *)

(** A Go channel: what it holds, and whether it was closed. Channels are known by their number. *)
Record chan := mkChan { queue : list Message; closed : bool }.

Record Bus := mkBus { buffer : Z; subs : gset nat; drops : Z }.

(** The bus, the channels made so far, and for every publisher inside Publish the message and the
    channels it has not visited yet. *)
Record BusState := mkBusState { bus : Bus; chans : list chan; publishing : gmap nat (Message * list nat) }.

Definition NewBus (buffer : Z) : Bus := mkBus (if (buffer <=? 0)%Z then 100%Z else buffer) ∅ 0.

Definition bus_start (buffer : Z) : BusState := mkBusState (NewBus buffer) [] ∅.

Definition SubscriberCount (b : Bus) : nat := size (subs b).

(** ** Actions *)

Inductive action :=
| ASubscribe
| ACancel (ch : nat)
| ABegin (publisher : nat) (msg : Message) (order : list nat)
| ASend (publisher : nat)
| AEnd (publisher : nat)
| AReceive (ch : nat).

(** What an action did. *)
Inductive label :=
| Subscribed (ch : nat)
| Unsubscribed (ch : nat)
| Begun (msg : Message) (to : list nat)
| Offered (ch : nat) (msg : Message) (accepted : bool)
| Ended
| Received (ch : nat) (msg : Message)
| Drained (ch : nat).

Inductive outcome := Next (s : BusState) (l : label) | Blocked | Panic.

Definition no_publisher (s : BusState) : bool := bool_decide (publishing s = ∅).

(** Subscribe: the channel is made and registered under the write lock. *)
Definition Subscribe (s : BusState) : outcome :=
  let out := length (chans s) in
  if no_publisher s then
    Next (s <|bus ::= fun b => b <|subs ::= fun S => {[ out ]} ∪ S|>|> <|chans ::= fun l => l ++ [mkChan [] false]|>) (Subscribed out)
  else Blocked.

(** The goroutine of Subscribe once the context is done. Closing a closed channel panics. *)
Definition cancel_subscription (out : nat) (s : BusState) : outcome :=
  if negb (bool_decide (out ∈ subs (bus s))) then Blocked
  else if no_publisher s then
    match chans s !! out with
    | Some (mkChan q false) =>
        Next (s <|bus ::= fun b => b <|subs ::= fun S => S ∖ {[ out ]}|>|> <|chans ::= <[out := mkChan q true]>|>) (Unsubscribed out)
    | _ => Panic
    end
  else Blocked.

(** Publish: the range over the map visits the registered channels in some order. *)
Definition begin_publish (p : nat) (msg : Message) (order : list nat) (s : BusState) : outcome :=
  if bool_decide (order ≡ₚ elements (subs (bus s))) && bool_decide (publishing s !! p = None) then
    Next (s <|publishing ::= <[p := (msg, order)]>|>) (Begun msg order)
  else Blocked.

(** One round of the loop: the select with a default never waits. *)
Definition send_next (p : nat) (s : BusState) : outcome :=
  match publishing s !! p with
  | Some (msg, ch :: rest) =>
      let s := s <|publishing ::= <[p := (msg, rest)]>|> in
      match chans s !! ch with
      | Some (mkChan q false) =>
          if (Z.of_nat (length q) <? buffer (bus s))%Z
          then Next (s <|chans ::= <[ch := mkChan (q ++ [msg]) false]>|>) (Offered ch msg true)
          else Next (s <|bus ::= fun b => b <|drops ::= fun n => uint64_add n 1|>|>) (Offered ch msg false)
      | _ => Panic
      end
  | _ => Blocked
  end.

Definition end_publish (p : nat) (s : BusState) : outcome :=
  match publishing s !! p with
  | Some (_, []) => Next (s <|publishing ::= delete p|>) Ended
  | _ => Blocked
  end.

Definition receive (ch : nat) (s : BusState) : outcome :=
  match chans s !! ch with
  | Some (mkChan (msg :: q) c) => Next (s <|chans ::= <[ch := mkChan q c]>|>) (Received ch msg)
  | Some (mkChan [] true) => Next s (Drained ch)
  | _ => Blocked
  end.

Definition bus_do (a : action) (s : BusState) : outcome :=
  match a with
  | ASubscribe => Subscribe s
  | ACancel ch => cancel_subscription ch s
  | ABegin p msg order => begin_publish p msg order s
  | ASend p => send_next p s
  | AEnd p => end_publish p s
  | AReceive ch => receive ch s
  end.

(** The states an interleaving of actions can reach, with what they did, the oldest first. *)
Inductive bus_reach (buffer : Z) : list label -> BusState -> Prop :=
| reach_start : bus_reach buffer [] (bus_start buffer)
| reach_step tr s a s' l : bus_reach buffer tr s -> bus_do a s = Next s' l -> bus_reach buffer (tr ++ [l]) s'.

(** ** What a trace says of a channel *)

(** The messages whose publication began while the channel was registered. *)
Definition wanted_at (ch : nat) (l : label) : option Message :=
  match l with Begun msg to => if bool_decide (ch ∈ to) then Some msg else None | _ => None end.
Definition offered_at (ch : nat) (l : label) : option Message :=
  match l with Offered c msg _ => if bool_decide (c = ch) then Some msg else None | _ => None end.
Definition accepted_at (ch : nat) (l : label) : option Message :=
  match l with Offered c msg true => if bool_decide (c = ch) then Some msg else None | _ => None end.
Definition received_at (ch : nat) (l : label) : option Message :=
  match l with Received c msg => if bool_decide (c = ch) then Some msg else None | _ => None end.
Definition refused (l : label) : option nat := match l with Offered c _ false => Some c | _ => None end.

Definition subscription (S : gset nat) (l : label) : gset nat :=
  match l with Subscribed ch => {[ ch ]} ∪ S | Unsubscribed ch => S ∖ {[ ch ]} | _ => S end.

(** Messages of running publications that have yet to visit the channel. *)
Definition due (ch : nat) (v : Message * list nat) : list Message := if bool_decide (ch ∈ snd v) then [fst v] else [].
Definition pending (ch : nat) (ps : gmap nat (Message * list nat)) : list Message := (map_to_list ps).*2 ≫= due ch.

(** What a channel holds; one that is not made yet holds nothing. *)
Definition held (ch : nat) (s : BusState) : list Message := default [] (queue <$> chans s !! ch).

Record bus_inv (size : Z) (tr : list label) (s : BusState) : Prop := {
  inv_buffer : buffer (bus s) = buffer (NewBus size);
  inv_subs : subs (bus s) = foldl subscription ∅ tr;
  inv_open : forall ch, ch ∈ subs (bus s) <-> exists q, chans s !! ch = Some (mkChan q false);
  inv_todo : forall p msg ids, publishing s !! p = Some (msg, ids) -> NoDup ids /\ forall ch, ch ∈ ids -> ch ∈ subs (bus s);
  inv_fifo : forall ch, omap (received_at ch) tr ++ held ch s = omap (accepted_at ch) tr;
  inv_bound : forall ch, (Z.of_nat (length (held ch s)) <= buffer (bus s))%Z;
  inv_offers : forall ch, omap (offered_at ch) tr ++ pending ch (publishing s) ≡ₚ omap (wanted_at ch) tr;
  inv_drops : drops (bus s) = wrap_unsigned 64 (Z.of_nat (length (omap refused tr))) }.

(** ** Lemmas *)

Lemma pending_insert (ch p : nat) (v : Message * list nat) (ps : gmap nat (Message * list nat)) :
  ps !! p = None -> pending ch (<[p := v]> ps) ≡ₚ due ch v ++ pending ch ps.
Proof. intros Hp. unfold pending. by rewrite (map_to_list_insert ps p v Hp). Qed.

Lemma pending_delete (ch p : nat) (v : Message * list nat) (ps : gmap nat (Message * list nat)) :
  ps !! p = Some v -> pending ch ps ≡ₚ due ch v ++ pending ch (delete p ps).
Proof. intros Hp. rewrite <- (insert_delete_id ps p v Hp) at 1. apply pending_insert, lookup_delete_eq. Qed.

Lemma pending_update (ch p : nat) (v : Message * list nat) (ps : gmap nat (Message * list nat)) :
  pending ch (<[p := v]> ps) ≡ₚ due ch v ++ pending ch (delete p ps).
Proof. rewrite <- insert_delete_eq. apply pending_insert, lookup_delete_eq. Qed.

Lemma pending_none (ch : nat) : pending ch ∅ = [].
Proof. unfold pending. by rewrite map_to_list_empty. Qed.

Lemma held_insert (ch c : nat) (x : chan) (s : BusState) :
  ch < length (chans s) -> held c (s <|chans ::= <[ch := x]>|>) = if bool_decide (ch = c) then queue x else held c s.
Proof.
  intros Hl. unfold held. destruct s as [b l ps]; cbn in *. case_bool_decide as Hc; [subst; by rewrite list_lookup_insert_eq|].
  by rewrite list_lookup_insert_ne.
Qed.

Lemma omap_snoc {B : Type} (f : label -> option B) (tr : list label) (l : label) : omap f (tr ++ [l]) = omap f tr ++ option_list (f l).
Proof. by rewrite omap_app. Qed.

Lemma wrap_succ (n : nat) : uint64_add (wrap_unsigned 64 (Z.of_nat n)) 1 = wrap_unsigned 64 (Z.of_nat (n + 1)).
Proof. unfold uint64_add, wrap_unsigned. rewrite Zplus_mod_idemp_l. f_equal. lia. Qed.

(** The fields of the invariant after a step, with the trace extended by its label. *)
Ltac step_fields :=
  split; intros; rewrite ?foldl_snoc, ?omap_snoc; cbn [subscription wanted_at offered_at accepted_at received_at refused option_list];
  rewrite ?app_nil_r.

Lemma subscribe_inv (size : Z) (tr : list label) (s s' : BusState) (l : label) :
  bus_inv size tr s -> Subscribe s = Next s' l -> bus_inv size (tr ++ [l]) s'.
Proof.
  intros I Hs. unfold Subscribe, no_publisher in Hs. case_bool_decide as Hp; [|done]. injection Hs as <- <-. destruct I.
  destruct s as [[buf S d] cs ps]; cbn in *; subst ps.
  assert (Hheld : forall ch S', held ch (mkBusState (mkBus buf S' d) (cs ++ [mkChan [] false]) ∅) = held ch (mkBusState (mkBus buf S d) cs ∅)).
  { intros ch S'. unfold held; cbn. destruct (decide (ch < length cs)); [by rewrite lookup_app_l|].
    rewrite (lookup_ge_None_2 cs ch) by lia. rewrite lookup_app_r by lia. by destruct (ch - length cs) as [|[|]]. }
  step_fields; cbn in *; rewrite ?Hheld; auto.
  - by rewrite inv_subs0.
  - rewrite elem_of_union, elem_of_singleton, inv_open0. split.
    + intros [->|[q Hq]]; [exists []; by rewrite lookup_app_r, Nat.sub_diag by lia|]. exists q. by apply lookup_app_l_Some.
    + intros [q Hq]. apply lookup_app_Some in Hq as [Hq|[Hl Hq]]; [right; eauto|]. left. apply list_lookup_singleton_Some in Hq as [Hq _]. lia.
  - by rewrite lookup_empty in *.
  - specialize (inv_offers0 ch). by rewrite pending_none, app_nil_r in inv_offers0.
Qed.

Lemma cancel_inv (size : Z) (out : nat) (tr : list label) (s s' : BusState) (l : label) :
  bus_inv size tr s -> cancel_subscription out s = Next s' l -> bus_inv size (tr ++ [l]) s'.
Proof.
  intros I Hs. unfold cancel_subscription, no_publisher in Hs. case_bool_decide as Ho; [cbn in Hs|done]. case_bool_decide as Hp; [|done].
  destruct (chans s !! out) as [[q []]|] eqn:Hc; [done| |done]. injection Hs as <- <-. destruct I. pose proof (lookup_lt_Some _ _ _ Hc) as Hlt.
  assert (Hheld : forall ch, held ch (s <|chans ::= <[out := mkChan q true]>|>) = held ch s).
  { intros ch. rewrite held_insert by done. case_bool_decide; [subst; unfold held; by rewrite Hc|done]. }
  destruct s as [[buf S d] cs ps]; cbn in *; subst ps. step_fields; cbn in *; auto.
  - by rewrite inv_subs0.
  - rewrite elem_of_difference, elem_of_singleton, inv_open0. split.
    + intros [[q' Hq] Hne]. exists q'. by rewrite list_lookup_insert_ne.
    + intros [q' Hq]. destruct (decide (ch = out)) as [->|Hne]; [by rewrite list_lookup_insert_eq in Hq|].
      rewrite list_lookup_insert_ne in Hq by done. eauto.
  - by rewrite lookup_empty in *.
  - rewrite <- (inv_fifo0 ch), <- Hheld. done.
  - specialize (inv_bound0 ch). by rewrite <- Hheld in inv_bound0.
  - specialize (inv_offers0 ch). by rewrite pending_none, app_nil_r in inv_offers0.
Qed.

Lemma begin_inv (size : Z) (p : nat) (msg : Message) (order : list nat) (tr : list label) (s s' : BusState) (l : label) :
  bus_inv size tr s -> begin_publish p msg order s = Next s' l -> bus_inv size (tr ++ [l]) s'.
Proof.
  intros I Hs. unfold begin_publish in Hs. case_bool_decide as Ho; [|done]. case_bool_decide as Hp; [|done]. injection Hs as <- <-. destruct I.
  destruct s as [b cs ps]; cbn in *. step_fields; cbn in *; auto.
  - destruct (decide (p0 = p)) as [->|Hne]; [|rewrite lookup_insert_ne in * by done; eauto].
    match goal with H : <[p := _]> ps !! p = _ |- _ => rewrite lookup_insert_eq in H; injection H as <- <- end. split.
    + rewrite Ho. apply NoDup_elements.
    + intros ch Hch. rewrite Ho in Hch. by apply elem_of_elements.
  - exact (inv_bound0 ch).
  - rewrite pending_insert, (comm (++) (due _ _)), (assoc (++)), inv_offers0 by done. unfold due; cbn. by case_bool_decide.
Qed.

Lemma todo_rest (p : nat) (msg : Message) (ch : nat) (rest : list nat) (ps : gmap nat (Message * list nat)) (S : gset nat) :
  (forall q m ids, ps !! q = Some (m, ids) -> NoDup ids /\ forall c, c ∈ ids -> c ∈ S) -> ps !! p = Some (msg, ch :: rest) ->
  forall q m ids, <[p := (msg, rest)]> ps !! q = Some (m, ids) -> NoDup ids /\ forall c, c ∈ ids -> c ∈ S.
Proof.
  intros H Hp q m ids Hq. destruct (decide (q = p)) as [->|Hne]; [|rewrite lookup_insert_ne in Hq by done; eauto].
  rewrite lookup_insert_eq in Hq. injection Hq as <- <-. apply H in Hp as [Hd Hi]. apply NoDup_cons in Hd as [_ Hd].
  split; [done|]. intros c Hc. apply Hi. set_solver.
Qed.

Lemma pending_visit (p : nat) (msg : Message) (ch : nat) (rest : list nat) (ps : gmap nat (Message * list nat)) (c : nat) :
  NoDup (ch :: rest) -> ps !! p = Some (msg, ch :: rest) ->
  pending c ps ≡ₚ (if bool_decide (ch = c) then [msg] else []) ++ pending c (<[p := (msg, rest)]> ps).
Proof.
  intros Hd Hp. apply NoDup_cons in Hd as [Hn _]. rewrite (pending_delete c p _ ps Hp), pending_update. unfold due; cbn.
  repeat case_bool_decide; subst; try done; set_solver.
Qed.

Lemma send_inv (size : Z) (p : nat) (tr : list label) (s s' : BusState) (l : label) :
  bus_inv size tr s -> send_next p s = Next s' l -> bus_inv size (tr ++ [l]) s'.
Proof.
  intros I Hs. unfold send_next in Hs. destruct (publishing s !! p) as [[msg [|ch rest]]|] eqn:Hp; [done| |done].
  destruct I. pose proof (todo_rest p msg ch rest _ _ inv_todo0 Hp) as Htodo. destruct (inv_todo0 _ _ _ Hp) as [Hd _].
  assert (Hoff : forall c b, omap (offered_at c) (tr ++ [Offered ch msg b]) ++ pending c (<[p := (msg, rest)]> (publishing s)) ≡ₚ omap (wanted_at c) tr).
  { intros c b. rewrite <- (inv_offers0 c), (pending_visit p msg ch rest _ c Hd Hp), omap_snoc, <- (assoc (++)). cbn. by case_bool_decide. }
  destruct s as [[buf S d] cs ps]; cbn in *. destruct (cs !! ch) as [[q []]|] eqn:Hc; [done| |done].
  pose proof (lookup_lt_Some _ _ _ Hc) as Hlt. pose proof (inv_bound0 ch) as Hq. unfold held in Hq; cbn in Hq; rewrite Hc in Hq; cbn in Hq.
  destruct (Z.of_nat (length q) <? buf)%Z eqn:Hfull; injection Hs as <- <-; cbn in *.
  - assert (Hheld : forall c ps', held c (mkBusState (mkBus buf S d) (<[ch := mkChan (q ++ [msg]) false]> cs) ps') =
        held c (mkBusState (mkBus buf S d) cs ps) ++ (if bool_decide (ch = c) then [msg] else [])).
    { intros c ps'. unfold held; cbn. case_bool_decide; [subst; by rewrite list_lookup_insert_eq, Hc|]. by rewrite list_lookup_insert_ne, app_nil_r. }
    split; intros; rewrite ?foldl_snoc; cbn in *; auto.
    + rewrite inv_open0. destruct (decide (ch = ch0)) as [<-|Hne]; [|by rewrite list_lookup_insert_ne]. rewrite list_lookup_insert_eq by done. naive_solver.
    + eauto.
    + rewrite Hheld, !omap_snoc, (assoc (++)). cbn. rewrite app_nil_r, inv_fifo0. by case_bool_decide.
    + rewrite Hheld. specialize (inv_bound0 ch0). case_bool_decide; [|by rewrite app_nil_r]. subst ch0. b2p. unfold held in *; cbn in *. rewrite Hc in *; cbn in *. rewrite length_app; cbn. lia.
    + rewrite Hoff, omap_snoc. cbn. by rewrite app_nil_r.
    + rewrite omap_snoc. cbn. by rewrite app_nil_r.
  - split; intros; rewrite ?foldl_snoc; cbn in *; eauto.
    + rewrite !omap_snoc. cbn. rewrite !app_nil_r. apply inv_fifo0.
    + rewrite Hoff, omap_snoc. cbn. by rewrite app_nil_r.
    + rewrite omap_snoc, length_app, inv_drops0. cbn [refused option_list length]. apply wrap_succ.
Qed.

Lemma end_inv (size : Z) (p : nat) (tr : list label) (s s' : BusState) (l : label) :
  bus_inv size tr s -> end_publish p s = Next s' l -> bus_inv size (tr ++ [l]) s'.
Proof.
  intros I Hs. unfold end_publish in Hs. destruct (publishing s !! p) as [[msg [|ch rest]]|] eqn:Hp; [|done..]. injection Hs as <- <-.
  destruct I. destruct s as [b cs ps]; cbn in *. step_fields; cbn in *; auto.
  - match goal with H : delete p ps !! _ = _ |- _ => apply lookup_delete_Some in H as [_ H]; eauto end.
  - apply (inv_bound0 ch).
  - rewrite <- (inv_offers0 ch), (pending_delete ch p _ ps Hp). done.
Qed.

Lemma receive_inv (size : Z) (ch : nat) (tr : list label) (s s' : BusState) (l : label) :
  bus_inv size tr s -> receive ch s = Next s' l -> bus_inv size (tr ++ [l]) s'.
Proof.
  intros I Hs. unfold receive in Hs. destruct (chans s !! ch) as [[[|msg q] cl]|] eqn:Hc; [destruct cl| |]; try done; injection Hs as <- <-.
  { destruct I. step_fields; eauto. }
  destruct I. pose proof (lookup_lt_Some _ _ _ Hc) as Hlt.
  assert (Hheld : forall c, held c s = (if bool_decide (ch = c) then [msg] else []) ++ held c (s <|chans ::= <[ch := mkChan q cl]>|>)).
  { intros c. rewrite held_insert by done. case_bool_decide; [subst; unfold held; by rewrite Hc|done]. }
  destruct s as [b cs ps]; cbn in *. step_fields; cbn in *; auto.
  - rewrite inv_open0. destruct (decide (ch = ch0)) as [<-|Hne]; [|by rewrite list_lookup_insert_ne].
    rewrite list_lookup_insert_eq, Hc by done. split; intros [q' Hq]; injection Hq; intros; subst; eauto.
  - eauto.
  - rewrite <- (inv_fifo0 ch0), (Hheld ch0), (assoc (++)). by case_bool_decide.
  - specialize (inv_bound0 ch0). rewrite (Hheld ch0), length_app in inv_bound0. lia.
Qed.

Lemma reach_inv (size : Z) (tr : list label) (s : BusState) : bus_reach size tr s -> bus_inv size tr s.
Proof.
  induction 1 as [|tr s a s' l _ IH Hs].
  - split; cbn; try done; intros ch; [rewrite lookup_nil; set_solver|]. change (held ch (bus_start size)) with (@nil Message). cbn. destruct (size <=? 0)%Z eqn:E; b2p; lia.
  - destruct a; cbn in Hs; eauto using subscribe_inv, cancel_inv, begin_inv, send_inv, end_inv, receive_inv.
Qed.

(** What was published while the channel was subscribed, read off the trace alone. *)
Fixpoint published (ch : nat) (S : gset nat) (tr : list label) : list Message :=
  match tr with
  | [] => []
  | l :: r => option_list (match l with Begun msg _ => if bool_decide (ch ∈ S) then Some msg else None | _ => None end)
                ++ published ch (subscription S l) r
  end.

Lemma published_snoc (ch : nat) (S : gset nat) (tr : list label) (l : label) :
  published ch S (tr ++ [l]) = published ch S tr ++
    option_list (match l with Begun msg _ => if bool_decide (ch ∈ foldl subscription S tr) then Some msg else None | _ => None end).
Proof. revert S. induction tr as [|k tr IH]; intros S; cbn; [by rewrite app_nil_r|]. by rewrite IH, (assoc (++)). Qed.

Lemma published_wanted (size : Z) (tr : list label) (s : BusState) (ch : nat) :
  bus_reach size tr s -> published ch ∅ tr = omap (wanted_at ch) tr.
Proof.
  induction 1 as [|tr s a s' l Hr IH Hs]; [done|]. rewrite published_snoc, omap_snoc, IH. f_equal. destruct l as [| |msg to| | | |]; try done.
  rewrite <- (inv_subs _ _ _ (reach_inv _ _ _ Hr)). cbn. f_equal. apply (f_equal (fun b : bool => if b then Some msg else None)), bool_decide_ext.
  destruct a; cbn in Hs; unfold Subscribe, cancel_subscription, send_next, end_publish, receive in Hs; try by split_cases_in Hs.
  unfold begin_publish in Hs. case_bool_decide as Ho; [|done]. case_bool_decide; [|done]. injection Hs as _ _ <-. by rewrite Ho, elem_of_elements.
Qed.

Lemma registered_open (size : Z) (tr : list label) (s : BusState) (p : nat) (msg : Message) (ch : nat) (rest : list nat) :
  bus_inv size tr s -> publishing s !! p = Some (msg, ch :: rest) -> exists q, chans s !! ch = Some (mkChan q false).
Proof. intros I Hp. apply (inv_open _ _ _ I), (proj2 (inv_todo _ _ _ I _ _ _ Hp)). set_solver. Qed.

(** ** Theorems *)

(** C22: the bus under every interleaving of publishers, receivers, subscriptions and their ends. No send
    or close meets a closed channel; a publisher is never held up by a slow subscriber; what a
    subscriber receives is in order exactly what its channel accepted, and the rest of that is in its
    buffer, which is bounded; every message published while it was subscribed is offered to it exactly
    once; and each refused offer is counted. *)
Theorem bus_delivery (size : Z) (tr : list label) (s : BusState) :
  bus_reach size tr s ->
  (forall a, bus_do a s <> Panic) /\
  (forall p msg ids, publishing s !! p = Some (msg, ids) -> exists s' l, bus_do (if ids is [] then AEnd p else ASend p) s = Next s' l) /\
  (forall ch, omap (received_at ch) tr ++ held ch s = omap (accepted_at ch) tr /\
              (Z.of_nat (length (held ch s)) <= buffer (NewBus size))%Z /\
              omap (offered_at ch) tr ++ pending ch (publishing s) ≡ₚ published ch ∅ tr) /\
  drops (bus s) = wrap_unsigned 64 (Z.of_nat (length (omap refused tr))).
Proof.
  intros Hr. pose proof (reach_inv _ _ _ Hr) as I. split_and!.
  - intros a Ha. destruct a as [|ch|p msg order|p|p|ch]; cbn in Ha; unfold Subscribe, begin_publish, end_publish, receive in Ha; try by split_cases_in Ha.
    + unfold cancel_subscription in Ha. case_bool_decide as Hc; [cbn in Ha|done]. apply (inv_open _ _ _ I) in Hc as [q Hq]. rewrite Hq in Ha. by split_cases_in Ha.
    + unfold send_next in Ha. destruct (publishing s !! p) as [[msg [|ch rest]]|] eqn:Hp; try done.
      destruct (registered_open _ _ _ _ _ _ _ I Hp) as [q Hq]. destruct s; cbn in *. rewrite Hq in Ha. by split_cases_in Ha.
  - intros p msg [|ch rest] Hp; cbn; unfold end_publish, send_next; rewrite Hp; [eauto|].
    destruct (registered_open _ _ _ _ _ _ _ I Hp) as [q Hq]. destruct s; cbn in *. rewrite Hq. split_cases; eauto.
  - intros ch. rewrite (published_wanted _ _ _ ch Hr), <- (inv_buffer _ _ _ I). split_and!; apply I.
  - apply I.
Qed.

End Bus.
Arguments chan : clear implicits.
Arguments BusState : clear implicits.
Arguments label : clear implicits.
Arguments action : clear implicits.

(** ** Witness *)

Section Runs.
Context {Message : Type}.

Fixpoint bus_run (acts : list (action Message)) (s : BusState Message) : option (BusState Message * list (label Message)) :=
  match acts with
  | [] => Some (s, [])
  | a :: r => match bus_do a s with
              | Next s' l => '(s'', tr) ← bus_run r s'; Some (s'', l :: tr)
              | _ => None
              end
  end.

Lemma run_reach (size : Z) (acts : list (action Message)) (tr0 tr : list (label Message)) (s s' : BusState Message) :
  bus_reach size tr0 s -> bus_run acts s = Some (s', tr) -> bus_reach size (tr0 ++ tr) s'.
Proof.
  revert tr0 tr s. induction acts as [|a r IH]; intros tr0 tr s Hs Hr; cbn in Hr; [injection Hr as <- <-; by rewrite app_nil_r|].
  destruct (bus_do a s) as [s1 l| |] eqn:Ha; [|done..]. destruct (bus_run r s1) as [[s2 tr2]|] eqn:H2; [|done]. injection Hr as <- <-.
  rewrite (cons_middle l tr0 tr2), (assoc (++)). by apply (IH _ _ s1); [apply (reach_step _ _ s a)|].
Qed.

End Runs.

(** Two publishers and a subscriber with room for one message, which leaves while another waits. *)
Definition busy_acts : list (action string) :=
  [ASubscribe; ABegin 0 "first" [0]; ABegin 1 "second" [0]; ASend 1; ASend 0; AEnd 0; AEnd 1; ACancel 0; ABegin 0 "late" []; AEnd 0; AReceive 0; AReceive 0].

Definition busy_end : BusState string * list (label string) := default (bus_start 1, []) (bus_run busy_acts (bus_start 1)).

Lemma busy_reach : bus_reach 1 (snd busy_end) (fst busy_end).
Proof. apply (run_reach 1 busy_acts [] (snd busy_end) (bus_start 1)); [apply reach_start|vm_compute; reflexivity]. Qed.

Lemma bus_delivery_witness :
  omap (received_at 0) (snd busy_end) = ["second"] /\ published 0 ∅ (snd busy_end) = ["first"; "second"] /\
  drops (bus (fst busy_end)) = 1%Z /\ bus_do (ASend 0) (fst busy_end) <> Panic.
Proof.
  destruct (bus_delivery 1 (snd busy_end) (fst busy_end) busy_reach) as (Hp & _ & _ & Hd).
  split_and!; [vm_compute; reflexivity..| |apply Hp]. rewrite Hd. vm_compute. reflexivity.
Defined.
