(* ===== verification/XmlReply.v ===== *)
(** * Metrics as XML (internal/ems/netconf/xml.go, internal/ems/fcaps/metrics/store.go)

    The in-process NETCONF server answers a get with the latest normalised report: its JSON text is
    decoded into a map and written by the token encoder of encoding/xml, whose indentation and checks
    are modelled as the state machine they are. The specification is the tree of the report, a printer
    for trees and a reader: the encoder writes what the printer prints, and the reader gets the tree
    back. *)
From S2P Require Import Prelude GoNum GoStrings Json Metrics Normalize.

(** ** The store of the latest report (store.go) *)

(** What a parser of reports returns in an interface. *)
Inductive parsed_metrics := PEnb (m : EnbMetrics) | PGnb (m : GnbMetrics).

(** domain.MetricSample; Parsed is nil until a parser has seen the report. *)
Record MetricSample := mkMetricSample { RawJSON : string; Parsed : option parsed_metrics }.
Definition mkSample (raw : string) : MetricSample := mkMetricSample raw None.

Definition MetricsStore : Type := MetricSample.
Definition NewMetricsStore : MetricsStore := mkSample "".
Definition MetricsUpdate (sample : MetricSample) (s : MetricsStore) : MetricsStore := sample.
Definition MetricsLatest (s : MetricsStore) : MetricSample := s.

(** ** Decoded values: what json.Unmarshal puts into an interface *)

Inductive value :=
| VNil
| VString (s : string)
| VFloat (x : float64)
| VBool (b : bool)
| VSlice (l : list value)
| VMap (l : list (string * value)).

(** ** The encoder (encoding/xml) *)

Inductive token := StartElement (name : string) (attr : list (string * string)) | EndElement (name : string) | CharData (text : string).

Record printer := mkPrinter { out : bytes; depth : nat; indentedIn : bool; putNewline : bool; tags : list string }.

Definition NewEncoder : printer := mkPrinter [] 0 false false [].

(** U+FFFD, and the two encodings of three bytes that are no XML characters. *)
Definition replacement : bytes := map ascii_of_N [239; 191; 189]%N.
Definition noncharacters : list bytes := [map ascii_of_N [239; 191; 190]%N; map ascii_of_N [239; 191; 191]%N].

Definition escape_byte (escapeNewline : bool) (c : ascii) : bytes :=
  let n := code c in
  if (n =? 34)%N then str "&#34;"
  else if (n =? 39)%N then str "&#39;"
  else if (n =? 38)%N then str "&amp;"
  else if (n =? 60)%N then str "&lt;"
  else if (n =? 62)%N then str "&gt;"
  else if (n =? 9)%N then str "&#x9;"
  else if (n =? 10)%N then (if escapeNewline then str "&#xA;" else [c])
  else if (n =? 13)%N then str "&#xD;"
  else if (n <? 32)%N then replacement
  else [c].

Fixpoint escape_runes (escapeNewline : bool) (fuel : nat) (l : bytes) : bytes :=
  match fuel with
  | 0 => []
  | S fuel =>
      match l with
      | [] => []
      | c :: r =>
          if is_ascii_byte c then escape_byte escapeNewline c ++ escape_runes escapeNewline fuel r
          else match rune_width l with
               | None => replacement ++ escape_runes escapeNewline fuel r
               | Some w => (if bool_decide (take w l ∈ noncharacters) then replacement else take w l) ++ escape_runes escapeNewline fuel (drop w l)
               end
      end
  end.

Definition escapeText (escapeNewline : bool) (l : bytes) : bytes := escape_runes escapeNewline (length l) l.

Definition spaces (n : nat) : bytes := concat (replicate n (str "  ")).

Definition write (l : bytes) (p : printer) : printer := p <|out ::= fun o => o ++ l|>.

(** The part of writeIndent that starts a line. *)
Definition new_line (p : printer) : printer :=
  (write ((if putNewline p then [newline] else []) ++ spaces (depth p)) p) <|putNewline := true|>.

Definition indent_in (p : printer) : printer := (new_line p) <|depth ::= S|> <|indentedIn := true|>.

Definition indent_out (p : printer) : printer :=
  let p' := p <|depth ::= pred|> <|indentedIn := false|> in
  if indentedIn p then p' else new_line p'.

Definition attr_text (a : string * string) : bytes := str " " ++ str (fst a) ++ str "=" ++ [dquote] ++ escapeText true (str (snd a)) ++ [dquote].

Definition writeStart (name : string) (attr : list (string * string)) (p : printer) : result string printer :=
  if String.eqb name "" then Err "xml: start tag with no name"
  else Ok (write (str "<" ++ str name ++ concat (map attr_text attr) ++ str ">") (indent_in (p <|tags ::= cons name|>))).

Definition writeEnd (name : string) (p : printer) : result string printer :=
  if String.eqb name "" then Err "xml: end tag with no name"
  else match tags p with
       | [] => Err ("xml: end tag </" +:+ name +:+ "> without start tag")
       | top :: rest =>
           if String.eqb top name then Ok (write (str "</" ++ str name ++ str ">") (indent_out (p <|tags := rest|>)))
           else Err ("xml: end tag </" +:+ name +:+ "> does not match start tag <" +:+ top +:+ ">")
       end.

Definition EncodeToken (t : token) (p : printer) : result string printer :=
  match t with
  | StartElement name attr => writeStart name attr p
  | EndElement name => writeEnd name p
  | CharData text => Ok (write (escapeText false (str text)) p)
  end.

(** A loop that stops at the first error. *)
Definition each {A : Type} (f : A -> printer -> result string printer) : list A -> printer -> result string printer :=
  fix go l p := match l with [] => Ok p | x :: r => let? p := f x p in go r p end.

Section Reply.
Context {GL : GoLib}.

(** ** xml.go *)

Definition formatFloat (v : float64) : string :=
  if f_eq v (f_of_Z (f_to_int64 v)) then FormatInt (f_to_int64 v) else FormatFloat v 6.

Definition toString (v : value) : string :=
  match v with
  | VString t => t
  | VFloat x => formatFloat x
  | VBool b => if b then "true" else "false"
  | _ => "<nil>"
  end.

Fixpoint encodeElement (name : string) (v : value) (p : printer) {struct v} : result string printer :=
  let? p := EncodeToken (StartElement name []) p in
  let? p := match v with
            | VMap m => each (fun e => match snd e with
                                       | VSlice items => each (encodeElement (fst e)) items
                                       | _ => encodeElement (fst e) (snd e)
                                       end) m p
            | VSlice items => each (encodeElement "item") items p
            | _ => EncodeToken (CharData (toString v)) p
            end in
  EncodeToken (EndElement name) p.

(** The members of a Go map, which the code visits in the order of their keys. *)
Definition encodeMap (m : list (string * value)) (p : printer) : result string printer :=
  each (fun e => match snd e with
                 | VSlice items => each (encodeElement (fst e)) items
                 | _ => encodeElement (fst e) (snd e)
                 end) m p.

Fixpoint to_any (j : json) : value :=
  match j with
  | JNull => VNil
  | JStr s => VString s
  | JInt z => VFloat (default f_zero (ParseFloat (FormatInt z)))
  | JNum t => VFloat (default f_zero (ParseFloat t))
  | JBool b => VBool b
  | JArr l => VSlice (map to_any l)
  | JObj l => VMap (map (fun e => (fst e, to_any (snd e))) l)
  end.

Context {JT : JsonText}.

(** json.Unmarshal into a map[string]any: objects and null, all of whose numbers are float64. *)
Definition unmarshal_map (raw : string) : option (list (string * value)) :=
  j ← ParseJson raw;
  if numbers_ok j then
    match to_value j with
    | JObj l => Some (map (fun e => (fst e, to_any (snd e))) l)
    | JNull => Some []
    | _ => None
    end
  else None.

Definition moduleNamespace : string := "urn:ems:enb:metrics".

Definition vget (k : string) (m : list (string * value)) : option value := snd <$> find (fun e => String.eqb (fst e) k) m.

(** The root element of a report and its namespace. *)
Definition reply_root (obj : list (string * value)) : string * string :=
  match vget "type" obj with
  | Some (VString "gnb_metrics") => ("gnb_metrics", "urn:ems:gnb:metrics")
  | _ => ("enb_metrics", moduleNamespace)
  end.

(** [parseError] is the text of the error of json.Unmarshal. *)
Definition buildMetricsReply (parseError : string -> string) (store : MetricsStore) : result string bytes :=
  let latest := MetricsLatest store in
  if String.eqb (RawJSON latest) "" then Ok (str "<data/>")
  else match unmarshal_map (RawJSON latest) with
       | None => Err (parseError (RawJSON latest))
       | Some obj =>
           let '(rootName, namespace) := reply_root obj in
           let? p := EncodeToken (StartElement "data" [("xmlns", "urn:ietf:params:xml:ns:netconf:base:1.0")]) NewEncoder in
           let? p := EncodeToken (StartElement rootName [("xmlns", namespace)]) p in
           let? p := encodeMap obj p in
           let? p := EncodeToken (EndElement rootName) p in
           let? p := EncodeToken (EndElement "data") p in
           Ok (out p)
       end.

End Reply.

(** ** Specification: trees, a printer and a reader *)

(** An element with text, or with elements inside. *)
Inductive xml := Elem (name : string) (attrs : list (string * string)) (text : bytes) (children : list xml).

Definition tag_open (name : string) (attrs : list (string * string)) : bytes := str "<" ++ str name ++ concat (map attr_text attrs) ++ str ">".
Definition tag_close (name : string) : bytes := str "</" ++ str name ++ str ">".

Fixpoint print (d : nat) (x : xml) : bytes :=
  let '(Elem name attrs text cs) := x in
  spaces d ++ tag_open name attrs ++
  (match cs with
   | [] => escapeText false text
   | _ => concat (map (fun c => newline :: print (S d) c) cs) ++ newline :: spaces d
   end) ++ tag_close name.

Section Trees.
Context {GL : GoLib}.

Fixpoint elem (name : string) (v : value) : xml :=
  match v with
  | VMap m => Elem name [] [] (concat (map (fun e => match snd e with VSlice items => map (elem (fst e)) items | _ => [elem (fst e) (snd e)] end) m))
  | VSlice items => Elem name [] [] (map (elem "item") items)
  | _ => Elem name [] (str (toString v)) []
  end.

(** The elements a member of a map becomes: one for each item of a list. *)
Definition member_elems (e : string * value) : list xml :=
  match snd e with VSlice items => map (elem (fst e)) items | _ => [elem (fst e) (snd e)] end.

End Trees.

Definition blank (c : ascii) : bool := Ascii.eqb c newline || Ascii.eqb c " ".
Definition skip_blank (l : bytes) : bytes := drop (length (take_while blank l)) l.
Definition until (c : ascii) (l : bytes) : bytes := take_while (fun d => negb (Ascii.eqb d c)) l.

(** ASCII name characters of XML, and the bytes of the others. *)
Definition name_byte (c : ascii) : bool :=
  is_upper c || is_lower c || is_digit c || Ascii.eqb c "_" || Ascii.eqb c "-" || Ascii.eqb c "." || Ascii.eqb c ":" || negb (is_ascii_byte c).

Definition entities : list (bytes * ascii) :=
  [(str "&#34;", dquote); (str "&#39;", "'"%char); (str "&amp;", "&"%char); (str "&lt;", "<"%char); (str "&gt;", ">"%char);
   (str "&#x9;", ascii_of_N 9); (str "&#xA;", newline); (str "&#xD;", ascii_of_N 13)].

Fixpoint unescape (fuel : nat) (l : bytes) : option bytes :=
  match fuel with
  | 0 => match l with [] => Some [] | _ => None end
  | S fuel =>
      match l with
      | [] => Some []
      | c :: r =>
          if Ascii.eqb c "&" then
            match find (fun e => has_prefix l (fst e)) entities with
            | Some (e, d) => cons d <$> unescape fuel (drop (length e) l)
            | None => None
            end
          else cons c <$> unescape fuel r
      end
  end.

Definition read_close (name : bytes) (l : bytes) : option bytes :=
  let tag := str "</" ++ name ++ str ">" in if has_prefix l tag then Some (drop (length tag) l) else None.

(** Attributes up to the end of the start tag. *)
Fixpoint read_attrs (fuel : nat) (l : bytes) : option (list (string * string) * bytes) :=
  match fuel, l with
  | _, ">"%char :: r => Some ([], r)
  | S fuel, " "%char :: r =>
      let name := take_while name_byte r in
      match drop (length name) r with
      | e :: q :: r =>
          if Ascii.eqb e "=" && Ascii.eqb q dquote then
            let v := until dquote r in
            v' ← unescape (length v) v;
            '(attrs, rest) ← read_attrs fuel (drop (S (length v)) r); Some ((unstr name, unstr v') :: attrs, rest)
          else None
      | _ => None
      end
  | _, _ => None
  end.

Fixpoint read_elem (fuel : nat) (l : bytes) : option (xml * bytes) :=
  match fuel, skip_blank l with
  | S fuel, "<"%char :: r =>
      let name := take_while name_byte r in
      '(attrs, r) ← read_attrs (length r) (drop (length name) r);
      let text := until "<" r in
      let r1 := drop (length text) r in
      if has_prefix r1 (str "</") then
        t ← unescape (length text) text; rest ← read_close name r1; Some (Elem (unstr name) attrs t [], rest)
      else
        '(cs, r2) ← read_elems fuel r; rest ← read_close name r2; Some (Elem (unstr name) attrs [] cs, rest)
  | _, _ => None
  end
with read_elems (fuel : nat) (l : bytes) : option (list xml * bytes) :=
  match fuel with
  | 0 => None
  | S fuel =>
      let l := skip_blank l in
      if has_prefix l (str "</") then Some ([], l)
      else '(x, r) ← read_elem fuel l; '(xs, r) ← read_elems fuel r; Some (x :: xs, r)
  end.

(** The reader for a whole document. *)
Definition read_document (l : bytes) : option xml :=
  match read_elem (length l) l with Some (x, []) => Some x | _ => None end.

(** What survives: names that are XML names, text of XML characters. *)
Definition name_ok (s : string) : bool := match str s with [] => false | l => forallb name_byte l end.

Fixpoint runes_ok (fuel : nat) (l : bytes) : bool :=
  match fuel with
  | 0 => true
  | S fuel =>
      match l with
      | [] => true
      | c :: r =>
          if is_ascii_byte c then ((32 <=? code c)%N || (code c =? 9)%N || (code c =? 10)%N || (code c =? 13)%N) && runes_ok fuel r
          else match rune_width l with
               | None => false
               | Some w => negb (bool_decide (take w l ∈ noncharacters)) && runes_ok fuel (drop w l)
               end
      end
  end.
Definition text_ok (l : bytes) : bool := runes_ok (length l) l.

Fixpoint xml_ok (x : xml) : bool :=
  let '(Elem name attrs text cs) := x in
  name_ok name && forallb (fun a => name_ok (fst a) && text_ok (str (snd a))) attrs && text_ok text && match cs with [] => true | _ => bool_decide (text = []) end && forallb xml_ok cs.

(** ** Lemmas: the encoder prints trees *)

Section ValueInduction.
Context (P : value -> Prop).
Context (Hleaf : forall v, match v with VSlice _ | VMap _ => False | _ => True end -> P v).
Context (Hslice : forall l, Forall P l -> P (VSlice l)) (Hmap : forall l, Forall (fun e => P (snd e)) l -> P (VMap l)).

Fixpoint value_nested_ind (v : value) : P v.
Proof.
  destruct v as [|s|x|b|l|l]; [by apply Hleaf..| |].
  - apply Hslice. induction l as [|x l IH]; constructor; [apply value_nested_ind|apply IH].
  - apply Hmap. induction l as [|x l IH]; constructor; [apply value_nested_ind|apply IH].
Qed.

End ValueInduction.

(** The printer after it has written an element on a line of its own. *)
Definition after (p : printer) (x : xml) : printer :=
  mkPrinter (out p ++ (if putNewline p then [newline] else []) ++ print (depth p) x) (depth p) false true (tags p).

(** Every element the value becomes has a name. *)
Fixpoint named (v : value) : bool :=
  match v with
  | VMap m => forallb (fun e => negb (String.eqb (fst e) "") && named (snd e)) m
  | VSlice l => forallb named l
  | _ => true
  end.

Lemma foldl_after (cs : list xml) (p : printer) :
  cs <> [] -> putNewline p = true ->
  foldl after p cs = mkPrinter (out p ++ concat (map (fun c => newline :: print (depth p) c) cs)) (depth p) false true (tags p).
Proof.
  intros Hne Hp. destruct cs as [|c cs]; [done|clear Hne]. revert c p Hp. induction cs as [|c' cs IH]; intros c p Hp.
  - cbn. unfold after. by rewrite Hp, app_nil_r.
  - change (foldl after p (c :: c' :: cs)) with (foldl after (after p c) (c' :: cs)). rewrite IH by done. cbn. rewrite Hp, <- !app_assoc. done.
Qed.

Lemma each_ok {A : Type} (f : A -> printer -> result string printer) (xs : A -> list xml) (l : list A) (p : printer) :
  Forall (fun a => forall p, f a p = Ok (foldl after p (xs a))) l -> each f l p = Ok (foldl after p (concat (map xs l))).
Proof.
  intros H. revert p. induction H as [|a l Ha _ IH]; intros p; [done|]. cbn. rewrite Ha. cbn. by rewrite IH, foldl_app.
Qed.

(** Brings nested concatenations of constant text to one form. *)
Ltac flat := repeat (progress cbn || rewrite <- app_assoc || rewrite app_nil_r).

Lemma write_elem (name : string) (attrs : list (string * string)) (cs : list xml) (p : printer) (q : printer) :
  name <> "" -> q = foldl after (write (tag_open name attrs) (indent_in (p <|tags ::= cons name|>))) cs ->
  EncodeToken (EndElement name) q = Ok (after p (Elem name attrs [] cs)).
Proof.
  intros Hn ->. cbn. unfold writeEnd. rewrite (proj2 (String.eqb_neq name "") Hn). destruct p as [o d i n ts]. destruct cs as [|c cs].
  - cbn. rewrite String.eqb_refl. unfold after, tag_open. by flat.
  - rewrite foldl_after by done. unfold indent_in, new_line, write; cbn. rewrite String.eqb_refl. unfold after, indent_out, new_line, write, tag_open. by flat.
Qed.

Section Encoding.
Context {GL : GoLib}.

Definition writes (v : value) : Prop :=
  forall name p, name <> "" -> named v = true -> encodeElement name v p = Ok (after p (elem name v)).

Lemma leaf_writes (v : value) : match v with VSlice _ | VMap _ => False | _ => True end -> writes v.
Proof.
  intros Hl name p Hname _. assert (E : encodeElement name v p = (let? p := EncodeToken (StartElement name []) p in
      let? p := EncodeToken (CharData (toString v)) p in EncodeToken (EndElement name) p)) by (by destruct v).
  assert (Ee : elem name v = Elem name [] (str (toString v)) []) by (by destruct v). rewrite E, Ee. clear E Ee. destruct p as [o d i n ts].
  cbn. unfold writeStart. rewrite (proj2 (String.eqb_neq name "") Hname). cbn. unfold writeEnd. rewrite (proj2 (String.eqb_neq name "") Hname). cbn.
  rewrite String.eqb_refl. unfold after, write, tag_open. by flat.
Qed.

Lemma each_items (name : string) (l : list value) (p : printer) :
  name <> "" -> forallb named l = true -> Forall writes l -> each (encodeElement name) l p = Ok (foldl after p (map (elem name) l)).
Proof.
  intros Hname Hv Hl. rewrite (each_ok _ (fun v => [elem name v]) l).
  - do 2 f_equal. clear. induction l as [|v l IHl]; [done|]. cbn. by f_equal.
  - clear p. induction Hl as [|v l Hx _ IHl]; constructor; cbn in Hv; apply andb_true_iff in Hv as [Hv1 Hv2]; [|by apply IHl].
    intros p. by rewrite Hx.
Qed.

(** A value and, because a list in a map is written item by item, the items of a list. *)
Definition writes_deep (v : value) : Prop := writes v /\ forall items, v = VSlice items -> Forall writes items.

Lemma each_members (m : list (string * value)) (p : printer) :
  named (VMap m) = true -> Forall (fun e => writes_deep (snd e)) m -> encodeMap m p = Ok (foldl after p (concat (map member_elems m))).
Proof.
  intros Hv Hm. apply each_ok. clear p. induction Hm as [|[k v] m [Hx Hi] _ IHm]; constructor; cbn in Hv; apply andb_true_iff in Hv as [Hv1 Hv2]; [|by apply IHm].
  apply andb_true_iff in Hv1 as [Hk Hv1]. b2p. cbn in *. intros p. destruct v as [|s|x|b|l|l]; try by rewrite Hx.
  by apply each_items; [| |apply Hi].
Qed.

Lemma start_named (name : string) (attr : list (string * string)) (p : printer) :
  name <> "" -> EncodeToken (StartElement name attr) p = Ok (write (tag_open name attr) (indent_in (p <|tags ::= cons name|>))).
Proof. intros Hn. cbn. unfold writeStart. by rewrite (proj2 (String.eqb_neq name "") Hn). Qed.

Lemma value_writes (v : value) : writes_deep v.
Proof.
  induction v as [v Hl|l IH|m IH] using value_nested_ind.
  - split; [by apply leaf_writes|]. by intros items ->.
  - assert (Hw : Forall writes l) by (eapply Forall_impl; [exact IH|]; by intros ? [? _]). split; [|intros ? [= <-]; done].
    intros name p Hname Hv. cbn [encodeElement]. rewrite start_named by done. cbn [result_bind]. rewrite each_items by done. cbn [result_bind].
    by apply write_elem.
  - split; [|done]. intros name p Hname Hv. cbn [encodeElement]. rewrite start_named by done. cbn [result_bind].
    change (each _ m ?q) with (encodeMap m q). rewrite each_members by done. cbn [result_bind]. by apply write_elem.
Qed.

Context {JT : JsonText}.

(** The tree of a report. *)
Definition reply_tree (obj : list (string * value)) : xml :=
  let '(rootName, namespace) := reply_root obj in
  Elem "data" [("xmlns", "urn:ietf:params:xml:ns:netconf:base:1.0")] []
    [Elem rootName [("xmlns", namespace)] [] (concat (map member_elems obj))].

Lemma root_named (obj : list (string * value)) : fst (reply_root obj) <> "".
Proof. unfold reply_root. repeat case_match; done. Qed.

Lemma reply_prints (parseError : string -> string) (store : MetricsStore) (obj : list (string * value)) :
  RawJSON store <> "" -> unmarshal_map (RawJSON store) = Some obj -> named (VMap obj) = true ->
  buildMetricsReply parseError store = Ok (print 0 (reply_tree obj)).
Proof.
  intros Hne Hobj Hv. unfold buildMetricsReply, MetricsLatest, reply_tree. rewrite (proj2 (String.eqb_neq _ _) Hne), Hobj.
  pose proof (root_named obj) as Hr. destruct (reply_root obj) as [rootName namespace]. cbn [fst] in Hr.
  rewrite start_named by done. cbn [result_bind]. rewrite start_named by done. cbn [result_bind].
  rewrite each_members; [|done|by apply Forall_true; intros; apply value_writes]. cbn [result_bind].
  erewrite write_elem by done. cbn [result_bind].
  rewrite (write_elem "data" [("xmlns", "urn:ietf:params:xml:ns:netconf:base:1.0")] [Elem rootName [("xmlns", namespace)] [] (concat (map member_elems obj))] NewEncoder)
    by done. done.
Qed.

End Encoding.

(** ** Lemmas: escaping *)

Lemma rune_bytes (l : bytes) (w : nat) :
  rune_width l = Some w -> w <> 0 /\ w <= length l /\ forallb (fun c => negb (is_ascii_byte c)) (take w l) = true.
Proof.
  unfold rune_width, byte_in, is_ascii_byte. intros H.
  repeat (match type of H with
          | context [match ?x with [] => _ | _ :: _ => _ end] => destruct x; [done|]
          | context [if ?b then _ else _] => destruct b eqn:?
          end; try done).
  all: injection H as <-; split_and!; [done|cbn; lia|]; cbn; rewrite ?andb_true_r, ?andb_true_iff, !negb_true_iff, !N.ltb_ge.
  all: repeat match goal with
       | E : _ || _ = true |- _ => apply orb_true_iff in E as [E|E]
       | E : _ && _ = true |- _ => apply andb_true_iff in E as [? ?]
       end; rewrite ?N.leb_le, ?N.eqb_eq in *; lia.
Qed.

Lemma escape_byte_clean (nl : bool) (c : ascii) (d : ascii) :
  is_ascii_byte c = true -> d ∈ [">"; "<"; dquote]%char -> d ∉ escape_byte nl c.
Proof.
  intros Hc Hd. unfold escape_byte. cbv zeta.
  repeat match goal with |- context [if ?b then _ else _] => destruct b eqn:? end.
  all: try by (rewrite !elem_of_cons, elem_of_nil in Hd; destruct Hd as [->|[->|[->|[]]]]; apply (bool_decide_unpack _); vm_compute).
  all: rewrite list_elem_of_singleton; rewrite !elem_of_cons, elem_of_nil in Hd; destruct Hd as [->|[->|[->|[]]]]; intros <-; done.
Qed.

(** Escaped text has no byte that ends it: no tag begins in it and no attribute ends in it. *)
Lemma escape_clean (nl : bool) (fuel : nat) (l : bytes) (d : ascii) :
  d ∈ [">"; "<"; dquote]%char -> d ∉ escape_runes nl fuel l.
Proof.
  intros Hd. assert (Hrep : d ∉ replacement).
  { rewrite !elem_of_cons, elem_of_nil in Hd. destruct Hd as [->|[->|[->|[]]]]; apply (bool_decide_unpack _); by vm_compute. }
  assert (Ha : is_ascii_byte d = true) by (rewrite !elem_of_cons, elem_of_nil in Hd; by destruct Hd as [->|[->|[->|[]]]]).
  revert l. induction fuel as [|fuel IH]; intros l; [apply not_elem_of_nil|]. cbn [escape_runes]. destruct l as [|c r]; [apply not_elem_of_nil|].
  destruct (is_ascii_byte c) eqn:Hc; [intros [H|H]%elem_of_app; [exact (escape_byte_clean nl c d Hc Hd H)|exact (IH _ H)]|].
  destruct (rune_width (c :: r)) as [w|] eqn:Hw; intros [H|H]%elem_of_app; try exact (IH _ H); [|done]. case_bool_decide; [done|].
  destruct (rune_bytes _ _ Hw) as (_ & _ & Hb). rewrite forallb_forall in Hb. specialize (Hb d (proj1 (list_elem_of_In _ _) H)). by rewrite Ha in Hb.
Qed.

Lemma unescape_plain (a : bytes) (f : nat) (r : bytes) :
  forallb (fun c => negb (Ascii.eqb c "&")) a = true -> unescape (length a + f) (a ++ r) = app a <$> unescape f r.
Proof.
  intros Ha. induction a as [|c a IH]; cbn in *; [by destruct (unescape f r)|]. apply andb_true_iff in Ha as [Hc Ha]. apply negb_true_iff in Hc.
  rewrite Hc, IH by done. by destruct (unescape f r).
Qed.

Lemma unescape_entity (e : bytes) (d : ascii) (f : nat) (r : bytes) : (e, d) ∈ entities -> unescape (S f) (e ++ r) = cons d <$> unescape f r.
Proof.
  intros He. unfold entities in He. rewrite !elem_of_cons, elem_of_nil in He.
  destruct_or? He; try done; injection He as -> ->; by destruct r.
Qed.

Lemma escape_byte_view (nl : bool) (c : ascii) :
  is_ascii_byte c = true -> (32 <=? code c)%N || (code c =? 9)%N || (code c =? 10)%N || (code c =? 13)%N = true ->
  (escape_byte nl c, c) ∈ entities \/ (escape_byte nl c = [c] /\ c <> "&"%char).
Proof.
  assert (Hc : forall n, (n < 256)%N -> (code c =? n)%N = true -> c = ascii_of_N n).
  { intros n Hn He. apply N.eqb_eq in He. unfold code in He. by rewrite <- He, ascii_N_embedding. }
  intros Ha Hok. unfold escape_byte. cbv zeta.
  repeat match goal with |- context [if (code c =? ?n)%N then _ else _] => destruct (code c =? n)%N eqn:? end.
  all: try match goal with H : (code _ =? ?n)%N = true |- _ => apply Hc in H; [|done] end.
  all: try (subst; left; apply (bool_decide_unpack _); by vm_compute).
  - destruct nl; subst c; [left; apply (bool_decide_unpack _); by vm_compute|by right].
  - rewrite orb_false_r in Hok. cbn in Hok. rewrite !orb_false_r in Hok. rewrite N.leb_antisym in Hok. apply negb_true_iff in Hok. rewrite Hok.
    right. split; [done|]. by intros ->.
Qed.

Lemma escape_unescape (nl : bool) (fuel f : nat) (l : bytes) :
  length l <= fuel -> runes_ok fuel l = true -> length (escape_runes nl fuel l) <= f -> unescape f (escape_runes nl fuel l) = Some l.
Proof.
  revert f l. induction fuel as [|fuel IH]; intros f l Hl Hok Hf; [destruct l; [by destruct f|cbn in Hl; lia]|].
  destruct l as [|c r]; [by destruct f|]. cbn [escape_runes runes_ok length] in *. destruct (is_ascii_byte c) eqn:Hc.
  - apply andb_true_iff in Hok as [Hb Hok]. rewrite length_app in Hf. destruct (escape_byte_view nl c Hc Hb) as [He|[He Hn]].
    + assert (Hpos : 0 < length (escape_byte nl c)).
      { unfold entities in He. rewrite !elem_of_cons, elem_of_nil in He. destruct_or? He; try done; injection He as -> _; cbn; lia. }
      destruct f as [|f]; [lia|]. rewrite (unescape_entity _ c) by done. rewrite IH by (done || lia). done.
    + rewrite He in *. cbn in Hf. destruct f as [|f]; [lia|]. cbn. rewrite (proj2 (Ascii.eqb_neq c "&") Hn), IH by (done || lia). done.
  - destruct (rune_width (c :: r)) as [w|] eqn:Hw; [|done]. apply andb_true_iff in Hok as [Hn Hok]. apply negb_true_iff in Hn. rewrite Hn in *.
    destruct (rune_bytes _ _ Hw) as (Hw0 & Hwl & Hb). rewrite length_app in Hf.
    replace f with (length (take w (c :: r)) + (f - length (take w (c :: r)))) by lia. rewrite unescape_plain.
    + rewrite IH; [|rewrite length_drop; cbn; lia|done|lia]. cbn [fmap option_fmap option_map]. by rewrite take_drop.
    + rewrite forallb_forall in *. intros x Hx. apply Hb in Hx. apply negb_true_iff. apply Ascii.eqb_neq. by intros ->.
Qed.

(** ** Lemmas: reading *)

Section XmlInduction.
Context (P : xml -> Prop) (Helem : forall name attrs text cs, Forall P cs -> P (Elem name attrs text cs)).

Fixpoint xml_nested_ind (x : xml) : P x.
Proof. destruct x as [name attrs text cs]. apply Helem. induction cs as [|c cs IH]; constructor; [apply xml_nested_ind|apply IH]. Qed.

End XmlInduction.

Lemma until_stop (d : ascii) (a r : bytes) : d ∉ a -> until d (a ++ d :: r) = a.
Proof.
  intros Ha. apply take_while_stop; [|by rewrite Ascii.eqb_refl]. apply forallb_forall. intros x Hx. apply negb_true_iff, Ascii.eqb_neq.
  intros ->. by apply Ha, list_elem_of_In.
Qed.

Lemma drop_app_here {A : Type} (a r : list A) : drop (length a) (a ++ r) = r.
Proof. apply drop_app_length. Qed.

Lemma drop_app_past {A : Type} (a : list A) (c : A) (r : list A) : drop (S (length a)) (a ++ c :: r) = r.
Proof. induction a as [|x a IH]; [done|]. exact IH. Qed.

Lemma text_reads (nl : bool) (t : bytes) : text_ok t = true -> unescape (length (escapeText nl t)) (escapeText nl t) = Some t.
Proof. intros Ht. by apply escape_unescape. Qed.

Lemma name_ok_bytes (s : string) : name_ok s = true -> forallb name_byte (str s) = true /\ str s <> [].
Proof. unfold name_ok. by destruct (str s). Qed.

Lemma name_reads (s : string) (c : ascii) (r : bytes) : name_ok s = true -> name_byte c = false -> take_while name_byte (str s ++ c :: r) = str s.
Proof. intros Hs Hc. apply take_while_stop; [apply name_ok_bytes|]; done. Qed.

Definition attr_ok (a : string * string) : bool := name_ok (fst a) && text_ok (str (snd a)).

Lemma attrs_read (attrs : list (string * string)) (f : nat) (r : bytes) :
  forallb attr_ok attrs = true -> length attrs <= f -> read_attrs f (concat (map attr_text attrs) ++ ">"%char :: r) = Some (attrs, r).
Proof.
  revert f. induction attrs as [|[k v] attrs IH]; intros f Hok Hf; [by destruct f|]. cbn in Hok, Hf. apply andb_true_iff in Hok as [Ha Hok].
  apply andb_true_iff in Ha as [Hk Hv]. cbn in Hk, Hv. destruct f as [|f]; [lia|]. cbn [map concat]. unfold attr_text at 1. cbn [fst snd].
  rewrite <- !app_assoc. cbn [app str read_attrs]. rewrite (name_reads k) by done. rewrite drop_app_here. cbn [app].
  rewrite !Ascii.eqb_refl. cbn [andb]. rewrite until_stop by (apply escape_clean; set_solver). rewrite text_reads by done. cbn [mbind option_bind].
  rewrite drop_app_past, IH by (done || lia). cbn. by rewrite !unstr_str.
Qed.

Lemma spaces_blank (d : nat) : forallb blank (spaces d) = true.
Proof. induction d as [|d IH]; [done|]. exact IH. Qed.

Lemma skip_blanks (b : bytes) (r : bytes) : forallb blank b = true -> skip_blank (b ++ "<"%char :: r) = "<"%char :: r.
Proof. intros Hb. unfold skip_blank. rewrite take_while_stop by done. apply drop_app_here. Qed.

Lemma close_starts (name : string) (r : bytes) : has_prefix (tag_close name ++ r) (str "</") = true.
Proof. unfold tag_close. rewrite <- !app_assoc. apply has_prefix_app. Qed.

Lemma until_close (a : bytes) (name : string) (r : bytes) : "<"%char ∉ a -> until "<" (a ++ tag_close name ++ r) = a.
Proof. unfold tag_close. rewrite <- !app_assoc. apply until_stop. Qed.

Lemma close_reads (name : string) (r : bytes) : read_close (str name) (tag_close name ++ r) = Some r.
Proof. unfold read_close. fold (tag_close name). by rewrite has_prefix_app, drop_app_here. Qed.

(** How much fuel the reader takes. *)
Fixpoint weight (x : xml) : nat := let '(Elem _ _ _ cs) := x in 2 + list_sum (map weight cs).

Definition reads_back (x : xml) : Prop :=
  forall f d b r, xml_ok x = true -> weight x <= f -> forallb blank b = true -> read_elem f (b ++ print d x ++ r) = Some (x, r).

Lemma skip_blank_idem (l : bytes) : skip_blank (skip_blank l) = skip_blank l.
Proof. unfold skip_blank. induction l as [|c l IH]; [done|]. cbn. destruct (blank c) eqn:Hc; cbn; [exact IH|]. by rewrite Hc. Qed.

Lemma read_elem_skips (f : nat) (l : bytes) : read_elem f (skip_blank l) = read_elem f l.
Proof. destruct f; cbn [read_elem]; by rewrite ?skip_blank_idem. Qed.

Lemma print_head (d : nat) (x : xml) : xml_ok x = true -> exists c t, print d x = spaces d ++ "<"%char :: c :: t /\ name_byte c = true.
Proof.
  destruct x as [name attrs text cs]. cbn [xml_ok]. intros Hok. apply andb_true_iff in Hok as [Hok _]. do 3 (apply andb_true_iff in Hok as [Hok _]).
  destruct (name_ok_bytes _ Hok) as [Hn Hne]. cbn [print]. unfold tag_open. destruct (str name) as [|c l]; [done|]. cbn in Hn. apply andb_true_iff in Hn as [Hc _].
  eexists c, _. split; [|done]. cbn. reflexivity.
Qed.

Lemma elems_read (cs : list xml) (f d e : nat) (r : bytes) :
  Forall reads_back cs -> forallb xml_ok cs = true -> 1 + list_sum (map weight cs) <= f ->
  read_elems f (concat (map (fun c => newline :: print d c) cs) ++ newline :: spaces e ++ str "</" ++ r) = Some (cs, str "</" ++ r).
Proof.
  intros Hcs. revert f. induction Hcs as [|c cs Hc _ IH]; intros f Hok Hf; (destruct f as [|f]; [cbn in Hf; lia|]); cbn [read_elems].
  - pose proof (skip_blanks (newline :: spaces e) ("/"%char :: r) (spaces_blank e)) as Hs. cbn [app] in Hs. cbn [map concat app str]. rewrite Hs. by destruct r.
  - assert (Hf' : weight c + list_sum (map weight cs) <= f) by (unfold list_sum in *; cbn in Hf; lia). clear Hf.
    cbn in Hok. apply andb_true_iff in Hok as [Ho Hok]. cbn [map concat]. rewrite <- !app_assoc.
    set (rest := concat (map _ cs) ++ _) in *. rewrite read_elem_skips. cbn [app]. assert (Hw : 1 <= weight c) by (destruct c; cbn; lia).
    pose proof (Hc f d [newline] rest Ho) as Hread. cbn [app] in Hread. rewrite Hread by (done || lia). cbn [mbind option_bind]. rewrite IH by (done || lia).
    destruct (print_head d c Ho) as (x & t & -> & Hx). pose proof (skip_blanks (newline :: spaces d) (x :: t ++ rest) (spaces_blank d)) as Hs.
    rewrite <- (assoc app). cbn [app] in Hs |- *. rewrite Hs. cbn. destruct (Ascii.eqb_spec x "/"); [by subst|]. done.
Qed.

Lemma kids_open (d : nat) (c : xml) (rest : bytes) :
  xml_ok c = true -> let l := newline :: print d c ++ rest in has_prefix (drop (length (until "<" l)) l) (str "</") = false.
Proof.
  intros Hc. destruct (print_head d c Hc) as (y & t & -> & Hy). cbv zeta.
  replace (newline :: (spaces d ++ "<"%char :: y :: t) ++ rest) with ((newline :: spaces d) ++ "<"%char :: y :: t ++ rest) by (by flat).
  rewrite until_stop, drop_app_here.
  - cbn. by destruct (Ascii.eqb_spec y "/"); [subst|].
  - clear. rewrite not_elem_of_cons. split; [done|]. induction d; cbn; set_solver.
Qed.

Lemma attrs_length (attrs : list (string * string)) : length attrs <= length (concat (map attr_text attrs)).
Proof. induction attrs as [|a attrs IH]; [done|]. cbn [map concat length]. rewrite length_app. cbn. lia. Qed.

Lemma print_reads (x : xml) : reads_back x.
Proof.
  induction x as [name attrs text cs IH] using xml_nested_ind. intros f d b r Hok Hf Hb. cbn [xml_ok] in Hok.
  apply andb_true_iff in Hok as [Hok Hcs]. apply andb_true_iff in Hok as [Hok Hne]. apply andb_true_iff in Hok as [Hok Ht]. apply andb_true_iff in Hok as [Hn Ha].
  cbn in Hf. destruct f as [|f]; [lia|]. cbn [print]. set (body := match cs with [] => _ | _ => _ end). cbn [read_elem].
  replace (b ++ (spaces d ++ tag_open name attrs ++ body ++ tag_close name) ++ r) with
    ((b ++ spaces d) ++ "<"%char :: str name ++ concat (map attr_text attrs) ++ ">"%char :: body ++ tag_close name ++ r) by (unfold tag_open; by flat).
  rewrite skip_blanks by (by rewrite forallb_app, Hb, spaces_blank).
  assert (Hname : take_while name_byte (str name ++ concat (map attr_text attrs) ++ ">"%char :: body ++ tag_close name ++ r) = str name)
    by (destruct attrs as [|[k v] attrs]; by apply name_reads).
  rewrite Hname, drop_app_here, attrs_read; [|done|rewrite !length_app; pose proof (attrs_length attrs); lia]. cbn [mbind option_bind].
  subst body. destruct cs as [|c cs].
  - rewrite until_close by (apply escape_clean; set_solver).
    rewrite drop_app_here, close_starts, text_reads by done. cbn [mbind option_bind]. rewrite close_reads. cbn. by rewrite unstr_str.
  - apply bool_decide_eq_true in Hne. subst text. set (kids := c :: cs) in *.
    replace ((concat (map (fun c => newline :: print (S d) c) kids) ++ newline :: spaces d) ++ tag_close name ++ r)
      with (concat (map (fun c => newline :: print (S d) c) kids) ++ newline :: spaces d ++ str "</" ++ str name ++ str ">" ++ r) by (unfold tag_close; by rewrite <- !app_assoc).
    rewrite elems_read by (done || lia). subst kids. cbn [forallb] in Hcs. apply andb_true_iff in Hcs as [Hc _]. cbn [map concat]. rewrite <- !app_assoc. cbn [app].
    rewrite kids_open by done. cbn [mbind option_bind]. pose proof (close_reads name r) as Hclose. unfold tag_close in Hclose. rewrite <- !app_assoc in Hclose. rewrite Hclose. cbn. by rewrite unstr_str.
Qed.

Lemma weight_printed (d : nat) (x : xml) : weight x <= length (print d x).
Proof.
  revert d. induction x as [name attrs text cs IH] using xml_nested_ind. intros d. cbn [print weight]. unfold tag_open, tag_close.
  rewrite !length_app. cbn [length str]. destruct cs as [|c cs]; [cbn; lia|]. rewrite length_app.
  assert (H : list_sum (map weight (c :: cs)) <= length (concat (map (fun c => newline :: print (S d) c) (c :: cs)))); [|lia].
  clear text. induction IH as [|x l Hx _ IHl]; [done|]. cbn [map list_sum concat foldr]. rewrite length_app. cbn [length]. specialize (Hx (S d)).
  unfold list_sum in *. lia.
Qed.

Section Theorems.
Context {GL : GoLib} {JT : JsonText}.

(** Values that survive: keys that are XML names, text that consists of XML characters. *)
Fixpoint value_ok (v : value) : bool :=
  match v with
  | VMap m => forallb (fun e => name_ok (fst e) && value_ok (snd e)) m
  | VSlice l => forallb value_ok l
  | _ => text_ok (str (toString v))
  end.

Definition elem_ok (v : value) : Prop :=
  (forall name, name_ok name = true -> xml_ok (elem name v) = true) /\ named v = true /\
  forall items, v = VSlice items -> Forall (fun x => forall name, name_ok name = true -> xml_ok (elem name x) = true) items.

Lemma elem_node_ok (name : string) (cs : list xml) : name_ok name = true -> forallb xml_ok cs = true -> xml_ok (Elem name [] [] cs) = true.
Proof. intros Hn Hcs. cbn [xml_ok]. rewrite Hn, Hcs. by destruct cs. Qed.

Lemma value_ok_elem (v : value) : value_ok v = true -> elem_ok v.
Proof.
  induction v as [v Hl|l IH|m IH] using value_nested_ind; intros Hv.
  - split_and!; [|by destruct v|by intros ? ->]. intros name Hn. assert (E : elem name v = Elem name [] (str (toString v)) []) by (by destruct v).
    rewrite E. cbn [xml_ok forallb]. rewrite Hn. replace (value_ok v) with (text_ok (str (toString v))) in Hv by (by destruct v). by rewrite Hv.
  - cbn in Hv. assert (H : Forall elem_ok l).
    { revert Hv. induction IH as [|x l Hx _ IHl]; intros Hv; constructor; cbn in Hv; apply andb_true_iff in Hv as [H1 H2]; auto. }
    split_and!.
    + intros name Hn. cbn [elem]. apply elem_node_ok; [done|]. apply forallb_forall. intros y Hy. apply in_map_iff in Hy as (x & <- & Hx).
      rewrite Forall_forall in H. apply (H x); [by apply list_elem_of_In|done].
    + cbn. apply forallb_forall. intros x Hx. rewrite Forall_forall in H. apply (H x). by apply list_elem_of_In.
    + intros items [= <-]. eapply Forall_impl; [exact H|]. by intros x [? _].
  - cbn in Hv. assert (H : Forall (fun e => name_ok (fst e) = true /\ elem_ok (snd e)) m).
    { revert Hv. induction IH as [|x l Hx _ IHl]; intros Hv; constructor; cbn in Hv; apply andb_true_iff in Hv as [H1 H2]; [|auto].
      apply andb_true_iff in H1 as [Hn H1]. auto. }
    split_and!; [| |done].
    + intros name Hn. cbn [elem]. apply elem_node_ok; [done|]. clear IH Hv Hn. induction H as [|[k v] m [Hk (He & _ & Hi)] _ IHm]; [done|]. cbn [map concat].
      rewrite forallb_app, IHm, andb_true_r. cbn [fst snd] in *. destruct v as [|s|x|b|l|l]; cbn [forallb]; rewrite ?He by done; try done.
      apply forallb_forall. intros y Hy. apply in_map_iff in Hy as (x & <- & Hx). specialize (Hi l eq_refl). rewrite Forall_forall in Hi.
      apply Hi; [by apply list_elem_of_In|done].
    + cbn. apply forallb_forall. intros [k v] Hx. rewrite Forall_forall in H. destruct (H (k, v)) as [Hk (_ & Hn & _)]; [by apply list_elem_of_In|].
      cbn in *. rewrite Hn, andb_true_r. apply negb_true_iff, String.eqb_neq. by intros ->.
Qed.

Lemma reply_tree_ok (obj : list (string * value)) : value_ok (VMap obj) = true -> xml_ok (reply_tree obj) = true /\ named (VMap obj) = true.
Proof.
  intros Hv. destruct (value_ok_elem _ Hv) as (He & Hn & _). split; [|done]. unfold reply_tree.
  assert (Hroot : reply_root obj = ("gnb_metrics", "urn:ems:gnb:metrics") \/ reply_root obj = ("enb_metrics", moduleNamespace))
    by (unfold reply_root; repeat case_match; auto).
  specialize (He "x" eq_refl). cbn [elem xml_ok] in He. apply andb_true_iff in He as [_ He].
  change (concat (map _ obj)) with (concat (map member_elems obj)) in He. 
  destruct Hroot as [-> | ->]; cbn [xml_ok forallb]; rewrite He; by destruct (concat (map member_elems obj)).
Qed.

(** C15: the reply to a get is well formed and says what the report says. When the keys of the latest report
    are XML names and its strings consist of XML characters, the reply is written without an error, and
    a reader gets back the whole report: an element for each member of each object, one for each item
    of each list, in the order of the keys, with the exact text of every value, inside the root of the
    namespace that the type of the report asks for. *)
Theorem reply_reads_back (parseError : string -> string) (store : MetricsStore) (obj : list (string * value)) :
  RawJSON store <> "" -> unmarshal_map (RawJSON store) = Some obj -> value_ok (VMap obj) = true ->
  exists b, buildMetricsReply parseError store = Ok b /\ read_document b = Some (reply_tree obj).
Proof.
  intros Hne Hobj Hok. destruct (reply_tree_ok _ Hok) as [Hx Hn]. eexists. split; [by apply reply_prints|].
  unfold read_document. pose proof (print_reads (reply_tree obj) (length (print 0 (reply_tree obj))) 0 [] [] Hx (weight_printed 0 _) eq_refl) as Hr.
  cbn [app] in Hr. rewrite app_nil_r in Hr. by rewrite Hr.
Qed.

End Theorems.

(** ** Witness *)

Definition small_report : json :=
  JObj [("type", JStr "enb_metrics"); ("enb_serial", JStr "R&D <lab>"); ("cell_list", JArr [JObj [("pci", JNum "1"); ("ue_list", JArr [])]; JObj [("pci", JNum "2")]])].
Definition small_text : JsonText := {| ParseJson := fun _ => Some small_report; ParseFirst := fun _ => Some small_report |}.
Definition small_values : list (string * value) :=
  default [] (unmarshal_map (GL := ascii_golib) (JT := small_text) "{...}").

Lemma reply_reads_back_witness :
  length small_values = 3 /\
  exists b, buildMetricsReply (GL := ascii_golib) (JT := small_text) (fun _ => "") (mkSample "{...}") = Ok b /\
            read_document b = Some (reply_tree (GL := ascii_golib) small_values).
Proof.
  split; [vm_compute; reflexivity|].
  apply (reply_reads_back (GL := ascii_golib) (JT := small_text) (fun _ => "") (mkSample "{...}") small_values); [done|vm_compute; reflexivity..].
Defined.

(** A null member is not left out: it is written as the text that Go prints for a nil interface. *)
Lemma null_becomes_text :
  let jt := {| ParseJson := fun _ => Some (JObj [("alarm", JNull)]); ParseFirst := fun _ => None |} in
  read_document (match buildMetricsReply (GL := ascii_golib) (JT := jt) (fun _ => "") (mkSample "{...}") with Ok b => b | Err _ => [] end) =
  Some (Elem "data" [("xmlns", "urn:ietf:params:xml:ns:netconf:base:1.0")] []
          [Elem "enb_metrics" [("xmlns", "urn:ems:enb:metrics")] [] [Elem "alarm" [] (str "<nil>") []]]).
Proof. vm_compute. reflexivity. Qed.

(** A key that is no XML name is written as it is: the document does not read. *)
Lemma odd_key_breaks_reply :
  let jt := {| ParseJson := fun _ => Some (JObj [("dl rate", JNum "1")]); ParseFirst := fun _ => None |} in
  match buildMetricsReply (GL := ascii_golib) (JT := jt) (fun _ => "") (mkSample "{...}") with
  | Ok b => read_document b = None
  | Err _ => False
  end.
Proof. vm_compute. reflexivity. Qed.
