(* ===== verification/NetconfServer.v ===== *)
(** * The in-process NETCONF server (internal/ems/netconf/server.go)

    A connection is a stream of bytes in each direction; messages are separated by an end marker. The
    server greets, reads requests and answers each of them, a get with the latest report. Listening,
    the deadline of two minutes and log lines are left out; the end of the input stands for every
    error of reading, and [done] says when the context is cancelled. *)
From S2P Require Import Prelude GoNum GoStrings Json Metrics Normalize XmlReply.

(** ** Framing *)

Definition endMarker : string := "]]>]]>".
Definition endMarkerBytes : bytes := str endMarker.

(** bufio.Reader.ReadBytes: through the delimiter, or an error at the end of the input. *)
Fixpoint ReadBytes (delim : ascii) (l : bytes) : option (bytes * bytes) :=
  match l with
  | [] => None
  | c :: r => if Ascii.eqb c delim then Some ([c], r) else '(chunk, rest) ← ReadBytes delim r; Some (c :: chunk, rest)
  end.

Fixpoint read_loop (fuel : nat) (buf l : bytes) : option (bytes * bytes) :=
  match fuel with
  | 0 => None
  | S fuel =>
      '(chunk, rest) ← ReadBytes ">" l;
      let b := buf ++ chunk in
      match index_of b endMarkerBytes with
      | Some i => Some (take i b, rest)
      | None => read_loop fuel b rest
      end
  end.

Definition readNetconf (l : bytes) : option (bytes * bytes) := read_loop (length l) [] l.

Definition frame (msg : bytes) : bytes := msg ++ endMarkerBytes.

(** ** Messages *)

Definition quoted (s : bytes) : bytes := dquote :: s ++ [dquote].

Definition xml_header : bytes := str "<?xml version=" ++ quoted (str "1.0") ++ str " encoding=" ++ quoted (str "UTF-8") ++ str "?>".
Definition base_namespace : bytes := str "urn:ietf:params:xml:ns:netconf:base:1.0".

Definition helloMessage : bytes :=
  xml_header ++ str "<hello xmlns=" ++ quoted base_namespace ++ str ">" ++
  str "<capabilities>" ++
  str "<capability>urn:ietf:params:netconf:base:1.0</capability>" ++
  str "<capability>urn:ems:enb:metrics?module=ems-enb-metrics&amp;revision=2026-04-01</capability>" ++
  str "<capability>urn:ems:gnb:metrics?module=ems-gnb-metrics&amp;revision=2026-09-14</capability>" ++
  str "</capabilities>" ++
  str "</hello>".

Definition id_attr : bytes := str "message-id=" ++ [dquote].

Definition extractMessageID (req : bytes) : bytes :=
  match index_of req id_attr with
  | None => str "0"
  | Some start =>
      let rest := drop (start + length id_attr) req in
      match index_of rest [dquote] with
      | None => str "0"
      | Some n => take n rest
      end
  end.

(** What both replies begin with. *)
Definition reply_open (messageID : bytes) : bytes :=
  xml_header ++ str "<rpc-reply xmlns=" ++ quoted base_namespace ++ str " " ++ id_attr ++ (match messageID with [] => str "0" | _ => messageID end) ++ [dquote] ++ str ">".

Definition rpcReply (messageID payload : bytes) : bytes := reply_open messageID ++ payload ++ str "</rpc-reply>".

Definition rpcErrorReply (messageID errMsg : bytes) : bytes :=
  reply_open messageID ++
  str "<rpc-error>" ++
  str "<error-type>application</error-type>" ++
  str "<error-tag>operation-failed</error-tag>" ++
  str "<error-severity>error</error-severity>" ++
  str "<error-message>" ++ errMsg ++ str "</error-message>" ++
  str "</rpc-error>" ++
  str "</rpc-reply>".

Section Server.
Context {GL : GoLib} {JT : JsonText} (parseError : string -> string).

(** The reply to one request. *)
Definition answer (store : MetricsStore) (req : bytes) : bytes :=
  let msgID := extractMessageID req in
  if contains req (str "<get") || contains req (str "<get-config") then
    match buildMetricsReply parseError store with
    | Err e => rpcErrorReply msgID (str e)
    | Ok payload => rpcReply msgID payload
    end
  else rpcReply msgID (str "<ok/>").

(** What the loop writes; [store i] is the store when the [i]-th request is answered. *)
Fixpoint serve (store : nat -> MetricsStore) (done : nat -> bool) (fuel i : nat) (input : bytes) : bytes :=
  match fuel with
  | 0 => []
  | S fuel =>
      if done i then []
      else match readNetconf input with
           | None => []
           | Some (req, rest) => frame (answer (store i) req) ++ serve store done fuel (S i) rest
           end
  end.

(** [greeted] is false when writing the greeting failed. Every request takes at least the marker. *)
Definition handleConn (store : nat -> MetricsStore) (done : nat -> bool) (greeted : bool) (input : bytes) : bytes :=
  if greeted then frame helloMessage ++ serve store done (S (length input)) 0 input else [].

End Server.

(** ** Specification *)

(** A message that the marker ends where it is meant to: no marker inside, none across its end. *)
Definition framable (msg : bytes) : bool := bool_decide (index_of (frame msg) endMarkerBytes = Some (length msg)).

(** All messages of a stream. *)
Fixpoint read_all (fuel : nat) (l : bytes) : list bytes :=
  match fuel with
  | 0 => []
  | S fuel => match readNetconf l with Some (msg, rest) => msg :: read_all fuel rest | None => [] end
  end.

(** ** Lemmas: searching *)

Lemma has_prefix_take (n : nat) (l p : bytes) : has_prefix (take n l) p = has_prefix l p && (length p <=? n).
Proof.
  revert n l. induction p as [|c p IH]; intros n l; [by rewrite !has_prefix_nil|].
  destruct l as [|a l]; [by rewrite take_nil|]. destruct n as [|n]; cbn; [by rewrite andb_false_r|]. by rewrite IH, andb_assoc.
Qed.

Lemma index_of_take (n : nat) (l p : bytes) :
  p <> [] -> index_of (take n l) p = match index_of l p with Some i => if i + length p <=? n then Some i else None | None => None end.
Proof.
  intros Hp. revert n. induction l as [|c l IH]; intros n.
  - rewrite take_nil. cbn. by destruct p.
  - destruct n as [|n].
    + rewrite take_0. destruct (index_of (c :: l) p) as [i|]; (destruct p as [|d p]; [done|]); [|done].
      destruct (_ <=? 0) eqn:E; [|done]. b2p. cbn in E. lia.
    + cbn [take]. cbn [index_of]. pose proof (has_prefix_take (S n) (c :: l) p) as Ht. cbn [take] in Ht. rewrite Ht. clear Ht.
      destruct (has_prefix (c :: l) p); cbn [andb].
      * cbn [Nat.add]. destruct (length p <=? S n) eqn:E; [done|]. rewrite IH. destruct (index_of l p) as [i|]; [|done].
        destruct (i + length p <=? n) eqn:E2; [|done]. b2p. lia.
      * rewrite IH. destruct (index_of l p) as [i|]; [|done]. cbn. by destruct (i + length p <=? n).
Qed.

Lemma index_of_app (l r p : bytes) (i : nat) : p <> [] -> index_of l p = Some i -> index_of (l ++ r) p = Some i.
Proof.
  intros Hp Hi. pose proof (index_of_take (length l) (l ++ r) p Hp) as Ht. rewrite take_app_length, Hi in Ht.
  destruct (index_of (l ++ r) p) as [j|]; [|done]. destruct (_ <=? _); [|done]. by injection Ht as ->.
Qed.

Lemma index_of_found (l p : bytes) (i : nat) : index_of l p = Some i -> exists r, l = take i l ++ p ++ r /\ i <= length l.
Proof.
  revert i. induction l as [|c l IH]; intros i; cbn [index_of]; (destruct (has_prefix _ p) eqn:Hp; [intros [= <-]; apply has_prefix_spec in Hp as [r Hr]; exists r; split; [done|lia]|]); [done|].
  destruct (index_of l p) as [j|]; [|done]. intros [= <-]. destruct (IH j eq_refl) as (r & Hr & Hl). exists r. cbn. split; [by rewrite <- Hr|lia].
Qed.

Lemma index_of_drop (n : nat) (l p : bytes) : p <> [] -> index_of l p = None -> index_of (drop n l) p = None.
Proof.
  intros Hp. revert n. induction l as [|c l IH]; intros n Hl; [by rewrite drop_nil|]. destruct n as [|n]; [done|].
  cbn in Hl. destruct (match p with [] => true | b :: p' => Ascii.eqb c b && has_prefix l p' end); [done|]. destruct (index_of l p) eqn:E; [done|]. by apply IH.
Qed.

(** A byte that is not in the pattern separates. *)
Lemma index_of_sep (a b p : bytes) (d : ascii) :
  p <> [] -> d ∉ p -> index_of a p = None -> index_of (a ++ d :: b) p = (fun i => S (length a) + i) <$> index_of b p.
Proof.
  intros Hp Hd. assert (Hno : forall a, has_prefix a p = false -> has_prefix (a ++ d :: b) p = false).
  { intros a' Ha. apply not_true_iff_false. intros H. apply has_prefix_spec in H as [r Hr]. apply not_true_iff_false in Ha. apply Ha, has_prefix_spec.
    apply app_eq_inv in Hr as [(k & -> & _)|(k & -> & Hk)]; [by exists k|].
    destruct k as [|x k]; [exists []; by rewrite !app_nil_r|]. injection Hk as <- _. exfalso. apply Hd. set_solver. }
  induction a as [|c a IH]; intros Ha.
  - cbn [app index_of length]. change (d :: b) with ([] ++ d :: b). rewrite Hno by (by destruct p). cbn. by destruct (index_of b p).
  - cbn [index_of] in Ha. destruct (has_prefix (c :: a) p) eqn:Hpre; [done|]. destruct (index_of a p) eqn:Hia; [done|].
    cbn [app index_of length]. change (c :: a ++ d :: b) with ((c :: a) ++ d :: b). rewrite Hno by done. rewrite IH by done. by destruct (index_of b p).
Qed.

(** ** Lemmas: framing *)

Lemma ReadBytes_spec (d : ascii) (l : bytes) (k : nat) :
  l !! k = Some d -> exists a rest, ReadBytes d l = Some (a ++ [d], rest) /\ l = a ++ d :: rest /\ length a <= k.
Proof.
  revert k. induction l as [|c l IH]; intros k Hk; [done|]. cbn. destruct (Ascii.eqb_spec c d) as [->|Hne].
  - exists [], l. split_and!; [done|done|cbn; lia].
  - destruct k as [|k]; [cbn in Hk; congruence|]. destruct (IH k Hk) as (a & rest & -> & -> & Hl). exists (c :: a), rest. split_and!; [done|done|cbn; lia].
Qed.

Lemma marker_nonempty : endMarkerBytes <> [].
Proof. done. Qed.

Lemma read_finds (fuel : nat) (buf l : bytes) (i : nat) :
  index_of (buf ++ l) endMarkerBytes = Some i -> index_of buf endMarkerBytes = None -> length l <= fuel ->
  read_loop fuel buf l = Some (take i (buf ++ l), drop (i + length endMarkerBytes) (buf ++ l)).
Proof.
  revert buf l. induction fuel as [|fuel IH]; intros buf l Hi Hbuf Hf.
  { destruct l; [|cbn in Hf; lia]. rewrite app_nil_r in Hi. congruence. }
  assert (Hlen : length buf < i + 6).
  { pose proof (index_of_take (length buf) (buf ++ l) endMarkerBytes marker_nonempty) as Ht. rewrite take_app_length, Hi, Hbuf in Ht.
    destruct (_ <=? length buf) eqn:E; [done|]. b2p. cbn in E. lia. }
  assert (Hgt : l !! (i + 5 - length buf) = Some ">"%char).
  { rewrite <- (lookup_app_r buf) by lia. destruct (index_of_found _ _ _ Hi) as (r & Hr & Hle). rewrite Hr.
    assert (length (take i (buf ++ l)) = i) by (rewrite length_take; lia). rewrite lookup_app_r by lia. rewrite H.
    by replace (i + 5 - i) with 5 by lia. }
  destruct (ReadBytes_spec _ _ _ Hgt) as (a & rest & Hread & -> & Ha). cbn [read_loop]. rewrite Hread. cbn [mbind option_bind].
  assert (Hb : buf ++ a ++ [">"%char] = take (length buf + S (length a)) (buf ++ a ++ ">"%char :: rest)).
  { rewrite take_app_add. f_equal. rewrite (cons_middle ">"%char a rest), (assoc app). by rewrite take_app_length' by (rewrite length_app; cbn; lia). }
  rewrite Hb, index_of_take, Hi by done. destruct (i + length endMarkerBytes <=? _) eqn:E.
  - b2p. cbn in E. assert (length buf + S (length a) = i + 6) as -> by lia. rewrite take_take, Nat.min_l by lia. do 2 f_equal.
    change (length endMarkerBytes) with 6. replace (i + 6) with (length buf + S (length a)) by lia. by rewrite drop_app_add, drop_app_past.
  - rewrite <- Hb. assert (HW : (buf ++ a ++ [">"%char]) ++ rest = buf ++ a ++ ">"%char :: rest) by (by rewrite <- !app_assoc).
    specialize (IH (buf ++ a ++ [">"%char]) rest). rewrite HW in IH. apply IH; [done| |rewrite length_app in Hf; cbn in Hf; lia].
    rewrite Hb, index_of_take, Hi by done. by rewrite E.
Qed.

Lemma frame_reads (msg rest : bytes) : framable msg = true -> readNetconf (frame msg ++ rest) = Some (msg, rest).
Proof.
  intros Hf. apply bool_decide_eq_true in Hf. unfold readNetconf. pose proof (index_of_app _ rest _ _ marker_nonempty Hf) as Hi.
  rewrite (read_finds _ [] _ _ Hi) by done. cbn [app]. unfold frame. rewrite <- app_assoc. rewrite take_app_length. do 2 f_equal.
  by rewrite drop_app_add, drop_app_length.
Qed.

Lemma framable_clean (msg : bytes) : framable msg = true -> index_of msg endMarkerBytes = None.
Proof.
  intros Hf. apply bool_decide_eq_true in Hf. pose proof (index_of_take (length msg) (frame msg) endMarkerBytes marker_nonempty) as Ht.
  unfold frame in Ht at 1. rewrite take_app_length, Hf in Ht. rewrite Ht. destruct (_ <=? _) eqn:E; [|done]. b2p. cbn in E. lia.
Qed.

Lemma ReadBytes_split (d : ascii) (l chunk rest : bytes) : ReadBytes d l = Some (chunk, rest) -> l = chunk ++ rest.
Proof.
  revert chunk. induction l as [|c l IH]; intros chunk H; [done|]. cbn in H. destruct (Ascii.eqb c d); [by injection H as <- <-|].
  destruct (ReadBytes d l) as [[a r]|]; [|done]. injection H as <- <-. cbn. f_equal. by apply IH.
Qed.

Lemma read_nothing (fuel : nat) (buf l : bytes) : index_of (buf ++ l) endMarkerBytes = None -> read_loop fuel buf l = None.
Proof.
  revert buf l. induction fuel as [|fuel IH]; intros buf l Hi; [done|]. cbn [read_loop]. destruct (ReadBytes ">" l) as [[chunk rest]|] eqn:Hr; [|done].
  apply ReadBytes_split in Hr as ->. cbn [mbind option_bind]. rewrite (assoc app) in Hi.
  destruct (index_of (buf ++ chunk) endMarkerBytes) as [i|] eqn:E; [by rewrite (index_of_app _ rest _ i) in Hi|]. by apply IH.
Qed.

(** Text in which no closing bracket is followed by a greater-than sign, after the byte [prev]. *)
Fixpoint calm (prev : ascii) (l : bytes) : bool :=
  match l with
  | [] => true
  | c :: r => negb (Ascii.eqb prev "]" && Ascii.eqb c ">") && calm c r
  end.

Lemma calm_app (prev : ascii) (a b : bytes) : calm prev (a ++ b) = calm prev a && calm (default prev (last a)) b.
Proof.
  revert prev. induction a as [|c a IH]; intros prev; [done|]. cbn [app calm]. rewrite IH, andb_assoc. f_equal.
  by destruct a as [|d a]; [|rewrite (last_cons c (d :: a)); destruct (last (d :: a))].
Qed.

Lemma calm_head (p q : ascii) (l : bytes) : head l <> Some ">"%char -> calm p l = calm q l.
Proof. destruct l as [|c l]; [done|]. cbn. intros Hc. assert (Ascii.eqb c ">" = false) as -> by (apply Ascii.eqb_neq; congruence). by rewrite !andb_false_r. Qed.

Lemma calm_clean (prev : ascii) (l : bytes) : ">"%char ∉ l -> calm prev l = true.
Proof.
  revert prev. induction l as [|c l IH]; intros prev Hl; [done|]. apply not_elem_of_cons in Hl as [Hc Hl]. cbn. rewrite IH by done.
  assert (Ascii.eqb c ">" = false) as -> by (by apply Ascii.eqb_neq). by rewrite andb_false_r.
Qed.

Lemma calm_around (a e b : bytes) :
  calm ">" a = true -> default ">"%char (last a) <> "]"%char -> calm " " e = true -> head b = Some "<"%char -> calm "<" b = true -> calm ">" (a ++ e ++ b) = true.
Proof.
  intros Ha Hl He Hh Hb. rewrite calm_app, Ha, calm_app. cbn [andb]. rewrite (calm_head _ "<" b) by (by rewrite Hh). rewrite Hb, andb_true_r.
  destruct e as [|c e]; [done|]. cbn in *. by rewrite (proj2 (Ascii.eqb_neq _ "]") Hl).
Qed.

Lemma calm_framable (prev : ascii) (l : bytes) : calm prev l = true -> framable l = true.
Proof.
  intros Hl. apply bool_decide_eq_true. revert prev Hl. induction l as [|c l IH]; intros prev Hl; [done|]. cbn [calm] in Hl. apply andb_true_iff in Hl as [_ Hl].
  assert (Hno : has_prefix (frame (c :: l)) endMarkerBytes = false).
  { unfold frame. destruct l as [|d [|e l]]; cbn in *.
    - by destruct (Ascii.eqb c "]").
    - by destruct (Ascii.eqb c "]"), (Ascii.eqb d "]").
    - destruct (Ascii.eqb c "]"), (Ascii.eqb d "]"), (Ascii.eqb e ">"); cbn in *; rewrite ?andb_false_r in *; done. }
  unfold frame in *. cbn [app] in *. cbn [index_of length]. rewrite Hno. by rewrite (IH c Hl).
Qed.

(** ** Lemmas: replies *)

Lemma framable_sep (a b : bytes) (d : ascii) :
  index_of a endMarkerBytes = None -> d ∉ endMarkerBytes -> framable b = true -> framable (a ++ d :: b) = true.
Proof.
  intros Ha Hd Hb. apply bool_decide_eq_true in Hb. apply bool_decide_eq_true. unfold frame in *. rewrite <- app_assoc. cbn [app].
  rewrite index_of_sep by done. rewrite Hb. cbn. f_equal. rewrite length_app. cbn. lia.
Qed.

Lemma head_app_some {A : Type} (a b : list A) (x : A) : head a = Some x -> head (a ++ b) = Some x.
Proof. by destruct a. Qed.

Lemma spaces_calm (d : nat) (prev : ascii) (l : bytes) : head l = Some "<"%char -> calm prev (spaces d ++ l) = calm "<" l.
Proof.
  intros Hl. revert prev. induction d as [|d IH]; intros prev; cbn [spaces replicate concat app]; [apply calm_head; by rewrite Hl|].
  change (calm prev (" "%char :: " "%char :: (spaces d ++ l)) = calm "<" l). cbn [calm]. rewrite !andb_false_r. cbn. apply IH.
Qed.

Lemma name_calm (l : bytes) (prev : ascii) : forallb name_byte l = true -> calm prev l = true /\ (l <> [] -> default prev (last l) <> "]"%char).
Proof.
  intros Hl. split.
  - apply calm_clean. intros H. rewrite forallb_forall in Hl. specialize (Hl _ (proj1 (list_elem_of_In _ _) H)). done.
  - intros Hne. destruct (last l) as [c|] eqn:E; [|by apply last_None in E]. cbn. intros ->. apply last_Some in E as [l' ->].
    rewrite forallb_app in Hl. by apply andb_true_iff in Hl as [_ Hl].
Qed.

(** Attributes and the end of a tag. *)
Lemma attrs_calm (attrs : list (string * string)) (prev : ascii) (r : bytes) :
  prev <> "]"%char -> forallb attr_ok attrs = true -> calm prev (concat (map attr_text attrs) ++ ">"%char :: r) = calm ">" r.
Proof.
  revert prev. induction attrs as [|[k v] attrs IH]; intros prev Hp Hok.
  - cbn. by rewrite (proj2 (Ascii.eqb_neq prev "]") Hp).
  - cbn in Hok. apply andb_true_iff in Hok as [Ha Hok]. apply andb_true_iff in Ha as [Hk _]. cbn in Hk. apply name_ok_bytes in Hk as [Hk _].
    cbn [map concat]. unfold attr_text at 1. cbn [fst snd]. rewrite <- !app_assoc. cbn [app str calm]. rewrite andb_false_r. cbn [negb andb].
    rewrite calm_app, (proj1 (name_calm _ _ Hk)). cbn [app calm]. rewrite !andb_false_r. cbn [negb andb].
    rewrite calm_app, calm_clean by (apply escape_clean; set_solver). cbn [andb app calm]. rewrite andb_false_r. cbn [negb andb]. by apply IH.
Qed.

Definition print_calm_at (x : xml) : Prop := forall d prev r, xml_ok x = true -> calm prev (print d x ++ r) = calm ">" r.

Lemma print_calm (x : xml) : print_calm_at x.
Proof.
  induction x as [name attrs text cs IH] using xml_nested_ind. intros d prev r Hok. cbn [xml_ok] in Hok.
  apply andb_true_iff in Hok as [Hok Hcs]. apply andb_true_iff in Hok as [Hok Hne]. apply andb_true_iff in Hok as [Hok Ht]. apply andb_true_iff in Hok as [Hn Ha].
  apply name_ok_bytes in Hn as [Hn Hn0]. cbn [print]. unfold tag_open, tag_close. rewrite <- !app_assoc. rewrite spaces_calm by done. cbn [app str calm]. cbn [negb andb].
  rewrite calm_app. destruct (name_calm _ "<" Hn) as [-> Hlast]. cbn [andb]. rewrite attrs_calm by auto.
  assert (Hclose : forall p, calm p ("<"%char :: "/"%char :: str name ++ ">"%char :: r) = calm ">" r).
  { intros p. cbn [calm]. rewrite !andb_false_r. cbn [negb andb]. rewrite calm_app. destruct (name_calm _ "/" Hn) as [-> Hl]. cbn [andb calm].
    by rewrite (proj2 (Ascii.eqb_neq _ "]") (Hl Hn0)). }
  destruct cs as [|c cs]; cbn [app].
  - rewrite calm_app, calm_clean by (apply escape_clean; set_solver). cbn [andb]. apply Hclose.
  - rewrite <- app_assoc. cbn [app]. enough (Hk : forall kids p, Forall print_calm_at kids -> forallb xml_ok kids = true ->
      calm p (concat (map (fun c => newline :: print (S d) c) kids) ++ newline :: spaces d ++ "<"%char :: "/"%char :: str name ++ ">"%char :: r) = calm ">" r)
      by (by apply (Hk (c :: cs))).
    clear IH Hcs. intros kids p Hkids. revert p. induction Hkids as [|x kids Hx _ IHk]; intros p Hcs; cbn [map concat app calm]; rewrite andb_false_r; cbn [negb andb].
    + rewrite spaces_calm by done. apply Hclose.
    + cbn in Hcs. apply andb_true_iff in Hcs as [Hc Hcs]. rewrite <- app_assoc, Hx by done. by apply IHk.
Qed.

(** The head of a reply up to the value of the message id, and the value. *)
Definition reply_head : bytes := xml_header ++ str "<rpc-reply xmlns=" ++ quoted base_namespace ++ str " message-id=".
Definition reply_id (id : bytes) : bytes := match id with [] => str "0" | _ => id end.

Lemma reply_open_split (id r : bytes) : reply_open id ++ r = reply_head ++ dquote :: reply_id id ++ dquote :: ">"%char :: r.
Proof. unfold reply_open, reply_head, id_attr. rewrite <- !app_assoc. reflexivity. Qed.

Lemma index_byte (a r : bytes) (d : ascii) : d ∉ a -> index_of (a ++ d :: r) [d] = Some (length a).
Proof.
  induction a as [|c a IH]; intros Ha; cbn [app index_of has_prefix length]; [rewrite Ascii.eqb_refl, has_prefix_nil; done|].
  apply not_elem_of_cons in Ha as [Hc Ha]. rewrite (proj2 (Ascii.eqb_neq c d)) by congruence. cbn. by rewrite IH.
Qed.

Lemma index_byte_none (l : bytes) (d : ascii) (n : nat) : index_of l [d] = Some n -> d ∉ take n l.
Proof.
  revert n. induction l as [|c l IH]; intros n Hn; cbn [index_of has_prefix] in Hn; [done|]. rewrite has_prefix_nil, andb_true_r in Hn.
  destruct (Ascii.eqb_spec c d); [by injection Hn as <-; apply not_elem_of_nil|]. destruct (index_of l [d]) as [m|]; [|done].
  injection Hn as <-. cbn. apply not_elem_of_cons. split; [congruence|by apply IH].
Qed.

Lemma message_id_clean (req : bytes) :
  framable req = true -> index_of (extractMessageID req) endMarkerBytes = None /\ dquote ∉ extractMessageID req.
Proof.
  intros Hr. apply framable_clean in Hr. unfold extractMessageID. assert (H0 : index_of (str "0") endMarkerBytes = None /\ dquote ∉ str "0") by (split; [done|set_solver]).
  destruct (index_of req id_attr) as [start|]; [|done]. cbv zeta. set (rest := drop _ req). assert (Hrest : index_of rest endMarkerBytes = None) by (by apply index_of_drop).
  destruct (index_of rest [dquote]) as [n|] eqn:En; [|done]. split; [by rewrite index_of_take, Hrest by done|by apply index_byte_none].
Qed.

Lemma reply_id_clean (id : bytes) :
  index_of id endMarkerBytes = None -> dquote ∉ id -> index_of (reply_id id) endMarkerBytes = None /\ dquote ∉ reply_id id.
Proof. destruct id; [|done]. intros _ _. split; [done|set_solver]. Qed.

(** A reply with that id and a calm body is framed correctly and carries the id. *)
Lemma reply_sound (id body : bytes) :
  index_of id endMarkerBytes = None -> dquote ∉ id -> calm ">" body = true ->
  framable (reply_open id ++ body) = true /\ extractMessageID (reply_open id ++ body) = reply_id id.
Proof.
  intros Hi Hq Hb. destruct (reply_id_clean id Hi Hq) as [Hi' Hq']. rewrite reply_open_split. split.
  - apply framable_sep; [vm_compute; reflexivity|set_solver|]. apply framable_sep; [done|set_solver|]. apply (calm_framable " "). by cbn.
  - unfold extractMessageID. set (r := dquote :: ">"%char :: body).
    assert (Hidx : index_of (reply_head ++ dquote :: reply_id id ++ r) id_attr = Some (length reply_head - 11)).
    { rewrite (cons_middle dquote), (assoc app). apply index_of_app; [done|vm_compute; reflexivity]. }
    rewrite Hidx. replace (length reply_head - 11 + length id_attr) with (S (length reply_head)) by (vm_compute; reflexivity). rewrite drop_app_past.
    subst r. rewrite index_byte by done. by rewrite take_app_length.
Qed.

Section Sessions.
Context {GL : GoLib} {JT : JsonText} (parseError : string -> string).

(** A store whose report can be sent: none, one that [reply_reads_back] covers, or one that is refused
    with an error text that cannot be mistaken for a marker. *)
Definition store_ok (s : MetricsStore) : Prop :=
  RawJSON s = "" \/
  match unmarshal_map (RawJSON s) with
  | Some obj => value_ok (VMap obj) = true
  | None => calm " " (str (parseError (RawJSON s))) = true
  end.

Lemma payload_calm (s : MetricsStore) :
  store_ok s ->
  (exists p, buildMetricsReply parseError s = Ok p /\ calm ">" (p ++ str "</rpc-reply>") = true) \/
  (exists e, buildMetricsReply parseError s = Err e /\ calm " " (str e) = true).
Proof.
  destruct s as [raw pd]. intros Hs. destruct (decide (raw = "")) as [->|He]; [left; by eexists|]. destruct Hs as [Hs|Hs]; [done|].
  destruct (unmarshal_map (RawJSON (mkMetricSample raw pd))) as [obj|] eqn:Hobj.
  - left. destruct (reply_tree_ok _ Hs) as [Hx Hn]. eexists. split; [by apply reply_prints|]. by rewrite print_calm.
  - right. eexists. split; [|exact Hs]. unfold buildMetricsReply, MetricsLatest. rewrite Hobj. cbn [RawJSON]. by rewrite (proj2 (String.eqb_neq _ _) He).
Qed.

Lemma answer_sound (s : MetricsStore) (req : bytes) :
  framable req = true -> store_ok s ->
  framable (answer parseError s req) = true /\ extractMessageID (answer parseError s req) = reply_id (extractMessageID req).
Proof.
  intros Hreq Hs. destruct (message_id_clean req Hreq) as [Hi Hq]. unfold answer. cbv zeta.
  destruct (_ || _); [|by apply (reply_sound _ (str "<ok/></rpc-reply>"))].
  destruct (payload_calm s Hs) as [(p & -> & Hp)|(e & -> & He)]; apply reply_sound; try done.
  apply (calm_around (str "<rpc-error>" ++ str "<error-type>application</error-type>" ++ str "<error-tag>operation-failed</error-tag>" ++
    str "<error-severity>error</error-severity>" ++ str "<error-message>")); done.
Qed.

(** What the loop writes for a stream of requests. *)
Lemma serve_all (store : nat -> MetricsStore) (done_ : nat -> bool) (reqs : list bytes) (tail : bytes) (fuel i : nat) :
  Forall (fun req => framable req = true) reqs -> (forall i, done_ i = false) -> index_of tail endMarkerBytes = None -> length reqs < fuel ->
  serve parseError store done_ fuel i (concat (map frame reqs) ++ tail) = concat (map frame (imap (fun k req => answer parseError (store (i + k)) req) reqs)).
Proof.
  intros Hr Hd Ht. revert fuel i. induction Hr as [|req reqs Hreq _ IH]; intros fuel i Hf; (destruct fuel as [|fuel]; [cbn in Hf; lia|]); cbn [serve]; rewrite Hd.
  - cbn [map concat app]. unfold readNetconf. by rewrite (read_nothing _ [] tail).
  - cbn [map concat]. rewrite <- app_assoc, frame_reads by done. rewrite imap_cons. cbn [map concat]. rewrite Nat.add_0_r. f_equal.
    cbn in Hf. rewrite IH by lia. do 2 f_equal. apply imap_ext. intros k x _. cbn. do 2 f_equal. lia.
Qed.

Lemma read_all_frames (msgs : list bytes) (fuel : nat) :
  Forall (fun m => framable m = true) msgs -> length msgs < fuel -> read_all fuel (concat (map frame msgs)) = msgs.
Proof.
  intros Hm. revert fuel. induction Hm as [|m msgs Hx _ IH]; intros fuel Hf; (destruct fuel as [|fuel]; [cbn in Hf; lia|]); cbn [read_all map concat]; [done|].
  rewrite frame_reads by done. f_equal. apply IH. cbn in Hf. lia.
Qed.

Lemma frames_length (msgs : list bytes) : length msgs <= length (concat (map frame msgs)).
Proof. induction msgs as [|m msgs IH]; [done|]. cbn [map concat length]. unfold frame at 1. rewrite !length_app. cbn. lia. Qed.

(** C9: a session is a conversation. Whatever requests a client sends, each ended by the marker, and
    whatever reports arrive meanwhile, the client that splits the output at the markers reads the
    greeting and then exactly one reply to each request, in order and with the id of the request;
    nothing else is written. *)
Theorem session_answers_each (store : nat -> MetricsStore) (done_ : nat -> bool) (reqs : list bytes) (tail : bytes) :
  Forall (fun req => framable req = true) reqs -> index_of tail endMarkerBytes = None ->
  (forall i, done_ i = false) -> (forall i, store_ok (store i)) ->
  let output := handleConn parseError store done_ true (concat (map frame reqs) ++ tail) in
  read_all (S (length output)) output = helloMessage :: imap (fun i req => answer parseError (store i) req) reqs /\
  forall i req, reqs !! i = Some req ->
    extractMessageID (answer parseError (store i) req) = reply_id (extractMessageID req).
Proof.
  intros Hr Ht Hd Hs output. split.
  - assert (Hout : output = concat (map frame (helloMessage :: imap (fun i req => answer parseError (store i) req) reqs))).
    { subst output. cbn [handleConn map concat]. f_equal. apply serve_all; [done..|]. rewrite length_app. pose proof (frames_length reqs). lia. }
    rewrite Hout. apply read_all_frames; [|pose proof (frames_length (helloMessage :: imap (fun i req => answer parseError (store i) req) reqs)); lia].
    constructor; [vm_compute; reflexivity|]. apply Forall_lookup. intros i m Hm. rewrite list_lookup_imap in Hm.
    destruct (reqs !! i) as [req|] eqn:Hreq; [|done]. injection Hm as <-. apply answer_sound; [|done]. by apply (Forall_lookup_1 _ _ _ _ Hr Hreq).
  - intros i req Hreq. apply answer_sound; [|done]. by apply (Forall_lookup_1 _ _ _ _ Hr Hreq).
Qed.

End Sessions.

(** ** Witness *)

Definition get_request (id : string) : bytes := str "<rpc " ++ str "message-id=" ++ quoted (str id) ++ str "><get/></rpc>".
Definition no_report : nat -> MetricsStore := fun _ => NewMetricsStore.

Lemma session_answers_each_witness :
  let output := handleConn (GL := ascii_golib) (JT := small_text) (fun _ => "") no_report (fun _ => false) true
                  (concat (map frame [get_request "101"; get_request "102"]) ++ str "<rpc") in
  read_all (S (length output)) output = [helloMessage; rpcReply (str "101") (str "<data/>"); rpcReply (str "102") (str "<data/>")].
Proof.
  pose proof (session_answers_each (GL := ascii_golib) (JT := small_text) (fun _ => "") no_report (fun _ => false) [get_request "101"; get_request "102"] (str "<rpc")) as H.
  cbv zeta in H |- *. destruct H as [H _]; [repeat constructor; vm_compute; reflexivity|vm_compute; reflexivity|done|by left|].
  rewrite H. vm_compute. reflexivity.
Defined.

(** The greeting of a client is taken for a request and answered, which RFC 6241 does not allow. *)
Lemma client_hello_answered :
  answer (GL := ascii_golib) (JT := small_text) (fun _ => "") NewMetricsStore (str "<hello/>") = rpcReply (str "0") (str "<ok/>").
Proof. vm_compute. reflexivity. Qed.
