(* ===== verification/Snapshot.v ===== *)
(** * The operational snapshot (internal/ems/netconf/snapshot.go, internal/ems/services/netconf_snapshot.go)

    The document the NETCONF server process reads: the managed objects with their measurements, the
    active alarms and the latest report of the station. The service rewrites its file whenever a
    report, a performance report or an alarm event arrives. A json.RawMessage is compacted when it is
    marshalled; [Compact] is that function of encoding/json, None for a text that is no JSON value. *)
From S2P Require Import Prelude GoNum GoStrings FileSystem Json Alarms Errors Nrm Pm Metrics Normalize XmlReply Persist Artifacts.

(** ** The structures (snapshot.go) *)

Record SnapshotConfig := mkSnapshotConfig {
  sc_SubNetwork : string;
  sc_ManagedElement : string;
  sc_ENBFunctionID : string;
  sc_GNBFunctionID : string;
  sc_ElementType : string
}.

Record measurements := mkMeasurements { ThroughputDL : string; ThroughputUL : string; SINRUL : string; CQIDL : string }.

Record eUtranCell := mkCell_ { cell_ID : string; Measurements : option measurements }.

Record activeAlarm := mkActiveAlarm {
  aa_AlarmID : string;
  aa_ManagedObjectInstance : string;
  aa_EventType : string;
  aa_ProbableCause : string;
  aa_PerceivedSeverity : string;
  aa_SpecificProblem : string;
  aa_FirstEventTime : string;
  aa_LastEventTime : string;
  aa_OccurrenceCount : string
}.

Record enbFunction := mkENBFunction { enb_ID : string; enb_EUtranCell : list eUtranCell; enb_SRSRAN : string; enb_Faults : option (list activeAlarm) }.
Record gnbFunction := mkGNBFunction { gnb_ID : string; gnb_NRCellDU : list eUtranCell; gnb_Faults : option (list activeAlarm); gnb_SRSRAN : string }.
Record managedElement := mkManagedElement { me_ID : string; me_ENBFunction : list enbFunction; me_GNBFunction : list gnbFunction }.
Record subNetwork_ := mkSubNetwork { sn_ID : string; sn_ManagedElement : list managedElement }.
Record combinedSnapshot := mkCombined { ENBLegacy : option string; GNBLegacy : option string; cs_SubNetwork : list subNetwork_ }.

(** *** Their JSON: members in the order of the fields, empty ones left out where the tag says so *)

(** Raw text is written as it is, like the literal of a number. *)
Definition JRaw (text : string) : json := JNum text.

Definition omit_string (k s : string) : list (string * json) := if String.eqb s "" then [] else [(k, JStr s)].
Definition omit_list (k : string) (l : list json) : list (string * json) := match l with [] => [] | _ => [(k, JArr l)] end.
Definition omit_ptr (k : string) (o : option json) : list (string * json) := match o with Some j => [(k, j)] | None => [] end.

Definition measurements_json (m : measurements) : json :=
  JObj (omit_string "throughputDL" (ThroughputDL m) ++ omit_string "throughputUL" (ThroughputUL m) ++
        omit_string "sinrUL" (SINRUL m) ++ omit_string "cqiDL" (CQIDL m)).

Definition cell_json (c : eUtranCell) : json :=
  JObj (("id", JStr (cell_ID c)) :: omit_ptr "measurements" (measurements_json <$> Measurements c)).

Definition alarm_json (a : activeAlarm) : json :=
  JObj (("alarm_id", JStr (aa_AlarmID a)) ::
        omit_string "managed_object_instance" (aa_ManagedObjectInstance a) ++ omit_string "event_type" (aa_EventType a) ++
        omit_string "probable_cause" (aa_ProbableCause a) ++ omit_string "perceived_severity" (aa_PerceivedSeverity a) ++
        omit_string "specific_problem" (aa_SpecificProblem a) ++ omit_string "first_event_time" (aa_FirstEventTime a) ++
        omit_string "last_event_time" (aa_LastEventTime a) ++ omit_string "occurrence_count" (aa_OccurrenceCount a)).

Definition fault_member : string := "ems-fault-management:fault_management".

Definition faults_json (o : option (list activeAlarm)) : list (string * json) :=
  omit_ptr fault_member ((fun l => JObj (omit_list "active_alarm" (map alarm_json l))) <$> o).

Definition enb_json (f : enbFunction) : json :=
  JObj (("id", JStr (enb_ID f)) :: omit_list "EUtranCell" (map cell_json (enb_EUtranCell f)) ++
        ("srsran-vendor-ext:srsran", JObj [("enb_metrics", JRaw (enb_SRSRAN f))]) :: faults_json (enb_Faults f)).

Definition gnb_json (f : gnbFunction) : json :=
  JObj (("id", JStr (gnb_ID f)) :: omit_list "NRCellDU" (map cell_json (gnb_NRCellDU f)) ++
        faults_json (gnb_Faults f) ++ [("srsran-nr-vendor-ext:srsran", JObj [("gnb_metrics", JRaw (gnb_SRSRAN f))])]).

Definition element_json (e : managedElement) : json :=
  JObj (("id", JStr (me_ID e)) :: omit_list "ENBFunction" (map enb_json (me_ENBFunction e)) ++
        omit_list "GNBCUCPFunction" (map gnb_json (me_GNBFunction e))).

Definition network_json (n : subNetwork_) : json :=
  JObj (("id", JStr (sn_ID n)) :: omit_list "ManagedElement" (map element_json (sn_ManagedElement n))).

Definition network_member : string := "_3gpp-common-managed-element:SubNetwork".

Definition snapshot_json (s : combinedSnapshot) : json :=
  JObj (omit_ptr "ems-enb-metrics:enb_metrics" (JRaw <$> ENBLegacy s) ++ omit_ptr "ems-gnb-metrics:gnb_metrics" (JRaw <$> GNBLegacy s) ++
        omit_list network_member (map network_json (cs_SubNetwork s))).

Definition isGNBProfile (elementType : string) : bool := String.eqb elementType "gnb" || String.eqb elementType "oai-gnb".

Section Snapshot.
Context {GL : GoLib} (Compact : string -> option bytes).

(** *** Measurements *)

Definition formatDecimal6 (v : float64) : string := FormatFloat v 6.

Definition put_measurement (src : gmap string Value) (acc : measurements * bool) (def : MetricMeta) : measurements * bool :=
  match src !! CanonicalKey def with
  | None => acc
  | Some v =>
      let val := formatDecimal6 (v_Value v) in
      let '(out, seen) := acc in
      if String.eqb (Leaf def) "throughputDL" then (out <|ThroughputDL := val|>, true)
      else if String.eqb (Leaf def) "throughputUL" then (out <|ThroughputUL := val|>, true)
      else if String.eqb (Leaf def) "sinrUL" then (out <|SINRUL := val|>, true)
      else if String.eqb (Leaf def) "cqiDL" then (out <|CQIDL := val|>, true)
      else (out, seen)
  end.

Definition buildMeasurements (src : gmap string Value) : option measurements :=
  let '(out, seen) := foldl (put_measurement src) (mkMeasurements "" "" "" "", false) MeasurementDefinitions in
  if seen then Some out else None.

Definition latestReport (store : option PmStore) : option Report := s ← store; Latest s.

Definition buildCell (c : Object) (report : option Report) : eUtranCell :=
  mkCell_ (o_Name c)
    (match report with
     | None => None
     | Some r => let mm := default ∅ (ByDN r !! o_DN c) in if bool_decide (mm = ∅) then None else buildMeasurements mm
     end).

Definition cellMeasurements (c : Object) (store : option PmStore) : option measurements :=
  report ← latestReport store; buildMeasurements (default ∅ (ByDN report !! o_DN c)).

(** *** Alarms *)

Definition active_alarm (r : AlarmRecord) : activeAlarm :=
  mkActiveAlarm (r_AlarmID r) (r_ManagedObjectInstance r) (r_EventType r) (r_ProbableCause r) (r_PerceivedSeverity r) (r_SpecificProblem r)
    (FormatRFC3339Nano (r_FirstSeen r)) (FormatRFC3339Nano (r_LastSeen r)) (FormatUint (r_Count r)).

Definition buildFaultState (store : option AlarmStore) : option (list activeAlarm) :=
  s ← store; match Active s with [] => None | l => Some (map active_alarm l) end.

(** *** The document *)

Definition snapshot_of (cfg : SnapshotConfig) (reg : Registry) (pmStore : option PmStore) (legacy : string) (alarmStores : list (option AlarmStore)) : combinedSnapshot :=
  let cells := EUtranCells reg in
  let faults := store ← head alarmStores; buildFaultState store in
  let fn := mkENBFunction (sc_ENBFunctionID cfg) (map (fun c => buildCell c (latestReport pmStore)) cells) legacy faults in
  let me :=
    if isGNBProfile (sc_ElementType cfg)
    then mkManagedElement (sc_ManagedElement cfg) []
           [mkGNBFunction (sc_GNBFunctionID cfg) (map (fun c => mkCell_ (o_Name c) (cellMeasurements c pmStore)) cells) faults legacy]
    else mkManagedElement (sc_ManagedElement cfg) [fn] [] in
  let gnb := isGNBProfile (sc_ElementType cfg) in
  mkCombined (if gnb then None else Some legacy) (if gnb then Some legacy else None) [mkSubNetwork (sc_SubNetwork cfg) [me]].

(** The error of json.Marshal for raw text that is no JSON value. *)
Definition marshal_error : error := Plain "json: error calling MarshalJSON for type json.RawMessage".

Definition BuildCombinedSnapshot (now : time) (cfg : SnapshotConfig) (reg : option Registry) (pmStore : option PmStore) (normalizedLegacy : string)
    (alarmStores : list (option AlarmStore)) : result error bytes :=
  let critical := [WithOp "netconf.snapshot"; WithSeverity ErrSeverityCritical] in
  let missingFunctionID := if isGNBProfile (sc_ElementType cfg) then String.eqb (sc_GNBFunctionID cfg) "" else String.eqb (sc_ENBFunctionID cfg) "" in
  if String.eqb (sc_SubNetwork cfg) "" || String.eqb (sc_ManagedElement cfg) "" || missingFunctionID
  then Err (New now ErrCodeConfig "snapshot config is incomplete" critical)
  else match reg with
       | None => Err (New now ErrCodeInternal "nrm registry is nil" critical)
       | Some reg =>
           let legacy := if String.eqb normalizedLegacy "" then "{}" else normalizedLegacy in
           match Compact legacy with
           | Some text => Ok (Marshal (snapshot_json (snapshot_of cfg reg pmStore (unstr text) alarmStores)))
           | None => Err (default marshal_error (Wrap now (Some marshal_error) ErrCodeInternal "build snapshot json failed" critical))
           end
       end.

(** ** The service (netconf_snapshot.go) *)

(** What the service shares with the rest of the agent when it acts. *)
Record SharedState := mkShared { sh_reg : Registry; sh_pm : PmStore; sh_alarms : AlarmStore }.

(** What it waits for: a message of the bus (an alarm or a performance event, or another), the end of
    the subscription, a report of the station. *)
Inductive snap_event := SnapBus (fcaps : bool) | SnapBusClosed | SnapSample (sample : MetricSample).

Record NetconfSnapshot := mkNetconfSnapshot { ns_Path : string; ns_NRM : SnapshotConfig }.

Record SnapState := mkSnapState { lastNormalized : string; Legacy : MetricsStore; ns_world : World }.

Context {JT : JsonText}.

(** [now] stamps the errors, which are only logged. *)
Definition writeSnapshot (s : NetconfSnapshot) (now : time) (sh : SharedState) (normalized : string) (w : World) : World :=
  if String.eqb (ns_Path s) "" then w
  else match BuildCombinedSnapshot now (ns_NRM s) (Some (sh_reg sh)) (Some (sh_pm sh)) normalized [Some (sh_alarms sh)] with
       | Err _ => w
       | Ok b => fst (WriteSnapshotFile (ns_Path s) b w)
       end.

(** Run up to its loop: the snapshot of an empty report. *)
Definition snap_start (s : NetconfSnapshot) (now : time) (sh : SharedState) (legacy : MetricsStore) (w : World) : SnapState :=
  mkSnapState "{}" legacy (writeSnapshot s now sh "{}" w).

Definition snap_step (s : NetconfSnapshot) (now : time) (sh : SharedState) (ev : snap_event) (st : SnapState) : SnapState :=
  match ev with
  | SnapBusClosed => st
  | SnapBus fcaps => if fcaps then st <|ns_world ::= writeSnapshot s now sh (lastNormalized st)|> else st
  | SnapSample sample =>
      match NormalizeForNetconf (RawJSON sample) with
      | None => st
      | Some normalized =>
          let st := st <|Legacy ::= MetricsUpdate (mkSample normalized)|> in
          if String.eqb (ns_Path s) "" then st
          else st <|lastNormalized := normalized|> <|ns_world ::= writeSnapshot s now sh normalized|>
      end
  end.

End Snapshot.

(** ** Specification: what a reader of the document finds *)

(** The leaves of a cell and the metrics they show. *)
Definition leaf_keys : list (string * string) :=
  [("throughputDL", CanonicalUEDLBitrate); ("throughputUL", CanonicalUEULBitrate); ("sinrUL", CanonicalUEULSNR); ("cqiDL", CanonicalUEDLCQI)].

Definition reading (report : option Report) (c : Object) (key : string) : option float64 :=
  r ← report; mm ← ByDN r !! o_DN c; v ← mm !! key; Some (v_Value v).

Definition cell_shows {GL : GoLib} (report : option Report) (c : Object) (j : json) : Prop :=
  member "id" j = Some (JStr (o_Name c)) /\
  forall leaf key, (leaf, key) ∈ leaf_keys -> artifact_at ["measurements"; leaf] j = (fun x => JStr (formatDecimal6 x)) <$> reading report c key.

(** The texts of an active alarm; an empty one is left out. *)
Definition alarm_texts (r : AlarmRecord) : list (string * string) :=
  [("managed_object_instance", r_ManagedObjectInstance r); ("event_type", r_EventType r); ("probable_cause", r_ProbableCause r);
   ("perceived_severity", r_PerceivedSeverity r); ("specific_problem", r_SpecificProblem r); ("first_event_time", FormatRFC3339Nano (r_FirstSeen r));
   ("last_event_time", FormatRFC3339Nano (r_LastSeen r)); ("occurrence_count", FormatUint (r_Count r))].

Definition alarm_shows (r : AlarmRecord) (j : json) : Prop :=
  member "alarm_id" j = Some (JStr (r_AlarmID r)) /\
  forall k text, (k, text) ∈ alarm_texts r -> member k j = if String.eqb text "" then None else Some (JStr text).

(** A list member: absent when the list is empty. *)
Definition lists {A : Type} (shows : A -> json -> Prop) (l : list A) (o : option json) : Prop :=
  match o with
  | None => l = []
  | Some (JArr js) => Forall2 shows l js
  | _ => False
  end.

Definition function_path (cfg : SnapshotConfig) : list string :=
  [network_member; "ManagedElement"; if isGNBProfile (sc_ElementType cfg) then "GNBCUCPFunction" else "ENBFunction"].
Definition function_id_ (cfg : SnapshotConfig) : string := if isGNBProfile (sc_ElementType cfg) then sc_GNBFunctionID cfg else sc_ENBFunctionID cfg.
Definition cell_member (cfg : SnapshotConfig) : string := if isGNBProfile (sc_ElementType cfg) then "NRCellDU" else "EUtranCell".
Definition report_member (cfg : SnapshotConfig) : string :=
  if isGNBProfile (sc_ElementType cfg) then "ems-gnb-metrics:gnb_metrics" else "ems-enb-metrics:enb_metrics".

Definition complete (cfg : SnapshotConfig) : bool :=
  negb (String.eqb (sc_SubNetwork cfg) "") && negb (String.eqb (sc_ManagedElement cfg) "") && negb (String.eqb (function_id_ cfg) "").

(** ** Lemmas *)

Lemma jget_app (k : string) (a b : list (string * json)) : jget k (a ++ b) = match jget k a with Some v => Some v | None => jget k b end.
Proof. induction a as [|[k' v] a IH]; cbn; [done|]. by destruct (String.eqb k' k). Qed.

Lemma jget_omit_string (k k' s : string) : jget k (omit_string k' s) = if String.eqb k' k then (if String.eqb s "" then None else Some (JStr s)) else None.
Proof. unfold omit_string. destruct (String.eqb s ""); cbn; by destruct (String.eqb k' k). Qed.

Lemma jget_omit_ptr (k k' : string) (o : option json) : jget k (omit_ptr k' o) = if String.eqb k' k then o else None.
Proof. destruct o; cbn; by destruct (String.eqb k' k). Qed.

Lemma jget_omit_list (k k' : string) (l : list json) :
  jget k (omit_list k' l) = if String.eqb k' k then match l with [] => None | _ => Some (JArr l) end else None.
Proof. destruct l; cbn; by destruct (String.eqb k' k). Qed.

Lemma jget_cons (k k' : string) (v : json) (l : list (string * json)) : jget k ((k', v) :: l) = if String.eqb k' k then Some v else jget k l.
Proof. done. Qed.

(** Evaluates the comparisons of literal names in a goal. *)
Ltac names :=
  repeat match goal with
  | |- context [String.eqb (String ?a ?s) (String ?b ?t)] =>
      let v := eval vm_compute in (String.eqb (String a s) (String b t)) in change (String.eqb (String a s) (String b t)) with v; cbv iota
  end.

Ltac find_member := repeat (rewrite ?jget_app, ?jget_cons, ?jget_omit_string, ?jget_omit_ptr, ?jget_omit_list; names).

Lemma alarm_json_shows (r : AlarmRecord) : alarm_shows r (alarm_json (active_alarm r)).
Proof.
  split; [done|]. intros k text Hk. unfold alarm_json, member. unfold alarm_texts in Hk. rewrite !elem_of_cons, elem_of_nil in Hk.
  destruct_or? Hk; try done; injection Hk as -> ->; cbn [aa_ManagedObjectInstance aa_EventType aa_ProbableCause aa_PerceivedSeverity aa_SpecificProblem
    aa_FirstEventTime aa_LastEventTime aa_OccurrenceCount active_alarm]; find_member.
  all: by destruct (String.eqb _ "").
Qed.

Section Documents.
Context {GL : GoLib} (Compact : string -> option bytes).
(** strconv.FormatFloat never gives an empty text. *)
Hypothesis decimals_nonempty : forall x, FormatFloat x 6 <> "".

Lemma foldl_filter {A B : Type} (f : A -> B -> A) (keep : B -> bool) (l : list B) (a : A) :
  (forall a b, keep b = false -> f a b = a) -> foldl f a l = foldl f a (List.filter keep l).
Proof. intros H. revert a. induction l as [|b l IH]; intros a; [done|]. cbn. destruct (keep b) eqn:E; cbn; [apply IH|]. rewrite H by done. apply IH. Qed.

Definition shown (def : MetricMeta) : bool := existsb (String.eqb (Leaf def)) ["throughputDL"; "throughputUL"; "sinrUL"; "cqiDL"].

Lemma hidden_measurement (src : gmap string Value) (acc : measurements * bool) (def : MetricMeta) : shown def = false -> put_measurement src acc def = acc.
Proof.
  unfold shown, put_measurement. cbn. rewrite !orb_false_iff. intros (-> & -> & -> & -> & _). destruct acc as [out seen]. by destruct (src !! CanonicalKey def).
Qed.

(** The text of a leaf: none when there is no value. *)
Definition leaf_text (src : gmap string Value) (key : string) : string :=
  match src !! key with Some v => formatDecimal6 (v_Value v) | None => "" end.

Lemma buildMeasurements_spec (src : gmap string Value) :
  let m := mkMeasurements (leaf_text src CanonicalUEDLBitrate) (leaf_text src CanonicalUEULBitrate) (leaf_text src CanonicalUEULSNR) (leaf_text src CanonicalUEDLCQI) in
  buildMeasurements src = Some m \/ (buildMeasurements src = None /\ m = mkMeasurements "" "" "" "").
Proof.
  unfold buildMeasurements. rewrite (foldl_filter _ shown) by (intros; by apply hidden_measurement).
  let l := eval vm_compute in (List.filter shown MeasurementDefinitions) in change (List.filter shown MeasurementDefinitions) with l.
  unfold leaf_text, put_measurement, CanonicalUEDLBitrate, CanonicalUEULBitrate, CanonicalUEULSNR, CanonicalUEDLCQI. cbn [foldl CanonicalKey Leaf].
  destruct (src !! "ue.dl_bitrate"), (src !! "ue.ul_bitrate"), (src !! "ue.ul_snr"), (src !! "ue.dl_cqi"); auto.
Qed.

Definition leaf_of (m : measurements) (leaf : string) : string :=
  if String.eqb leaf "throughputDL" then ThroughputDL m else if String.eqb leaf "throughputUL" then ThroughputUL m
  else if String.eqb leaf "sinrUL" then SINRUL m else CQIDL m.

Lemma measurement_member (m : measurements) (leaf key : string) :
  (leaf, key) ∈ leaf_keys -> member leaf (measurements_json m) = if String.eqb (leaf_of m leaf) "" then None else Some (JStr (leaf_of m leaf)).
Proof.
  intros Hk. unfold leaf_keys in Hk. rewrite !elem_of_cons, elem_of_nil in Hk. unfold member, measurements_json.
  destruct_or? Hk; try done; injection Hk as -> _; unfold leaf_of; find_member.
  all: by destruct (String.eqb (_ m) "").
Qed.

Lemma leaf_text_json (src : gmap string Value) (key : string) :
  (if String.eqb (leaf_text src key) "" then None else Some (JStr (leaf_text src key))) = (fun v => JStr (formatDecimal6 (v_Value v))) <$> src !! key.
Proof.
  unfold leaf_text. destruct (src !! key) as [v|]; [|done]. by rewrite (proj2 (String.eqb_neq (formatDecimal6 (v_Value v)) "") (decimals_nonempty _)).
Qed.

Lemma leaf_of_text (src : gmap string Value) (leaf key : string) :
  (leaf, key) ∈ leaf_keys ->
  leaf_of (mkMeasurements (leaf_text src CanonicalUEDLBitrate) (leaf_text src CanonicalUEULBitrate) (leaf_text src CanonicalUEULSNR) (leaf_text src CanonicalUEDLCQI)) leaf =
  leaf_text src key.
Proof.
  intros Hk. unfold leaf_keys in Hk. rewrite !elem_of_cons, elem_of_nil in Hk.
  destruct_or? Hk; try done; injection Hk as -> ->; unfold leaf_of; names; reflexivity.
Qed.

Lemma cell_measurements_at (id leaf : string) (o : option measurements) :
  artifact_at ["measurements"; leaf] (cell_json (mkCell_ id o)) = (measurements_json <$> o) ≫= member leaf.
Proof. by destruct o. Qed.

Lemma measurements_show (src : gmap string Value) (leaf key id : string) :
  (leaf, key) ∈ leaf_keys ->
  artifact_at ["measurements"; leaf] (cell_json (mkCell_ id (buildMeasurements src))) = (fun v => JStr (formatDecimal6 (v_Value v))) <$> src !! key.
Proof.
  intros Hk. rewrite <- leaf_text_json, <- (leaf_of_text src leaf key Hk).
  rewrite cell_measurements_at. destruct (buildMeasurements_spec src) as [-> |[-> ->]]; [|by unfold leaf_of; repeat case_match].
  cbn [fmap option_fmap option_map mbind option_bind]. by apply measurement_member with key.
Qed.

Lemma reading_default (r : Report) (c : Object) (key : string) :
  (fun x => JStr (formatDecimal6 x)) <$> reading (Some r) c key = (fun v => JStr (formatDecimal6 (v_Value v))) <$> (default ∅ (ByDN r !! o_DN c) : gmap string Value) !! key.
Proof. unfold reading. cbn [mbind option_bind]. destruct (ByDN r !! o_DN c) as [mm|]; cbn; [|by rewrite lookup_empty]. by destruct (mm !! key). Qed.

Lemma empty_measurements : buildMeasurements ∅ = None.
Proof.
  unfold buildMeasurements. rewrite (foldl_filter _ (fun _ => false)); [done|]. intros a d _. unfold put_measurement. by rewrite lookup_empty.
Qed.

Lemma cell_json_shows (c : Object) (report : option Report) : cell_shows report c (cell_json (buildCell c report)).
Proof.
  split; [done|]. intros leaf key Hk. unfold buildCell. destruct report as [r|].
  - rewrite reading_default, <- (measurements_show _ leaf key (o_Name c) Hk). do 3 f_equal. case_bool_decide as E; [|done]. rewrite E. symmetry. apply empty_measurements.
  - cbn. unfold leaf_keys in Hk. rewrite !elem_of_cons, elem_of_nil in Hk. by destruct_or? Hk; injection Hk as -> ->.
Qed.

Lemma nr_cell_json_shows (c : Object) (pm : option PmStore) : cell_shows (latestReport pm) c (cell_json (mkCell_ (o_Name c) (cellMeasurements c pm))).
Proof.
  split; [done|]. intros leaf key Hk. unfold cellMeasurements. destruct (latestReport pm) as [r|]; cbn [mbind option_bind].
  - by rewrite reading_default, <- (measurements_show _ leaf key (o_Name c) Hk).
  - cbn. unfold leaf_keys in Hk. rewrite !elem_of_cons, elem_of_nil in Hk. by destruct_or? Hk; injection Hk as -> ->.
Qed.

Lemma lists_map {A B : Type} (shows : A -> json -> Prop) (f : A -> B) (g : B -> json) (l : list A) :
  (forall a, shows a (g (f a))) -> lists shows l (match map g (map f l) with [] => None | _ => Some (JArr (map g (map f l))) end).
Proof. intros H. destruct l as [|a l]; [done|]. cbn. constructor; [apply H|]. induction l; constructor; auto. Qed.

(** The members of a function, whichever it is. *)
Lemma function_members (gnb : bool) (sn me fid raw : string) (cells : list eUtranCell) (faults : option (list activeAlarm)) :
  let s := mkCombined (if gnb then None else Some raw) (if gnb then Some raw else None)
             [mkSubNetwork sn [if gnb then mkManagedElement me [] [mkGNBFunction fid cells faults raw] else mkManagedElement me [mkENBFunction fid cells raw faults] []]] in
  let path := [network_member; "ManagedElement"; if gnb then "GNBCUCPFunction" else "ENBFunction"] in
  let doc := snapshot_json s in
  artifact_at [network_member; "id"] doc = Some (JStr sn) /\
  artifact_at [network_member; "ManagedElement"; "id"] doc = Some (JStr me) /\
  artifact_at (path ++ ["id"]) doc = Some (JStr fid) /\
  artifact_at (path ++ [if gnb then "NRCellDU" else "EUtranCell"]) doc = (match map cell_json cells with [] => None | _ => Some (JArr (map cell_json cells)) end) /\
  artifact_at (path ++ [fault_member; "active_alarm"]) doc =
    (l ← faults; match map alarm_json l with [] => None | _ => Some (JArr (map alarm_json l)) end) /\
  artifact_at [if gnb then "ems-gnb-metrics:gnb_metrics" else "ems-enb-metrics:enb_metrics"] doc = Some (JRaw raw).
Proof.
  destruct gnb; cbv zeta; split_and!; try reflexivity.
  all: destruct cells as [|c cells]; try reflexivity; destruct faults as [[|a l]|]; reflexivity.
Qed.

Lemma faults_listed (s : AlarmStore) :
  lists alarm_shows (Active s) (l ← buildFaultState (Some s); match map alarm_json l with [] => None | _ => Some (JArr (map alarm_json l)) end).
Proof.
  unfold buildFaultState. cbn [mbind option_bind]. pose proof (lists_map alarm_shows active_alarm alarm_json (Active s) alarm_json_shows) as H.
  by destruct (Active s).
Qed.

(** C21: the snapshot tells the state of the agent. It can be built exactly when the names of the
    network, the element and its function are configured and the report is JSON. Then it names them,
    lists the cells of the registry in order, each with those leaves whose metric is in the latest
    performance report and with its value, lists the active alarms with their texts, times and
    counts, and holds the report of the station. *)
Theorem snapshot_tells_state (now : time) (cfg : SnapshotConfig) (reg : Registry) (pm : PmStore) (legacy : string) (alarms : AlarmStore) :
  let text := Compact (if String.eqb legacy "" then "{}" else legacy) in
  match BuildCombinedSnapshot Compact now cfg (Some reg) (Some pm) legacy [Some alarms] with
  | Err _ => complete cfg = false \/ text = None
  | Ok b =>
      complete cfg = true /\
      exists doc raw, b = Marshal doc /\ text = Some raw /\
        artifact_at [network_member; "id"] doc = Some (JStr (sc_SubNetwork cfg)) /\
        artifact_at [network_member; "ManagedElement"; "id"] doc = Some (JStr (sc_ManagedElement cfg)) /\
        artifact_at (function_path cfg ++ ["id"]) doc = Some (JStr (function_id_ cfg)) /\
        lists (cell_shows (Latest pm)) (EUtranCells reg) (artifact_at (function_path cfg ++ [cell_member cfg]) doc) /\
        lists alarm_shows (Active alarms) (artifact_at (function_path cfg ++ [fault_member; "active_alarm"]) doc) /\
        artifact_at [report_member cfg] doc = Some (JRaw (unstr raw))
  end.
Proof.
  cbv zeta. unfold BuildCombinedSnapshot, complete, function_id_, function_path, cell_member, report_member.
  destruct (Compact _) as [raw|] eqn:Hc.
  2: { destruct (_ || _); right; done. }
  destruct (String.eqb (sc_SubNetwork cfg) ""); [by left|]. destruct (String.eqb (sc_ManagedElement cfg) ""); [by left|]. cbn [orb negb andb].
  unfold snapshot_of. cbn [head mbind option_bind]. destruct (isGNBProfile (sc_ElementType cfg)).
  - destruct (String.eqb (sc_GNBFunctionID cfg) ""); [by left|]. split; [done|]. eexists _, raw. split; [done|]. split; [done|].
    destruct (function_members true (sc_SubNetwork cfg) (sc_ManagedElement cfg) (sc_GNBFunctionID cfg) (unstr raw)
      (map (fun c => mkCell_ (o_Name c) (cellMeasurements c (Some pm))) (EUtranCells reg)) (buildFaultState (Some alarms))) as (H1 & H2 & H3 & H4 & H5 & H6).
    split_and!; [exact H1|exact H2|exact H3| | |exact H6].
    + cbv zeta in H4. rewrite H4. apply (lists_map (cell_shows (Latest pm))). intros c. apply nr_cell_json_shows.
    + cbv zeta in H5. rewrite H5. apply faults_listed.
  - destruct (String.eqb (sc_ENBFunctionID cfg) ""); [by left|]. split; [done|]. eexists _, raw. split; [done|]. split; [done|].
    destruct (function_members false (sc_SubNetwork cfg) (sc_ManagedElement cfg) (sc_ENBFunctionID cfg) (unstr raw)
      (map (fun c => buildCell c (latestReport (Some pm))) (EUtranCells reg)) (buildFaultState (Some alarms))) as (H1 & H2 & H3 & H4 & H5 & H6).
    split_and!; [exact H1|exact H2|exact H3| | |exact H6].
    + cbv zeta in H4. rewrite H4. apply (lists_map (cell_shows (Latest pm))). intros c. apply cell_json_shows.
    + cbv zeta in H5. rewrite H5. apply faults_listed.
Qed.

End Documents.

(** ** The file of the service *)

Lemma WriteSnapshotFile_quiet (path : string) (data : bytes) (w : World) :
  path <> "" -> quiet w -> quiet (fst (WriteSnapshotFile path data w)) /\ snd (WriteSnapshotFile path data w) = Ok tt.
Proof.
  intros Hp Hq. unfold WriteSnapshotFile. rewrite (proj2 (String.eqb_neq _ _) Hp). unfold MkdirAll.
  match goal with |- context [syscall ?a w] => destruct (syscall_quiet a w Hq) as (Hq1 & Hr1 & _); destruct (syscall a w) as [w1 r1] end.
  cbn in Hq1, Hr1. subst r1. unfold WriteFile, OpenTrunc.
  match goal with |- context [syscall ?a w1] => destruct (syscall_quiet a w1 Hq1) as (Hq2 & Hr2 & Hd2); destruct (syscall a w1) as [w2 r2] end.
  cbn in Hq2, Hr2, Hd2. subst r2. set (tmp := path +:+ ".tmp") in *.
  assert (Htmp : is_Some (disk w2 !! tmp)) by (rewrite Hd2, lookup_insert_eq; eauto). clear Hd2. destruct Htmp as [i Hi].
  unfold Write. destruct (tick_quiet w2 Hq2) as [Hq3 Hn3]. pose proof (tick_disk w2) as Hd3. destruct (tick w2) as [w3 f3]. cbn in Hq3, Hn3, Hd3. subst f3. rewrite Hd3, Hi.
  set (w4 := w3 <|disk := _|>). assert (Hq4 : quiet w4) by (by destruct w3). assert (Hi4 : is_Some (disk w4 !! tmp)) by (destruct w3; cbn; rewrite lookup_insert_eq; eauto).
  clearbody w4. destruct Hi4 as [i4 Hi4]. unfold Close, on_file.
  match goal with |- context [syscall ?a w4] => destruct (syscall_quiet a w4 Hq4) as (Hq5 & Hr5 & Hd5); destruct (syscall a w4) as [w5 r5] end.
  cbn in Hq5, Hr5, Hd5. rewrite Hi4 in Hr5, Hd5. subst r5. unfold Rename.
  match goal with |- context [syscall ?a w5] => destruct (syscall_quiet a w5 Hq5) as (Hq6 & Hr6 & _); destruct (syscall a w5) as [w6 r6] end.
  cbn in Hq6, Hr6. rewrite Hd5, lookup_insert_eq in Hr6. subst r6. done.
Qed.

Section Service.
Context {GL : GoLib} {JT : JsonText} (Compact : string -> option bytes) (s : NetconfSnapshot).
Hypothesis path_set : ns_Path s <> "".

(** A moment: the clock, the shared stores and what happened. *)
Definition moment : Type := time * SharedState * snap_event.

Definition snap_run (evs : list moment) (st : SnapState) : SnapState :=
  foldl (fun st (m : moment) => let '(now, sh, ev) := m in snap_step Compact s now sh ev st) st evs.

(** The latest report that could be normalised. *)
Definition latest_text (evs : list moment) (text : string) : string :=
  foldl (fun text (m : moment) => match snd m with SnapSample x => default text (NormalizeForNetconf (RawJSON x)) | _ => text end) text evs.

(** The events that make the service rewrite its file. *)
Definition triggers (ev : snap_event) : bool :=
  match ev with
  | SnapBus fcaps => fcaps
  | SnapBusClosed => false
  | SnapSample x => match NormalizeForNetconf (RawJSON x) with Some _ => true | None => false end
  end.

Lemma step_text (m : moment) (st : SnapState) :
  let '(now, sh, ev) := m in lastNormalized (snap_step Compact s now sh ev st) = latest_text [m] (lastNormalized st).
Proof.
  destruct m as [[now sh] ev]. unfold snap_step, latest_text. cbn. destruct ev as [[]| |x]; try by destruct st.
  destruct (NormalizeForNetconf (RawJSON x)) as [t|]; [|done]. rewrite (proj2 (String.eqb_neq _ _) path_set). by destruct st.
Qed.

Lemma step_world (now : time) (sh : SharedState) (ev : snap_event) (st : SnapState) :
  ns_world (snap_step Compact s now sh ev st) =
  if triggers ev then writeSnapshot Compact s now sh (latest_text [(now, sh, ev)] (lastNormalized st)) (ns_world st) else ns_world st.
Proof.
  unfold snap_step, latest_text, triggers. cbn. destruct ev as [[]| |x]; try by destruct st.
  destruct (NormalizeForNetconf (RawJSON x)) as [t|]; [|done]. rewrite (proj2 (String.eqb_neq _ _) path_set). by destruct st.
Qed.

Lemma run_text (evs : list moment) (st : SnapState) : lastNormalized (snap_run evs st) = latest_text evs (lastNormalized st).
Proof.
  revert st. induction evs as [|[[now sh] ev] evs IH]; intros st; [done|]. unfold snap_run, latest_text in *. cbn [foldl]. rewrite IH.
  pose proof (step_text (now, sh, ev) st) as Hs. cbn beta iota in Hs. rewrite Hs. done.
Qed.

Lemma writeSnapshot_spec (now : time) (sh : SharedState) (text : string) (w : World) :
  let w' := writeSnapshot Compact s now sh text w in
  (quiet w -> quiet w') /\
  (forall k, k <> ns_Path s -> k <> ns_Path s +:+ ".tmp" -> disk w' !! k = disk w !! k) /\
  match BuildCombinedSnapshot Compact now (ns_NRM s) (Some (sh_reg sh)) (Some (sh_pm sh)) text [Some (sh_alarms sh)] with
  | Err _ => w' = w
  | Ok b => (disk w' !! ns_Path s = disk w !! ns_Path s \/ exists i, disk w' !! ns_Path s = Some i /\ contents i = b) /\
            (quiet w -> exists i, disk w' !! ns_Path s = Some i /\ contents i = b)
  end.
Proof.
  cbv zeta. unfold writeSnapshot. rewrite (proj2 (String.eqb_neq _ _) path_set). destruct (BuildCombinedSnapshot _ _ _ _ _ _ _) as [b|e]; [|done].
  pose proof (WriteSnapshotFile_spec (ns_Path s) b w path_set) as Hspec. pose proof (WriteSnapshotFile_quiet (ns_Path s) b w path_set) as Hquiet.
  destruct (WriteSnapshotFile (ns_Path s) b w) as [w' r]. cbn [fst snd] in *. destruct Hspec as [Hother Hres]. split_and!; [intros Hq; by apply Hquiet|done| |].
  - destruct r; [by right|by left].
  - intros Hq. destruct (Hquiet Hq) as [_ ->]. done.
Qed.

Lemma run_world (evs : list moment) (st : SnapState) :
  let st' := snap_run evs st in
  (quiet (ns_world st) -> quiet (ns_world st')) /\
  (forall k, k <> ns_Path s -> k <> ns_Path s +:+ ".tmp" -> disk (ns_world st') !! k = disk (ns_world st) !! k).
Proof.
  revert st. induction evs as [|[[now sh] ev] evs IH]; intros st; [done|]. cbv zeta in *. unfold snap_run in *. cbn [foldl].
  destruct (IH (snap_step Compact s now sh ev st)) as [Hq Ho].
  assert (Hstep : (quiet (ns_world st) -> quiet (ns_world (snap_step Compact s now sh ev st))) /\
    forall k, k <> ns_Path s -> k <> ns_Path s +:+ ".tmp" -> disk (ns_world (snap_step Compact s now sh ev st)) !! k = disk (ns_world st) !! k).
  { rewrite step_world. destruct (triggers ev); [|done]. edestruct writeSnapshot_spec as (H1 & H2 & _). split; [exact H1|exact H2]. }
  split; [intros Hw; by apply Hq, Hstep|]. intros k H1 H2. rewrite Ho by done. by apply Hstep.
Qed.

(** The file follows the state. Whatever came before, when a report, a performance report or an
    alarm event arrives, the file becomes the snapshot of the stores of that moment with the latest
    report that could be normalised; under I/O errors it is that or what it was. Nothing else makes
    the service touch it, and it touches no other file but its temporary one. *)
Theorem snapshot_file_follows (evs : list moment) (now : time) (sh : SharedState) (ev : snap_event) (st : SnapState) (b : bytes) :
  let before := snap_run evs st in
  let after := snap_run (evs ++ [(now, sh, ev)]) st in
  let text := latest_text (evs ++ [(now, sh, ev)]) (lastNormalized st) in
  BuildCombinedSnapshot Compact now (ns_NRM s) (Some (sh_reg sh)) (Some (sh_pm sh)) text [Some (sh_alarms sh)] = Ok b ->
  lastNormalized after = text /\
  (forall k, k <> ns_Path s -> k <> ns_Path s +:+ ".tmp" -> disk (ns_world after) !! k = disk (ns_world st) !! k) /\
  (triggers ev = false -> ns_world after = ns_world before) /\
  (triggers ev = true ->
     let published w := exists i, disk w !! ns_Path s = Some i /\ contents i = b in
     (disk (ns_world after) !! ns_Path s = disk (ns_world before) !! ns_Path s \/ published (ns_world after)) /\
     (quiet (ns_world st) -> published (ns_world after))).
Proof.
  cbv zeta. intros Hb. split; [apply run_text|]. destruct (run_world (evs ++ [(now, sh, ev)]) st) as [_ Ho]. split; [exact Ho|]. clear Ho.
  assert (Hafter : snap_run (evs ++ [(now, sh, ev)]) st = snap_step Compact s now sh ev (snap_run evs st)) by (unfold snap_run; by rewrite foldl_app).
  rewrite Hafter, step_world. split; intros Ht; rewrite Ht; [done|].
  assert (Htext : latest_text [(now, sh, ev)] (lastNormalized (snap_run evs st)) = latest_text (evs ++ [(now, sh, ev)]) (lastNormalized st))
    by (rewrite run_text; unfold latest_text; by rewrite foldl_app).
  rewrite Htext. pose proof (writeSnapshot_spec now sh (latest_text (evs ++ [(now, sh, ev)]) (lastNormalized st)) (ns_world (snap_run evs st))) as (_ & _ & Hw).
  rewrite Hb in Hw. destruct Hw as [Hw1 Hw2]. split; [exact Hw1|]. intros Hq. apply Hw2. by apply (run_world evs st).
Qed.

End Service.

(** ** Witnesses *)

Lemma ascii_decimals (x : float64) : @FormatFloat ascii_golib x 6 <> "".
Proof. cbn. destruct (f_to_Z_exact x); [|done]. by destruct (FormatInt z). Qed.

Definition one_cell : Registry := fst (ensureCell "1" demo_registry).
Definition one_alarm : AlarmStore :=
  fst (fst (Raise (GL := ascii_golib) (RC := BitCodec.bit_codec) 5%Z "srsenb" "degraded" (bare_alarm AlarmS1Down "S1 lost" "") NewStore (mkWorld ∅ []))).
Definition lab_config : SnapshotConfig := mkSnapshotConfig "lab" "enb1" "1" "" "enb".
Definition keep_text : string -> option bytes := fun t => Some (str t).

Lemma snapshot_tells_state_witness :
  length (Active one_alarm) = 1 /\ length (EUtranCells one_cell) = 1 /\
  exists doc, BuildCombinedSnapshot (GL := ascii_golib) keep_text 0%Z lab_config (Some one_cell) (Some NewPmStore) "" [Some one_alarm] = Ok (Marshal doc) /\
    lists alarm_shows (Active one_alarm) (artifact_at (function_path lab_config ++ [fault_member; "active_alarm"]) doc).
Proof.
  split; [vm_compute; reflexivity|]. split; [vm_compute; reflexivity|].
  pose proof (snapshot_tells_state (GL := ascii_golib) keep_text ascii_decimals 0%Z lab_config one_cell NewPmStore "" one_alarm) as H. cbv zeta in H.
  destruct (BuildCombinedSnapshot _ _ _ _ _ _ _) as [b|e].
  - destruct H as (_ & doc & raw & -> & _ & _ & _ & _ & _ & H & _). by exists doc.
  - destruct H as [H|H]; [vm_compute in H|]; done.
Defined.

Definition lab_snapshot : NetconfSnapshot := mkNetconfSnapshot "/run/snap.json" lab_config.
Definition lab_shared : SharedState := mkShared one_cell NewPmStore one_alarm.
Definition lab_bytes : bytes :=
  match BuildCombinedSnapshot (GL := ascii_golib) keep_text 7%Z lab_config (Some one_cell) (Some NewPmStore) "{}" [Some one_alarm] with Ok b => b | Err _ => [] end.

Lemma snapshot_file_follows_witness :
  let st := mkSnapState "{}" NewMetricsStore (mkWorld ∅ []) in
  exists i, disk (ns_world (snap_run (GL := ascii_golib) (JT := small_text) keep_text lab_snapshot [(7%Z, lab_shared, SnapBus true)] st)) !! "/run/snap.json" = Some i /\
            contents i = lab_bytes.
Proof.
  cbv zeta. pose proof (snapshot_file_follows (GL := ascii_golib) (JT := small_text) keep_text lab_snapshot ltac:(done) [] 7%Z lab_shared (SnapBus true)
    (mkSnapState "{}" NewMetricsStore (mkWorld ∅ [])) lab_bytes) as H. cbv zeta in H.
  destruct H as (_ & _ & _ & H); [vm_compute; reflexivity|]. apply H; [done|]. apply Forall_nil. done.
Defined.
