(* ===== verification/Services.v ===== *)
(** * The data path and the services (internal/ems/adapters/srsran, internal/ems/services, internal/ems/telemetry)

    The station sends reports as datagrams. The reader puts them into a channel; the fan-out copies
    each into two bounded channels and drops what does not fit; the consumer maps the reports of the
    first and publishes the samples, the snapshot service takes those of the second (Snapshot). The
    other services act on the messages of the bus (Bus). Each loop is given by what one round does;
    the rounds of the data path interleave freely. Log lines are left out. *)
From S2P Require Import Prelude GoNum GoStrings FileSystem Json Alarms Notifications Errors Nrm Pm Tca Health Metrics Mediation XmlReply.

(** ** Messages of the bus *)

Inductive message :=
| MTelemetry (samples : list Sample)
| MReport (report : Report)
| MAlarm (evt : Event).

(** ** The socket (enb_metrics.go, oai_gnb_metrics.go, adapter.go) *)

(** What one round of the reader meets: the deadline cannot be set, the read times out (and the context
    may be cancelled then), it fails otherwise, or a datagram arrives. *)
Inductive uds_round := UdsDeadlineError (text : string) | UdsTimeout (cancelled : bool) | UdsReadError | UdsDatagram (data : bytes).

Definition uds_buffer : nat := N.to_nat 65535.

Definition uds_message (data : bytes) : MetricSample :=
  mkSample (unstr (map (fun c => if Ascii.eqb c newline then " "%char else c) (take uds_buffer data))).

Definition uds_error (now : time) (cause : string) (code msg sev : string) : error :=
  default (Plain cause) (Wrap now (Some (Plain cause)) code msg [WithOp "uds"; WithSeverity sev]).

(** The samples the loop emits; the outer option is None while it runs, the inner one its error. *)
Fixpoint uds_loop (now : time) (rounds : list uds_round) : list MetricSample * option (option error) :=
  match rounds with
  | [] => ([], None)
  | UdsDeadlineError text :: _ => ([], Some (Some (uds_error now text ErrCodeNetwork "set socket read deadline failed" ErrSeverityMajor)))
  | UdsTimeout cancelled :: r => if cancelled then ([], Some None) else uds_loop now r
  | UdsReadError :: r => uds_loop now r
  | UdsDatagram data :: r => let '(samples, res) := uds_loop now r in (uds_message data :: samples, res)
  end.

(** [removed] is the error of removing an old socket other than its absence, [listened] that of
    listening. *)
Definition ENBMetricsReader_Run (now : time) (SocketPath : string) (removed listened : option string) (rounds : list uds_round) :
    list MetricSample * option (option error) :=
  if String.eqb SocketPath ""
  then ([], Some (Some (New now ErrCodeConfig "socket path is empty" [WithOp "uds"; WithSeverity ErrSeverityCritical])))
  else match removed, listened with
       | Some e, _ => ([], Some (Some (uds_error now e ErrCodeIO "remove existing socket failed" ErrSeverityMajor)))
       | None, Some e => ([], Some (Some (uds_error now e ErrCodeNetwork "listen on unixgram socket failed" ErrSeverityCritical)))
       | None, None => uds_loop now rounds
       end.

Definition ElementENB : string := "enb".
Definition ElementGNB : string := "gnb".
Definition ElementOAIGNB : string := "oai-gnb".
Definition ElementEPC : string := "epc".

(** The reader of an element: the path it listens on; the readers differ in name only. *)
Definition NewMetricsSource (elementType socketPath : string) : result error string :=
  if existsb (String.eqb elementType) [ElementENB; ElementGNB; ElementOAIGNB; ElementEPC] then Ok socketPath
  else Err (Plain "unsupported element type").

(** ** The reader service (metrics_reader.go) *)

Definition reader_error (now : time) (err : error) : error :=
  default err (Wrap now (Some err) ErrCodeNetwork "metrics socket reader failed" [WithOp "metrics_reader"; WithSeverity ErrSeverityMajor]).

(** What the agent's end means for the service: its own result and the report to the tracker. *)
Definition reader_end (now : time) (res : option error) (t : Tracker) : option (Tracker * option error) :=
  match res with
  | None => Some (t, None)
  | Some e => t ← TrackerDown now ComponentUDS (Some (reader_error now e)) t; Some (t, Some (reader_error now e))
  end.

(** Run: up, then the agent, then its end. A tracker that sends on a closed channel panics (None). *)
Definition MetricsReader_Run (now : time) (agent : list MetricSample * option (option error)) (t : Tracker) :
    option (Tracker * list MetricSample * option (option error)) :=
  t ← TrackerUp now ComponentUDS t;
  match snd agent with
  | None => Some (t, fst agent, None)
  | Some res => '(t, out) ← reader_end now res t; Some (t, fst agent, Some out)
  end.

(** With LogUDS the agent writes into a channel of its own and the service copies it; one round of that
    loop takes the context, the agent's end or a sample, whichever the select picks. *)
Inductive reader_case := RcDone | RcEnd (res : option error) | RcSample (sample : MetricSample).

Fixpoint reader_loop (now : time) (cases : list reader_case) (t : Tracker) : option (Tracker * list MetricSample * option (option error)) :=
  match cases with
  | [] => Some (t, [], None)
  | RcDone :: _ => Some (t, [], Some None)
  | RcEnd res :: _ => '(t, out) ← reader_end now res t; Some (t, [], Some out)
  | RcSample sample :: r => '(t, samples, res) ← reader_loop now r t; Some (t, sample :: samples, res)
  end.

Definition MetricsReader_RunLogged (now : time) (cases : list reader_case) (t : Tracker) : option (Tracker * list MetricSample * option (option error)) :=
  t ← TrackerUp now ComponentUDS t; reader_loop now cases t.

(** ** Listening: the control service (config_control.go, Run) and the NETCONF server (server.go, Run) *)

(** How http.Server.Serve goes on: it serves, or returns, with the text of its error; [expected] for
    ErrServerClosed, [net_closed] for an error that is net.ErrClosed. *)
Inductive serving := Serving | Served (err : option string) (expected net_closed cancelled : bool).

Definition listen_error (now : time) (op cause msg sev : string) : error :=
  default (Plain cause) (Wrap now (Some (Plain cause)) ErrCodeNetwork msg [WithOp op; WithSeverity sev]).

(** What it listens on; the address of a socket without the prefix, and otherwise as it is given. *)
Definition control_listen (addr : string) : string * string :=
  if HasPrefix (TrimSpace addr) "unix:" then ("unix", TrimSpace (TrimPrefix (TrimSpace addr) "unix:")) else ("tcp", addr).

(** [useful]: there is a supervisor, a store or a manager. The result is None while it serves. *)
Definition ConfigControl_Run (now : time) (addr : string) (useful : bool) (listened : option string) (s : serving) : option (option error) :=
  let '(network, a) := control_listen addr in
  if String.eqb (TrimSpace addr) "" || negb useful then Some None
  else if String.eqb network "unix" && String.eqb a ""
  then Some (Some (New now ErrCodeConfig "control addr unix path is empty" [WithOp "config_control"; WithSeverity ErrSeverityCritical]))
  else match listened, s with
       | Some e, _ => Some (Some (listen_error now "config_control" e "control listen failed" ErrSeverityCritical))
       | None, Serving => None
       | None, Served err expected net_closed cancelled =>
           match err with
           | None => Some None
           | Some e => if expected || cancelled || (String.eqb network "unix" && net_closed) then Some None
                       else Some (Some (listen_error now "config_control" e "control server failed" ErrSeverityMajor))
           end
       end.

(** A round of Accept: a connection, or an error with the context cancelled or not. *)
Inductive accept_round := Accepted (conn : nat) | AcceptError (cancelled : bool).

(** The connections that are handled, and the result. *)
Fixpoint accept_loop (rounds : list accept_round) : list nat * option (option error) :=
  match rounds with
  | [] => ([], None)
  | Accepted c :: r => let '(l, res) := accept_loop r in (c :: l, res)
  | AcceptError true :: _ => ([], Some None)
  | AcceptError false :: r => accept_loop r
  end.

Definition Server_Run (now : time) (addr : string) (listened : option string) (rounds : list accept_round) : list nat * option (option error) :=
  if String.eqb addr "" then ([], Some (Some (New now ErrCodeConfig "netconf addr is empty" [WithOp "netconf-tcp"; WithSeverity ErrSeverityCritical])))
  else match listened with
       | Some e => ([], Some (Some (listen_error now "netconf-tcp" e "netconf listen failed" ErrSeverityCritical)))
       | None => accept_loop rounds
       end.

(** ** Channels between the services *)

(** The capacity wiring.go gives them. *)
Definition raw_capacity : nat := 200.

(** A select with a default: the queue after it, and whether the sample went in. *)
Definition try_send {A : Type} (x : A) (q : list A) : list A * bool :=
  if length q <? raw_capacity then (q ++ [x], true) else (q, false).

(** *** raw_fanout.go: one round *)
Definition fanout_round (sample : MetricSample) (out1 out2 : list MetricSample) : list MetricSample * bool * (list MetricSample * bool) :=
  (try_send sample out1, try_send sample out2).

Section Consumers.
Context {GL : GoLib} {JT : JsonText}.

(** *** metrics_consumer.go: one round *)
Definition consumer_round (now : time) (mapper : Mapper) (raw : MetricSample) : list message :=
  match Map now mapper (RawJSON raw) with
  | Err _ => []
  | Ok [] => []
  | Ok samples => [MTelemetry samples]
  end.

(** *** telemetry/store.go and telemetry_cache.go *)

Definition TelemetryStore : Type := list Sample.
Definition TelemetryUpdate (samples : list Sample) (s : TelemetryStore) : TelemetryStore := samples.
Definition TelemetryLatest (s : TelemetryStore) : list Sample := s.

Definition cache_round (msg : message) (s : TelemetryStore) : TelemetryStore :=
  match msg with MTelemetry samples => TelemetryUpdate samples s | _ => s end.

(** *** The PM engine's part of the bus (fcaps/pm/engine.go, Run) *)
Definition pm_round (now : time) (msg : message) (e : PmEngine) : PmEngine * list message :=
  match msg with
  | MTelemetry samples => let '(e, reports) := pm_step (PmSamples now samples) e in (e, MReport <$> reports)
  | _ => (e, [])
  end.

Definition pm_tick (now : time) (e : PmEngine) : PmEngine * list message :=
  let '(e, reports) := pm_step (PmTick now) e in (e, MReport <$> reports).

Context {RC : RecordCodec} {RO : RangeOrder}.

(** *** tca_service.go: one message; a service whose engine is disabled does not run *)
Definition tca_round (clock : time) (c : TcaConfig) (msg : message) (st : St) : St * list message :=
  match msg with
  | MReport report => if Enabled c then let '(st, events) := Evaluate clock c report st in (st, MAlarm <$> events) else (st, [])
  | _ => (st, [])
  end.

(** *** netconf_notifications.go: one message *)
Definition notification_round (now : time) (msg : message) (q : NotificationQueue) : NotificationQueue :=
  match msg with MAlarm evt => AppendAlarmEvent now evt q | _ => q end.

End Consumers.

Section Sink.
(** *** raw_metrics_sink.go: the reports of an EPC go to a file *)

Record RawMetricsSink := mkSink { sink_Path : string; latest : string }.

(** json.MarshalIndent of a raw message. *)
Context (Indent : string -> result string bytes).

Definition sink_flush (s : RawMetricsSink) (w : World) : World * option string :=
  if String.eqb (sink_Path s) "" || String.eqb (latest s) "" then (w, None)
  else
    let w := fst (MkdirAll (filepath_Dir (sink_Path s)) w) in
    let tmp := sink_Path s +:+ ".tmp" in
    match Indent (latest s) with
    | Err e => (w, Some e)
    | Ok payload =>
        match WriteFile tmp payload 420 w with
        | (w, Err e) => (w, Some (strerror e))
        | (w, Ok _) => match Rename tmp (sink_Path s) w with
                       | (w, Err e) => (w, Some (strerror e))
                       | (w, Ok _) => (w, None)
                       end
        end
    end.

(** A report arrives; an error of writing is logged. *)
Definition sink_round (sample : MetricSample) (s : RawMetricsSink) (w : World) : RawMetricsSink * World :=
  let s := s <|latest := RawJSON sample|> in (s, fst (sink_flush s w)).

End Sink.

Section RawPath.
Context {GL : GoLib} {JT : JsonText}.

(** ** The raw data path: reader, fan-out, consumer and snapshot service side by side *)

Record Pipeline := mkPipeline { rawIn : list MetricSample; forMapping : list MetricSample; forSnapshot : list MetricSample; published : list message }.

Definition pipe_start : Pipeline := mkPipeline [] [] [] [].

Inductive pipe_action := PRead (sample : MetricSample) | PFanout | PConsume (now : time) | PSnapshot.

(** What an action did. *)
Inductive pipe_label :=
| LRead (sample : MetricSample)
| LFanned (sample : MetricSample) (mapping snapshot : bool)
| LMapped (now : time) (sample : MetricSample)
| LSnapped (sample : MetricSample).

(** None: the action has to wait. The reader's send waits for room in its channel. *)
Definition pipe_do (mapper : Mapper) (a : pipe_action) (p : Pipeline) : option (Pipeline * pipe_label) :=
  match a with
  | PRead sample => if length (rawIn p) <? raw_capacity then Some (p <|rawIn ::= fun q => q ++ [sample]|>, LRead sample) else None
  | PFanout =>
      match rawIn p with
      | [] => None
      | sample :: rest =>
          let '((out1, ok1), (out2, ok2)) := fanout_round sample (forMapping p) (forSnapshot p) in
          Some (mkPipeline rest out1 out2 (published p), LFanned sample ok1 ok2)
      end
  | PConsume now =>
      match forMapping p with
      | [] => None
      | raw :: rest => Some (p <|forMapping := rest|> <|published ::= fun l => l ++ consumer_round now mapper raw|>, LMapped now raw)
      end
  | PSnapshot =>
      match forSnapshot p with
      | [] => None
      | sample :: rest => Some (p <|forSnapshot := rest|>, LSnapped sample)
      end
  end.

Inductive pipe_reach (mapper : Mapper) : list pipe_label -> Pipeline -> Prop :=
| pipe_init : pipe_reach mapper [] pipe_start
| pipe_next tr p a p' l : pipe_reach mapper tr p -> pipe_do mapper a p = Some (p', l) -> pipe_reach mapper (tr ++ [l]) p'.

End RawPath.

(** *** What a trace says *)

Definition read_at (l : pipe_label) : option MetricSample := match l with LRead s => Some s | _ => None end.
Definition fanned_at (l : pipe_label) : option MetricSample := match l with LFanned s _ _ => Some s | _ => None end.
Definition for_mapping_at (l : pipe_label) : option MetricSample := match l with LFanned s true _ => Some s | _ => None end.
Definition for_snapshot_at (l : pipe_label) : option MetricSample := match l with LFanned s _ true => Some s | _ => None end.
Definition mapped_at (l : pipe_label) : option (time * MetricSample) := match l with LMapped now s => Some (now, s) | _ => None end.
Definition snapped_at (l : pipe_label) : option MetricSample := match l with LSnapped s => Some s | _ => None end.

(** ** Lemmas *)

#[local] Arguments Nat.ltb : simpl never.
#[local] Arguments raw_capacity : simpl never.

Lemma omap_last {A B : Type} (f : A -> option B) (l : list A) (x : A) : omap f (l ++ [x]) = omap f l ++ option_list (f x).
Proof. by rewrite omap_app. Qed.

Lemma omap_sublist {A B : Type} (f g : A -> option B) (l : list A) : (forall x y, f x = Some y -> g x = Some y) -> omap f l `sublist_of` omap g l.
Proof.
  intros H. induction l as [|x l IH]; [done|]. cbn. destruct (f x) as [y|] eqn:E; [rewrite (H x y E); by constructor|].
  destruct (g x); [by constructor|done].
Qed.

Lemma try_send_spec {A : Type} (x : A) (q : list A) :
  length q <= raw_capacity -> length (fst (try_send x q)) <= raw_capacity /\ fst (try_send x q) = q ++ option_list (if snd (try_send x q) then Some x else None).
Proof.
  intros Hq. unfold try_send. destruct (length q <? raw_capacity) eqn:E; b2p; cbn [fst snd option_list]; [|by rewrite app_nil_r].
  split; [rewrite length_app; cbn [length]; lia|done].
Qed.

(** The reader notices the cancellation only when a read times out: a station that sends a report every
    second keeps it from stopping. *)
Lemma busy_reader_runs (now : time) (datas : list bytes) : snd (uds_loop now (UdsDatagram <$> datas)) = None /\ length (fst (uds_loop now (UdsDatagram <$> datas))) = length datas.
Proof. induction datas as [|d r [IH1 IH2]]; cbn; [done|]. destruct (uds_loop now (UdsDatagram <$> r)) as [l res]. cbn in *. by rewrite IH2. Qed.

(** Samples that the select passes over when the agent has ended are not delivered. *)
Lemma logged_reader_loses (now : time) (t : Tracker) (sample : MetricSample) :
  reader_loop now [RcEnd None; RcSample sample] t = Some (t, [], Some None).
Proof. done. Qed.

(** Whatever faults strike, the file of the sink keeps its old contents or has the whole new text; it has
    the new text when no error is reported. *)
Lemma flush_old_or_new (Indent : string -> result string bytes) (s : RawMetricsSink) (w : World) :
  let '(w', err) := sink_flush Indent s w in
  (disk w' !! sink_Path s = disk w !! sink_Path s \/ exists payload i, Indent (latest s) = Ok payload /\ disk w' !! sink_Path s = Some i /\ contents i = payload) /\
  (sink_Path s <> "" -> latest s <> "" -> err = None -> exists payload i, Indent (latest s) = Ok payload /\ disk w' !! sink_Path s = Some i /\ contents i = payload).
Proof.
  unfold sink_flush. destruct (String.eqb_spec (sink_Path s) ""), (String.eqb_spec (latest s) ""); cbn [orb]; try (by split; [left|]).
  assert (Hm : disk (fst (MkdirAll (filepath_Dir (sink_Path s)) w)) = disk w).
  { unfold MkdirAll. match goal with |- disk (fst (syscall ?a w)) = _ => destruct (syscall_disk a w) as [->|(d & a' & Ha & -> & _)] end; [done|]. by injection Ha as <-. }
  destruct (MkdirAll _ w) as [w1 r1]. cbn [fst] in *. destruct (Indent (latest s)) as [payload|e]; [|split; [left; by rewrite Hm|done]].
  pose proof (WriteFile_spec (sink_Path s +:+ ".tmp") payload 420 w1) as Hw. destruct (WriteFile _ payload 420 w1) as [w2 [u|e]]; destruct Hw as [Hk Hc];
    (assert (Hp : disk w2 !! sink_Path s = disk w !! sink_Path s) by (rewrite <- Hm; apply Hk; intros E; symmetry in E; by apply tmp_name in E)); [|by split; [left|]].
  destruct (Hc eq_refl) as (i & Hi & Hd). unfold Rename.
  match goal with |- context [syscall ?a w2] => pose proof (syscall_spec a w2) as Hs; destruct (syscall a w2) as [w3 [v|e]] end.
  - rewrite Hi in Hs. injection Hs as Hs _. assert (Hn : disk w3 !! sink_Path s = Some i) by (rewrite <- Hs; apply lookup_insert_eq). split; [right|intros _ _ _]; by exists payload, i.
  - destruct Hs as [Hs _]. split; [left; by rewrite Hs|done].
Qed.

Section Path.
Context {GL : GoLib} {JT : JsonText} (mapper : Mapper).

Record pipe_inv (tr : list pipe_label) (p : Pipeline) : Prop := {
  pi_in : omap read_at tr = omap fanned_at tr ++ rawIn p;
  pi_mapping : omap for_mapping_at tr = (omap mapped_at tr).*2 ++ forMapping p;
  pi_snapshot : omap for_snapshot_at tr = omap snapped_at tr ++ forSnapshot p;
  pi_published : published p = concat (map (fun m => consumer_round (fst m) mapper (snd m)) (omap mapped_at tr));
  pi_bounds : length (rawIn p) <= raw_capacity /\ length (forMapping p) <= raw_capacity /\ length (forSnapshot p) <= raw_capacity }.

Lemma pipe_step_inv (tr : list pipe_label) (p p' : Pipeline) (a : pipe_action) (l : pipe_label) :
  pipe_inv tr p -> pipe_do mapper a p = Some (p', l) -> pipe_inv (tr ++ [l]) p'.
Proof.
  intros [Hin Hmap Hsnap Hpub (B1 & B2 & B3)] Hs. destruct p as [q q1 q2 out]; cbn in *. destruct a as [sample| |now|]; cbn in Hs.
  - destruct (length q <? raw_capacity) eqn:E; [|done]. injection Hs as <- <-. b2p.
    split; rewrite ?omap_last; cbn [read_at fanned_at for_mapping_at for_snapshot_at mapped_at snapped_at option_list rawIn forMapping forSnapshot published]; rewrite ?app_nil_r; auto.
    + cbn. by rewrite Hin, <- app_assoc.
    + cbn. rewrite length_app. cbn. lia.
  - destruct q as [|sample rest]; [done|]. destruct (try_send_spec sample q1 B2) as [L1 E1]. destruct (try_send_spec sample q2 B3) as [L2 E2].
    unfold fanout_round in Hs. destruct (try_send sample q1) as [q1' ok1], (try_send sample q2) as [q2' ok2]. cbn in *. injection Hs as <- <-.
    split; rewrite ?omap_last; cbn [read_at fanned_at mapped_at snapped_at option_list rawIn forMapping forSnapshot published]; rewrite ?app_nil_r; auto.
    + by rewrite Hin, <- app_assoc.
    + rewrite Hmap, <- app_assoc, E1. by destruct ok1.
    + rewrite Hsnap, <- app_assoc, E2. by destruct ok1, ok2.
    + split_and!; [cbn in B1; lia|done|done].
  - destruct q1 as [|raw rest]; [done|]. injection Hs as <- <-.
    split; rewrite ?omap_last; cbn [read_at fanned_at for_mapping_at for_snapshot_at mapped_at snapped_at option_list]; rewrite ?app_nil_r; cbn; auto.
    + rewrite Hmap, fmap_app, <- app_assoc. done.
    + rewrite map_app, concat_app, <- Hpub. cbn. by rewrite app_nil_r.
    + cbn in B2. split_and!; lia.
  - destruct q2 as [|sample rest]; [done|]. injection Hs as <- <-.
    split; rewrite ?omap_last; cbn [read_at fanned_at for_mapping_at for_snapshot_at mapped_at snapped_at option_list]; rewrite ?app_nil_r; cbn; auto.
    + by rewrite Hsnap, <- app_assoc.
    + cbn in B3. split_and!; lia.
Qed.

Lemma pipe_reach_inv (tr : list pipe_label) (p : Pipeline) : pipe_reach mapper tr p -> pipe_inv tr p.
Proof.
  induction 1 as [|tr p a p' l _ IH Hs]; [|by apply (pipe_step_inv tr p p' a l)]. split; cbn; try done. unfold raw_capacity. lia.
Qed.

(** ** Theorem *)

(** C12: the data path under every interleaving of its services. The reports are fanned out in the order
    in which they were read; what the consumer maps and what the snapshot service takes are, in order,
    reports that were fanned out, and all that were accepted are either taken or wait in a channel of at
    most 200; each branch accepts a report exactly when it has room, whatever the other does, and the
    fan-out never waits; and the bus gets exactly the samples of the mapped reports, in order. *)
Theorem raw_path_in_order (tr : list pipe_label) (p : Pipeline) :
  pipe_reach mapper tr p ->
  omap read_at tr = omap fanned_at tr ++ rawIn p /\
  omap for_mapping_at tr = (omap mapped_at tr).*2 ++ forMapping p /\ omap for_mapping_at tr `sublist_of` omap fanned_at tr /\
  omap for_snapshot_at tr = omap snapped_at tr ++ forSnapshot p /\ omap for_snapshot_at tr `sublist_of` omap fanned_at tr /\
  length (rawIn p) <= raw_capacity /\ length (forMapping p) <= raw_capacity /\ length (forSnapshot p) <= raw_capacity /\
  published p = concat (map (fun m => consumer_round (fst m) mapper (snd m)) (omap mapped_at tr)) /\
  (forall sample rest, rawIn p = sample :: rest ->
     exists p', pipe_do mapper PFanout p = Some (p', LFanned sample (length (forMapping p) <? raw_capacity) (length (forSnapshot p) <? raw_capacity))).
Proof.
  intros Hr. apply pipe_reach_inv in Hr as [Hin Hmap Hsnap Hpub (B1 & B2 & B3)]. split_and!; try done.
  - apply omap_sublist. by intros [?|? [] ?|? ?|?] y.
  - apply omap_sublist. by intros [?|? [] []|? ?|?] y.
  - intros sample rest E. cbn. rewrite E. unfold fanout_round, try_send. destruct (length (forMapping p) <? raw_capacity), (length (forSnapshot p) <? raw_capacity); eauto.
Qed.

End Path.

(** ** Witness *)

Section PathRuns.
Context {GL : GoLib} {JT : JsonText} (mapper : Mapper).

Fixpoint pipe_run (acts : list pipe_action) (p : Pipeline) : option (Pipeline * list pipe_label) :=
  match acts with
  | [] => Some (p, [])
  | a :: r => '(p1, l) ← pipe_do mapper a p; '(p2, tr) ← pipe_run r p1; Some (p2, l :: tr)
  end.

Lemma pipe_run_reach (acts : list pipe_action) (tr0 tr : list pipe_label) (p p' : Pipeline) :
  pipe_reach mapper tr0 p -> pipe_run acts p = Some (p', tr) -> pipe_reach mapper (tr0 ++ tr) p'.
Proof.
  revert tr0 tr p. induction acts as [|a r IH]; intros tr0 tr p Hs Hr; cbn in Hr; [injection Hr as <- <-; by rewrite app_nil_r|].
  destruct (pipe_do mapper a p) as [[p1 l]|] eqn:Ha; [|done]. cbn in Hr. destruct (pipe_run r p1) as [[p2 tr2]|] eqn:H2; [|done].
  injection Hr as <- <-. rewrite (cons_middle l tr0 tr2), (assoc (++)). by apply (IH _ _ p1); [apply (pipe_next _ _ p a)|].
Qed.

End PathRuns.

(** The consumer stands still: 200 reports wait for it, the next goes to the snapshot service only. *)
Definition stalled_acts : list pipe_action :=
  concat (replicate 200 [PRead (mkSample "{}"); PFanout; PSnapshot]) ++ [PRead (mkSample "[]"); PFanout; PConsume 5%Z].

Definition stalled_end : Pipeline * list pipe_label :=
  default (pipe_start, []) (pipe_run (GL := ascii_golib) (JT := sample_text) (mkMapper "enb1") stalled_acts pipe_start).

Lemma stalled_reach : pipe_reach (GL := ascii_golib) (JT := sample_text) (mkMapper "enb1") (snd stalled_end) (fst stalled_end).
Proof.
  apply (pipe_run_reach (GL := ascii_golib) (JT := sample_text) (mkMapper "enb1") stalled_acts [] (snd stalled_end) pipe_start); [apply pipe_init|].
  vm_compute. reflexivity.
Qed.

Lemma raw_path_in_order_witness :
  length (omap fanned_at (snd stalled_end)) = 201 /\ length (omap for_mapping_at (snd stalled_end)) = 200 /\ length (omap for_snapshot_at (snd stalled_end)) = 201 /\
  length (forMapping (fst stalled_end)) = 199 /\ length (published (fst stalled_end)) = 1 /\
  omap for_snapshot_at (snd stalled_end) `sublist_of` omap fanned_at (snd stalled_end).
Proof.
  destruct (raw_path_in_order (GL := ascii_golib) (JT := sample_text) (mkMapper "enb1") (snd stalled_end) (fst stalled_end) stalled_reach)
    as (_ & _ & _ & _ & Hs & _).
  split_and!; [vm_compute; reflexivity..|exact Hs].
Defined.
