(* ===== verification/Loops.v ===== *)
(** * The loops of the services (internal/ems/services, internal/ems/fcaps/metrics/service.go)

    Each service of the runner is a loop around a select: its context is done, its channel is closed, or
    it receives something and handles it. What one round does is defined with the component (Services,
    Snapshot, Health, Control); here are the Run functions around the rounds, with their early returns,
    and the logger of raw metrics. *)
From S2P Require Import Prelude GoNum GoStrings Durations Json FileSystem Locks NetconfManager Alarms Notifications Errors Nrm Pm Tca Health Control Metrics Mediation Normalize XmlReply Snapshot Services.

(** ** A loop *)

(** What the select takes in one round. *)
Inductive select_case {A : Type} := CtxDone | ChanClosed | Received (x : A).
Arguments select_case A : clear implicits.

Section Loop.
Context {A S B : Type} (round : A -> S -> S * list B).

(** The state after the rounds, what they sent, and whether the loop has returned. *)
Fixpoint run_loop (cases : list (select_case A)) (s : S) : S * list B * bool :=
  match cases with
  | [] => (s, [], false)
  | CtxDone :: _ | ChanClosed :: _ => (s, [], true)
  | Received x :: r => let '(s, out) := round x s in
                       let '(s, out', ended) := run_loop r s in (s, out ++ out', ended)
  end.

(** for x := range channel: only the end of the channel ends it. *)
Fixpoint run_range (cases : list (option A)) (s : S) : S * list B * bool :=
  match cases with
  | [] => (s, [], false)
  | None :: _ => (s, [], true)
  | Some x :: r => let '(s, out) := round x s in
                   let '(s, out', ended) := run_range r s in (s, out ++ out', ended)
  end.

(** *** Specification: every message before the end, once and in order *)

Fixpoint handle_all (xs : list A) (s : S) : S * list B :=
  match xs with
  | [] => (s, [])
  | x :: r => let '(s, out) := round x s in let '(s, out') := handle_all r s in (s, out ++ out')
  end.

End Loop.

Definition is_end {A : Type} (c : select_case A) : bool := match c with Received _ => false | _ => true end.

Fixpoint before_end {A : Type} (cases : list (select_case A)) : list A :=
  match cases with Received x :: r => x :: before_end r | _ => [] end.

Section Services.
Context {GL : GoLib} {RC : RecordCodec} {JT : JsonText} {RO : RangeOrder} {PF : Platform}.

(** ** The raw reports *)

(** metrics_consumer.go; the result of Run is nil whenever it returns. *)
Record MetricsConsumer := mkConsumer { mc_Bus : bool; mc_Mapper : option Mapper }.

Definition MetricsConsumer_Run (s : MetricsConsumer) (cases : list (select_case (time * MetricSample))) : list message * bool :=
  match mc_Bus s, mc_Mapper s with
  | true, Some mapper => let '(_, out, ended) := run_loop (fun x (u : unit) => (u, consumer_round (fst x) mapper (snd x))) cases tt in (out, ended)
  | _, _ => ([], true)
  end.

(** raw_fanout.go; a nil channel takes nothing. *)
Record RawFanout := mkFanout { rf_In : bool; rf_Out1 : bool; rf_Out2 : bool }.

(** One sample against the two channels, whose receivers may have taken what was there. *)
Definition fanout_sample (s : RawFanout) (x : MetricSample * (list MetricSample * list MetricSample)) : list MetricSample * list MetricSample :=
  let '(sample, (out1, out2)) := x in
  (if rf_Out1 s then fst (try_send sample out1) else out1, if rf_Out2 s then fst (try_send sample out2) else out2).

Definition RawFanout_Run (s : RawFanout) (cases : list (select_case (MetricSample * (list MetricSample * list MetricSample)))) :
    list (list MetricSample * list MetricSample) * bool :=
  if rf_In s then let '(_, out, ended) := run_loop (fun x (u : unit) => (u, [fanout_sample s x])) cases tt in (out, ended) else ([], true).

(** raw_metrics_sink.go; every return flushes, and its error is the result. *)
Definition RawMetricsSink_Run (Indent : string -> result string bytes) (hasIn : bool) (cases : list (select_case MetricSample)) (s : RawMetricsSink) (w : World) :
    RawMetricsSink * World * option (option string) :=
  if negb hasIn then (s, w, Some None)
  else
    let '((s, w), _, ended) := run_loop (B := unit) (fun x sw => (sink_round Indent x (fst sw) (snd sw), [])) cases (s, w) in
    if ended then let '(w, err) := sink_flush Indent s w in (s, w, Some err) else (s, w, None).

(** ** On the bus *)

(** telemetry_cache.go *)
Definition TelemetryCache_Run (wired : bool) (msgs : list (option message)) (s : TelemetryStore) : TelemetryStore * bool :=
  if negb wired then (s, true)
  else let '(s, _, ended) := run_range (B := unit) (fun m s => (cache_round m s, [])) msgs s in (s, ended).

(** fcaps/pm/engine.go, Run, and services/pm_engine.go: the ticker and the bus side by side. *)
Inductive pm_case := PmcTick (now : time) | PmcMessage (now : time) (m : message) | PmcConfig (cfg : PmConfig).

Definition pm_case_round (c : pm_case) (e : PmEngine) : PmEngine * list message :=
  match c with
  | PmcTick now => pm_tick now e
  | PmcMessage now m => pm_round now m e
  | PmcConfig cfg => (fst (pm_step (PmConfigUpdate cfg) e), [])
  end.

Definition PMEngine_Run (wired : bool) (cases : list (select_case pm_case)) (e : PmEngine) : PmEngine * list message * bool :=
  if negb wired then (e, [], true) else run_loop pm_case_round cases e.

(** tca_service.go *)
Definition TCAService_Run (wired : bool) (c : TcaConfig) (cases : list (select_case (time * message))) (st : St) : St * list message * bool :=
  if negb wired || negb (Enabled c) then (st, [], true) else run_loop (fun x st => tca_round (fst x) c (snd x) st) cases st.

(** netconf_notifications.go *)
Definition NetconfNotificationService_Run (wired : bool) (cases : list (select_case (time * message))) (q : NotificationQueue) : NotificationQueue * bool :=
  if negb wired then (q, true)
  else let '(q, _, ended) := run_loop (B := unit) (fun x q => (notification_round (fst x) (snd x) q, [])) cases q in (q, ended).

(** fault_service.go: a range over the tracker's events. *)
Definition FaultService_Run (wired : bool) (evs : list (option HEvent)) (sw : AlarmStore * World) : (AlarmStore * World) * list message * bool :=
  if negb wired then (sw, [], true)
  else run_range (fun ev sw => let '(sw, evts) := on_health_event ev sw in (sw, MAlarm <$> evts)) evs sw.

(** netconf_snapshot.go: the file at the start, then the bus and the reports; a closed subscription is not
    asked again. *)
Definition snapshot_round (Compact : string -> option bytes) (s : NetconfSnapshot) (x : time * SharedState * snap_event) (st : SnapState * bool) :
    (SnapState * bool) * list unit :=
  let '(now, sh, ev) := x in
  let '(sp, open) := st in
  match ev with
  | SnapBus _ => ((if open then snap_step Compact s now sh ev sp else sp, open), [])
  | SnapBusClosed => ((sp, false), [])
  | SnapSample _ => ((snap_step Compact s now sh ev sp, open), [])
  end.

Definition NetconfSnapshot_Run (Compact : string -> option bytes) (s : NetconfSnapshot) (hasIn hasBus : bool) (now : time) (sh : SharedState)
    (cases : list (select_case (time * SharedState * snap_event))) (legacy : MetricsStore) (w : World) : SnapState * bool :=
  if negb hasIn then (mkSnapState "{}" legacy w, true)
  else let '((sp, _), _, ended) := run_loop (snapshot_round Compact s) cases (snap_start Compact s now sh legacy w, hasBus) in (sp, ended).

(** netconf_session_gc.go: the ticks, with the sessions that are reported as collected. *)
Record NetconfSessionGC := mkGC { gc_Interval : Z }.
Definition NewNetconfSessionGC : NetconfSessionGC := mkGC (secs 15).
Definition gc_interval (s : NetconfSessionGC) : Z := if (gc_Interval s <=? 0)%Z then (secs 15) else gc_Interval s.

Definition gc_round (x : time * time) (mw : Manager * World) : (Manager * World) * list (gset Z) :=
  let '(m, w, expired) := SweepExpiredSessions (fst x) (snd x) (fst mw) (snd mw) in
  ((m, w), if bool_decide (expired = ∅) then [] else [expired]).

Definition NetconfSessionGC_Run (wired : bool) (cases : list (select_case (time * time))) (m : Manager) (w : World) : (Manager * World) * list (gset Z) * bool :=
  if negb wired then ((m, w), [], true) else run_loop gc_round cases (m, w).

(** ** Raw metrics on the bus (fcaps/metrics/parser.go, service.go, metrics_logger.go) *)

Definition ParseFunc : Type := string -> result parse_error parsed_metrics.

Definition ParserFor (elementType : string) : option ParseFunc :=
  if String.eqb elementType ElementENB then Some (fun raw => let? m := ParseEnbMetrics raw in Ok (PEnb m))
  else if String.eqb elementType ElementGNB || String.eqb elementType ElementOAIGNB then Some (fun raw => let? m := ParseGnbMetrics raw in Ok (PGnb m))
  else None.

(** What Consume publishes for a sample. *)
Definition consume_sample (parser : option ParseFunc) (s : MetricSample) : MetricSample :=
  match parser, Parsed s with
  | Some parse, None => match parse (RawJSON s) with Ok m => s <|Parsed := Some m|> | Err _ => s end
  | _, _ => s
  end.

Definition Consume (parser : option ParseFunc) (cases : list (select_case MetricSample)) : list MetricSample * bool :=
  let '(_, out, ended) := run_loop (fun s (u : unit) => (u, [consume_sample parser s])) cases tt in (out, ended).

(** A message of the bus as Log sees it: a metrics event or something else. *)
Inductive metrics_message := MetricsEvent (s : MetricSample) | OtherMessage.

(** The texts that are logged. *)
Definition Log_ (msgs : list (option metrics_message)) : list string * bool :=
  let '(_, out, ended) := run_range (fun m (u : unit) => (u, match m with MetricsEvent s => [RawJSON s] | OtherMessage => [] end)) msgs tt in (out, ended).

Definition MetricsLogger_Run (msgs : list (option metrics_message)) : list string * bool := Log_ msgs.

End Services.

(** ** Every message before the end is handled once, in order *)

Section Order.
Context {A S B : Type} (round : A -> S -> S * list B).

Lemma run_loop_spec (cases : list (select_case A)) (s : S) :
  run_loop round cases s = (handle_all round (before_end cases) s, existsb is_end cases).
Proof.
  revert s. induction cases as [|[| |x] cases IH]; intros s; [done|done|done|]. cbn [run_loop before_end handle_all existsb is_end orb].
  destruct (round x s) as [s1 out]. rewrite IH. by destruct (handle_all round (before_end cases) s1).
Qed.

Lemma run_range_spec (cases : list (option A)) (s : S) :
  run_range round cases s = run_loop round ((fun c => match c with Some x => Received x | None => ChanClosed end) <$> cases) s.
Proof.
  revert s. induction cases as [|[x|] cases IH]; intros s; [done| |done]. cbn. destruct (round x s) as [s1 out]. by rewrite IH.
Qed.

(** Two stretches of messages, one after the other. *)
Lemma handle_all_app (xs ys : list A) (s : S) :
  handle_all round (xs ++ ys) s = let '(s1, out1) := handle_all round xs s in let '(s2, out2) := handle_all round ys s1 in (s2, out1 ++ out2).
Proof.
  revert s. induction xs as [|x xs IH]; intros s; cbn; [by destruct (handle_all round ys s)|]. destruct (round x s) as [s1 out]. rewrite IH.
  destruct (handle_all round xs s1) as [s2 out2]. destruct (handle_all round ys s2). by rewrite app_assoc.
Qed.

End Order.

Lemma handle_all_stateless {A B : Type} (f : A -> list B) (xs : list A) : handle_all (fun x (u : unit) => (u, f x)) xs tt = (tt, xs ≫= f).
Proof. induction xs as [|x xs IH]; cbn; [done|]. by rewrite IH. Qed.

Section Results.
Context {GL : GoLib} {RC : RecordCodec} {JT : JsonText} {RO : RangeOrder}.

(** The consumer publishes the canonical samples of every report it received before its end, in order,
    and nothing for a report that cannot be mapped or maps to nothing. *)
Lemma consumer_publishes (mapper : Mapper) (cases : list (select_case (time * MetricSample))) :
  MetricsConsumer_Run (mkConsumer true (Some mapper)) cases =
    (before_end cases ≫= (fun x => consumer_round (fst x) mapper (snd x)), existsb is_end cases).
Proof. unfold MetricsConsumer_Run. cbn. rewrite run_loop_spec, handle_all_stateless. done. Qed.

(** Consume passes every report on, with its text as it came; the parsed form is the one it had or the
    one the parser of the element finds, and a report that does not parse is published without it. *)
Lemma consume_passes_on (elementType : string) (cases : list (select_case MetricSample)) :
  let parser := ParserFor elementType in
  Consume parser cases = (consume_sample parser <$> before_end cases, existsb is_end cases) /\
  forall s, RawJSON (consume_sample parser s) = RawJSON s /\
    Parsed (consume_sample parser s) =
      match Parsed s, parser with
      | None, Some parse => match parse (RawJSON s) with Ok m => Some m | Err _ => None end
      | p, _ => p
      end.
Proof.
  cbv zeta. set (parser := ParserFor elementType). split.
  - unfold Consume. rewrite run_loop_spec, handle_all_stateless. done.
  - intros [raw [m|]]; unfold consume_sample; cbn; [by destruct parser|]. destruct parser as [parse|]; [|done]. by destruct (parse raw).
Qed.

(** The cache holds the samples of the last telemetry message before its end. *)
Lemma cache_holds_latest (msgs : list message) (samples : list Sample) (rest : list message) (s : TelemetryStore) :
  Forall (fun m => match m with MTelemetry _ => False | _ => True end) rest ->
  fst (TelemetryCache_Run true (Some <$> (msgs ++ MTelemetry samples :: rest)) s) = samples.
Proof.
  intros Hr. unfold TelemetryCache_Run. cbn [negb]. rewrite run_range_spec, run_loop_spec, <- list_fmap_compose.
  assert (Hb : forall l, before_end ((fun m => Received m) <$> l : list (select_case message)) = l) by (induction l as [|m l IH]; cbn; [done|by rewrite IH]).
  change ((_ ∘ Some) <$> (msgs ++ MTelemetry samples :: rest)) with ((fun m => Received m) <$> (msgs ++ MTelemetry samples :: rest) : list (select_case message)).
  rewrite Hb, handle_all_app. destruct (handle_all _ msgs s) as [s1 out1]. cbn [handle_all].
  assert (Hk : forall s, handle_all (B := unit) (fun m s => (cache_round m s, [])) rest s = (s, [])).
  { induction Hr as [|m rest Hm _ IH]; intros s2; cbn; [done|]. destruct m; try done; cbn; by rewrite IH. }
  cbn [cache_round TelemetryUpdate]. rewrite Hk. done.
Qed.

(** A sink that returned without an error has the latest report in its file. *)
Lemma sink_ends_flushed (Indent : string -> result string bytes) (cases : list (select_case MetricSample)) (s s' : RawMetricsSink) (w w' : World) :
  RawMetricsSink_Run Indent true cases s w = (s', w', Some None) -> sink_Path s' <> "" -> latest s' <> "" ->
  exists payload i, Indent (latest s') = Ok payload /\ disk w' !! sink_Path s' = Some i /\ contents i = payload.
Proof.
  unfold RawMetricsSink_Run. cbn [negb]. destruct (run_loop _ cases (s, w)) as [[[s1 w1] out] []]; [|done].
  pose proof (flush_old_or_new Indent s1 w1) as Hf. destruct (sink_flush Indent s1 w1) as [w2 err]. intros [= <- <- ->]. intros Hp Hl. destruct Hf as [_ Hf]. by apply Hf.
Qed.

End Results.
