(* ===== verification/AlarmChain.v ===== *)
(** * From a fault to the snapshot file

    The composition of the alarm sources (the fault service of Health, the log reader of AlarmLog, the
    threshold engine of Tca), the alarm store they share (Alarms), the bus subscription of the snapshot
    service with its bounded queue (Bus), and the snapshot service with its file (Snapshot). A source
    first changes the store and then publishes what it has to say; everything else may happen in
    between. *)
From stdpp Require Import stringmap.
From S2P Require Import Prelude GoNum GoStrings Json FileSystem Artifacts Alarms Errors Nrm Pm Tca Health Metrics Mediation Normalize AlarmLog XmlReply Snapshot Services.

(** ** What a reader of the active alarms can tell apart, but for the last occurrence and the count *)

Definition timeless (r : AlarmRecord) : AlarmRecord := r <|r_LastSeen := 0%Z|> <|r_Count := 0%Z|>.

Definition visible (s : AlarmStore) : gmap Key AlarmRecord :=
  omap (fun r => if is_active r then Some (timeless r) else None) (records s).

(** ** The state *)

Inductive source := SFault | SLog | STca.

#[export] Instance source_eq_dec : EqDecision source.
Proof. solve_decision. Defined.

Record Chain := mkChain {
  ch_alarms : AlarmStore;
  ch_states : gmap stateKey ruleState;
  (** what each source has still to publish *)
  ch_out : source -> list Event;
  (** the snapshot service has subscribed; the channel of its subscription *)
  ch_subscribed : bool;
  ch_queue : list message;
  ch_snap : SnapState;
  (** an alarm event did not reach the channel *)
  ch_lost : bool
}.

Definition push (src : source) (evts : list Event) (out : source -> list Event) : source -> list Event :=
  fun s => if decide (s = src) then out s ++ evts else out s.
Definition drop_first (src : source) (out : source -> list Event) : source -> list Event :=
  fun s => if decide (s = src) then tail (out s) else out s.

(** The messages that make the snapshot service write. *)
Definition is_fcaps (m : message) : bool := match m with MTelemetry _ => false | MReport _ | MAlarm _ => true end.

Inductive chain_act :=
| CHealth (ev : HEvent)
| CLine (r : AlarmLogReader) (now : time) (line : string)
| CCall (c : Call)
| CPublish (src : source)
| COther (m : message)
| CSubscribe
| CHandle (now : time) (reg : Registry) (pm : PmStore)
| CSample (now : time) (reg : Registry) (pm : PmStore) (sample : MetricSample).

Section Chain.
Context {GL : GoLib} {RC : RecordCodec} {JT : JsonText} (Compact : string -> option bytes) (sn : NetconfSnapshot) (size : nat).

(** A send on the subscription that drops the message when the channel is full. *)
Definition bus_offer (m : message) (st : Chain) : Chain * bool :=
  if ch_subscribed st && (length (ch_queue st) <? size)%nat
  then (st <|ch_queue := ch_queue st ++ [m]|>, true) else (st, false).

(** A source has acted on the store and gathers the events. *)
Definition source_acted (src : source) (r : (AlarmStore * World) * list Event) (st : Chain) : Chain :=
  st <|ch_alarms := r.1.1|> <|ch_snap ::= fun sp => sp <|ns_world := r.1.2|>|> <|ch_out ::= push src r.2|>.

(** None: the action has to wait. The fault service and the log reader publish before they go on; the
    engine gathers the events of a report. *)
Definition chain_do (a : chain_act) (st : Chain) : option Chain :=
  let sw := (ch_alarms st, ns_world (ch_snap st)) in
  match a with
  | CHealth ev => if bool_decide (ch_out st SFault = []) then Some (source_acted SFault (on_health_event ev sw) st) else None
  | CLine r now line =>
      if bool_decide (ch_out st SLog = [])
      then let '(s, w, evts) := handle_line r now line (sw.1, sw.2, []) in Some (source_acted SLog ((s, w), evts) st) else None
  | CCall c => let '((states, sw), evts) := transition c (ch_states st, sw) in
               Some (source_acted STca (sw, evts) (st <|ch_states := states|>))
  | CPublish src =>
      match ch_out st src with
      | [] => None
      | evt :: _ => let '(st, sent) := bus_offer (MAlarm evt) (st <|ch_out ::= drop_first src|>) in
                    Some (st <|ch_lost ::= fun l => l || negb sent|>)
      end
  | COther m => match m with MAlarm _ => None | _ => Some (fst (bus_offer m st)) end
  | CSubscribe => Some (st <|ch_subscribed := true|>)
  | CHandle now reg pm =>
      match ch_queue st with
      | [] => None
      | m :: rest => Some (st <|ch_queue := rest|> <|ch_snap ::= snap_step Compact sn now (mkShared reg pm (ch_alarms st)) (SnapBus (is_fcaps m))|>)
      end
  | CSample now reg pm sample =>
      if ch_subscribed st then Some (st <|ch_snap ::= snap_step Compact sn now (mkShared reg pm (ch_alarms st)) (SnapSample sample)|>) else None
  end.

(** The snapshot service starts by writing the file; then it subscribes. *)
Definition chain_start (now : time) (reg : Registry) (pm : PmStore) (legacy : MetricsStore) (alarms : AlarmStore) (w : World) : Chain :=
  mkChain alarms ∅ (fun _ => []) false [] (snap_start Compact sn now (mkShared reg pm alarms) legacy w) false.

Inductive chain_reach (st0 : Chain) : Chain -> Prop :=
| chain_init : chain_reach st0 st0
| chain_next st a st' : chain_reach st0 st -> chain_do a st = Some st' -> chain_reach st0 st'.

(** ** Specification *)

(** The file of the snapshot service is a snapshot of the alarms [s], with some registry and reports. *)
Definition file_shows (w : World) (s : AlarmStore) : Prop :=
  exists now reg pm text b i, BuildCombinedSnapshot Compact now (ns_NRM sn) (Some reg) (Some pm) text [Some s] = Ok b /\
    disk w !! ns_Path sn = Some i /\ contents i = b.

(** Every alarm event was published, sent and handled. *)
Definition settled (st : Chain) : Prop := (forall src, ch_out st src = []) /\ forall m, m ∈ ch_queue st -> is_fcaps m = false.

End Chain.

(** ** Lemmas: persistence does not touch other files *)

Definition keeps_files (path : string) (w w' : World) : Prop :=
  (quiet w -> quiet w') /\ forall p i, disk w !! p = Some i -> p <> path -> disk w' !! p = Some i.

Lemma keeps_files_refl (path : string) (w : World) : keeps_files path w w.
Proof. done. Qed.

Lemma scratch_keeps (d : gmap string Inode) (w' : World) (p : string) (i : Inode) : scratch d w' -> d !! p = Some i -> disk w' !! p = Some i.
Proof.
  intros [->|(t & j & Ht & ->)] Hp; [done|]. rewrite lookup_insert_ne; [done|]. intros ->. by rewrite Hp in Ht.
Qed.

Lemma atomicWriteFile_keeps (path : string) (data : bytes) (w : World) : keeps_files path w (fst (atomicWriteFile path data w)).
Proof.
  split.
  - intros Hq. pose proof (fun A act u => syscall_tail (A:=A) _ quiet_tail act u) as Hs. pose proof (tick_tail _ quiet_tail) as Ht.
    unfold quiet in *. unfold atomicWriteFile, MkdirAll, CreateTemp, Close, on_file, Rename, Remove, sync_dir in *.
    match goal with |- context [syscall ?a w] => pose proof (Hs _ a w Hq) as H1; destruct (syscall a w) as [w1 [[]|e]] end; cbn [fst] in *; [|done].
    match goal with |- context [syscall ?a w1] => pose proof (Hs _ a w1 H1) as H2; destruct (syscall a w1) as [w2 [name|e]] end; cbn [fst] in *; [|done].
    pose proof (Write_tail _ quiet_tail name data w2 H2) as H3. destruct (Write name data w2) as [w3 [[]|e]]; cbn [fst] in *; [|by apply Hs, Hs].
    match goal with |- context [syscall ?a w3] => pose proof (Hs _ a w3 H3) as H4; destruct (syscall a w3) as [w4 [[]|e]] end; cbn [fst] in *; [|by apply Hs].
    match goal with |- context [syscall ?a w4] => pose proof (Hs _ a w4 H4) as H5; destruct (syscall a w4) as [w5 [[]|e]] end; cbn [fst] in *; [|by apply Hs].
    pose proof (Ht w5 H5) as H6. destruct (tick w5) as [w6 [f|]]; cbn [fst] in *; [done|]. by apply Ht, Ht.
  - intros p i Hp Hne. unfold atomicWriteFile.
    assert (Hm : disk (fst (MkdirAll (filepath_Dir path) w)) = disk w).
    { unfold MkdirAll. match goal with |- disk (fst (syscall ?a w)) = _ => destruct (syscall_disk a w) as [->|(d & a' & Ha & -> & _)] end; [done|]. by injection Ha as <-. }
    destruct (MkdirAll _ w) as [w1 [[]|e]]; cbn [fst] in *; [|by rewrite Hm].
    unfold CreateTemp. match goal with |- context [syscall ?a w1] => pose proof (syscall_spec a w1) as H1 end.
    destruct (syscall _ w1) as [w2 [name|e]]; [|destruct H1 as [H1 _]; cbn [fst]; by rewrite H1, Hm]. injection H1 as Hd2 Hname.
    assert (Hfresh : disk w !! name = None) by (rewrite <- Hm, <- Hname; apply fresh_string_fresh).
    rewrite Hname, Hm in Hd2. pose proof (Write_only (disk w) name data w2 _ (eq_sym Hd2)) as Hw.
    destruct (Write name data w2) as [w3 [[]|e]].
    2:{ apply (scratch_keeps (disk w)); [|done]. apply (discard_only true); done. }
    pose proof (on_file_only (disk w) name id w3 _ Hw) as Hc. unfold Close. destruct (on_file name id w3) as [w4 [[]|e]].
    2:{ apply (scratch_keeps (disk w)); [|done]. apply Remove_only; [done|]. by eexists. }
    unfold Rename. match goal with |- context [syscall ?a w4] => pose proof (syscall_spec a w4) as H5 end.
    destruct (syscall _ w4) as [w5 [[]|e]].
    2:{ apply (scratch_keeps (disk w)); [|done]. apply Remove_only; [done|]. destruct H5 as [H5 _]. unfold only. rewrite H5. by eexists. }
    rewrite Hc, lookup_insert_eq in H5. injection H5 as Hd5. cbn [fst].
    assert (Hs : disk (sync_dir w5) = disk w5).
    { unfold sync_dir. pose proof (tick_disk w5) as Ht. destruct (tick w5) as [w6 [f|]]; cbn in *; [done|]. by rewrite !tick_disk. }
    rewrite Hs, <- Hd5, lookup_insert_ne by done. rewrite delete_insert_id by done. done.
Qed.

(** ** Lemmas: who changes the visible alarms tells so *)

Section Told.
Context {GL : GoLib} {RC : RecordCodec}.

(** An action of a source: it keeps the other files, and when nothing is told the visible alarms are the
    same. *)
Definition told (sw sw' : AlarmStore * World) (evts : list Event) : Prop :=
  persistence sw'.1 = persistence sw.1 /\ keeps_files (persistence sw.1) sw.2 sw'.2 /\ (evts = [] -> visible sw'.1 = visible sw.1).

Lemma persistLocked_keeps (s : AlarmStore) (w : World) : keeps_files (persistence s) w (snd (persistLocked s w)).
Proof.
  unfold persistLocked. destruct (String.eqb (persistence s) ""); [apply keeps_files_refl|].
  destruct (encode_records _) as [data|e]; [|apply keeps_files_refl]. pose proof (atomicWriteFile_keeps (persistence s) data w) as H.
  by destruct (atomicWriteFile _ data w) as [w' []].
Qed.

Lemma told_refl (sw : AlarmStore * World) (evts : list Event) : told sw sw evts.
Proof. split_and!; try done. Qed.

Lemma visible_ext (s s' : AlarmStore) :
  (forall k, records s' !! k ≫= (fun r => if is_active r then Some (timeless r) else None) =
             records s !! k ≫= (fun r => if is_active r then Some (timeless r) else None)) -> visible s' = visible s.
Proof. intros H. apply map_eq. intros k. unfold visible. rewrite !lookup_omap. apply H. Qed.

(** A record replaced by one that differs in its times and its count only. *)
Lemma visible_insert (s s' : AlarmStore) (k : Key) (r r' : AlarmRecord) :
  records s !! k = Some r -> records s' = <[k := r']> (records s) -> timeless r' = timeless r -> visible s' = visible s.
Proof.
  intros Hr Hs Ht. apply visible_ext. intros k'. rewrite Hs, lookup_insert. case_decide as E; [subst k'; rewrite Hr; cbn|done].
  assert (Ha : is_active r' = is_active r) by (unfold is_active; destruct r, r'; cbn in *; congruence). by rewrite Ha, Ht.
Qed.

Lemma update_record_silent (alarm : Alarm) (r : AlarmRecord) (c : bool) : snd (update_record alarm r c) = false -> fst (update_record alarm r c) = r /\ c = false.
Proof.
  assert (Ht : forall src d c, snd (update_text src (d, c)) = false -> fst (update_text src (d, c)) = d /\ c = false).
  { intros src d c0. rewrite update_text_spec. cbn. destruct (String.eqb_spec src ""), c0; cbn; try done. by destruct (String.eqb_spec d src). }
  unfold update_record. destruct r as [k id moi et pc ps sp msg sev st fs ls n]. cbn [r_Key r_AlarmID r_ManagedObjectInstance r_EventType r_ProbableCause r_PerceivedSeverity
    r_SpecificProblem r_Message r_Severity r_Status r_FirstSeen r_LastSeen r_Count].
  repeat match goal with
  | |- context [update_text ?s (?d, ?c)] => pose proof (Ht s d c); destruct (update_text s (d, c)) as [? ?]; cbn [fst snd] in *
  end.
  intros ->. repeat match goal with H : false = false -> _ |- _ => destruct (H eq_refl) as [-> ->]; clear H end. done.
Qed.

Lemma upsert_silent (at_ : time) (k : Key) (alarm : Alarm) (old : option AlarmRecord) (r' : AlarmRecord) :
  upsert_record at_ k alarm old = (r', false) -> exists r, old = Some r /\ timeless r' = timeless r.
Proof.
  destruct old as [r|]; cbn; [|done]. destruct (negb _).
  - pose proof (update_record_silent alarm (r <|r_Status := StatusActive|> <|r_FirstSeen := at_|>) true) as H.
    destruct (update_record _ _ true) as [r1 c]. intros [= <- ->]. by destruct (H eq_refl).
  - pose proof (update_record_silent alarm r false) as H. destruct (update_record _ _ false) as [r1 c]. intros [= <- ->].
    destruct (H eq_refl) as [H1 _]. cbn [fst] in H1. rewrite H1. exists r. split; [done|]. by destruct r.
Qed.

Lemma Upsert_keeps (at_ : time) (component : string) (alarm : Alarm) (s : AlarmStore) (w : World) :
  keeps_files (persistence s) w (snd (fst (Upsert at_ component alarm s w))).
Proof.
  unfold Upsert. destruct (upsert_record _ _ _ _) as [rec ch]. set (s1 := s <|records ::= _|>).
  pose proof (persistLocked_keeps s1 w) as H. destruct (persistLocked s1 w) as [s2 w2]. subst s1. by destruct s.
Qed.

Lemma Raise_told (at_ : time) (component health : string) (alarm : Alarm) (s : AlarmStore) (w : World) :
  let '(s', w', (evt, changed)) := Raise at_ component health alarm s w in forall evts, (evts = [] -> changed = false) -> told (s, w) (s', w') evts.
Proof.
  unfold Raise. set (a := Normalize _ _ _). pose proof (Upsert_records at_ component a s w) as Hu. pose proof (Upsert_keeps at_ component a s w) as Hk. cbv zeta in Hu.
  destruct (Upsert at_ component a s w) as [[s' w'] [rec changed]]. destruct Hu as (Hr & Hs & Hp). intros evts He.
  split_and!; [done|done|]. intros E. rewrite (He E) in Hr. apply upsert_silent in Hr as (r & Hr & Ht). exact (visible_insert s s' _ r rec Hr Hs Ht).
Qed.

Lemma Touch_told (at_ : time) (component code : string) (s : AlarmStore) (w : World) : told (s, w) (ManagerTouch at_ component code s w) [].
Proof.
  unfold ManagerTouch. destruct (Touch_records at_ component code s w) as [Hr Hp]. split_and!; [done| |].
  - unfold Touch. cbv zeta. destruct (records s !! _) as [r|]; [|apply keeps_files_refl]. destruct (negb _); [apply keeps_files_refl|].
    set (s1 := s <|records ::= _|>). pose proof (persistLocked_keeps s1 w) as H. subst s1. by destruct s.
  - intros _. cbv zeta in Hr. cbn [fst]. destruct (records s !! _) as [r|] eqn:E; [|apply visible_ext; by rewrite Hr].
    destruct (is_active r); [|apply visible_ext; by rewrite Hr]. apply (visible_insert s _ _ r _ E Hr). by destruct r.
Qed.

Lemma Clear_told (at_ : time) (component code health : string) (s : AlarmStore) (w : World) :
  let '(s', w', evt) := ManagerClear at_ component code health s w in told (s, w) (s', w') (option_list evt).
Proof.
  unfold ManagerClear. pose proof (Clear_records at_ component code s w) as Hc. cbv zeta in Hc.
  assert (Hk : keeps_files (persistence s) w (snd (fst (Clear at_ component code s w)))).
  { unfold Clear. cbv zeta. destruct (records s !! _) as [r|]; [|apply keeps_files_refl]. destruct (String.eqb _ _); [apply keeps_files_refl|].
    set (s1 := s <|records ::= _|>). pose proof (persistLocked_keeps s1 w) as H. destruct (persistLocked s1 w). subst s1. by destruct s. }
  destruct (Clear at_ component code s w) as [[s' w'] out]. destruct Hc as [Hp Hc]. split_and!; [done|done|]. cbn [fst]. intros E.
  apply visible_ext. intros k. destruct (records s !! mkKey component code) as [r|]; [destruct (String.eqb _ _)|]; destruct Hc as [-> Hr]; try done; by rewrite Hr.
Qed.

Lemma ClearComponent_told (at_ : time) (component health : string) (s : AlarmStore) (w : World) :
  let '(s', w', evts) := ManagerClearComponent at_ component health s w in told (s, w) (s', w') evts.
Proof.
  unfold ManagerClearComponent. pose proof (ClearComponent_records at_ component s w) as Hc. cbv zeta in Hc.
  assert (Hk : keeps_files (persistence s) w (snd (fst (ClearComponent at_ component s w)))).
  { unfold ClearComponent. cbv zeta. destruct ((map_to_list _).*2); [apply keeps_files_refl|].
    set (s1 := s <|records := _|>). pose proof (persistLocked_keeps s1 w) as H. destruct (persistLocked s1 w). subst s1. by destruct s. }
  destruct (ClearComponent at_ component s w) as [[s' w'] out]. destruct Hc as (Hp & Hr & Ho). split_and!; [done|done|]. cbn [fst]. intros E.
  apply fmap_nil_inv in E. rewrite Ho in E. apply fmap_nil_inv, map_to_list_empty_iff in E. apply visible_ext. intros k. by rewrite Hr, E, (left_id_L ∅ (∪)).
Qed.

(** *** The sources *)

Lemma health_told (ev : HEvent) (sw : AlarmStore * World) : let r := on_health_event ev sw in told sw r.1 r.2.
Proof.
  destruct sw as [s w]. cbv zeta. unfold on_health_event. destruct (h_Type ev) eqn:Ety; try apply told_refl; clear Ety.
  2:{ unfold onComponentDown. destruct (h_Err ev) as [err|]; [|apply told_refl]. destruct (negb _); [apply told_refl|]. cbn [fst snd].
    pose proof (Raise_told (h_At ev) (h_Component ev) (h_State ev) (ErrorAlarm (Some err)) s w) as H. destruct (Raise _ _ _ _ s w) as [[s' w'] [evt ch]]. by apply H. }
  unfold onComponentUp. cbn [fst snd]. pose proof (ClearComponent_told (h_At ev) (h_Component ev) (h_State ev) s w) as H.
    by destruct (ManagerClearComponent _ _ _ s w) as [[s' w'] evts].
Qed.

Lemma line_told (r : AlarmLogReader) (now : time) (line : string) (s : AlarmStore) (w : World) :
  let '(s', w', evts) := handle_line r now line (s, w, []) in told (s, w) (s', w') evts.
Proof.
  unfold handle_line. destruct (mapSrsENBAlarmLine _ _) as [| |alarm]; [apply told_refl|..].
  - pose proof (ClearComponent_told now "srsenb" "healthy" s w) as H. by destruct (ManagerClearComponent _ _ _ s w) as [[s' w'] evts].
  - pose proof (Raise_told now "srsenb" "degraded" alarm s w) as H. destruct (Raise _ _ _ _ s w) as [[s' w'] [evt ch]]. apply H. by destruct ch.
Qed.

Lemma call_told (c : Call) (states : gmap stateKey ruleState) (sw : AlarmStore * World) :
  let '((states', sw'), evts) := transition c (states, sw) in told sw sw' evts.
Proof.
  destruct sw as [s w]. unfold transition, raise_alarm, clear_alarm. cbv zeta. cbn [fst snd].
  pose proof (fun a => Raise_told (c_now c) (call_component c) "degraded" a s w) as Hr.
  pose proof (Clear_told (c_now c) (call_component c) (tr_code (c_rule c)) "healthy" s w) as Hc.
  pose proof (Touch_told (c_now c) (call_component c) (tr_code (c_rule c)) s w) as Ht.
  destruct (negb (active _)); [destruct (negb (c_violation c)); [apply told_refl|]|destruct (c_clear c); [|destruct (c_violation c); [exact Ht|apply told_refl]]].
  all: destruct (_ && _); [apply told_refl|]; destruct (_ <? _)%Z; [apply told_refl|].
  - set (a := NewThresholdAlarmWithSeverity _ _ _ _). specialize (Hr a). destruct (Raise _ _ _ a s w) as [[s' w'] [evt ch]]. apply Hr. by destruct ch.
  - destruct (ManagerClear _ _ _ _ s w) as [[s' w'] [evt|]]; exact Hc.
Qed.

End Told.

(** ** The invariant *)

Section Invariant.
Context {GL : GoLib} {RC : RecordCodec} {JT : JsonText} (Compact : string -> option bytes) (sn : NetconfSnapshot) (size : nat).
Hypothesis path_set : ns_Path sn <> "".
Hypothesis names_set : complete (ns_NRM sn) = true.

Definition text_ok (t : string) : Prop := is_Some (Compact (if String.eqb t "" then "{}" else t)).

(** What the service normalises is JSON again. *)
Hypothesis empty_ok : text_ok "{}".
Hypothesis normalized_ok : forall raw t, NormalizeForNetconf raw = Some t -> text_ok t.

Abbreviation shows := (file_shows Compact sn).

Lemma build_ok (now : time) (reg : Registry) (pm : PmStore) (t : string) (s : AlarmStore) :
  text_ok t -> exists b, BuildCombinedSnapshot Compact now (ns_NRM sn) (Some reg) (Some pm) t [Some s] = Ok b.
Proof.
  intros [raw Ht]. pose proof names_set as Hn. unfold complete, function_id_ in Hn. unfold BuildCombinedSnapshot. cbv zeta. rewrite Ht. clear Ht.
  destruct (String.eqb (sc_SubNetwork _) ""); [done|]. destruct (String.eqb (sc_ManagedElement _) ""); [done|]. cbn [negb andb orb] in *.
  destruct (isGNBProfile _); apply negb_true_iff in Hn; rewrite Hn; eauto.
Qed.

Lemma write_shows (now : time) (sh : SharedState) (t : string) (w : World) :
  text_ok t -> quiet w -> let w' := writeSnapshot Compact sn now sh t w in quiet w' /\ shows w' (sh_alarms sh).
Proof.
  intros Ht Hq. pose proof (writeSnapshot_spec Compact sn path_set now sh t w) as (Hq' & _ & Hw). cbv zeta in *. split; [by apply Hq'|].
  destruct (build_ok now (sh_reg sh) (sh_pm sh) t (sh_alarms sh) Ht) as [b Hb]. rewrite Hb in Hw. destruct Hw as [_ Hw]. destruct (Hw Hq) as (i & Hi & Hc).
  exists now, (sh_reg sh), (sh_pm sh), t, b, i. done.
Qed.

(** The service after an event: its text stays in order, the disk quiet, and the file shows the alarms of
    the moment when the event makes it write; otherwise nothing is written. *)
Lemma step_shows (now : time) (sh : SharedState) (ev : snap_event) (sp : SnapState) :
  text_ok (lastNormalized sp) -> quiet (ns_world sp) ->
  let sp' := snap_step Compact sn now sh ev sp in
  text_ok (lastNormalized sp') /\ quiet (ns_world sp') /\
  if triggers ev then shows (ns_world sp') (sh_alarms sh) else ns_world sp' = ns_world sp.
Proof.
  intros Ht Hq. cbv zeta. pose proof (step_text Compact sn path_set (now, sh, ev) sp) as Hx. cbn beta iota in Hx.
  assert (Ht' : text_ok (latest_text [(now, sh, ev)] (lastNormalized sp))).
  { unfold latest_text. cbn. destruct ev as [| |x]; [done|done|]. destruct (NormalizeForNetconf (RawJSON x)) as [t|] eqn:En; [|done]. by apply (normalized_ok (RawJSON x)). }
  rewrite Hx. rewrite (step_world Compact sn path_set). destruct (triggers ev); [|done].
  destruct (write_shows now sh _ (ns_world sp) Ht' Hq) as [H1 H2]. done.
Qed.

Definition pending_news (st : Chain) : Prop :=
  (exists src, ch_out st src <> []) \/ exists m, m ∈ ch_queue st /\ is_fcaps m = true.

Record chain_inv (st : Chain) : Prop := {
  inv_quiet : quiet (ns_world (ch_snap st));
  inv_text : text_ok (lastNormalized (ch_snap st));
  inv_apart : persistence (ch_alarms st) <> ns_Path sn;
  inv_shows : exists s, shows (ns_world (ch_snap st)) s /\ (visible s = visible (ch_alarms st) \/ ch_lost st = true \/ pending_news st)
}.

Lemma shows_keeps (path : string) (w w' : World) (s : AlarmStore) : keeps_files path w w' -> path <> ns_Path sn -> shows w s -> shows w' s.
Proof.
  intros [_ Hk] Hp (now & reg & pm & t & b & i & Hb & Hi & Hc). exists now, reg, pm, t, b, i. split; [done|]. split; [|done]. apply Hk; [done|]. by intros E.
Qed.

Lemma acted_inv (src : source) (sw' : AlarmStore * World) (evts : list Event) (st : Chain) :
  chain_inv st -> told (ch_alarms st, ns_world (ch_snap st)) sw' evts -> chain_inv (source_acted src (sw', evts) st).
Proof.
  destruct st as [al states out sub q [text leg w] lost], sw' as [al' w']. intros [Hq Ht Ha (s & Hs & Hv)] (Hp & Hk & He). cbn in *.
  split; cbn; [by apply Hk|done|by rewrite Hp|]. exists s. split; [by apply (shows_keeps _ w w' s Hk)|]. destruct evts as [|e evts].
  - rewrite (He eq_refl). destruct Hv as [Hv|[Hv|Hv]]; [by left|by right; left|]. right; right. destruct Hv as [(src' & Hsrc)|Hv]; [|by right].
    left. exists src'. cbn in *. unfold push. by destruct (decide _); [rewrite app_nil_r|].
  - right; right. left. exists src. cbn. unfold push. rewrite decide_True by done. by destruct (out src).
Qed.

Lemma handled_inv (now : time) (reg : Registry) (pm : PmStore) (ev : snap_event) (rest : list message) (st : Chain) :
  chain_inv st -> (triggers ev = false -> forall m, m ∈ ch_queue st -> is_fcaps m = true -> m ∈ rest) ->
  chain_inv (st <|ch_queue := rest|> <|ch_snap ::= snap_step Compact sn now (mkShared reg pm (ch_alarms st)) ev|>).
Proof.
  destruct st as [al states out sub q sp lost]. intros [Hq Ht Ha (s & Hs & Hv)] Hrest. cbn in *.
  destruct (step_shows now (mkShared reg pm al) ev sp Ht Hq) as (Ht' & Hq' & Hw). cbv zeta in *. cbn in Hw.
  split; cbn; [done|done|done|]. destruct (triggers ev).
  - exists al. split; [done|]. by left.
  - rewrite Hw. exists s. split; [done|]. destruct Hv as [Hv|[Hv|[Hv|(m & Hm & Hf)]]]; [by left|by right; left|by right; right; left|].
    right; right; right. exists m. split; [|done]. by apply Hrest.
Qed.

Lemma chain_inv_step (a : chain_act) (st st' : Chain) : chain_inv st -> chain_do Compact sn size a st = Some st' -> chain_inv st'.
Proof.
  intros Hi. pose proof Hi as [Hq Ht Ha (s & Hs & Hv)]. destruct a as [ev|r now line|c|src|m| |now reg pm|now reg pm sample]; cbn [chain_do].
  - destruct (bool_decide _); [|done]. intros [= <-]. pose proof (health_told ev (ch_alarms st, ns_world (ch_snap st))) as H. cbv zeta in H.
    destruct (on_health_event _ _) as [sw' evts]. by apply acted_inv.
  - destruct (bool_decide _); [|done]. pose proof (line_told r now line (ch_alarms st) (ns_world (ch_snap st))) as H. cbn [fst snd].
    destruct (handle_line _ _ _ _) as [[s' w'] evts]. intros [= <-]. by apply acted_inv.
  - pose proof (call_told c (ch_states st) (ch_alarms st, ns_world (ch_snap st))) as H.
    destruct (transition _ _) as [[states' sw'] evts]. intros [= <-]. apply acted_inv; [destruct st, Hi; by split|by destruct st].
  - destruct (ch_out st src) as [|evt evts] eqn:Eo; [done|]. unfold bus_offer. destruct st as [al states out sub q sp lost]. cbn in *.
    destruct (sub && _); intros [= <-]; (split; cbn; [done|done|done|]); exists s; (split; [done|]); right; [right; right|left; apply orb_true_r].
    exists (MAlarm evt). split; [apply elem_of_app; right; left|done].
  - intros H. assert (exists l, st' = st <|ch_queue := ch_queue st ++ l|>) as [l ->].
    { unfold bus_offer in H. destruct m; [| |done]; destruct (_ && _); injection H as <-; cbn [fst];
        solve [by eexists | exists []; rewrite app_nil_r; by destruct st]. }
    destruct st as [al states out sub q sp lost]. cbn in *. split; cbn; [done|done|done|]. exists s. split; [done|].
    destruct Hv as [Hv|[Hv|[Hv|(m' & Hm & Hf)]]]; [by left|by right; left|by right; right; left|]. right; right; right. exists m'. split; [apply elem_of_app; by left|done].
  - intros [= <-]. destruct st, Hi. by split.
  - destruct (ch_queue st) as [|m rest] eqn:Eq; [done|]. intros [= <-]. apply handled_inv; [done|]. cbn. intros Hm m' Hin Hf. rewrite Eq in Hin.
    apply elem_of_cons in Hin as [->|Hin]; [by rewrite Hf in Hm|done].
  - destruct (ch_subscribed st); [|done]. intros [= <-]. pose proof (handled_inv now reg pm (SnapSample sample) (ch_queue st) st Hi ltac:(done)) as H. by destruct st.
Qed.

Lemma chain_start_inv (now : time) (reg : Registry) (pm : PmStore) (legacy : MetricsStore) (alarms : AlarmStore) (w : World) :
  quiet w -> persistence alarms <> ns_Path sn -> chain_inv (chain_start Compact sn now reg pm legacy alarms w).
Proof.
  intros Hq Hp. destruct (write_shows now (mkShared reg pm alarms) "{}" w empty_ok Hq) as [H1 H2]. split; cbn; [done|done|done|]. exists alarms. split; [done|]. by left.
Qed.

Lemma chain_reach_inv (st0 st : Chain) : chain_inv st0 -> chain_reach Compact sn size st0 st -> chain_inv st.
Proof. intros H0. induction 1 as [|st a st' _ IH Hd]; [done|]. by apply (chain_inv_step a st). Qed.

End Invariant.

(** ** Draining *)

Section Drain.
Context {GL : GoLib} {RC : RecordCodec} {JT : JsonText} (Compact : string -> option bytes) (sn : NetconfSnapshot) (size : nat).

Fixpoint chain_run (acts : list chain_act) (st : Chain) : option Chain :=
  match acts with
  | [] => Some st
  | a :: acts => match chain_do Compact sn size a st with Some st' => chain_run acts st' | None => None end
  end.

Lemma chain_run_app (acts1 acts2 : list chain_act) (st : Chain) :
  chain_run (acts1 ++ acts2) st = match chain_run acts1 st with Some st' => chain_run acts2 st' | None => None end.
Proof. revert st. induction acts1 as [|a acts IH]; intros st; cbn; [done|]. destruct (chain_do _ _ _ a st); [apply IH|done]. Qed.

Lemma chain_run_reach (acts : list chain_act) (st0 st st' : Chain) :
  chain_reach Compact sn size st0 st -> chain_run acts st = Some st' -> chain_reach Compact sn size st0 st'.
Proof.
  revert st. induction acts as [|a acts IH]; intros st Hr; cbn; [by intros [= <-]|]. destruct (chain_do _ _ _ a st) as [st1|] eqn:Ed; [|done].
  apply IH. by eapply chain_next.
Qed.

(** The publisher and the subscriber at work, and nothing else. *)
Definition draining (a : chain_act) : Prop := match a with CPublish _ | CHandle _ _ _ => True | _ => False end.

Definition unpublished (st : Chain) : nat := (length (ch_out st SFault) + length (ch_out st SLog) + length (ch_out st STca))%nat.

(** The parts that draining leaves alone. *)
Definition same_alarms (st st' : Chain) : Prop :=
  ch_alarms st' = ch_alarms st /\ ch_lost st' = ch_lost st /\ ch_subscribed st' = ch_subscribed st.

Context (now : time) (reg : Registry) (pm : PmStore).

Lemma drain_queue (st : Chain) :
  exists st', chain_run (replicate (length (ch_queue st)) (CHandle now reg pm)) st = Some st' /\ ch_queue st' = [] /\ ch_out st' = ch_out st /\ same_alarms st st'.
Proof.
  remember (ch_queue st) as q eqn:Eq. revert st Eq. induction q as [|m q IH]; intros st Eq; [by exists st|]. cbn [length replicate chain_run chain_do].
  rewrite <- Eq. set (st1 := st <|ch_queue := q|> <|ch_snap ::= _|>). destruct (IH st1) as (st' & Hr & Hq & Ho & Ha & Hl & Hs); [by destruct st|].
  exists st'. split; [done|]. split; [done|]. rewrite Ho. unfold same_alarms. rewrite Ha, Hl, Hs. by destruct st.
Qed.

Lemma publish_one (src : source) (evt : Event) (evts : list Event) (st : Chain) :
  ch_subscribed st = true -> (0 < size)%nat -> ch_queue st = [] -> ch_out st src = evt :: evts ->
  exists st', chain_do Compact sn size (CPublish src) st = Some st' /\ ch_queue st' = [MAlarm evt] /\ ch_out st' = drop_first src (ch_out st) /\ same_alarms st st'.
Proof.
  intros Hs Hz Hq Ho. destruct st as [al states out sub q sp lost]. cbn in *. subst sub q. rewrite Ho. unfold bus_offer.
  assert (Hlt : (length (ch_queue (mkChain al states (drop_first src out) true [] sp lost)) <? size)%nat = true) by (by apply Nat.ltb_lt).
  cbn [ch_out update_field ch_subscribed andb] in *. rewrite Hlt. eexists. split; [done|]. cbn. unfold same_alarms. cbn. by rewrite orb_false_r.
Qed.

Lemma unpublished_drop (src : source) (out out' : source -> list Event) (evt : Event) (evts : list Event) :
  out src = evt :: evts -> out' = drop_first src out ->
  (length (out' SFault) + length (out' SLog) + length (out' STca) = pred (length (out SFault) + length (out SLog) + length (out STca)))%nat.
Proof. intros Ho ->. unfold drop_first. destruct src; repeat (destruct (decide _) as [?|?]; try done); rewrite Ho; cbn; lia. Qed.

Lemma drain_out (n : nat) (st : Chain) :
  unpublished st = n -> ch_subscribed st = true -> (0 < size)%nat -> ch_queue st = [] ->
  exists acts st', chain_run acts st = Some st' /\ length acts = (2 * n)%nat /\ Forall draining acts /\
    ch_queue st' = [] /\ (forall src, ch_out st' src = []) /\ same_alarms st st'.
Proof.
  revert st. induction n as [|n IH]; intros st Hn Hs Hz Hq.
  - exists [], st. split_and!; try done. unfold unpublished in Hn. intros []; apply length_zero_iff_nil; lia.
  - assert (exists src evt evts, ch_out st src = evt :: evts) as (src & evt & evts & Ho).
    { unfold unpublished in Hn. destruct (ch_out st SFault) as [|e l] eqn:E1; [|eauto]. destruct (ch_out st SLog) as [|e l] eqn:E2; [|eauto].
      destruct (ch_out st STca) as [|e l] eqn:E3; [cbn in Hn; lia|eauto]. }
    destruct (publish_one src evt evts st Hs Hz Hq Ho) as (st1 & Hd1 & Hq1 & Ho1 & Ha1 & Hl1 & Hs1).
    destruct (drain_queue st1) as (st2 & Hd2 & Hq2 & Ho2 & Ha2 & Hl2 & Hs2). rewrite Hq1 in Hd2.
    destruct (IH st2) as (acts & st' & Hr & Hlen & Hf & Hq' & Ho' & Ha' & Hl' & Hs').
    { unfold unpublished in *. rewrite Ho2, (unpublished_drop src (ch_out st) (ch_out st1) evt evts Ho Ho1). lia. }
    { by rewrite Hs2, Hs1. }
    { done. }
    { done. }
    exists (CPublish src :: CHandle now reg pm :: acts), st'. split_and!; try done.
    + cbn [chain_run length replicate] in *. rewrite Hd1. destruct (chain_do _ _ _ (CHandle now reg pm) st1); [|done]. by injection Hd2 as ->.
    + cbn. lia.
    + by constructor; [|constructor].
    + unfold same_alarms. rewrite Ha', Ha2, Ha1, Hl', Hl2, Hl1, Hs', Hs2, Hs1. done.
Qed.

Lemma drain (st : Chain) :
  ch_subscribed st = true -> (0 < size)%nat ->
  exists acts st', chain_run acts st = Some st' /\ length acts = (length (ch_queue st) + 2 * unpublished st)%nat /\ Forall draining acts /\
    settled st' /\ same_alarms st st'.
Proof.
  intros Hs Hz. destruct (drain_queue st) as (st1 & Hd1 & Hq1 & Ho1 & Ha1 & Hl1 & Hs1).
  destruct (drain_out (unpublished st) st1) as (acts & st' & Hr & Hlen & Hf & Hq' & Ho' & Ha' & Hl' & Hs').
  { unfold unpublished. by rewrite Ho1. }
  { by rewrite Hs1. }
  { done. }
  { done. }
  eexists (_ ++ acts), st'. split_and!.
  - by rewrite chain_run_app, Hd1.
  - rewrite length_app, length_replicate. lia.
  - apply Forall_app. split; [by apply Forall_replicate|done].
  - split; [done|]. intros m Hm. rewrite Hq' in Hm. by apply elem_of_nil in Hm.
  - unfold same_alarms. by rewrite Ha', Ha1, Hl', Hl1, Hs', Hs1.
Qed.

End Drain.

(** ** Faults reach the file *)

Section Theorems.
Context {GL : GoLib} {RC : RecordCodec} {JT : JsonText} (Compact : string -> option bytes) (sn : NetconfSnapshot) (size : nat).

(** The file is a document that lists the active alarms of [s]. *)
Definition file_lists (w : World) (s : AlarmStore) : Prop :=
  exists i doc, disk w !! ns_Path sn = Some i /\ contents i = Marshal doc /\
    lists alarm_shows (Active s) (artifact_at (function_path (ns_NRM sn) ++ [fault_member; "active_alarm"]) doc).

Lemma built_alarms (now : time) (cfg : SnapshotConfig) (reg : Registry) (pm : PmStore) (t : string) (s : AlarmStore) (b : bytes) :
  BuildCombinedSnapshot Compact now cfg (Some reg) (Some pm) t [Some s] = Ok b ->
  exists doc, b = Marshal doc /\ lists alarm_shows (Active s) (artifact_at (function_path cfg ++ [fault_member; "active_alarm"]) doc).
Proof.
  unfold BuildCombinedSnapshot. cbv zeta. match goal with |- (if ?c then _ else _) = _ -> _ => destruct c end; [done|].
  destruct (Compact _) as [raw|]; [|done]. intros H. exists (snapshot_json (snapshot_of cfg reg (Some pm) (unstr raw) [Some s])).
  split; [by injection H as <-|]. clear H.
  unfold snapshot_of, function_path. cbn [head mbind option_bind]. destruct (isGNBProfile (sc_ElementType cfg)).
  - destruct (function_members true (sc_SubNetwork cfg) (sc_ManagedElement cfg) (sc_GNBFunctionID cfg) (unstr raw)
      (map (fun c => mkCell_ (o_Name c) (cellMeasurements c (Some pm))) (EUtranCells reg)) (buildFaultState (Some s))) as (_ & _ & _ & _ & H5 & _).
    cbv zeta in H5. rewrite H5. apply faults_listed.
  - destruct (function_members false (sc_SubNetwork cfg) (sc_ManagedElement cfg) (sc_ENBFunctionID cfg) (unstr raw)
      (map (fun c => buildCell c (latestReport (Some pm))) (EUtranCells reg)) (buildFaultState (Some s))) as (_ & _ & _ & _ & H5 & _).
    cbv zeta in H5. rewrite H5. apply faults_listed.
Qed.

(** A settled state that has lost nothing shows the current alarms. *)
Lemma settled_shows (st : Chain) :
  chain_inv Compact sn st -> settled st -> ch_lost st = false ->
  exists s, file_lists (ns_world (ch_snap st)) s /\ visible s = visible (ch_alarms st).
Proof.
  intros [_ _ _ (s & (now & reg & pm & t & b & i & Hb & Hi & <-) & Hv)] [Ho Hq] Hl. exists s. split.
  - destruct (built_alarms _ _ _ _ _ _ _ Hb) as (doc & Hd & Hdoc). by exists i, doc.
  - destruct Hv as [Hv|[Hv|[(src & Hsrc)|(m & Hm & Hf)]]]; [done|by rewrite Hl in Hv|by rewrite Ho in Hsrc|by rewrite (Hq m Hm) in Hf].
Qed.


End Theorems.

(** ** Witnesses *)

(** A lost component with a critical error. *)
Definition lost_link (at_ : time) : HEvent :=
  mkHEvent EventComponentDown at_ "uds" false (Some (New at_ ErrCodeNetwork "link lost" [WithSeverity ErrSeverityCritical])) "degraded" "healthy".

Abbreviation lab_do := (chain_run (GL := ascii_golib) (RC := BitCodec.bit_codec) (JT := small_text) keep_text lab_snapshot 2).
Definition lab_start : Chain :=
  chain_start (GL := ascii_golib) keep_text lab_snapshot 0%Z one_cell NewPmStore NewMetricsStore NewStore (mkWorld ∅ []).

(** The fault is in the store but not yet published. *)
Definition lab_fault : Chain := default lab_start (lab_do [CSubscribe; CHealth (lost_link 5%Z)] lab_start).

Lemma keep_text_ok (t : string) : text_ok keep_text t.
Proof. unfold text_ok, keep_text. eauto. Qed.


(** ** Behaviours worth knowing, evaluated *)

(** The channel of the subscription is full of telemetry: the alarm is lost to the service, and when
    everything is settled the file still lists none. *)
Definition lab_crowded : Chain :=
  default lab_start (lab_do [CSubscribe; COther (MTelemetry []); COther (MTelemetry []); CHealth (lost_link 5%Z); CPublish SFault;
                             CHandle 6%Z one_cell NewPmStore; CHandle 6%Z one_cell NewPmStore] lab_start).

Lemma full_channel_hides_alarm :
  (size (visible (ch_alarms lab_crowded)), ch_lost lab_crowded, ch_queue lab_crowded, unpublished lab_crowded) = (1, true, [], 0) /\
  disk (ns_world (ch_snap lab_crowded)) = disk (ns_world (ch_snap lab_start)).
Proof. split; vm_compute; reflexivity. Qed.

(** The service writes its first file before it subscribes: an alarm published in between is lost to it. *)
Definition lab_early : Chain := default lab_start (lab_do [CHealth (lost_link 5%Z); CPublish SFault; CSubscribe] lab_start).

Lemma early_alarm_missed :
  (size (visible (ch_alarms lab_early)), ch_lost lab_early, ch_queue lab_early, unpublished lab_early) = (1, true, [], 0) /\
  disk (ns_world (ch_snap lab_early)) = disk (ns_world (ch_snap lab_start)).
Proof. split; vm_compute; reflexivity. Qed.
