(* ===== verification/Process.v ===== *)
(** * The NETCONF server process and its service (internal/ems/netconf/process.go, internal/ems/services/netconf_server.go)

    The SSH server is a program of its own. The agent starts it with the paths of the files it serves,
    reads its output line by line into the log, and ends it when the context is cancelled. The service
    keeps it running through the supervisor (Worker) and reports each start and crash to the health
    tracker (Health). What the operating system does to the process is given with the run. *)
From S2P Require Import Prelude GoNum GoStrings FileSystem Json Alarms Errors Health Worker.

(** ** strings.Fields *)

Definition put_word (word : bytes) (l : list bytes) : list bytes := match word with [] => l | _ => rev word :: l end.

(** [word] is the field under way, backwards. *)
Fixpoint fields_from (word l : bytes) : list bytes :=
  match l with
  | [] => put_word word []
  | c :: r =>
      if ascii_space c then put_word word (fields_from [] r)
      else match r with
           | [] => put_word (c :: word) []
           | d :: r2 =>
               if space2 c d then put_word word (fields_from [] r2)
               else match r2 with
                    | [] => fields_from (c :: word) r
                    | e :: r3 => if space3 c d e then put_word word (fields_from [] r3) else fields_from (c :: word) r
                    end
           end
  end.

Definition Fields (s : string) : list string := unstr <$> fields_from [] (str s).

(** strings.SplitN with 2 parts: the text before the separator and, if it occurs, the text after it. *)
Definition split_two (l sep : bytes) : bytes * option bytes :=
  match index_of l sep with
  | Some i => (take i l, Some (drop (i + length sep) l))
  | None => (l, None)
  end.

(** ** The process *)

Record ProcessServer := mkProcess {
  Binary : string;
  ps_Addr : string;
  ps_YangDir : string;
  ps_SnapshotPath : string;
  RunningPath : string;
  CandidatePath : string;
  ControlURL : string;
  ControlUnixSocket : string;
  ps_HostKey : string;
  ps_AuthorizedKey : string;
  ps_Username : string
}.

Definition optional_arg (flag value : string) : list string :=
  if String.eqb (TrimSpace value) "" then [] else [flag; TrimSpace value].

Definition process_args (p : ProcessServer) : list string :=
  ["-addr"; ps_Addr p; "-yang"; ps_YangDir p; "-snapshot"; ps_SnapshotPath p; "-running"; RunningPath p; "-candidate"; CandidatePath p;
   "-hostkey"; ps_HostKey p; "-authorized-key"; ps_AuthorizedKey p; "-user"; ps_Username p] ++
  optional_arg "-control" (ControlURL p) ++ optional_arg "-control-unix" (ControlUnixSocket p).

(** How a started process goes on: it runs, the context is cancelled (and the process ends within the
    five seconds of grace or not), or it ends by itself with the error of Wait. *)
Inductive fate := FRuns | FCancelled (ends_in_time : bool) | FExits (err : option string).

Inductive signal := SIGTERM | SIGKILL.

(** What the system answers: the errors of the two pipes and of the start, and the fate. *)
Record attempt := mkAttempt { stdout_err : option string; stderr_err : option string; start_err : option string; p_fate : fate }.

Definition process_error (now : time) (cause msg sev : string) : error :=
  default (Plain cause) (Wrap now (Some (Plain cause)) ErrCodeProcess msg [WithOp "netconf"; WithSeverity sev]).

(** The arguments it was started with, the signals it was sent, and the result once Run returns. *)
Definition ProcessServer_Run (now : time) (p : ProcessServer) (a : attempt) : option (list string) * list signal * option (option error) :=
  if String.eqb (Binary p) ""
  then (None, [], Some (Some (New now ErrCodeConfig "netconf binary is empty" [WithOp "netconf"; WithSeverity ErrSeverityCritical])))
  else match stdout_err a, stderr_err a, start_err a with
       | Some e, _, _ => (None, [], Some (Some (process_error now e "attach stdout pipe failed" ErrSeverityMajor)))
       | None, Some e, _ => (None, [], Some (Some (process_error now e "attach stderr pipe failed" ErrSeverityMajor)))
       | None, None, Some e => (None, [], Some (Some (process_error now e "start netconf process failed" ErrSeverityCritical)))
       | None, None, None =>
           (Some (process_args p),
            match p_fate a with FCancelled false => [SIGTERM; SIGKILL] | FCancelled true => [SIGTERM] | _ => [] end,
            match p_fate a with
            | FRuns => None
            | FCancelled _ => Some None
            | FExits err => Some (Wrap now (Plain <$> err) ErrCodeProcess "netconf process exited" [WithOp "netconf"; WithSeverity ErrSeverityCritical])
            end)
       end.

(** ** Its output *)

Inductive log_level := DebugLevel | InfoLevel | WarnLevel | ErrorLevel.

(** A line of the log: its level, its fields (a field of raw JSON or of an error too) and its text. *)
Record entry := mkEntry { en_level : log_level; en_fields : list (string * string); en_msg : string }.

(** The fields of a line about a get, in the order user, ts, bytes, sha256. *)
Definition meta_field (acc : string * string * string * string) (f : string) : string * string * string * string :=
  let '(user, ts, bytesStr, sha) := acc in
  if HasPrefix f "user=" then (TrimPrefix f "user=", ts, bytesStr, sha)
  else if HasPrefix f "ts=" then (user, TrimPrefix f "ts=", bytesStr, sha)
  else if HasPrefix f "bytes=" then (user, ts, TrimPrefix f "bytes=", sha)
  else if HasPrefix f "sha256=" then (user, ts, bytesStr, TrimPrefix f "sha256=")
  else acc.

(** [snapshot] is what reading the snapshot file gives. *)
Definition emitNetconfGetLog (line snapshotPath : string) (snapshot : result string bytes) (debug : bool) : entry :=
  let '(meta, json) := split_two (str (TrimPrefix line "NETCONF_GET ")) (str " json=") in
  let '(user, ts, bytesStr, sha) := foldl meta_field ("", "", "", "") (Fields (unstr meta)) in
  let payload := if negb debug then []
                 else match json with
                      | Some j => [("metrics", unstr j)]
                      | None => if String.eqb snapshotPath "" then []
                                else match snapshot with Ok b => [("metrics", unstr b)] | Err e => [("error", e)] end
                      end in
  mkEntry InfoLevel ([("user", user); ("ts", ts); ("bytes", bytesStr); ("sha256", sha)] ++ payload) "netconf_get".

Definition debug_line (debug : bool) (line : string) : list entry := if debug then [mkEntry DebugLevel [] line] else [].

(** The lines the scanner delivers and the error it ends with. *)
Definition scanNetconfOutput (snapshotPath : string) (snapshot : result string bytes) (debug : bool) (lines : list string) (err : option string) : list entry :=
  (lines ≫= fun line => if HasPrefix line "NETCONF_GET " then [emitNetconfGetLog line snapshotPath snapshot debug] else debug_line debug line) ++
  match err with Some e => [mkEntry WarnLevel [("error", e)] "netconf stdout scan failed"] | None => [] end.

Definition isBenignNetconfDisconnect (line : string) : bool :=
  Contains line "SSH channel unexpectedly closed" || Contains line "Communication socket unexpectedly closed" || Contains line "Failed to write reply".

Definition error_line (debug : bool) (line : string) : list entry :=
  if isBenignNetconfDisconnect line then debug_line debug line
  else if Contains line "[ERR]" || Contains line "ERROR" || Contains line "error" then [mkEntry ErrorLevel [] line]
  else debug_line debug line.

Definition scanNetconfErrors (debug : bool) (lines : list string) (err : option string) : list entry :=
  (lines ≫= error_line debug) ++
  match err with Some e => [mkEntry (if debug then DebugLevel else WarnLevel) [("error", e)] "netconf stderr scan failed"] | None => [] end.

(** ** The service *)

(** A life of the server: when it starts, and how and when it ends. *)
Record service_life := mkServiceLife { sl_start : time; sl_end : option (time * life) }.

Definition crash (now : time) (err : error) : error :=
  default err (Wrap now (Some err) ErrCodeProcess "netconf server crashed" [WithOp "netconf"; WithSeverity ErrSeverityCritical]).

(** OnExit *)
Definition netconf_exit (now : time) (l : life) (t : Tracker) : option Tracker :=
  match l_err l with
  | None => Some t
  | Some err => if l_cancelled l then Some t else TrackerDown now ComponentNetconf (Some (crash now err)) t
  end.

(** Run through the lives of the server: the tracker, the delays it waited, whether it has returned. *)
Fixpoint netconf_serve (lives : list service_life) (b : ExponentialBackoff) (t : Tracker) : option (Tracker * list duration * bool) :=
  match lives with
  | [] => Some (t, [], false)
  | l :: rest =>
      t ← TrackerUp (sl_start l) ComponentNetconf t;
      match sl_end l with
      | None => Some (t, [], false)
      | Some (now, e) =>
          t ← netconf_exit now e t;
          if l_cancelled e then Some (t, [], true)
          else match l_err e with
               | None => Some (t, [], true)
               | Some _ =>
                   let '(b, delay) := Next (l_rnd e) (l_uptime e) b in
                   if l_cancelled_waiting e then Some (t, [], true)
                   else '(t, ds, fin) ← netconf_serve rest b t; Some (t, delay :: ds, fin)
               end
      end
  end.

Definition NetconfServer_Run (b : option ExponentialBackoff) (lives : list service_life) (t : Tracker) : option (Tracker * list duration * bool) :=
  netconf_serve lives (default default_backoff b) t.

(** ** Lemmas: fields *)

Lemma solid_fields (acc word rest : bytes) : forallb solid_byte word = true -> fields_from acc (word ++ rest) = fields_from (rev word ++ acc) rest.
Proof.
  revert acc. induction word as [|c w IH]; intros acc Hw; [done|]. cbn in Hw. apply andb_true_iff in Hw as [Hc Hw].
  pose proof (solid_lead c (w ++ rest) Hc) as Hl. cbn [rev]. rewrite <- app_assoc. cbn [app]. rewrite <- IH by done.
  cbn in Hl |- *. apply orb_false_iff in Hl as [-> Hl]. destruct (w ++ rest) as [|d r2]; [done|]. apply orb_false_iff in Hl as [-> Hl].
  destruct r2 as [|e r3]; [done|]. by rewrite Hl.
Qed.

(** Words set apart by single blanks are the fields. *)
Fixpoint spaced (words : list bytes) : bytes :=
  match words with
  | [] => []
  | [w] => w
  | w :: r => w ++ " "%char :: spaced r
  end.

Definition word_ok (w : bytes) : Prop := w <> [] /\ forallb solid_byte w = true.

Lemma put_word_spec (w : bytes) (l : list bytes) : w <> [] -> put_word (rev w ++ []) l = w :: l.
Proof.
  intros Hw. rewrite app_nil_r. unfold put_word. destruct (rev w) as [|c r] eqn:E; [|by rewrite <- E, rev_involutive].
  exfalso. apply Hw. by rewrite <- (rev_involutive w), E.
Qed.

Lemma fields_spaced (words : list bytes) : Forall word_ok words -> fields_from [] (spaced words) = words.
Proof.
  induction words as [|w r IH]; intros H; [done|]. apply Forall_cons in H as [[Hn Hs] Hr]. destruct r as [|w2 r].
  - cbn [spaced]. rewrite <- (app_nil_r w) at 1. rewrite solid_fields by done. by apply put_word_spec.
  - change (spaced (w :: w2 :: r)) with (w ++ " "%char :: spaced (w2 :: r)). rewrite solid_fields by done.
    cbn [fields_from]. change (ascii_space " ") with true. cbv iota. rewrite put_word_spec by done. by rewrite IH.
Qed.

(** A pattern that starts with a blank does not begin inside a word. *)
Lemma skip_word (w rest p : bytes) :
  forallb solid_byte w = true -> index_of (w ++ rest) (" "%char :: p) = (fun i => length w + i) <$> index_of rest (" "%char :: p).
Proof.
  induction w as [|c w IH]; intros Hw; cbn [app length]; [by destruct (index_of rest _)|].
  cbn in Hw. apply andb_true_iff in Hw as [Hc Hw]. cbn [index_of has_prefix]. destruct (Ascii.eqb_spec c " ") as [->|]; [done|]. cbn [andb].
  rewrite IH by done. by destruct (index_of rest _).
Qed.


Definition json_mark : bytes := str " json=".

(** Words that do not start with the letter after the blank hide no separator. *)
Lemma skip_words (words : list bytes) (tail : bytes) :
  Forall (fun w => word_ok w /\ head w <> Some "j"%char) words ->
  index_of (spaced words ++ tail) json_mark = (fun i => length (spaced words) + i) <$> index_of tail json_mark.
Proof.
  induction words as [|w r IH]; intros H; [cbn; by destruct (index_of tail _)|]. apply Forall_cons in H as [[[Hn Hs] _] Hr]. destruct r as [|w2 r].
  - cbn [spaced]. by apply skip_word.
  - change (spaced (w :: w2 :: r)) with (w ++ " "%char :: spaced (w2 :: r)). rewrite <- app_assoc. unfold json_mark.
    change (str " json=") with (" "%char :: str "json="). rewrite skip_word by done. cbn [app]. cbn [index_of].
    assert (Hj : has_prefix (" "%char :: spaced (w2 :: r) ++ tail) (" "%char :: str "json=") = false).
    { apply Forall_cons in Hr as [[[Hn2 _] Hh2] _]. destruct w2 as [|c w2]; [done|]. cbn. destruct r; cbn; destruct (Ascii.eqb_spec c "j") as [->|]; done. }
    rewrite Hj. change (" "%char :: str "json=") with json_mark. rewrite IH by done. rewrite length_app. cbn [length].
    destruct (index_of tail json_mark); cbn; [f_equal; lia|done].
Qed.

(** ** The line of a get (cmd/netconf-server/server.c, emit_netconf_get) *)

Definition get_line (user ts count sha : string) (json : option string) : string :=
  "NETCONF_GET user=" +:+ user +:+ " ts=" +:+ ts +:+ " bytes=" +:+ count +:+ " sha256=" +:+ sha +:+
  match json with Some j => " json=" +:+ j | None => "" end.

Definition meta_words (user ts count sha : string) : list bytes :=
  [str "user=" ++ str user; str "ts=" ++ str ts; str "bytes=" ++ str count; str "sha256=" ++ str sha].

Definition no_blank (s : string) : bool := forallb solid_byte (str s).

Lemma get_line_bytes (user ts count sha : string) (json : option string) :
  str (TrimPrefix (get_line user ts count sha json) "NETCONF_GET ") =
  spaced (meta_words user ts count sha) ++ match json with Some j => json_mark ++ str j | None => [] end.
Proof.
  unfold get_line, TrimPrefix, trim_prefix. rewrite str_unstr.
  assert (E : str ("NETCONF_GET user=" +:+ user +:+ " ts=" +:+ ts +:+ " bytes=" +:+ count +:+ " sha256=" +:+ sha +:+ match json with Some j => " json=" +:+ j | None => "" end) =
    str "NETCONF_GET " ++ spaced (meta_words user ts count sha) ++ match json with Some j => json_mark ++ str j | None => [] end).
  { rewrite !str_app. cbn [spaced meta_words]. change (str "NETCONF_GET user=") with (str "NETCONF_GET " ++ str "user=").
    repeat (rewrite <- app_assoc || rewrite <- app_comm_cons). destruct json; rewrite ?str_app; reflexivity. }
  rewrite E, has_prefix_app. by rewrite drop_app_length.
Qed.

Lemma meta_words_ok (user ts count sha : string) :
  no_blank user = true -> no_blank ts = true -> no_blank count = true -> no_blank sha = true ->
  Forall (fun w => word_ok w /\ head w <> Some "j"%char) (meta_words user ts count sha).
Proof.
  unfold no_blank. intros H1 H2 H3 H4. unfold meta_words. repeat (apply Forall_cons; split); try apply Forall_nil_2;
    (split; [split; [done|by rewrite forallb_app, ?H1, ?H2, ?H3, ?H4]|done]).
Qed.

Lemma split_get_line (user ts count sha : string) (json : option string) :
  no_blank user = true -> no_blank ts = true -> no_blank count = true -> no_blank sha = true ->
  split_two (str (TrimPrefix (get_line user ts count sha json) "NETCONF_GET ")) (str " json=") =
  (spaced (meta_words user ts count sha), str <$> json).
Proof.
  intros H1 H2 H3 H4. rewrite get_line_bytes. unfold split_two. change (str " json=") with json_mark.
  rewrite skip_words by (by apply meta_words_ok). destruct json as [j|]; cbn [fmap option_fmap option_map].
  - assert (E : index_of (json_mark ++ str j) json_mark = Some 0) by (cbn; by rewrite has_prefix_nil).
    rewrite E. cbn [fmap option_fmap option_map]. rewrite Nat.add_0_r, take_app_length, drop_app_add. by rewrite drop_app_length.
  - cbn. by rewrite app_nil_r.
Qed.

Lemma meta_folded (user ts count sha : string) :
  foldl meta_field ("", "", "", "") (unstr <$> meta_words user ts count sha) = (user, ts, count, sha).
Proof.
  assert (H : forall p s, TrimPrefix (unstr (str p ++ str s)) p = s).
  { intros p s. unfold TrimPrefix, trim_prefix. rewrite str_unstr, has_prefix_app, drop_app_length. apply unstr_str. }
  unfold meta_words. cbn [fmap list_fmap foldl]. unfold meta_field at 4. unfold meta_field at 3. unfold meta_field at 2. unfold meta_field at 1.
  unfold HasPrefix. rewrite !str_unstr. rewrite !has_prefix_app. rewrite !H. reflexivity.
Qed.

(** ** Lemmas: the service *)

(** A status set while no subscription ends never meets a closed channel. *)
Lemma set_total (c : Component) (s : ComponentStatus) (t : Tracker) : exists t', set c s t = Some t' /\ components t' = <[c := s]> (components t).
Proof.
  destruct t as [comps state subs]. unfold set, set_locked, broadcast. destruct (set_events _ _ _) as [|ev evs]; cbn; [by eexists|].
  rewrite bool_decide_eq_true_2 by done. by eexists.
Qed.

(** The lives that ended before one that still runs. *)
Fixpoint ended (lives : list service_life) : list life :=
  match lives with
  | l :: r => match sl_end l with Some (_, e) => e :: ended r | None => [] end
  | [] => []
  end.

(** The service starts another life after this one. *)
Definition restarted (e : life) : bool :=
  negb (l_cancelled e) && match l_err e with Some _ => negb (l_cancelled_waiting e) | None => false end.

(** The last life the service started. *)
Fixpoint last_life (lives : list service_life) : option service_life :=
  match lives with
  | [] => None
  | l :: r => match sl_end l with
              | Some (_, e) => if restarted e then Some (default l (last_life r)) else Some l
              | None => Some l
              end
  end.

(** What the tracker shows after a life: down with the wrapped error when it crashed, up since its start
    otherwise. *)
Definition shown_after (l : service_life) : ComponentStatus :=
  match sl_end l with
  | Some (now, e) => match l_err e with
                     | Some err => if l_cancelled e then mkStatus true (sl_start l) None else mkStatus false now (Some (crash now err))
                     | None => mkStatus true (sl_start l) None
                     end
  | None => mkStatus true (sl_start l) None
  end.

Lemma life_shown (l : service_life) (t : Tracker) :
  exists t1, TrackerUp (sl_start l) ComponentNetconf t = Some t1 /\
    match sl_end l with
    | None => components t1 = <[ComponentNetconf := shown_after l]> (components t)
    | Some (now, e) => exists t2, netconf_exit now e t1 = Some t2 /\ components t2 = <[ComponentNetconf := shown_after l]> (components t)
    end.
Proof.
  destruct (set_total ComponentNetconf (mkStatus true (sl_start l) None) t) as (t1 & H1 & C1). exists t1. split; [exact H1|].
  unfold shown_after, netconf_exit. destruct (sl_end l) as [[now e]|]; [|done]. destruct (l_err e) as [err|]; [|by exists t1].
  destruct (l_cancelled e); [by exists t1|]. destruct (set_total ComponentNetconf (mkStatus false now (Some (crash now err))) t1) as (t2 & H2 & C2).
  exists t2. split; [exact H2|]. by rewrite C2, C1, insert_insert_eq.
Qed.

(** ** Theorems *)

(** What the server prints about a get is what the log says of it. A line printed for a user, a time, a
    length and a digest without blanks, with or without the document, becomes one entry with exactly
    these four fields; the document is in it only at debug level, and where the line has none the
    snapshot file stands in for it. *)
Theorem get_line_logged (user ts count sha snapshotPath : string) (json : option string) (snapshot : result string bytes) (debug : bool) :
  no_blank user = true -> no_blank ts = true -> no_blank count = true -> no_blank sha = true ->
  scanNetconfOutput snapshotPath snapshot debug [get_line user ts count sha json] None =
  [mkEntry InfoLevel
     ([("user", user); ("ts", ts); ("bytes", count); ("sha256", sha)] ++
      (if debug then match json with
                     | Some j => [("metrics", j)]
                     | None => if String.eqb snapshotPath "" then [] else [match snapshot with Ok b => ("metrics", unstr b) | Err e => ("error", e) end]
                     end
       else []))
     "netconf_get"].
Proof.
  intros H1 H2 H3 H4. unfold scanNetconfOutput. cbn [mbind list_bind app].
  assert (HasPrefix (get_line user ts count sha json) "NETCONF_GET " = true) as ->.
  { unfold HasPrefix, get_line. rewrite str_app. change (str "NETCONF_GET user=") with (str "NETCONF_GET " ++ str "user="). rewrite <- app_assoc. apply has_prefix_app. }
  cbn [app]. unfold emitNetconfGetLog. rewrite split_get_line by done. unfold Fields. rewrite str_unstr, fields_spaced.
  - rewrite meta_folded. do 3 f_equal. destruct debug, json as [j|]; cbn; rewrite ?unstr_str; [done| |done..]. destruct (String.eqb _ _); [done|]. by destruct snapshot.
  - eapply Forall_impl; [by apply meta_words_ok|]. by intros w [Hw _].
Qed.


(** ** Witness and finding *)

Lemma get_line_logged_witness :
  scanNetconfOutput "" (Err "") true [get_line "admin" "2024-01-01T00:00:00+0000" "2" "44136f" (Some "{ }")] None =
  [mkEntry InfoLevel [("user", "admin"); ("ts", "2024-01-01T00:00:00+0000"); ("bytes", "2"); ("sha256", "44136f"); ("metrics", "{ }")] "netconf_get"].
Proof. apply (get_line_logged "admin" "2024-01-01T00:00:00+0000" "2" "44136f" "" (Some "{ }") (Err "") true); reflexivity. Defined.

(** A server that ends with status 0 while the agent runs: the error of Wait is nil, so is the result of
    Run, the supervisor returns, and the tracker keeps showing the component as up. *)
Lemma clean_exit_unnoticed (now t1 : time) (p : ProcessServer) (uptime : duration) (rnd : float64) (b : ExponentialBackoff) :
  Binary p <> "" ->
  snd (ProcessServer_Run now p (mkAttempt None None None (FExits None))) = Some None /\
  exists t', netconf_serve [mkServiceLife t1 (Some (now, mkLife None uptime rnd false false))] b NewTracker = Some (t', [], true) /\
    TrackerComponent ComponentNetconf t' = Some (mkStatus true t1 None).
Proof.
  intros Hb. split; [unfold ProcessServer_Run; by rewrite (proj2 (String.eqb_neq _ _) Hb)|]. eexists. split; [reflexivity|]. reflexivity.
Qed.
