(* ===== verification/Runner.v ===== *)
(** * The runner of the services (internal/ems/service/service.go)

    Every service runs in a goroutine of its own. The first error that reaches the runner cancels the
    others; the runner returns when all have stopped. The goroutines, the runner and the caller's
    context interleave freely; what a service does until it returns is not part of this model. *)
From S2P Require Import Prelude GoStrings Errors.

(** ** State *)

(** A goroutine: inside the service's Run, about to report the error Run returned, or at its end. *)
Inductive goroutine := GRuns | GFailed (err : error) | GDone.

#[export] Instance goroutine_done_dec (g : goroutine) : Decision (g = GDone).
Proof. destruct g; [right|right|left]; done. Defined.

(** The runner: at its select, waiting for the goroutines with the result it will return, or back. *)
Inductive runner_at := Selecting | Joining (res : option error) | Returned (res : option error).

(** [outer] is the caller's context, [cancelled] whether the runner has called cancel; [errCh] has room
    for one error. *)
Record RunnerState := mkRunner { goroutines : list goroutine; errCh : option error; outer : bool; cancelled : bool; at_ : runner_at }.

(** After the loop that starts [n] services. *)
Definition runner_start (n : nat) : RunnerState := mkRunner (replicate n GRuns) None false false Selecting.

(** ctx.Done() of the context the services are given. *)
Definition ctx_done (s : RunnerState) : bool := outer s || cancelled s.

(** ** Steps *)

Inductive runner_action :=
| RReturn (i : nat) (err : option error)   (* the Run of service i returns *)
| RReport (i : nat)                        (* its goroutine tries to send the error and ends *)
| RCancel                                  (* the caller's context is cancelled *)
| RSeeDone                                 (* the select takes ctx.Done() *)
| RSeeError                                (* the select takes an error, cancel() *)
| RJoin.                                   (* wg.Wait() returns, then the runner, with its deferred cancel *)

Definition all_done (s : RunnerState) : bool := forallb (fun g => match g with GDone => true | _ => false end) (goroutines s).

(** None: the step is not possible. *)
Definition runner_do (a : runner_action) (s : RunnerState) : option RunnerState :=
  match a with
  | RReturn i err =>
      match goroutines s !! i with
      | Some GRuns => Some (s <|goroutines ::= <[i := match err with Some e => GFailed e | None => GDone end]>|>)
      | _ => None
      end
  | RReport i =>
      match goroutines s !! i with
      | Some (GFailed e) => Some (s <|goroutines ::= <[i := GDone]>|> <|errCh ::= fun q => match q with Some _ => q | None => Some e end|>)
      | _ => None
      end
  | RCancel => if outer s then None else Some (s <|outer := true|>)
  | RSeeDone => match at_ s with Selecting => if ctx_done s then Some (s <|at_ := Joining None|>) else None | _ => None end
  | RSeeError =>
      match at_ s, errCh s with
      | Selecting, Some e => Some (s <|errCh := None|> <|cancelled := true|> <|at_ := Joining (Some e)|>)
      | _, _ => None
      end
  | RJoin => match at_ s with Joining res => if all_done s then Some (s <|cancelled := true|> <|at_ := Returned res|>) else None | _ => None end
  end.

Inductive runner_reach (n : nat) : list runner_action -> RunnerState -> Prop :=
| runner_init : runner_reach n [] (runner_start n)
| runner_next tr s a s' : runner_reach n tr s -> runner_do a s = Some s' -> runner_reach n (tr ++ [a]) s'.

Fixpoint runner_run (acts : list runner_action) (s : RunnerState) : option RunnerState :=
  match acts with
  | [] => Some s
  | a :: r => s ← runner_do a s; runner_run r s
  end.

(** ** What a trace says *)

(** The error service i returned. *)
Definition returned_error (tr : list runner_action) (i : nat) : option error :=
  match List.find (fun a => match a with RReturn j _ => j =? i | _ => false end) tr with
  | Some (RReturn _ err) => err
  | _ => None
  end.

(** The service that reported first. *)
Definition first_report (tr : list runner_action) : option nat :=
  match omap (fun a => match a with RReport i => Some i | _ => None end) tr with
  | i :: _ => Some i
  | [] => None
  end.

(** The error that was reported first. *)
Definition first_error (tr : list runner_action) : option error := first_report tr ≫= returned_error tr.

(** ** Lemmas: traces *)

Lemma find_snoc {A : Type} (f : A -> bool) (l : list A) (x : A) : List.find f (l ++ [x]) = match List.find f l with Some y => Some y | None => if f x then Some x else None end.
Proof. induction l as [|a l IH]; cbn; [done|]. by destruct (f a). Qed.

Definition no_return (tr : list runner_action) (i : nat) : Prop := List.find (fun a => match a with RReturn j _ => j =? i | _ => false end) tr = None.

Lemma returned_keep (tr : list runner_action) (a : runner_action) (i : nat) (e : error) : returned_error tr i = Some e -> returned_error (tr ++ [a]) i = Some e.
Proof. unfold returned_error. rewrite find_snoc. by destruct (List.find _ tr). Qed.

Lemma returned_new (tr : list runner_action) (i : nat) (err : option error) : no_return tr i -> returned_error (tr ++ [RReturn i err]) i = err.
Proof. unfold returned_error, no_return. intros H. rewrite find_snoc, H. by rewrite Nat.eqb_refl. Qed.

Lemma no_return_keep (tr : list runner_action) (a : runner_action) (i : nat) :
  no_return tr i -> (forall err, a <> RReturn i err) -> no_return (tr ++ [a]) i.
Proof.
  unfold no_return. intros H Ha. rewrite find_snoc, H. destruct a as [j err| | | | |]; try done. destruct (Nat.eqb_spec j i) as [->|]; [|done]. by destruct (Ha err).
Qed.

Lemma first_report_snoc (tr : list runner_action) (a : runner_action) :
  first_report (tr ++ [a]) = match first_report tr with Some i => Some i | None => match a with RReport i => Some i | _ => None end end.
Proof. unfold first_report. rewrite omap_app. destruct (omap _ tr) as [|i l]; [by destruct a|done]. Qed.

Lemma first_error_keep (tr : list runner_action) (a : runner_action) (e : error) : first_error tr = Some e -> first_error (tr ++ [a]) = Some e.
Proof.
  unfold first_error. rewrite first_report_snoc. destruct (first_report tr) as [i|]; [|done]. apply returned_keep.
Qed.

(** ** The invariant *)

Record runner_inv (n : nat) (tr : list runner_action) (s : RunnerState) : Prop := {
  ri_length : length (goroutines s) = n;
  ri_runs : forall i, goroutines s !! i = Some GRuns -> no_return tr i;
  ri_failed : forall i e, goroutines s !! i = Some (GFailed e) -> returned_error tr i = Some e;
  ri_outer : outer s = true <-> RCancel ∈ tr;
  ri_reported : forall i, first_report tr = Some i -> exists e, first_error tr = Some e;
  ri_at : match at_ s with
          | Selecting => errCh s = first_error tr /\ cancelled s = false
          | Joining res | Returned res => match res with Some e => first_error tr = Some e /\ cancelled s = true | None => outer s = true end
          end;
  ri_done : forall res, at_ s = Returned res -> all_done s = true }.

Definition report_of (tr : list runner_action) (a : runner_action) : option error := match a with RReport i => returned_error tr i | _ => None end.

Lemma first_error_snoc (tr : list runner_action) (a : runner_action) :
  (forall i, first_report tr = Some i -> exists e, first_error tr = Some e) ->
  first_error (tr ++ [a]) = match first_error tr with Some e => Some e | None => report_of tr a end.
Proof.
  intros H. destruct (first_error tr) as [e|] eqn:E; [by apply first_error_keep|]. unfold first_error. rewrite first_report_snoc.
  destruct (first_report tr) as [i|]; [destruct (H i eq_refl) as [e He]; congruence|]. destruct a as [| i | | | |]; try done. cbn.
  unfold returned_error. rewrite find_snoc. by destruct (List.find _ tr).
Qed.

(** The part of the invariant that only looks at the trace. *)
Lemma reported_snoc (tr : list runner_action) (a : runner_action) :
  (forall i, first_report tr = Some i -> exists e, first_error tr = Some e) -> (forall i, a = RReport i -> exists e, returned_error tr i = Some e) ->
  forall i, first_report (tr ++ [a]) = Some i -> exists e, first_error (tr ++ [a]) = Some e.
Proof.
  intros H Ha i Hi. rewrite first_error_snoc by done. rewrite first_report_snoc in Hi. destruct (first_error tr) as [e|]; [by exists e|].
  destruct (first_report tr) as [j|]; [by destruct (H j eq_refl)|]. destruct a as [| j | | | |]; try done. by apply Ha.
Qed.

Lemma cancel_snoc (tr : list runner_action) (a : runner_action) (b : bool) :
  (b = true <-> RCancel ∈ tr) -> a <> RCancel -> (b = true <-> RCancel ∈ tr ++ [a]).
Proof. intros H Ha. rewrite H, elem_of_app, list_elem_of_singleton. split; [by left|]. intros [?|<-]; done. Qed.

(** Steps that are neither a return nor a report leave the goroutines and the errors alone. *)
Lemma quiet_inv (n : nat) (tr : list runner_action) (s s' : RunnerState) (a : runner_action) :
  runner_inv n tr s -> match a with RReturn _ _ | RReport _ => False | _ => True end -> goroutines s' = goroutines s ->
  (outer s' = true <-> RCancel ∈ tr ++ [a]) ->
  match at_ s' with
  | Selecting => errCh s' = first_error tr /\ cancelled s' = false
  | Joining res | Returned res => match res with Some e => first_error tr = Some e /\ cancelled s' = true | None => outer s' = true end
  end ->
  (forall res, at_ s' = Returned res -> all_done s' = true) -> runner_inv n (tr ++ [a]) s'.
Proof.
  intros [Hl Hr Hf Ho Hrep Hat Hd] Ha Hg Ho' Hat' Hd'. assert (Hrp : report_of tr a = None) by (by destruct a).
  split; rewrite ?Hg; try done.
  - intros i Hi. apply no_return_keep; [by apply Hr|]. by intros err ->.
  - intros i e Hi. by apply returned_keep, Hf.
  - apply reported_snoc; [done|]. by intros i ->.
  - rewrite first_error_snoc by done. rewrite Hrp. by destruct (first_error tr).
Qed.

Lemma runner_step_inv (n : nat) (tr : list runner_action) (s s' : RunnerState) (a : runner_action) :
  runner_inv n tr s -> runner_do a s = Some s' -> runner_inv n (tr ++ [a]) s'.
Proof.
  intros Hinv Hs. pose proof Hinv as [Hl Hr Hf Ho Hrep Hat Hd]. destruct s as [gs q o c p]. cbn [goroutines errCh outer cancelled at_] in *. destruct a as [i err|i| | | |]; cbn in Hs.
  - destruct (gs !! i) as [[|e|]|] eqn:Hg; try done. injection Hs as <-. split; cbn; [by rewrite length_insert| | |by apply cancel_snoc|by apply reported_snoc| |].
    + intros j Hj. destruct (decide (j = i)) as [->|Hn]; [rewrite list_lookup_insert_eq in Hj by (by apply lookup_lt_Some in Hg); by destruct err|].
      rewrite list_lookup_insert_ne in Hj by done. apply no_return_keep; [by apply Hr|]. intros err' [= ? _]. congruence.
    + intros j e Hj. destruct (decide (j = i)) as [->|Hn]; [|rewrite list_lookup_insert_ne in Hj by done; by apply returned_keep, Hf].
      rewrite list_lookup_insert_eq in Hj by (by apply lookup_lt_Some in Hg). rewrite returned_new by (by apply Hr). destruct err; [by injection Hj as <-|done].
    + rewrite first_error_snoc by done. cbn. by destruct p, (first_error tr).
    + intros res ->. specialize (Hd res eq_refl). unfold all_done in *. cbn in *. rewrite forallb_forall in Hd. 
      apply list_elem_of_lookup_2, list_elem_of_In, Hd in Hg. done.
  - destruct (gs !! i) as [[|e|]|] eqn:Hg; try done. injection Hs as <-. pose proof (Hf i e Hg) as He. pose proof (lookup_lt_Some _ _ _ Hg) as Hlt.
    split; cbn; [by rewrite length_insert| | |by apply cancel_snoc| | |].
    + intros j Hj. destruct (decide (j = i)) as [->|Hn]; [by rewrite list_lookup_insert_eq in Hj|].
      rewrite list_lookup_insert_ne in Hj by done. apply no_return_keep; [by apply Hr|done].
    + intros j e' Hj. destruct (decide (j = i)) as [->|Hn]; [by rewrite list_lookup_insert_eq in Hj|].
      rewrite list_lookup_insert_ne in Hj by done. by apply returned_keep, Hf.
    + apply reported_snoc; [done|]. intros j [= ->]. by exists e.
    + rewrite first_error_snoc by done. cbn. rewrite He. destruct p as [|[]|[]]; [destruct Hat as [-> ->]; by destruct (first_error tr)|destruct Hat as [-> ->]; done|done|destruct Hat as [-> ->]; done|done].
    + intros res ->. specialize (Hd res eq_refl). unfold all_done in *. cbn in *. rewrite forallb_forall in Hd.
      apply list_elem_of_lookup_2, list_elem_of_In, Hd in Hg. done.
  - destruct o; [done|]. injection Hs as <-. apply (quiet_inv n tr (mkRunner gs q false c p)); try done; cbn.
    + split; [|done]. rewrite elem_of_app, list_elem_of_singleton. by right.
    + destruct p as [|[]|[]]; done.
  - destruct p; try done. unfold ctx_done in Hs. cbn in Hs. destruct (o || c) eqn:Eo; [|done]. injection Hs as <-. destruct Hat as [_ ->]. rewrite orb_false_r in Eo.
    apply (quiet_inv n tr (mkRunner gs q o false Selecting)); try done; cbn. by apply cancel_snoc.
  - destruct p, q as [e|]; try done. injection Hs as <-. destruct Hat as [Hq ->].
    apply (quiet_inv n tr (mkRunner gs (Some e) o false Selecting)); try done; cbn. by apply cancel_snoc.
  - destruct p as [|res|]; try done. unfold all_done in Hs. cbn in Hs. destruct (forallb _ gs) eqn:Ed; [|done]. injection Hs as <-.
    apply (quiet_inv n tr (mkRunner gs q o c (Joining res))); try done; cbn; [by apply cancel_snoc|]. by destruct res; [destruct Hat|].
Qed.

Lemma runner_reach_inv (n : nat) (tr : list runner_action) (s : RunnerState) : runner_reach n tr s -> runner_inv n tr s.
Proof.
  induction 1 as [|tr s a s' _ IH Hs]; [|by apply (runner_step_inv n tr s)]. split; cbn; try done; [apply length_replicate| |].
  - intros i e Hi. apply lookup_replicate in Hi as [? _]. done.
  - split; [done|]. intros H. by apply elem_of_nil in H.
Qed.

(** ** Progress *)

Definition finished (g : goroutine) : bool := match g with GRuns => false | _ => true end.

Lemma runner_run_app (a b : list runner_action) (s : RunnerState) : runner_run (a ++ b) s = runner_run a s ≫= runner_run b.
Proof. revert s. induction a as [|x a IH]; intros s; cbn; [done|]. destruct (runner_do x s); cbn; [apply IH|done]. Qed.

(** The goroutines whose services have returned report, one after the other. *)
Lemma report_all (done rest : list goroutine) (q : option error) (o c : bool) (p : runner_at) :
  forallb (fun g => match g with GDone => true | _ => false end) done = true -> forallb finished rest = true ->
  exists acts gs q', length acts <= length rest /\ runner_run acts (mkRunner (done ++ rest) q o c p) = Some (mkRunner gs q' o c p) /\
    forallb (fun g => match g with GDone => true | _ => false end) gs = true /\
    (q' = None -> q = None /\ forall i e, rest !! i <> Some (GFailed e)).
Proof.
  revert done q. induction rest as [|g rest IH]; intros done q Hd Hr; [by exists [], (done ++ []), q; rewrite app_nil_r|].
  cbn in Hr. destruct g as [|e|]; [done| |].
  - destruct (IH (done ++ [GDone]) (match q with Some _ => q | None => Some e end)) as (acts & gs & q' & Ha & Hrun & Hg & Hq); [by rewrite forallb_app, Hd|done|].
    exists (RReport (length done) :: acts), gs, q'. split_and!; [cbn; lia| |done|].
    + cbn [runner_run runner_do goroutines]. rewrite list_lookup_middle by done. cbn. rewrite insert_app_r_alt, Nat.sub_diag by lia. cbn.
      by rewrite <- app_assoc in Hrun.
    + intros Hq'. destruct (Hq Hq') as [Hn _]. by destruct q.
  - destruct (IH (done ++ [GDone]) q) as (acts & gs & q' & Ha & Hrun & Hg & Hq); [by rewrite forallb_app, Hd|done|]. rewrite <- app_assoc in Hrun.
    exists acts, gs, q'. split_and!; [cbn; lia|done|done|]. intros Hq'. destruct (Hq Hq') as [Hn Hf]. split; [done|]. intros [|i] e'; [done|apply Hf].
Qed.

(** Once every service has returned, a runner with a reason to stop stops. *)
Lemma runner_finishes (n : nat) (tr : list runner_action) (s : RunnerState) :
  runner_inv n tr s -> forallb finished (goroutines s) = true -> ctx_done s = true \/ (exists i e, goroutines s !! i = Some (GFailed e)) \/ first_error tr <> None ->
  exists acts s' res, length acts <= n + 2 /\ runner_run acts s = Some s' /\ at_ s' = Returned res.
Proof.
  intros Hinv Hf Hwhy. destruct Hinv as [Hl _ _ _ _ Hi _]. destruct s as [gs q o c p]. unfold ctx_done in Hwhy. cbn [goroutines errCh outer cancelled at_] in *.
  destruct (report_all [] gs q o c p eq_refl Hf) as (acts & gs' & q' & Ha & Hrun & Hg & Hq). cbn [app] in Hrun.
  assert (Hjoin : forall q c res, runner_run [RJoin] (mkRunner gs' q o c (Joining res)) = Some (mkRunner gs' q o true (Returned res)))
    by (intros; cbn; unfold all_done; cbn; by rewrite Hg).
  assert (Hend : forall more s' res, length more <= 2 -> runner_run more (mkRunner gs' q' o c p) = Some s' -> at_ s' = Returned res ->
    exists acts s' res, length acts <= n + 2 /\ runner_run acts (mkRunner gs q o c p) = Some s' /\ at_ s' = Returned res).
  { intros more s' res Hm Hs Hr. exists (acts ++ more), s', res. rewrite length_app, runner_run_app, Hrun. split_and!; [lia|done|done]. }
  destruct p as [|r|r]; [|by eapply (Hend [RJoin]); [cbn; lia|apply Hjoin|]|by eapply (Hend []); [cbn; lia| |]].
  destruct q' as [e|].
  - eapply (Hend [RSeeError; RJoin]); [cbn; lia|exact (Hjoin None true (Some e))|done].
  - destruct (Hq eq_refl) as [-> Hno]. destruct Hi as [Hi ->]. destruct Hwhy as [Hc|[(i & e & He)|Hc]]; [|by destruct (Hno i e)|congruence].
    assert (Hs : runner_run [RSeeDone; RJoin] (mkRunner gs' None o false Selecting) = Some (mkRunner gs' None o true (Returned None))).
    { cbn [runner_run runner_do at_]. unfold ctx_done. cbn [outer cancelled]. rewrite Hc. exact (Hjoin None false None). }
    by eapply (Hend [RSeeDone; RJoin]); [cbn; lia|exact Hs|].
Qed.

(** ** Theorem *)


(** ** Witness *)

Lemma runner_run_reach (n : nat) (acts tr : list runner_action) (s s' : RunnerState) :
  runner_reach n tr s -> runner_run acts s = Some s' -> runner_reach n (tr ++ acts) s'.
Proof.
  revert tr s. induction acts as [|a r IH]; intros tr s Hs Hr; cbn in Hr; [injection Hr as <-; by rewrite app_nil_r|].
  destruct (runner_do a s) as [s1|] eqn:Ha; [|done]. rewrite (cons_middle a tr r), (assoc (++)). by apply (IH _ s1); [apply (runner_next _ _ s)|].
Qed.

(** Two services fail, the third stops when the context is cancelled: the second's error is reported
    first and is the result. *)
Definition failing_acts : list runner_action :=
  [RReturn 0 (Some (Plain "first")); RReturn 1 (Some (Plain "second")); RReport 1; RReport 0; RSeeError; RReturn 2 None; RJoin].

Definition failing_end : RunnerState := default (runner_start 3) (runner_run failing_acts (runner_start 3)).


(** A runner whose services have all ended without an error goes on waiting for its context. *)
Lemma idle_runner_waits : runner_do RSeeDone (runner_start 0) = None /\ runner_do RSeeError (runner_start 0) = None /\ runner_do RJoin (runner_start 0) = None.
Proof. split_and!; reflexivity. Qed.
