(* ===== verification/Logging.v ===== *)
(** * Loggers (internal/ems/logging/logging.go)

    How the configuration sets the level and the form of the log. The logging library is not part of the
    repository: the parser of level names is a parameter, a logger is what the code sets of it. *)
From S2P Require Import Prelude GoNum GoStrings Json FileSystem AgentConfig.

Definition Level : Type := Z.
Definition LogInfo : Level := 1%Z.

Record Logger := mkLogger { logger_level : Level; console : bool; colored : bool; timestamped : bool; component : option string }.

(** *** The style of a level on a console *)

Definition escape (n : string) : string := unstr (ascii_of_N 27 :: str n).
Definition colorRed : string := escape "[31m".
Definition colorYellow : string := escape "[33m".
Definition colorWhite : string := escape "[37m".
Definition colorCyan : string := escape "[36m".
Definition colorMagenta : string := escape "[35m".
Definition colorReset : string := escape "[0m".

(** The names of levels are ASCII. *)
Definition upper_byte (c : ascii) : ascii := if is_lower c then ascii_of_N (code c - 32) else c.

Definition levelStyle (level : string) : string * string :=
  if existsb (String.eqb level) ["error"; "fatal"; "panic"] then (colorRed, "ERR")
  else if String.eqb level "warn" then (colorYellow, "WRN")
  else if String.eqb level "info" then (colorWhite, "INF")
  else if String.eqb level "debug" then (colorCyan, "DBG")
  else if String.eqb level "trace" then (colorMagenta, "TRC")
  else (colorWhite, unstr (upper_byte <$> str level)).

(** FormatLevel of a coloured console. *)
Definition format_level {GL : GoLib} (level : string) : string := let '(color, short) := levelStyle (ToLower level) in color +:+ short +:+ colorReset.

Section Logging.
Context (ParseLevel : string -> option Level).

Definition parseLevel (level : string) : Level := if String.eqb level "" then LogInfo else default LogInfo (ParseLevel level).

Definition NewLogger (cfg : LogConfig) : Logger :=
  let con := String.eqb (lg_Format cfg) "console" in
  mkLogger (parseLevel (lg_Level cfg)) con (con && lg_Color cfg) (lg_Timestamp cfg) None.

Definition WithComponent (base : Logger) (cfg : LogConfig) (name : string) : Logger :=
  let logger := base <|component := Some name|> in
  match lg_Components cfg !! name with
  | Some level => if String.eqb level "" then logger
                  else match ParseLevel level with Some l => logger <|logger_level := l|> | None => logger end
  | None => logger
  end.

(** The level of a component: its own where the configuration gives one that parses, else the common one,
    and info where that does not parse either; nothing else depends on the component. *)
Lemma component_level (cfg : LogConfig) (name : string) :
  let l := WithComponent (NewLogger cfg) cfg name in
  logger_level l = default (parseLevel (lg_Level cfg)) (level ← lg_Components cfg !! name; if String.eqb level "" then None else ParseLevel level) /\
  l = (NewLogger cfg) <|component := Some name|> <|logger_level := logger_level l|>.
Proof.
  cbv zeta. unfold WithComponent, NewLogger. destruct (lg_Components cfg !! name) as [level|]; [|done].
  destruct (String.eqb level "") eqn:E; cbn; rewrite E; [done|]. by destruct (ParseLevel level).
Qed.

End Logging.
