(* ===== verification/Wiring.v ===== *)
(** * Wiring (internal/ems/wiring/wiring.go, internal/ems/wiring/control_url.go, cmd/ems-agent/main.go)

    Build decides from the configuration which services the agent runs and what each is given; main
    loads the configuration, builds and runs. A service is its constructor's arguments; the channels,
    the bus and the stores the services share are those of Services and Bus. The configuration files of
    the station are read through [read]; the world has the alarm list and the published documents. *)
From S2P Require Import Prelude GoNum GoStrings Durations FileSystem Json Locks ConfigData ConfigStore Parser Artifacts NetconfManager Alarms Notifications.
From S2P Require Import Errors Nrm Pm Tca Health Worker Lifecycle Control Metrics Mediation AlarmLog XmlReply Snapshot Services Process Runner AgentConfig.

(** ** Paths: filepath.Clean and filepath.Join *)

Definition clean_step (rooted : bool) (out : list bytes) (elem : bytes) : list bytes :=
  if bool_decide (elem = []) || bool_decide (elem = str ".") then out
  else if bool_decide (elem = str "..")
       then match out with
            | top :: rest => if bool_decide (top = str "..") then elem :: out else rest
            | [] => if rooted then [] else [elem]
            end
       else elem :: out.

Fixpoint join_slash (l : list bytes) : bytes :=
  match l with
  | [] => []
  | [e] => e
  | e :: r => e ++ "/"%char :: join_slash r
  end.

Definition filepath_Clean (path : string) : string :=
  let rooted := has_prefix (str path) ["/"%char] in
  let out := join_slash (rev (foldl (clean_step rooted) [] (split_on "/" (str path)))) in
  if rooted then unstr ("/"%char :: out) else if bool_decide (out = []) then "." else unstr out.

Definition filepath_Join (dir name : string) : string :=
  if String.eqb dir "" then (if String.eqb name "" then "" else filepath_Clean name)
  else filepath_Clean (if String.eqb name "" then dir else dir +:+ "/" +:+ name).

(** ** The address of the control service (control_url.go) *)

Fixpoint index_byte (c : ascii) (l : bytes) : option nat :=
  match l with
  | [] => None
  | x :: r => if Ascii.eqb x c then Some 0 else S <$> index_byte c r
  end.

Definition last_index_byte (c : ascii) (l : bytes) : option nat := (fun i => length l - S i) <$> index_byte c (rev l).
Definition has_byte (c : ascii) (l : bytes) : bool := existsb (Ascii.eqb c) l.

(** net.SplitHostPort; None is an error. *)
Definition SplitHostPort (hostport : string) : option (string * string) :=
  let l := str hostport in
  i ← last_index_byte ":" l;
  '(host, j, k) ← (if has_prefix l ["["%char]
                   then stop ← index_byte "]" l; if stop + 1 =? i then Some (take (stop - 1) (drop 1 l), 1, stop + 1) else None
                   else if has_byte ":" (take i l) then None else Some (take i l, 0, 0));
  if has_byte "[" (drop j l) || has_byte "]" (drop k l) then None else Some (unstr host, unstr (drop (S i) l)).

Definition controlLocalURL (addr : string) : string :=
  let a := TrimSpace addr in
  if String.eqb a "" then ""
  else if HasPrefix a "unix:" then "http://localhost"
  else if HasPrefix a ":" then "http://127.0.0.1" +:+ a
  else match SplitHostPort a with
       | Some (_, port) => if String.eqb port "" then (if HasPrefix a "http://" || HasPrefix a "https://" then a else "http://127.0.0.1" +:+ "/" +:+ TrimPrefix a "/")
                           else "http://127.0.0.1:" +:+ port
       | None => if HasPrefix a "http://" || HasPrefix a "https://" then a else "http://127.0.0.1" +:+ "/" +:+ TrimPrefix a "/"
       end.

(** The socket of an address unix:path. *)
Definition control_unix (addr : string) : string := if HasPrefix (TrimSpace addr) "unix:" then TrimSpace (TrimPrefix (TrimSpace addr) "unix:") else "".

(** ** Services *)

Inductive Service :=
| SFaults
| STCA (cfg : TcaConfig)
| SAlarmLog (r : AlarmLogReader)
| SMetricsReader (socketPath : string) (logUDS : bool)
| SRawSink (path : string)
| SRawFanout
| SSnapshot (s : NetconfSnapshot) (reg : Registry) (alarms : AlarmStore)
| SConsumer (m : Mapper)
| STelemetryCache
| SPM (e : PmEngine)
| SSessionGC (m : Manager)
| SControl (addr : string) (c : ConfigControl) (sup : DockerLifecycleSupervisor)
| SNetconfProcess (p : ProcessServer)
| SNetconfTCP (addr : string).

Definition service_name (s : Service) : string :=
  match s with
  | SFaults => "faults"
  | STCA _ => "tca"
  | SAlarmLog _ => "alarm_log_reader"
  | SMetricsReader _ _ => "metrics_reader"
  | SRawSink _ => "raw_metrics_sink"
  | SRawFanout => "raw_fanout"
  | SSnapshot _ _ _ => "netconf_snapshot"
  | SConsumer _ => "metrics_consumer"
  | STelemetryCache => "telemetry_cache"
  | SPM _ => "pm"
  | SSessionGC _ => "netconf_session_gc"
  | SControl _ _ _ => "config_control"
  | SNetconfProcess _ | SNetconfTCP _ => "netconf_server"
  end.

Definition wiring_new (now : time) (msg : string) : error := New now ErrCodeConfig msg [WithOp "wiring"; WithSeverity ErrSeverityCritical].

(** pm.ParseConfig *)
Definition ParseConfig (now : time) (granularity reportEvery : string) : result error PmConfig :=
  let bad cause msg := Err (default (Plain cause) (Wrap now (Some (Plain cause)) ErrCodeConfig msg [WithOp "pm"; WithSeverity ErrSeverityCritical])) in
  match ParseDuration granularity with
  | Err e => bad e "pm granularity_period invalid"
  | Ok g => match ParseDuration reportEvery with
            | Err e => bad e "pm report_period invalid"
            | Ok r => Ok (mkPmConfig g r)
            end
  end.

(** ** The restart targets *)

Record ControlParts := mkParts { cp_store : option Store; cp_targets : gmap string string; cp_plans : gmap string RestartPlan }.

Definition no_parts : ControlParts := mkParts None ∅ ∅.

Section Build.
Context {GL : GoLib} {RC : RecordCodec}.
Context (read : string -> result string bytes).

(** The serial number of a target: given, or that of its enb.conf. *)
Definition target_serial (now : time) (t : ControlRestartTarget) : result error string :=
  let serial := TrimSpace (t_Serial t) in
  let path := TrimSpace (ENBConfigPath t) in
  if String.eqb serial "" && negb (String.eqb path "")
  then match (let? data := read path in Srs.ParseENB path data) with
       | Err e => Err (wiring_wrap now e "failed to read enb_config_path for restart target")
       | Ok enb => Ok (TrimSpace (Srs.Serial enb))
       end
  else Ok serial.

(** The configuration store comes from the first target with all four paths. *)
Definition target_store (now : time) (t : ControlRestartTarget) (st : option Store) : result error (option Store) :=
  let paths := TrimSpace <$> [ENBConfigPath t; RRConfigPath t; SIBConfigPath t; RBConfigPath t] in
  match st with
  | Some _ => Ok st
  | None =>
      if existsb (String.eqb "") paths then Ok None
      else match Parser.NewStore (TrimSpace (ENBConfigPath t)) (TrimSpace (RRConfigPath t)) (TrimSpace (SIBConfigPath t)) (TrimSpace (RBConfigPath t)) read with
           | Err e => Err (wiring_wrap now e "failed to initialize configuration store")
           | Ok st => Ok (Some st)
           end
  end.

Definition target_delay (now : time) (t : ControlRestartTarget) : result error duration :=
  if String.eqb (TrimSpace (t_DelayAfterStart t)) "" then Ok (secs 5)
  else match ParseDuration (t_DelayAfterStart t) with
       | Err e => Err (wiring_wrap now e "invalid control.restart.targets.delay_after_start")
       | Ok d => Ok d
       end.

(** One round of the loop over the targets. *)
Definition add_target (now : time) (acc : ControlParts) (t : ControlRestartTarget) : result error ControlParts :=
  let container := TrimSpace (t_Container t) in
  if String.eqb container "" then Ok acc
  else
    let? serial := target_serial now t in
    if String.eqb serial "" then Err (wiring_new now "restart target serial is empty (set serial or enb_config_path)")
    else
      let? st := target_store now t (cp_store acc) in
      let? delay := target_delay now t in
      Ok (mkParts st (<[serial := container]> (cp_targets acc)) (<[container := mkPlan container (t_Dependents t) delay]> (cp_plans acc))).

Fixpoint add_targets (now : time) (acc : ControlParts) (l : list ControlRestartTarget) : result error ControlParts :=
  match l with
  | [] => Ok acc
  | t :: r => let? acc := add_target now acc t in add_targets now acc r
  end.

(** ** Build *)

(** libyang's validation of a document (bridge_cgo.go), and what extracts its leaves. *)
Context (validate : string -> bytes -> option string) (extract : string -> bytes -> result string (list extractedLeaf)).

(** What the manager is given: the resolver of wiring.go and the supervisor. *)
Definition wired_platform (targets : gmap string string) (restart : string -> option string) : Platform :=
  {| validateYANGJSON := validate; extractLeaves := extract; resolveTarget := Some (targetResolver targets); NetconfManager.TriggerRestart := Some restart |}.

(** The control part: its services and the paths of the published documents. The supervisor's calls
    come later, so that the manager is made with any [restart]. *)
Record ControlWired := mkControlWired { cw_services : list Service; cw_running : string; cw_candidate : string; cw_url : string; cw_unix : string }.

Definition no_control : ControlWired := mkControlWired [] "" "" "" "".

Definition snapshot_path (cfg : Config) : string := or_default (nc_SnapshotPath (Netconf cfg)) (me_SnapshotPath (MetricsC cfg)).

Definition datastore_dir (cfg : Config) : string :=
  let dir := TrimSpace (DatastoreDir (Netconf cfg)) in
  if String.eqb dir "" && negb (String.eqb (snapshot_path cfg) "") then filepath_Join (filepath_Dir (snapshot_path cfg)) "datastores" else dir.

(** The manager, when there is a store and a directory for its documents. *)
Definition build_manager (now : time) (cfg : Config) (parts : ControlParts) (w : World) : World * result error (option (Manager * ArtifactPaths)) :=
  match cp_store parts with
  | None => (w, Ok None)
  | Some st =>
      let dir := datastore_dir cfg in
      if String.eqb dir "" then (w, Ok None)
      else
        let paths := mkPaths (filepath_Join dir "running.json") (filepath_Join dir "candidate.json") in
        let i := mkIDs (nrm_SubNetwork (NRM cfg)) (nrm_ManagedElement (NRM cfg)) (nrm_ENBFunctionID (NRM cfg)) in
        match NewManager (PF := wired_platform (cp_targets parts) (fun _ => None)) (YangDir (Netconf cfg)) i paths (Some st) w with
        | (w, Err e) => (w, Err (wiring_wrap now (merror_text e) "failed to initialize netconf CM manager"))
        | (w, Ok m) => (w, Ok (Some (m, paths)))
        end
  end.

Definition backend_of (parts : ControlParts) (m : option Manager) : Backend :=
  match m, cp_store parts with
  | Some m, _ => WithManager m
  | None, Some st => StoreOnly st
  | None, None => NoStore
  end.

Definition build_control (now : time) (cfg : Config) (w : World) : World * result error ControlWired :=
  if negb (ct_Enabled (Control cfg)) then (w, Ok no_control)
  else match ParseDuration (rs_Timeout (Restart_ (Control cfg))) with
       | Err e => (w, Err (wiring_wrap now e "invalid control.restart.timeout"))
       | Ok timeout =>
           match add_targets now no_parts (rs_Targets (Restart_ (Control cfg))) with
           | Err e => (w, Err e)
           | Ok parts =>
               if bool_decide (cp_targets parts = ∅) then (w, Err (wiring_new now "control is enabled but no restart targets are configured"))
               else
                 let sup := SetPlans (map_to_list (cp_plans parts)) (NewDockerLifecycleSupervisor timeout) in
                 let addr := ct_Addr (Control cfg) in
                 match build_manager now cfg parts w with
                 | (w, Err e) => (w, Err e)
                 | (w, Ok mgr) =>
                     let c := NewConfigControl (map_to_list (cp_targets parts)) (backend_of parts (fst <$> mgr))
                                (Some (NewNotificationQueue DefaultNotificationQueueCapacity)) (TestInjectionEnabled (FM cfg)) in
                     let gc := match mgr with Some (m, _) => [SSessionGC m] | None => [] end in
                     (w, Ok (mkControlWired (gc ++ [SControl addr c sup])
                               (match mgr with Some (_, p) => Running p | None => "" end) (match mgr with Some (_, p) => Candidate p | None => "" end)
                               (controlLocalURL addr) (control_unix addr)))
                 end
           end
       end.

Definition build_netconf (now : time) (cfg : Config) (cw : ControlWired) : result error (list Service) :=
  let nc := Netconf cfg in
  if negb (nc_Enabled nc) then Ok []
  else if String.eqb (Transport nc) "ssh"
       then if existsb (String.eqb "") [HostKey (SSH nc); AuthorizedKey (SSH nc); ssh_Username (SSH nc)] then Err (wiring_new now "netconf ssh config is incomplete")
            else if String.eqb (nc_SnapshotPath nc) "" then Err (wiring_new now "netconf snapshot_path is empty")
            else Ok [SNetconfProcess (mkProcess "/app/netconf-server" (nc_Addr nc) (YangDir nc) (nc_SnapshotPath nc) (cw_running cw) (cw_candidate cw)
                                        (cw_url cw) (cw_unix cw) (HostKey (SSH nc)) (AuthorizedKey (SSH nc)) (ssh_Username (SSH nc)))]
       else Ok [SNetconfTCP (nc_Addr nc)].

Record Wired := mkWired { services : list Service; tracker : Tracker }.

Definition isNRElement (cfg : Config) : bool := String.eqb (el_Type (Element cfg)) ElementGNB || String.eqb (el_Type (Element cfg)) ElementOAIGNB.

Definition alarm_log (cfg : Config) : AlarmLogReader :=
  let '(functionName, functionID) := if isNRElement cfg then ("GNBCUCPFunction", nrm_GNBFunctionID (NRM cfg)) else ("ENBFunction", nrm_ENBFunctionID (NRM cfg)) in
  NewAlarmLogReader (filepath_Join (filepath_Dir (SocketPath (Element cfg))) (nrm_ManagedElement (NRM cfg) +:+ "_alarms.log"))
    ("SubNetwork=" +:+ nrm_SubNetwork (NRM cfg) +:+ "/ManagedElement=" +:+ nrm_ManagedElement (NRM cfg) +:+ "/" +:+ functionName +:+ "=" +:+ functionID).

Definition aal_path (cfg : Config) : string :=
  if String.eqb (snapshot_path cfg) "" then "" else filepath_Join (filepath_Dir (snapshot_path cfg)) "aal_state.json".

Definition pm_services (now : time) (cfg : Config) (tca : TcaConfig) (reg : Registry) : result error (list Service) :=
  if pm_Enabled (PM cfg) || Enabled tca
  then let? pmCfg := ParseConfig now (GranularityPeriod (PM cfg)) (ReportPeriod (PM cfg)) in Ok [SPM (NewPmEngine now reg NewPmStore pmCfg)]
  else Ok [].

(** The services that need no file but the alarm list. *)
Definition core_services (now : time) (cfg : Config) (alarmStore : AlarmStore) : result error (list Service) :=
  let? tca := buildTCAConfig now (FM cfg) in
  let? reg := build_registry now cfg in
  let snap := mkSnapshotConfig (nrm_SubNetwork (NRM cfg)) (nrm_ManagedElement (NRM cfg)) (nrm_ENBFunctionID (NRM cfg)) (nrm_GNBFunctionID (NRM cfg))
                (el_Type (Element cfg)) in
  let? pm := pm_services now cfg tca reg in
  Ok ([SFaults] ++ (if Enabled tca then [STCA tca] else []) ++
      [SAlarmLog (alarm_log cfg); SMetricsReader (SocketPath (Element cfg)) (LogUDS (MetricsC cfg)); SRawFanout;
       SSnapshot (mkNetconfSnapshot (snapshot_path cfg) snap) reg alarmStore; SConsumer (mkMapper (nrm_ManagedElement (NRM cfg))); STelemetryCache] ++ pm).

(** A tracker that no one has subscribed to cannot meet a closed channel. *)
Definition start_tracker (now : time) (cfg : Config) : Tracker :=
  if nc_Enabled (Netconf cfg) then NewTracker else default NewTracker (TrackerUp now ComponentNetconf NewTracker).

Definition Build (now : time) (cfg : Config) (w : World) : World * result error Wired :=
  match NewMetricsSource (el_Type (Element cfg)) (SocketPath (Element cfg)) with
  | Err e => (w, Err e)
  | Ok socket =>
      if String.eqb (el_Type (Element cfg)) ElementEPC
      then (w, Ok (mkWired [SMetricsReader socket true; SRawSink (snapshot_path cfg)] NewTracker))
      else if isNRElement cfg && ct_Enabled (Control cfg)
      then (w, Err (wiring_new now "NR configuration write-back is not enabled: supply an srsRAN Project YAML configuration adapter before enabling control"))
      else match NewPersistentStore (aal_path cfg) w with
           | (w, Err e) => (w, Err (wiring_wrap now e "failed to load active alarm list"))
           | (w, Ok alarmStore) =>
               match core_services now cfg alarmStore with
               | Err e => (w, Err e)
               | Ok core =>
                   match build_control now cfg w with
                   | (w, Err e) => (w, Err e)
                   | (w, Ok cw) =>
                       match build_netconf now cfg cw with
                       | Err e => (w, Err e)
                       | Ok nc => (w, Ok (mkWired (core ++ cw_services cw ++ nc) (start_tracker now cfg)))
                       end
                   end
               end
           end
  end.

End Build.

(** ** main.go *)

(** strconv.ParseBool *)
Definition ParseBool (s : string) : option bool :=
  if existsb (String.eqb s) ["1"; "t"; "T"; "TRUE"; "true"; "True"] then Some true
  else if existsb (String.eqb s) ["0"; "f"; "F"; "FALSE"; "false"; "False"] then Some false
  else None.

Inductive flag_word :=
| FlagsEnd                                        (* no flag, or the two minuses that end the flags *)
| FlagBad
| Flag (name : string) (value : option string).

Definition flag_of (s : string) : flag_word :=
  match str s with
  | m :: c :: r =>
      if negb (Ascii.eqb m "-") then FlagsEnd
      else if Ascii.eqb c "-" && bool_decide (r = []) then FlagsEnd
      else match (if Ascii.eqb c "-" then r else c :: r) with
           | [] => FlagBad
           | h :: t =>
               if Ascii.eqb h "-" || Ascii.eqb h "=" then FlagBad
               else match index_byte "=" t with
                    | Some i => Flag (unstr (h :: take i t)) (Some (unstr (drop (S i) t)))
                    | None => Flag (unstr (h :: t)) None
                    end
           end
  | _ => FlagsEnd
  end.

(** FlagSet.Parse for the flags self-check and config; None is an error, a request for help too. *)
Fixpoint parse_flags (args : list string) (selfCheck : bool) (configPath : string) : option (bool * string) :=
  match args with
  | [] => Some (selfCheck, configPath)
  | s :: r =>
      match flag_of s with
      | FlagsEnd => Some (selfCheck, configPath)
      | FlagBad => None
      | Flag name value =>
          if String.eqb name "self-check"
          then match value with
               | Some v => b ← ParseBool v; parse_flags r b configPath
               | None => parse_flags r true configPath
               end
          else if String.eqb name "config"
          then match value, r with
               | Some v, _ => parse_flags r selfCheck v
               | None, v :: r => parse_flags r selfCheck v
               | None, [] => None
               end
          else None
      end
  end.

Definition bool_text (b : bool) : string := if b then "true" else "false".
Definition line_end : string := unstr [newline].

Section Main.
Context {GL : GoLib} {RC : RecordCodec} (env : string -> string) (UnmarshalYAML : bytes -> Config -> result string Config).
Context (read : string -> result string bytes) (validate : string -> bytes -> option string) (extract : string -> bytes -> result string (list extractedLeaf)).

(** Enabled() depends on a build tag; [outcome] is what the runner returns for the services. *)
Context (netconf_enabled : bool) (outcome : list Service -> option error).

Definition self_check (configPath : string) (cfg : Config) : string :=
  "netconf_enabled=" +:+ bool_text netconf_enabled +:+ line_end +:+
  "config_path=" +:+ configPath +:+ line_end +:+
  "element_type=" +:+ el_Type (Element cfg) +:+ line_end +:+
  "socket_path=" +:+ SocketPath (Element cfg) +:+ line_end +:+
  "bus_buffer=" +:+ FormatInt (BusBuffer cfg) +:+ line_end.

(** The exit status, the output, and the error that was logged. *)
Definition run (now : time) (args : list string) (w : World) : Z * string * option string :=
  match parse_flags args false "" with
  | None => (1%Z, "", None)
  | Some (selfCheck, configPath) =>
      match Load env UnmarshalYAML configPath w with
      | (_, Err e) => (1%Z, "", Some e)
      | (w, Ok cfg) =>
          if selfCheck then (0%Z, self_check configPath cfg, None)
          else match Build read validate extract now cfg w with
               | (_, Err e) => (0%Z, "", Some (Error_ e))
               | (_, Ok wired) => (0%Z, "", Error_ <$> outcome (services wired))
               end
      end
  end.

End Main.

(** ** Lemmas: the maps of the control part *)

(** A map filled from the entries of a list with distinct keys. *)
Lemma fold_entries {A B : Type} (f : gmap string B -> string * A -> gmap string B) (g : string -> A -> B) (l : list (string * A)) :
  NoDup l.*1 -> (forall kv acc, kv ∈ l -> f acc kv = <[kv.1 := g kv.1 kv.2]> acc) ->
  forall acc k, foldl f acc l !! k = match (list_to_map l : gmap string A) !! k with Some a => Some (g k a) | None => acc !! k end.
Proof.
  induction l as [|[k0 a0] l IH]; intros Hn Hf acc k; [done|]. cbn in Hn. apply NoDup_cons in Hn as [Hk Hn]. cbn [foldl].
  rewrite IH; [|done|intros; apply Hf; by right]. rewrite Hf by left. cbn [fst snd list_to_map foldr uncurry]. destruct (decide (k0 = k)) as [->|Hne].
  - rewrite (not_elem_of_list_to_map_1 l k Hk). change (list_to_map ((k, a0) :: l)) with (<[k := a0]> (list_to_map l : gmap string A)). by rewrite !lookup_insert_eq.
  - change (list_to_map ((k0, a0) :: l)) with (<[k0 := a0]> (list_to_map l : gmap string A)). by rewrite !lookup_insert_ne.
Qed.

Lemma fold_map {A B : Type} (f : gmap string B -> string * A -> gmap string B) (g : string -> A -> B) (m : gmap string A) :
  (forall k a acc, m !! k = Some a -> f acc (k, a) = <[k := g k a]> acc) -> forall k, foldl f ∅ (map_to_list m) !! k = g k <$> m !! k.
Proof.
  intros Hf k. rewrite (fold_entries f g) by (first [apply NoDup_fst_map_to_list | intros [k' a] acc Hin; by apply Hf, elem_of_map_to_list]).
  rewrite list_to_map_to_list. by destruct (m !! k).
Qed.

(** What the loop over the targets keeps: trimmed names, and a plan for each target under its own name. *)
Definition name_ok (s : string) : Prop := TrimSpace s = s /\ s <> "".

Record parts_ok (p : ControlParts) : Prop := {
  po_targets : forall serial c, cp_targets p !! serial = Some c -> name_ok serial /\ name_ok c /\ is_Some (cp_plans p !! c);
  po_plans : forall c pl, cp_plans p !! c = Some pl -> name_ok c /\ Primary pl = c }.

Lemma trimmed_name (s : string) : TrimSpace s <> "" -> name_ok (TrimSpace s).
Proof. intros H. split; [apply TrimSpace_idem|done]. Qed.

Lemma target_serial_trimmed {GL : GoLib} (read : string -> result string bytes) (now : time) (t : ControlRestartTarget) (serial : string) :
  target_serial read now t = Ok serial -> TrimSpace serial = serial.
Proof.
  unfold target_serial. destruct (_ && _); [|intros [= <-]; apply TrimSpace_idem].
  destruct (result_bind _ _) as [e|e]; [|done]. intros [= <-]. apply TrimSpace_idem.
Qed.

Lemma add_target_ok {GL : GoLib} (read : string -> result string bytes) (now : time) (acc p : ControlParts) (t : ControlRestartTarget) :
  parts_ok acc -> add_target read now acc t = Ok p -> parts_ok p.
Proof.
  intros [Ht Hp] Ha. unfold add_target in Ha. destruct (String.eqb_spec (TrimSpace (t_Container t)) "") as [|Hc]; [by injection Ha as <-|].
  apply trimmed_name in Hc. set (c := TrimSpace (t_Container t)) in *. destruct (target_serial read now t) as [serial|e] eqn:Es; [|done]. cbn [result_bind] in Ha.
  apply target_serial_trimmed in Es. destruct (String.eqb_spec serial "") as [|Hs]; [done|].
  destruct (target_store _ _ _ _) as [st|e]; [|done]. cbn [result_bind] in Ha. destruct (target_delay _ _) as [d|e]; [|done]. injection Ha as <-. split; cbn.
  - intros serial' c' Hl. destruct (decide (serial' = serial)) as [->|Hne].
    + rewrite lookup_insert_eq in Hl. injection Hl as <-. split_and!; [done|done|]. rewrite lookup_insert_eq. by eexists.
    + rewrite lookup_insert_ne in Hl by done. destruct (Ht _ _ Hl) as (H1 & H2 & H3). split_and!; [done|done|].
      destruct (decide (c' = c)) as [->|Hn]; [rewrite lookup_insert_eq; by eexists|by rewrite lookup_insert_ne].
  - intros c' pl Hl. destruct (decide (c' = c)) as [->|Hn]; [|rewrite lookup_insert_ne in Hl by done; by apply Hp].
    rewrite lookup_insert_eq in Hl. by injection Hl as <-.
Qed.

Lemma add_targets_ok {GL : GoLib} (read : string -> result string bytes) (now : time) (l : list ControlRestartTarget) (acc p : ControlParts) :
  parts_ok acc -> add_targets read now acc l = Ok p -> parts_ok p.
Proof.
  revert acc. induction l as [|t l IH]; intros acc Hacc Ha; cbn in Ha; [by injection Ha as <-|].
  destruct (add_target read now acc t) as [acc'|e] eqn:E; [|done]. cbn [result_bind] in Ha. apply (IH acc'); [|done]. by eapply add_target_ok.
Qed.

Lemma no_parts_ok : parts_ok no_parts.
Proof. split; cbn; intros ? ? H; by rewrite lookup_empty in H. Qed.

Lemma copied_targets (p : ControlParts) : parts_ok p -> copyTargets (map_to_list (cp_targets p)) = cp_targets p.
Proof.
  intros [Ht _]. apply map_eq. intros k. unfold copyTargets. rewrite (fold_map _ (fun _ v => v)); [by destruct (cp_targets p !! k)|].
  intros serial c acc Hl. cbn [fst snd]. destruct (Ht _ _ Hl) as ([-> Hs] & [-> Hc] & _). by rewrite (proj2 (String.eqb_neq _ _) Hs), (proj2 (String.eqb_neq _ _) Hc).
Qed.

Lemma planned (p : ControlParts) (sup : DockerLifecycleSupervisor) (c : string) :
  parts_ok p -> is_Some (cp_plans p !! c) -> exists pl, Plans (SetPlans (map_to_list (cp_plans p)) sup) !! c = Some pl /\ Primary pl = c.
Proof.
  intros [_ Hp] [pl Hl]. destruct sup as [av to ep pls]. unfold SetPlans. cbn. rewrite (fold_map _ trim_plan).
  - rewrite Hl. cbn. eexists. split; [done|]. unfold trim_plan. cbn. destruct (Hp _ _ Hl) as [[Hn Hc] ->]. rewrite Hn. by rewrite (proj2 (String.eqb_neq _ _) Hc).
  - intros k a acc Ha. cbn [fst snd]. destruct (Hp _ _ Ha) as [[-> Hk] _]. by rewrite (proj2 (String.eqb_neq _ _) Hk).
Qed.

(** ** Lemmas: the parts of Build *)

Definition manager_of (c : ConfigControl) : option Manager := match backend c with WithManager m => Some m | _ => None end.

Definition running_path (c : ConfigControl) : string := match manager_of c with Some m => Running (artifacts m) | None => "" end.
Definition candidate_path (c : ConfigControl) : string := match manager_of c with Some m => Candidate (artifacts m) | None => "" end.
Definition gc_of (c : ConfigControl) : list Service := match manager_of c with Some m => [SSessionGC m] | None => [] end.

(** Every target the service can be asked to restart has a plan that restarts it. *)
Definition targets_planned (c : ConfigControl) (sup : DockerLifecycleSupervisor) : Prop :=
  Targets c <> ∅ /\ forall serial target, Targets c !! serial = Some target -> target <> "" /\ exists pl, Plans sup !! target = Some pl /\ Primary pl = target.

Section Parts.
Context {GL : GoLib} {RC : RecordCodec}.
Context (read : string -> result string bytes) (validate : string -> bytes -> option string) (extract : string -> bytes -> result string (list extractedLeaf)).

Lemma NewManager_paths {PF : Platform} (dir : string) (i : IDs) (paths : ArtifactPaths) (st : option Store) (w w' : World) (m : Manager) :
  NewManager dir i paths st w = (w', Ok m) -> artifacts m = paths.
Proof.
  unfold NewManager. destruct st as [st|]; [|done]. destruct (RefreshArtifacts _ w) as [w1 [e|]]; [done|]. by intros [= _ <-].
Qed.

Lemma build_manager_paths (now : time) (cfg : Config) (parts : ControlParts) (w w' : World) (m : Manager) (paths : ArtifactPaths) :
  build_manager validate extract now cfg parts w = (w', Ok (Some (m, paths))) -> artifacts m = paths.
Proof.
  unfold build_manager. destruct (cp_store parts) as [st|]; [|done]. destruct (String.eqb _ _); [done|].
  destruct (NewManager _ _ _ _ w) as [w1 [m1|e]] eqn:E; [|done]. apply NewManager_paths in E. intros [= _ <- <-]. done.
Qed.

Lemma build_control_spec (now : time) (cfg : Config) (w w' : World) (cw : ControlWired) :
  build_control read validate extract now cfg w = (w', Ok cw) ->
  if ct_Enabled (Control cfg)
  then exists c sup, cw_services cw = gc_of c ++ [SControl (ct_Addr (Control cfg)) c sup] /\ cw_running cw = running_path c /\ cw_candidate cw = candidate_path c /\
         cw_url cw = controlLocalURL (ct_Addr (Control cfg)) /\ targets_planned c sup
  else cw = no_control.
Proof.
  unfold build_control. destruct (ct_Enabled (Control cfg)); cbn [negb]; [|by intros [= _ <-]]. destruct (ParseDuration _) as [timeout|e]; [|done].
  destruct (add_targets read now no_parts _) as [parts|e] eqn:Et; [|done]. apply add_targets_ok in Et; [|apply no_parts_ok].
  destruct (bool_decide_reflect (cp_targets parts = ∅)) as [|Hne]; [done|]. destruct (build_manager _ _ now cfg parts w) as [w1 [mgr|e]] eqn:Em; [|done].
  intros [= _ <-]. cbn [cw_services cw_running cw_candidate cw_url].
  set (c := NewConfigControl _ _ _ _). exists c, (SetPlans (map_to_list (cp_plans parts)) (NewDockerLifecycleSupervisor timeout)). pose proof (copied_targets parts Et) as Hc.
  split_and!; [| | |done|split; [change (copyTargets (map_to_list (cp_targets parts)) <> ∅); by rewrite Hc|]].
  - unfold gc_of, manager_of, c, backend_of. cbn. destruct mgr as [[m p]|]; cbn; [done|by destruct (cp_store parts)].
  - unfold running_path, manager_of, c, backend_of. cbn. destruct mgr as [[m p]|]; cbn; [by rewrite (build_manager_paths _ _ _ _ _ _ _ Em)|by destruct (cp_store parts)].
  - unfold candidate_path, manager_of, c, backend_of. cbn. destruct mgr as [[m p]|]; cbn; [by rewrite (build_manager_paths _ _ _ _ _ _ _ Em)|by destruct (cp_store parts)].
  - intros serial target Hl. change (copyTargets (map_to_list (cp_targets parts)) !! serial = Some target) in Hl. rewrite Hc in Hl.
    destruct (po_targets _ Et _ _ Hl) as (_ & [_ Hn] & Hp). split; [done|]. by apply planned.
Qed.

Lemma build_netconf_spec (now : time) (cfg : Config) (cw : ControlWired) (l : list Service) :
  build_netconf now cfg cw = Ok l ->
  let nc := Netconf cfg in
  if nc_Enabled nc
  then if String.eqb (Transport nc) "ssh"
       then exists p, l = [SNetconfProcess p] /\ ps_SnapshotPath p = nc_SnapshotPath nc /\ nc_SnapshotPath nc <> "" /\
              RunningPath p = cw_running cw /\ CandidatePath p = cw_candidate cw /\ ControlURL p = cw_url cw
       else l = [SNetconfTCP (nc_Addr nc)]
  else l = [].
Proof.
  unfold build_netconf. destruct (nc_Enabled (Netconf cfg)); cbn [negb]; [|by intros [= <-]]. destruct (String.eqb (Transport _) "ssh"); [|by intros [= <-]].
  destruct (existsb _ _); [done|]. destruct (String.eqb_spec (nc_SnapshotPath (Netconf cfg)) "") as [|Hn]; [done|]. intros [= <-]. by eexists.
Qed.

(** The services of the core, by name. *)
Definition core_names (cfg : Config) : list string :=
  ["faults"] ++ (if tca_Enabled (FM cfg) then ["tca"] else []) ++
  ["alarm_log_reader"; "metrics_reader"; "raw_fanout"; "netconf_snapshot"; "metrics_consumer"; "telemetry_cache"] ++
  (if pm_Enabled (PM cfg) || tca_Enabled (FM cfg) then ["pm"] else []).

Definition core_service (s : Service) : Prop := match s with SControl _ _ _ | SSessionGC _ | SNetconfProcess _ | SNetconfTCP _ => False | _ => True end.

Lemma tca_enabled (now : time) (in_ : TCAConfig) (c : TcaConfig) : buildTCAConfig now in_ = Ok c -> Enabled c = tca_Enabled in_.
Proof.
  unfold buildTCAConfig. destruct (tca_Enabled in_); cbn [negb]; [|by intros [= <-]]. destruct (build_rules _ _); [|done]. by intros [= <-].
Qed.

Lemma core_spec (now : time) (cfg : Config) (al : AlarmStore) (l : list Service) :
  core_services now cfg al = Ok l ->
  service_name <$> l = core_names cfg /\ Forall core_service l /\ exists s reg, SSnapshot s reg al ∈ l /\ ns_Path s = snapshot_path cfg.
Proof.
  unfold core_services, core_names. destruct (buildTCAConfig now (FM cfg)) as [tca|e] eqn:Et; [|done]. apply tca_enabled in Et. cbn [result_bind].
  destruct (build_registry now cfg) as [reg|e]; [|done]. cbn [result_bind]. unfold pm_services. rewrite Et.
  assert (Hpm : forall l, (if pm_Enabled (PM cfg) || tca_Enabled (FM cfg)
      then let? pmCfg := ParseConfig now (GranularityPeriod (PM cfg)) (ReportPeriod (PM cfg)) in Ok [SPM (NewPmEngine now reg NewPmStore pmCfg)] else Ok []) = Ok l ->
    service_name <$> l = (if pm_Enabled (PM cfg) || tca_Enabled (FM cfg) then ["pm"] else []) /\ Forall core_service l).
  { intros l0. destruct (_ || _); [destruct (ParseConfig _ _ _); [|done]|]; intros [= <-]; split; repeat constructor. }
  destruct (if pm_Enabled (PM cfg) || _ then _ else _) as [pm|e]; [|done]. destruct (Hpm pm eq_refl) as [Hn Hf]. cbn [result_bind]. intros [= <-]. split_and!.
  - revert Hn. destruct (tca_Enabled (FM cfg)); cbn; by intros ->.
  - apply Forall_cons; split; [done|]. apply Forall_app; split; [destruct (tca_Enabled (FM cfg)); by repeat constructor|]. by repeat (apply Forall_cons; split; [done|]).
  - eexists (mkNetconfSnapshot _ _), reg. split; [right; rewrite elem_of_app; right; do 3 right; left|done].
Qed.

End Parts.

(** ** Theorem *)

Section Theorems.
Context {GL : GoLib} {RC : RecordCodec}.
Context (read : string -> result string bytes) (validate : string -> bytes -> option string) (extract : string -> bytes -> result string (list extractedLeaf)).

(** The services of a configuration, in order; [gc] when there is a NETCONF manager. *)
Definition expected_names (cfg : Config) (gc : bool) : list string :=
  core_names cfg ++ (if ct_Enabled (Control cfg) then (if gc then ["netconf_session_gc"] else []) ++ ["config_control"] else []) ++
  (if nc_Enabled (Netconf cfg) then ["netconf_server"] else []).

(** The parts of a successful Build. *)
Lemma build_parts (now : time) (cfg : Config) (w w' : World) (wired : Wired) :
  Build read validate extract now cfg w = (w', Ok wired) -> el_Type (Element cfg) <> ElementEPC ->
  exists w1 al core cw nc, core_services now cfg al = Ok core /\ build_control read validate extract now cfg w1 = (w', Ok cw) /\ build_netconf now cfg cw = Ok nc /\
    services wired = core ++ cw_services cw ++ nc /\ isNRElement cfg && ct_Enabled (Control cfg) = false.
Proof.
  unfold Build. intros Hb He. destruct (NewMetricsSource _ _) as [socket|e]; [|done]. rewrite (proj2 (String.eqb_neq _ _) He) in Hb.
  destruct (isNRElement cfg && ct_Enabled (Control cfg)); [done|]. destruct (NewPersistentStore _ w) as [w1 [al|e]]; [|done].
  destruct (core_services now cfg al) as [core|e] eqn:Ec; [|done]. destruct (build_control _ _ _ now cfg w1) as [w2 [cw|e]] eqn:Ew; [|done].
  destruct (build_netconf now cfg cw) as [nc|e] eqn:En; [|done]. injection Hb as <- <-. by exists w1, al, core, cw, nc.
Qed.

(** Which services the last two parts can hold. *)
Lemma in_control (addr : string) (c : ConfigControl) (sup : DockerLifecycleSupervisor) (x : Service) :
  x ∈ gc_of c ++ [SControl addr c sup] ->
  match x with SControl a c' s => a = addr /\ c' = c /\ s = sup | SSessionGC m => manager_of c = Some m | _ => False end.
Proof.
  unfold gc_of. rewrite elem_of_app, list_elem_of_singleton. intros [Hx| ->]; [|done]. destruct (manager_of c) as [m|]; [|by apply elem_of_nil in Hx].
  by apply list_elem_of_singleton in Hx as ->.
Qed.

Lemma in_netconf (now : time) (cfg : Config) (cw : ControlWired) (l : list Service) (x : Service) :
  build_netconf now cfg cw = Ok l -> x ∈ l ->
  match x with
  | SNetconfProcess p => ps_SnapshotPath p = snapshot_path cfg /\ ps_SnapshotPath p <> "" /\ RunningPath p = cw_running cw /\ CandidatePath p = cw_candidate cw /\ ControlURL p = cw_url cw
  | SNetconfTCP _ => True
  | _ => False
  end.
Proof.
  intros Hn Hx. apply build_netconf_spec in Hn. cbv zeta in Hn. destruct (nc_Enabled (Netconf cfg)); [|subst l; by apply elem_of_nil in Hx].
  destruct (String.eqb (Transport _) "ssh"); [|subst l; by apply list_elem_of_singleton in Hx as ->].
  destruct Hn as (p & -> & Hp & Hne & Hr). apply list_elem_of_singleton in Hx as ->. unfold snapshot_path, or_default.
  rewrite Hp, (proj2 (String.eqb_neq _ _) Hne). done.
Qed.


End Theorems.

(** ** Witness *)

Definition text (l : list string) : bytes := l ≫= fun s => str s ++ [newline].

Definition lab_files (path : string) : result string bytes :=
  if String.eqb path "/etc/enb.conf"
  then Ok (text ["[enb]"; "enb_id = 0x19B"; "mcc = 001"; "mnc = 01"; "mme_addr = 127.0.1.100"; "gtp_bind_addr = 127.0.1.1"; "s1c_bind_addr = 127.0.1.1"; "n_prb = 50";
                 "tm = 1"; "[rf]"; "tx_gain = 80"; "rx_gain = 40"; "[expert]"; "enb_serial = 4660"])
  else if String.eqb path "/etc/rr.conf" then Ok (text ["cell_id = 0x01;"; "tac = 0x0007;"; "pci = 1;"; "dl_earfcn = 3350;"])
  else if String.eqb path "/etc/sib.conf" then Ok (str "sib1 = { }; sib2 = { pcch_cnfg = { default_paging_cycle = 128; }; };")
  else if String.eqb path "/etc/rb.conf" then Ok (str "qci_config = ( { qci = 9; } );")
  else Err "no such file or directory".

Definition lab_target : ControlRestartTarget := mkTarget "" " srsenb " "/etc/enb.conf" "/etc/rr.conf" "/etc/sib.conf" " /etc/rb.conf" ["srsue"] "1m30s".

Definition lab_agent : Config :=
  Default <|Netconf := mkNetconfConfig true "0.0.0.0:8300" "ssh" "/run/ems//snap.json" "" "yang" (mkSSHConfig "/k" "/a" "admin")|>
          <|FM ::= fun f => f <|tca_Enabled := true|>|>
          <|Control := mkControlConfig true "0.0.0.0:18080" (mkControlRestart "/var/run/docker.sock" "20s" [lab_target])|>.

Definition lab_build : World * result error Wired :=
  Build (GL := ascii_golib) (RC := BitCodec.bit_codec) lab_files (fun _ _ => None) (fun _ _ => Ok []) 7%Z lab_agent (mkWorld ∅ []).


Example paths :
  filepath_Join "/run/ems//x/.." "aal_state.json" = "/run/ems/aal_state.json" /\ filepath_Join "." "datastores" = "datastores" /\ filepath_Clean "../a/./../.." = "../..".
Proof. vm_compute. split_and!; reflexivity. Qed.

Example urls :
  controlLocalURL " 0.0.0.0:18080 " = "http://127.0.0.1:18080" /\ controlLocalURL ":18080" = "http://127.0.0.1:18080" /\
  controlLocalURL "unix:/run/ems.sock" = "http://localhost" /\ controlLocalURL "[::1]:80" = "http://127.0.0.1:80" /\
  controlLocalURL "http://host:8080" = "http://host:8080" /\ control_unix "unix: /run/ems.sock" = "/run/ems.sock".
Proof. vm_compute. split_and!; reflexivity. Qed.

(** ** Findings *)

(** A URL without a port is taken for host:port, with the rest of the URL as the port. *)
Lemma url_without_port : controlLocalURL "http://ems.local" = "http://127.0.0.1://ems.local".
Proof. vm_compute. reflexivity. Qed.

(** An agent that cannot be wired, or whose runner returns an error, exits with status 0. *)
Lemma failures_exit_zero {GL : GoLib} {RC : RecordCodec} (env : string -> string) (yaml : bytes -> Config -> result string Config)
    (read : string -> result string bytes) (validate : string -> bytes -> option string) (extract : string -> bytes -> result string (list extractedLeaf))
    (nc : bool) (outcome : list Service -> option error) (now : time) (args : list string) (w w1 : World) (sc : bool) (path : string) (cfg : Config) :
  parse_flags args false "" = Some (sc, path) -> Load env yaml path w = (w1, Ok cfg) ->
  fst (fst (run env yaml read validate extract nc outcome now args w)) = 0%Z.
Proof.
  intros Hf Hl. unfold run. rewrite Hf, Hl. destruct sc; [done|]. by destruct (Build read validate extract now cfg w1) as [w2 [wired|e]].
Qed.

(** The two ways to a status of 1. *)
Lemma exit_status {GL : GoLib} {RC : RecordCodec} (env : string -> string) (yaml : bytes -> Config -> result string Config)
    (read : string -> result string bytes) (validate : string -> bytes -> option string) (extract : string -> bytes -> result string (list extractedLeaf))
    (nc : bool) (outcome : list Service -> option error) (now : time) (args : list string) (w : World) :
  fst (fst (run env yaml read validate extract nc outcome now args w)) = 1%Z <->
  parse_flags args false "" = None \/ exists sc path e, parse_flags args false "" = Some (sc, path) /\ snd (Load env yaml path w) = Err e.
Proof.
  unfold run. destruct (parse_flags args false "") as [[sc path]|]; [|split; [by left|done]]. destruct (Load env yaml path w) as [w1 [cfg|e]] eqn:El.
  - destruct sc; [|destruct (Build read validate extract now cfg w1) as [w2 [wired|e]]]; (split; [done|intros [?|(? & ? & ? & [= <- <-] & H)]; [done|]; by rewrite El in H]).
  - split; [|done]. intros _. right. exists sc, path, e. by rewrite El.
Qed.
