(* ===== verification/Startup.v ===== *)
(** * The agent from its files to any later state

    What Build hands to the control API comes from the four configuration files of the station
    (srsranconf and NewStore): here the widths of the parsed integers are those of their Go types, so
    that a store that starts is one that satisfies its invariant, and every request sequence on the
    built agent (with a NETCONF manager, with a store only, or with neither) keeps it. *)
From S2P Require Import Prelude GoNum GoStrings Durations FileSystem Locks ConfigData ConfigEdit ConfigStore Parser Persist Artifacts NetconfManager Alarms Notifications.
From S2P Require Import Errors Lifecycle Control Services Wiring AgentConfig.

(** ** Widths of the parsed files *)

Lemma fits_uint_parsed (l : bytes) (n : Z) : parse_uint 32 l = Some n -> fits_uint 32 n.
Proof. apply parse_uint_range. Qed.

Lemma fits_int_parsed (l : bytes) (n : Z) : parse_int 32 l = Some n -> fits_int 32 n.
Proof. apply parse_int_range. Qed.

Lemma fits_int_zero : fits_int 32 0.
Proof. unfold fits_int. lia. Qed.

Lemma fits_uint_zero : fits_uint 32 0.
Proof. unfold fits_uint. lia. Qed.

Create HintDb widths.
#[export] Hint Resolve fits_uint_parsed fits_int_parsed fits_int_zero fits_uint_zero : widths.

Lemma scan_uint32_nonneg (l : bytes) (acc n : Z) : (0 <= acc)%Z -> scan_uint32 acc l = UVal n -> (0 <= n)%Z.
Proof.
  revert acc. induction l as [|c r IH]; intros acc Ha; cbn [scan_uint32]; [by intros [= <-]|].
  destruct (is_digit c) eqn:Ec; [|done]. destruct (_ <? _)%Z; [done|]. apply IH. apply digit_val_nonneg in Ec. lia.
Qed.

(** Out of range, ParseInt returns the nearest bound. *)
Lemma parse_int32_value_fits (l : bytes) : fits_int 32 (parse_int32_value l).
Proof.
  destruct l as [|c r]; [apply fits_int_zero|]. unfold parse_int32_value. cbv zeta.
  destruct (if _ || _ then r else c :: r) as [|b body]; [apply fits_int_zero|].
  destruct (scan_uint32 0 (b :: body)) as [n| |] eqn:E; [apply scan_uint32_nonneg in E; [|done]| |]; unfold fits_int;
    destruct (Ascii.eqb c "-"); try lia;
    [destruct (Z.ltb_spec (2 ^ 31) n)|destruct (Z.leb_spec (2 ^ 31) n)]; lia.
Qed.

Section Loaded.
Context {GL : GoLib}.

Lemma findInt32InBlock_fits (block : bytes) (key : string) : fits_int 32 (fst (Srs.findInt32InBlock block key)).
Proof. unfold Srs.findInt32InBlock. destruct (Srs.findStringInBlock block key); [apply parse_int32_value_fits|apply fits_int_zero]. Qed.

Hint Resolve findInt32InBlock_fits : widths.

Record enb_wf (e : Srs.ENBConfig) : Prop := mkEnbWf {
  ew_uints : Forall (fits_uint 32) [Srs.S1CBindPort e; Srs.NPRB e; Srs.TM e];
  ew_ints : Forall (fits_int 32)
    [Srs.PDSCHMaxMCS e; Srs.PUSCHMaxMCS e; Srs.MinNofCtrlSymbols e; Srs.MaxNofCtrlSymbols e; Srs.PUSCHMaxIts e; Srs.NRPUSCHMaxIts e;
     Srs.NofPHYThreads e; Srs.MetricsPeriodSecs e; Srs.RRCInactivityTimer e; Srs.RLFReleaseTimerMs e; Srs.GTPUTunnelTimeout e;
     Srs.S1SetupMaxRetries e; Srs.S1ConnectTimer e; Srs.MaxMacDLKOs e; Srs.MaxMacULKOs e]
}.

Definition setter_keeps (s : Srs.enb_setter) : Prop := forall val e, enb_wf e -> enb_wf (Srs.enb_store s val e).

Ltac widths :=
  repeat match goal with H : Forall _ (_ :: _) |- _ => apply Forall_cons in H as [? H] end;
  repeat (apply Forall_cons; split; [by eauto with widths|]); try apply Forall_nil_2.

Lemma enb_section_keeps (sec : string) : Forall (fun ks => setter_keeps (snd ks)) (Srs.enb_section sec).
Proof.
  unfold Srs.enb_section. repeat (destruct (String.eqb _ _)); try apply Forall_nil_2;
    repeat (apply Forall_cons; split); try apply Forall_nil_2;
    intros val e [Hu Hi]; cbn [Srs.enb_store snd];
    try (match goal with |- context [Srs.store_opt ?v] => destruct v eqn:Ev end; cbn [Srs.store_opt]); try done;
    destruct e; cbn in *; split; cbn; widths.
Qed.

Lemma find_setter_elem (key : string) (l : list (string * Srs.enb_setter)) (s : Srs.enb_setter) :
  Srs.find_setter key l = Some s -> (key, s) ∈ l.
Proof.
  induction l as [|[k x] l IH]; cbn; [done|]. destruct (String.eqb_spec k key) as [->|_]; [intros [= ->]; left|right; by apply IH].
Qed.

Lemma enb_assign_keeps (sec key : string) (val : bytes) (e : Srs.ENBConfig) : enb_wf e -> enb_wf (Srs.enb_assign sec key val e).
Proof.
  intros He. unfold Srs.enb_assign. destruct (Srs.find_setter key _) as [s|] eqn:E; [|done].
  apply find_setter_elem in E. pose proof (enb_section_keeps sec) as Hs. rewrite Forall_forall in Hs. by apply (Hs _ E).
Qed.

Lemma ParseENB_wf (path : string) (data : bytes) (e : Srs.ENBConfig) : Srs.ParseENB path data = Ok e -> enb_wf e.
Proof.
  unfold Srs.ParseENB. destruct (Srs.scanner data) as [lines|]; [|done]. cbn [result_bind].
  assert (Hf : forall st, enb_wf (snd st) -> enb_wf (snd (foldl Srs.enb_line st lines))).
  { induction lines as [|l lines IH]; intros [sec e0] H0; [done|]. apply IH. unfold Srs.enb_line.
    destruct (Srs.stripInlineComment l); [done|]. destruct (Srs.parseSectionLine _); [done|].
    destruct (Srs.parseAssignmentLine _) as [[k v]|]; [|done]. by apply enb_assign_keeps. }
  destruct (String.eqb _ _); [done|]. destruct (_ =? _)%Z; [done|]. intros [= <-]. apply Hf. split; cbn; widths.
Qed.

Record rr_wf (r : Srs.RRConfig) : Prop := mkRrWf {
  rw_uints : Forall (fits_uint 32) [Srs.DLEARFCN r; Srs.PCI r];
  rw_ints : Forall (fits_int 32) [Srs.A3Offset r; Srs.TimeToTrigger r; Srs.Hysteresis r]
}.

Lemma rr_line_keeps (st : Srs.RRConfig * bool * bool) (l : bytes) : rr_wf st.1.1 -> rr_wf (Srs.rr_line st l).1.1.
Proof.
  destruct st as [[r g1] g2]. intros [Hu Hi]. unfold Srs.rr_line. destruct (Srs.stripInlineComment l); [done|].
  destruct (Srs.parseAssignmentLine _) as [[k v]|]; [|done]. cbv zeta.
  repeat first [done | match goal with |- context [match ?x with _ => _ end] => destruct x eqn:? end];
    destruct r; cbn in *; split; cbn; widths.
Qed.

Lemma ParseRR_wf (path : string) (data : bytes) (r : Srs.RRConfig) : Srs.ParseRR path data = Ok r -> rr_wf r.
Proof.
  unfold Srs.ParseRR. destruct (Srs.scanner data) as [lines|]; [|done]. cbn [result_bind].
  assert (Hf : forall st, rr_wf st.1.1 -> rr_wf (foldl Srs.rr_line st lines).1.1).
  { induction lines as [|l lines IH]; intros st H0; [done|]. apply IH. by apply rr_line_keeps. }
  specialize (Hf (Srs.mkRR 0 0 "" "" None 0 0 0, false, false)). destruct (foldl _ _ lines) as [[r' g1] g2].
  destruct (_ || _); [done|]. intros [= <-]. apply Hf. split; cbn; widths.
Qed.

Lemma ParseSIB_wf (path : string) (data : bytes) (s : Srs.SIBConfig) : Srs.ParseSIB path data = Ok s ->
  Forall (fits_int 32)
    [Srs.QRxLevMin s; Srs.NumRAPreambles s; Srs.PreambleInitRxTargetPwr s; Srs.PwrRampingStep s; Srs.DefaultPagingCycle s; Srs.P0NominalPUSCH s;
     Srs.P0NominalPUCCH s; Srs.ReferenceSignalPower s; Srs.T300 s; Srs.T301 s; Srs.T310 s; Srs.N310 s; Srs.T311 s].
Proof.
  unfold Srs.ParseSIB. destruct (Srs.extractNamedBlock data "sib1"); [|done]. destruct (Srs.extractNamedBlock data "sib2"); [|done]. cbv zeta.
  destruct (_ =? _)%Z; [done|]. intros [= <-]. cbn [Srs.QRxLevMin Srs.NumRAPreambles Srs.PreambleInitRxTargetPwr Srs.PwrRampingStep Srs.DefaultPagingCycle
    Srs.P0NominalPUSCH Srs.P0NominalPUCCH Srs.ReferenceSignalPower Srs.T300 Srs.T301 Srs.T310 Srs.N310 Srs.T311]. widths.
Qed.

Lemma ParseRB_wf (path : string) (data : bytes) (b : Srs.RBConfig) : Srs.ParseRB path data = Ok b -> Forall profile_wf (convertQCIProfiles (Srs.Profiles b)).
Proof.
  unfold Srs.ParseRB. destruct (Srs.extractParenSectionAfter _ _) as [sec|]; [|done]. destruct (Srs.extractTopLevelBraceObjects sec) as [|o os]; [done|].
  set (ps := List.filter _ _). assert (Hp : Forall profile_wf (convertQCIProfiles ps)).
  { apply Forall_fmap, Forall_forall. intros p Hp. subst ps. apply list_elem_of_In, filter_In, proj1, list_elem_of_In, list_elem_of_fmap in Hp as (obj & -> & _).
    split; cbn; apply findInt32InBlock_fits. }
  destruct ps; [done|]. by intros [= <-].
Qed.

(** Every integer of a loaded configuration is a value of its type. *)
Lemma load_config_wf (p1 p2 p3 p4 : string) (d1 d2 d3 d4 : bytes) e r s b :
  Srs.ParseENB p1 d1 = Ok e -> Srs.ParseRR p2 d2 = Ok r -> Srs.ParseSIB p3 d3 = Ok s -> Srs.ParseRB p4 d4 = Ok b ->
  cfg_wf (load_config p1 p2 p3 p4 e r s b).
Proof.
  intros [Hu Hi]%ParseENB_wf [Hru Hri]%ParseRR_wf Hs%ParseSIB_wf Hb%ParseRB_wf. split; [|done]. unfold json_view, load_config. cbn.
  repeat match goal with H : Forall _ (_ :: _) |- _ => apply Forall_cons in H as [? H] end. repeat (apply Forall_cons; split; [done|]). done.
Qed.

(** NewStore starts in the invariant. *)
Lemma NewStore_inv (p1 p2 p3 p4 : string) (read : string -> result string bytes) (st : Store) :
  Parser.NewStore p1 p2 p3 p4 read = Ok st -> store_inv st.
Proof.
  unfold Parser.NewStore. destruct (read p1) as [d1|]; [|done]. cbn [result_bind]. destruct (Srs.ParseENB p1 d1) as [e|] eqn:Ee; [|done]. cbn [result_bind].
  destruct (read p2) as [d2|]; [|done]. cbn [result_bind]. destruct (Srs.ParseRR p2 d2) as [r|] eqn:Er; [|done]. cbn [result_bind].
  destruct (read p3) as [d3|]; [|done]. cbn [result_bind]. destruct (Srs.ParseSIB p3 d3) as [s|] eqn:Es; [|done]. cbn [result_bind].
  destruct (read p4) as [d4|]; [|done]. cbn [result_bind]. destruct (Srs.ParseRB p4 d4) as [b|] eqn:Eb; [|done]. cbn [result_bind].
  apply newStore_inv. by eapply load_config_wf.
Qed.

End Loaded.

(** ** What the service holds, and what it answers *)

Section Held.
Context {GL : GoLib}.

(** A configuration that can be shown: it passes the store's validation. *)
Definition shown_valid (cfg : option EditableConfig) : Prop := match cfg with Some c => ConfigData.validate c = None | None => True end.

Definition answer_valid (resp : Response) : Prop :=
  match Content resp with RConfig p => shown_valid (cr_Running p) /\ shown_valid (cr_Candidate p) | _ => True end.

Definition manager_ok (m : Manager) : Prop := store_inv (store m) /\ lm_wf (mlocks m).

Definition backend_ok (b : Backend) : Prop :=
  match b with NoStore => True | StoreOnly st => store_inv st | WithManager m => manager_ok m end.

(** The service keeps what it was given: nothing, a store, or a manager. *)
Definition same_backend (b b' : Backend) : Prop :=
  match b, b' with NoStore, NoStore | StoreOnly _, StoreOnly _ | WithManager _, WithManager _ => True | _, _ => False end.

Lemma same_backend_refl (b : Backend) : same_backend b b.
Proof. by destruct b. Qed.

Lemma same_backend_trans (b1 b2 b3 : Backend) : same_backend b1 b2 -> same_backend b2 b3 -> same_backend b1 b3.
Proof. by destruct b1, b2, b3. Qed.

Record kept (c : ConfigControl) (o : outcome) : Prop := mkKept {
  kp_ok : backend_ok (backend o.1.1);
  kp_same : same_backend (backend c) (backend o.1.1);
  kp_answer : answer_valid o.2
}.

Lemma kept_same (c c' : ConfigControl) (w : World) (resp : Response) :
  backend_ok (backend c) -> backend c' = backend c -> answer_valid resp -> kept c (c', w, resp).
Proof. intros Hb He Ha. split; cbn; rewrite ?He; try done. apply same_backend_refl. Qed.

Lemma writeNetconfError_valid (e : merror) : answer_valid (writeNetconfError e).
Proof. by destruct e. Qed.

Lemma Edit_valid (changes : list (string * any)) (s s' : Store) (cfg : EditableConfig) : Edit changes s = (s', Ok cfg) -> ConfigData.validate cfg = None.
Proof.
  unfold Edit, editLocked. destruct (edit_loop changes s (cand s)) as [s1 [next|e]]; [|done].
  destruct (ConfigData.validate next) eqn:E; [done|]. by intros [= _ <-].
Qed.

Lemma PreviewEdit_valid (changes : list (string * any)) (s : Store) (cfg : EditableConfig) : PreviewEdit changes s = Ok cfg -> ConfigData.validate cfg = None.
Proof.
  unfold PreviewEdit. destruct (apply_changes changes (cand s)) as [next|e]; [|done]. cbn [result_bind].
  destruct (ConfigData.validate next) eqn:E; [done|]. by intros [= <-].
Qed.

Lemma store_Commit_ok (s s' : Store) (w w' : World) (r : result string EditableConfig) :
  store_inv s -> Persist.Commit s w = (s', w', r) -> store_inv s' /\ shown_valid (match r with Ok cfg => Some cfg | Err _ => None end).
Proof.
  intros Hs. unfold Persist.Commit. pose proof (store_inv_step OpFinalize s I Hs) as Hf. cbn [store_step] in Hf.
  destruct (PersistCandidate s w) as [w1 [[backup next]|e]] eqn:Ep; [|by intros [= <- _ <-]].
  destruct (FinalizeCommit s) as [s1 [e|]]; intros [= <- _ <-]; (split; [exact Hf|]); [done|].
  cbn [shown_valid]. revert Ep. unfold PersistCandidate. destruct (ConfigData.validate (cand s)) eqn:Ev; [done|].
  destruct (backupDirtyFilesLocked s w) as [w2 [b|e]]; [|done]. destruct (stageDirtyFilesLocked s w2) as [w3 [st|e]]; [|done].
  destruct (commitStagedFiles st w3) as [w4 [[]|e]]; [|done]. by intros [= _ _ <-].
Qed.

End Held.

#[export] Hint Resolve writeNetconfError_valid : ems.

Section Kept.
Context {GL : GoLib} {PF : Platform} {RQ : RequestCodec} (Hfloat : float_lib_wf) (Hcodec : codec_wf).

Lemma manager_step_ok (op : mgr_op) (m m' : Manager) (w w' : World) : mgr_op_wf op -> manager_ok m -> mgr_step op (m, w) = (m', w') -> manager_ok m'.
Proof.
  intros Hw [Hs Hl] E. pose proof (mgr_run_keeps [op] m w Hfloat ltac:(by apply Forall_singleton) Hs Hl) as Hk.
  change (mgr_run [op] (m, w)) with (mgr_step op (m, w)) in Hk. by rewrite E in Hk.
Qed.

(** What the manager returns: a valid configuration, or one of the store's. *)
Lemma EditFlat_valid (changes : list (string * any)) (m m' : Manager) (w w' : World) (cfg : EditableConfig) :
  EditFlat changes m w = (m', w', Ok cfg) -> ConfigData.validate cfg = None.
Proof.
  unfold EditFlat. destruct (Edit changes (store m)) as [st [c|e]] eqn:E; [|done]. apply Edit_valid in E.
  destruct (RefreshArtifacts _ w) as [? [?|]]; [done|]. by intros [= _ _ <-].
Qed.

Lemma EditConfig_valid (req : EditRequest) (now1 now2 : time) (m m' : Manager) (w w' : World) (cfg : EditableConfig) :
  manager_ok m -> EditConfig req now1 now2 m w = (m', w', Ok cfg) -> ConfigData.validate cfg = None.
Proof.
  intros [Hs _]. unfold EditConfig. destruct (with_locks m _) as [m1 [e|]] eqn:El; [done|]. injection El as <- _.
  destruct (negb _); [done|]. destruct (validateEditOptions _ _ _); [done|]. destruct (extractChanges _ _) as [[ch n]|e]; [|done].
  destruct (n =? 0)%nat; [done|]. destruct ch as [|kv ch]; [intros [= _ _ <-]; destruct m; apply (inv_cand _ Hs)|]. destruct (String.eqb _ _).
  - destruct (PreviewEdit _ _) as [c|e] eqn:Ep; [|done]. apply PreviewEdit_valid in Ep. by intros [= _ _ <-].
  - destruct (Edit _ _) as [st [c|e]] eqn:E; [|done]. apply Edit_valid in E. cbv zeta.
    destruct (RefreshArtifacts _ w) as [? [?|]]; [done|]. by intros [= _ _ <-].
Qed.

Lemma DiscardChanges_result (sess : SessionMeta) (now1 now2 : time) (m m' : Manager) (w w' : World) (cfg : EditableConfig) :
  DiscardChanges sess now1 now2 m w = (m', w', Ok cfg) -> cfg = cand (store m').
Proof.
  unfold DiscardChanges. destruct (with_locks m _) as [m1 [e|]]; [done|]. cbv zeta. destruct (RefreshArtifacts _ w) as [? [?|]]; [done|]. by intros [= <- _ <-].
Qed.

Lemma Commit_result (sess : SessionMeta) (now1 now2 now3 now4 : time) (m m' : Manager) (w w' : World) (cfg : EditableConfig) :
  Commit sess now1 now2 now3 now4 m w = (m', w', Ok cfg) -> cfg = running (store m').
Proof.
  unfold Commit. destruct (with_locks m _) as [m1 [e|]]; [done|]. destruct (with_locks m1 _) as [m2 [e|]]; [done|].
  destruct (ValidateConfig _); [done|]. destruct (PersistCandidate _ w) as [w1 [[backup next]|e]]; [|done].
  destruct (restart_outcome _ _); [by destruct (abandon _ _ _)|]. destruct (FinalizeCommit _) as [st [e|]]; [by destruct (abandon _ _ _)|].
  cbv zeta. destruct (RefreshArtifacts _ w1) as [? [?|]]; [done|]. by intros [= <- _ <-].
Qed.

Lemma kept_manager (op : mgr_op) (c : ConfigControl) (m m' : Manager) (w w' : World) (resp : Response) :
  mgr_op_wf op -> backend c = WithManager m -> manager_ok m -> mgr_step op (m, w) = (m', w') -> (manager_ok m' -> answer_valid resp) ->
  kept c (set_manager m' c, w', resp).
Proof.
  intros Hw Hb Hm E Ha. pose proof (manager_step_ok _ _ _ _ _ Hw Hm E) as Hm'. split; cbn [fst snd]; [by destruct c| |by apply Ha].
  destruct c. cbn in *. by subst.
Qed.

Context (r : Request) (clk : nat -> time) (c : ConfigControl) (w : World) (Hc : backend_ok (backend c)).

Lemma kept_method (method : string) (k : outcome) : kept c k -> kept c (only_method method r c w k).
Proof. intros Hk. unfold only_method. destruct (String.eqb _ _); [done|]. by apply kept_same. Qed.

Lemma kept_with_manager (k : Manager -> outcome) :
  (forall m, backend c = WithManager m -> manager_ok m -> kept c (k m)) -> kept c (with_manager c w k).
Proof.
  intros Hk. unfold with_manager. destruct (backend c) as [|st|m] eqn:Eb; [apply kept_same; by rewrite ?Eb..|]. by apply Hk.
Qed.

(** The manager's operation gave the outcome. *)
Ltac by_mgr op E := eapply (kept_manager op); [done|done|done|cbn [mgr_step]; rewrite ?E; done|].

Lemma kept_reads : kept c (handleRunning r c w) /\ kept c (handleCandidate r c w).
Proof.
  split; apply kept_method; unfold with_store, the_store; destruct (backend c) as [|st|m] eqn:Eb; apply kept_same; rewrite ?Eb; try done;
    cbn; split; try done; first [apply (inv_running _ Hc) | apply (inv_cand _ Hc) | apply (inv_running _ (proj1 Hc)) | apply (inv_cand _ (proj1 Hc))].
Qed.

Lemma kept_edit : kept c (handleEditConfig r c w).
Proof.
  apply kept_method. unfold with_store, the_store. destruct (backend c) as [|st|m] eqn:Eb; [by apply kept_same; rewrite ?Eb|..];
    (destruct (decode_body decode_changes r) as [[|ch chs]|] eqn:Ed; [by apply kept_same; rewrite ?Eb| |by apply kept_same; rewrite ?Eb]);
    assert (Hw : Forall (fun kv => any_wf kv.2) (ch :: chs)) by (unfold decode_body in Ed; destruct (Body r) as [b|]; [|done]; by apply (Hcodec b)).
  - pose proof (store_inv_step (OpEdit (ch :: chs)) st Hw Hc) as Hs. cbn [store_step] in Hs.
    destruct (Edit (ch :: chs) st) as [st' [cfg|e]] eqn:E; split; cbn [fst snd]; try done; try (by destruct c); try (destruct c; cbn in *; by subst).
    split; [done|]. by apply Edit_valid in E.
  - destruct (EditFlat (ch :: chs) m w) as [[m' w'] [cfg|e]] eqn:E; by_mgr (MEditFlat (ch :: chs)) E; [|done]. intros _. split; [done|].
    by apply EditFlat_valid in E.
Qed.

Lemma kept_commit : kept c (handleCommit r clk c w).
Proof.
  apply kept_method. unfold with_store, the_store. destruct (backend c) as [|st|m] eqn:Eb; [by apply kept_same; rewrite ?Eb|..].
  - destruct (Persist.Commit st w) as [[st' w'] [cfg|e]] eqn:E; destruct (store_Commit_ok _ _ _ _ _ Hc E) as [Hs Hv].
    + assert (Hk : forall resp, answer_valid resp -> kept c (set_store st' c, w', resp)).
      { intros resp Ha. split; cbn [fst snd]; [by destruct c|destruct c; cbn in *; by subst|done]. }
      cbv zeta. destruct (resolveTargetForSerial _ _); [destruct NetconfManager.TriggerRestart as [restart|]; [destruct (restart _)|]|]; by apply Hk.
    + split; cbn [fst snd]; [by destruct c|destruct c; cbn in *; by subst|done].
  - destruct (Commit no_session _ _ _ _ m w) as [[m' w'] [cfg|e]] eqn:E; by_mgr (MCommit no_session (clk 0) (clk 1) (clk 2) (clk 3)) E; [|done].
    apply Commit_result in E as ->. intros [Hs _]. split; [apply (inv_running _ Hs)|done].
Qed.

Lemma kept_netconf_edit : kept c (handleNetconfEditConfig r clk c w).
Proof.
  apply kept_method, kept_with_manager. intros m Eb Hm. destruct (decodeNetconfEditRequest r) as [req|]; [|by apply kept_same].
  destruct (EditConfig req _ _ m w) as [[m' w'] [cfg|e]] eqn:E; by_mgr (MEditConfig req (clk 0) (clk 1)) E; [|by auto with ems]. intros _. split; [done|].
  by apply EditConfig_valid in E.
Qed.

Lemma kept_netconf_commit : kept c (handleNetconfCommit r clk c w).
Proof.
  apply kept_method, kept_with_manager. intros m Eb Hm. destruct (decodeNetconfCommitRequest r) as [sess|]; [|by apply kept_same].
  destruct (Commit sess _ _ _ _ m w) as [[m' w'] [cfg|e]] eqn:E; by_mgr (MCommit sess (clk 0) (clk 1) (clk 2) (clk 3)) E; [|by auto with ems].
  apply Commit_result in E as ->. intros [Hs _]. split; [apply (inv_running _ Hs)|done].
Qed.

Lemma kept_netconf_discard : kept c (handleNetconfDiscardChanges r clk c w).
Proof.
  apply kept_method, kept_with_manager. intros m Eb Hm.
  assert (Hd : forall sess, kept c (match DiscardChanges sess (clk 0) (clk 1) m w with
      | (m', w', Err e) => (set_manager m' c, w', writeNetconfError e) | (m', w', Ok cfg) => (set_manager m' c, w', config_ok None (Some cfg) "") end)).
  { intros sess. destruct (DiscardChanges sess _ _ m w) as [[m' w'] [cfg|e]] eqn:E; by_mgr (MDiscard sess (clk 0) (clk 1)) E; [|by auto with ems].
    apply DiscardChanges_result in E as ->. intros [Hs _]. split; [done|apply (inv_cand _ Hs)]. }
  destruct (decodeNetconfSessionMeta r) as [sess [[]|]]; first [by apply Hd | by apply kept_same].
Qed.

(** The requests on locks and sessions show no configuration. *)
Lemma kept_sessions :
  (forall acquire, kept c (handleNetconfLockLike acquire r clk c w)) /\ kept c (handleNetconfSessionClose r c w) /\
  kept c (handleNetconfSessionReset r c w) /\ kept c (handleNetconfKeepAlive r clk c w) /\ kept c (handleNetconfValidate r c w).
Proof.
  split_and!; [intros acquire|..]; apply kept_method, kept_with_manager; intros m Eb Hm.
  - destruct (decodeNetconfLockRequest r) as [req|]; [|by apply kept_same]. destruct acquire.
    + destruct (Lock req (clk 0) m) as [m' e] eqn:E. by_mgr (MLock req (clk 0)) E. destruct e; by auto with ems.
    + destruct (Unlock req (clk 0) (clk 1) m w) as [[m' w'] e] eqn:E. by_mgr (MUnlock req (clk 0) (clk 1)) E. destruct e; by auto with ems.
  - destruct (decodeNetconfSessionMeta r) as [sess [e|]]; [by apply kept_same|].
    destruct (SessionClose (SessionID sess) m w) as [m' w'] eqn:E. by by_mgr (MSessionClose (SessionID sess)) E.
  - destruct (ResetSessions m w) as [m' w'] eqn:E. by by_mgr MResetSessions E.
  - destruct (decode_limited decode_sessions r) as [metas|]; [|by apply kept_same]. by by_mgr (MKeepAlive metas (clk 0) (clk 1)) I.
  - destruct (decodeNetconfValidateRequest r) as [req|]; apply kept_same; try done. destruct (Validate req m); by auto with ems.
Qed.

(** Nor do the others, which do not touch the configuration. *)
Lemma kept_rest :
  kept c (let '(c, resp) := handleRestart r c in (c, w, resp)) /\ kept c (handleNetconfNotifications r c w) /\ kept c (handleTCATestReport r clk c w).
Proof.
  split_and!.
  - assert (Hr : backend (handleRestart r c).1 = backend c /\ answer_valid (handleRestart r c).2).
    { unfold handleRestart. cbv zeta. destruct (negb _); [done|]. destruct NetconfManager.TriggerRestart; [|done]. destruct (decode_body decode_restart r); [|done].
      destruct (String.eqb _ _); [done|]. destruct (resolveTargetForSerial _ c); [|done]. destruct (negb _); [done|]. destruct (restarting c); [done|]. by destruct c. }
    destruct (handleRestart r c) as [c' resp]. destruct Hr as [? ?]. by apply kept_same.
  - apply kept_method. destruct (Queue c) as [q|]; [|by apply kept_same]. destruct (Drain _ q) as [q' items]. cbv zeta.
    destruct items; apply kept_same; try done; by destruct c.
  - apply kept_method. destruct (negb _); [by apply kept_same|]. destruct (decode_limited decode_report r) as [[object metrics]|]; [|by apply kept_same].
    cbv zeta. destruct (String.eqb _ _); [by apply kept_same|]. destruct metrics; [by apply kept_same|]. destruct (bool_decide _); [by apply kept_same|].
    apply kept_same; [done|by destruct c|done].
Qed.

Lemma handler_kept : kept c (handler r clk c w).
Proof.
  destruct kept_reads as [? ?]. destruct kept_sessions as (Hlocks & ? & ? & ? & ?). destruct kept_rest as (? & ? & ?). unfold handler. cbv zeta.
  repeat (destruct (String.eqb _ _);
    [first [done | apply Hlocks | apply kept_edit | apply kept_commit | apply kept_netconf_edit | apply kept_netconf_commit | apply kept_netconf_discard]|]).
  by apply kept_same.
Qed.

End Kept.

Section Run.
Context {GL : GoLib} {PF : Platform} {RQ : RequestCodec} (Hfloat : float_lib_wf) (Hcodec : codec_wf).

Lemma control_step_kept (op : control_op) (b0 : Backend) (s : ConfigControl * World * list Response) :
  backend_ok (backend s.1.1) /\ same_backend b0 (backend s.1.1) /\ Forall answer_valid s.2 ->
  let s' := control_step op s in backend_ok (backend s'.1.1) /\ same_backend b0 (backend s'.1.1) /\ Forall answer_valid s'.2.
Proof.
  destruct s as [[c w] answers]. cbn [fst snd]. intros (Hc & Hb & Ha). destruct op as [r clk| |now clock|now evt]; cbn [control_step].
  - pose proof (handler_kept Hfloat Hcodec r clk c w Hc) as [Ho Hs Hv]. destruct (handler r clk c w) as [[c' w'] resp]. cbn [fst snd] in *.
    split_and!; [done|by eapply same_backend_trans|]. apply Forall_app. split; [done|by apply Forall_singleton].
  - by destruct c.
  - unfold gc_tick. destruct (backend c) as [|st|m] eqn:Eb; [by cbn; rewrite Eb..|].
    destruct (SweepExpiredSessions now clock m w) as [[m' w'] expired] eqn:E. cbn [fst snd]. split_and!; [|by destruct c|done].
    replace (backend (set_manager m' c)) with (WithManager m') by (by destruct c).
    eapply (manager_step_ok Hfloat (MSweep now clock)); [done|done|]. cbn [mgr_step]. by rewrite E.
  - unfold on_alarm. destruct (Queue c); [by destruct c|done].
Qed.

Lemma control_run_kept (ops : list control_op) (c : ConfigControl) (w : World) :
  backend_ok (backend c) -> let s := control_run ops (c, w, []) in
  backend_ok (backend s.1.1) /\ same_backend (backend c) (backend s.1.1) /\ Forall answer_valid s.2.
Proof.
  intros Hc. cbv zeta. induction ops as [|op ops IH] using rev_ind; [split_and!; [done|apply same_backend_refl|constructor]|].
  unfold control_run. rewrite foldl_app. by apply control_step_kept.
Qed.

End Run.

(** ** From Build on *)

Section Built.
Context {GL : GoLib} {RC : RecordCodec}.
Context (read : string -> result string bytes) (check : string -> bytes -> option string) (extract : string -> bytes -> result string (list extractedLeaf)).

Definition store_ok (st : option Store) : Prop := match st with Some st => store_inv st | None => True end.

(** The store of the restart targets comes from NewStore. *)
Lemma add_targets_store (now : time) (l : list ControlRestartTarget) (acc p : ControlParts) :
  store_ok (cp_store acc) -> add_targets read now acc l = Ok p -> store_ok (cp_store p).
Proof.
  revert acc. induction l as [|t l IH]; intros acc Ha; cbn [add_targets]; [by intros [= <-]|].
  destruct (add_target read now acc t) as [acc'|e] eqn:E; [|done]. cbn [result_bind]. apply IH. clear IH. revert E.
  unfold add_target. cbv zeta. destruct (String.eqb _ _); [by intros [= <-]|]. destruct (target_serial read now t) as [serial|]; [|done]. cbn [result_bind].
  destruct (String.eqb _ _); [done|]. destruct (target_store read now t (cp_store acc)) as [st|] eqn:Et; [|done]. cbn [result_bind].
  destruct (target_delay now t) as [d|]; [|done]. intros [= <-]. cbn [cp_store]. revert Et. unfold target_store. cbv zeta.
  destruct (cp_store acc) as [st0|]; [by intros [= <-]|]. destruct (existsb _ _); [by intros [= <-]|].
  destruct (Parser.NewStore _ _ _ _ read) as [st1|] eqn:En; [|done]. intros [= <-]. by eapply NewStore_inv.
Qed.

Lemma build_manager_ok (now : time) (cfg : Config) (parts : ControlParts) (w w' : World) (m : Manager) (paths : ArtifactPaths) :
  store_ok (cp_store parts) -> build_manager check extract now cfg parts w = (w', Ok (Some (m, paths))) -> manager_ok m.
Proof.
  intros Hs. unfold build_manager. destruct (cp_store parts) as [st|]; [|done]. destruct (String.eqb _ _); [done|].
  unfold NewManager. destruct (RefreshArtifacts _ w) as [w1 [e|]]; [done|]. intros [= _ <- _]. split; [done|apply newLockManager_wf].
Qed.

Lemma build_control_ok (now : time) (cfg : Config) (w w' : World) (cw : ControlWired) (addr : string) (c : ConfigControl) (sup : DockerLifecycleSupervisor) :
  build_control read check extract now cfg w = (w', Ok cw) -> SControl addr c sup ∈ cw_services cw -> backend_ok (backend c).
Proof.
  unfold build_control. destruct (negb _); [intros [= _ <-] H; by apply elem_of_nil in H|]. destruct (ParseDuration _) as [timeout|]; [|done].
  destruct (add_targets read now no_parts _) as [parts|] eqn:Et; [|done]. apply add_targets_store in Et; [|done].
  destruct (bool_decide _); [done|]. destruct (build_manager _ _ now cfg parts w) as [w1 [mgr|]] eqn:Em; [|done].
  intros [= _ <-]. cbn [cw_services]. rewrite elem_of_app, list_elem_of_singleton. intros [H|[= _ -> _]].
  { destruct mgr as [[m p]|]; [by apply list_elem_of_singleton in H|by apply elem_of_nil in H]. }
  cbn [backend NewConfigControl]. destruct mgr as [[m p]|]; cbn [fmap option_fmap option_map fst backend_of]; [by eapply build_manager_ok|].
  unfold backend_of. by destruct (cp_store parts).
Qed.

Lemma built_control_ok (now : time) (cfg : Config) (w w' : World) (wired : Wired) (addr : string) (c : ConfigControl) (sup : DockerLifecycleSupervisor) :
  Build read check extract now cfg w = (w', Ok wired) -> SControl addr c sup ∈ services wired -> backend_ok (backend c).
Proof.
  intros Hb Hc. destruct (decide (el_Type (Element cfg) = ElementEPC)) as [He|He].
  - unfold Build in Hb. destruct (NewMetricsSource _ _); [|done]. rewrite He in Hb. cbn [String.eqb] in Hb.
    destruct (String.eqb_spec ElementEPC ElementEPC); [|done]. injection Hb as _ <-. cbn [services] in Hc. rewrite !elem_of_cons, elem_of_nil in Hc. naive_solver.
  - destruct (build_parts _ _ _ _ _ _ _ _ Hb He) as (w1 & al & core & cw & nc & Hcore & Hw & Hn & Hs & _). rewrite Hs, !elem_of_app in Hc.
    destruct Hc as [H|[H|H]]; [|by eapply build_control_ok|by apply (in_netconf _ _ _ _ _ Hn) in H].
    destruct (core_spec _ _ _ _ Hcore) as (_ & Hf & _). rewrite Forall_forall in Hf. by apply Hf in H.
Qed.

End Built.

Section Theorems.
Context {GL : GoLib} {RC : RecordCodec} {RQ : RequestCodec}.
Context (read : string -> result string bytes) (check : string -> bytes -> option string) (extract : string -> bytes -> result string (list extractedLeaf)).

(** C7: the agent keeps a valid configuration from its start on. Whatever is in the station's four files,
    when Build returns a control service, then after any sequence of requests, session sweeps, ends
    of restarts and alarms the configuration store (the manager's, or the one without a manager)
    satisfies its invariant: running and candidate are valid, every integer is in the range of its Go
    type, and wherever the two differ a dirty key and the flag of its file say so; the lock table
    satisfies its own; and every configuration that a response has shown passed the validation. *)
Theorem started_agent_stays_valid (now : time) (cfg : Config) (w w' : World) (wired : Wired) (addr : string) (c : ConfigControl)
    (sup : DockerLifecycleSupervisor) (restart : string -> option string) (ops : list control_op) :
  float_lib_wf -> codec_wf -> Build read check extract now cfg w = (w', Ok wired) -> SControl addr c sup ∈ services wired ->
  let '(c', _, answers) := control_run (PF := wired_platform check extract (Targets c) restart) ops (c, w', []) in
  backend_ok (backend c') /\ same_backend (backend c) (backend c') /\ Forall answer_valid answers.
Proof.
  intros Hf Hcodec Hb Hc. pose proof (built_control_ok _ _ _ _ _ _ _ _ _ _ _ Hb Hc) as Hok.
  pose proof (control_run_kept (PF := wired_platform check extract (Targets c) restart) Hf Hcodec ops c w' Hok) as H.
  by destruct (control_run _ _) as [[c' w''] answers].
Qed.

End Theorems.

(** ** Witness *)

Definition get (path : string) : control_op := CRequest (mkRequest "GET" path (fun _ => "") (Ok "") "") (fun _ => secs 110).

Definition lab_start : World * result error Wired :=
  Build (GL := plain_golib) (RC := BitCodec.bit_codec) lab_files (fun _ _ => None) (fun _ _ => Ok []) 7%Z lab_agent (mkWorld ∅ []).

(** An edit, a lock of the candidate, and a commit that the lock refuses. *)
Definition lab_requests : list control_op :=
  [post "/v1/control/config/edit-config" "{}"; get "/v1/control/config/candidate"; post "/v1/control/netconf/lock" "candidate";
   post "/v1/control/config/commit" ""; get "/v1/control/config/running"].

Definition lab_run (w : World) (c : ConfigControl) : ConfigControl * World * list Response :=
  control_run (GL := plain_golib) (PF := wired_platform (fun _ _ => None) (fun _ _ => Ok []) (Targets c) (fun _ => None)) (RC := sample_codec)
    lab_requests (c, w, []).

Definition shown_pci (r : Response) : Z * option Z * option Z :=
  match Content r with RConfig p => (StatusCode r, PCI <$> cr_Running p, PCI <$> cr_Candidate p) | _ => (StatusCode r, None, None) end.

Lemma started_agent_stays_valid_witness :
  exists w wired addr c sup,
    lab_start = (w, Ok wired) /\ nth_error (services wired) 10 = Some (SControl addr c sup) /\
    shown_pci <$> snd (lab_run w c) = [(200, None, Some 7); (200, None, Some 7); (200, None, None); (400, None, None); (200, Some 1, None)]%Z /\
    backend_ok (GL := plain_golib) (backend (lab_run w c).1.1) /\ Forall (answer_valid (GL := plain_golib)) (lab_run w c).2.
Proof.
  destruct lab_start as [w r] eqn:Eb. assert (Er : lab_start = (w, r)) by exact Eb.
  assert (Hsel : match lab_start with
                 | (w, Ok wired) => match nth_error (services wired) 10 with
                                    | Some (SControl _ c _) => shown_pci <$> snd (lab_run w c) = [(200, None, Some 7); (200, None, Some 7); (200, None, None); (400, None, None); (200, Some 1, None)]%Z
                                    | _ => False end
                 | _ => False end) by (vm_compute; reflexivity).
  rewrite Er in Hsel. destruct r as [wired|]; [|contradiction]. destruct (nth_error (services wired) 10) as [[]|] eqn:E10; try contradiction.
  pose proof (started_agent_stays_valid (GL := plain_golib) (RC := BitCodec.bit_codec) (RQ := sample_codec) lab_files (fun _ _ => None) (fun _ _ => Ok [])
    7%Z lab_agent (mkWorld ∅ []) w wired addr c sup (fun _ => None) lab_requests plain_golib_wf sample_codec_wf Eb
    (proj2 (list_elem_of_In _ _) (nth_error_In _ _ E10))) as H.
  exists w, wired, addr, c, sup. split_and!; [done|done|exact Hsel|..]; unfold lab_run; destruct (control_run _ _) as [[c' w'] answers]; apply H.
Defined.
